(* ===== verification/_CoqProject ===== *)
-Q . S2P
Prelude.v
World.v
HashFormat.v
RequestQueue.v
Downloader.v
Numeric.v
SmartCrawler.v
WorkerPool.v
ConcurrentDht.v
DoubleText.v
Sql.v
Cli.v
Crawler.v
Traces.v
Program.v
RoutingTable.v
RoutingFacts.v
RoutingRuns.v
Pieces.v
PieceFacts.v
Registry.v
RequestCache.v
Timeouts.v
Tokens.v
UtMetadata.v
PeerProtocol.v
Validator.v
ErrorHandler.v
NodeQuality.v
Logs.v
Diagnostics.v
IssueResolver.v
Bootstrap.v
DatabasePool.v
DatabaseFacts.v
ConfigFile.v
Optimizer.v
HybridConnection.v
PeerConnector.v
Performance.v
PerformanceFacts.v
Monitor.v
Usage.v
Settings.v
Reports.v
PieceReports.v
RoutingReports.v
PerformanceReports.v
HealthReports.v
Summaries.v
Statements.v
Shutdown.v
ErrorLog.v
Drafts.v
