(* ===== verification/Prelude.v ===== *)
(** * A verification of dht_crawler

    dht_crawler is a C++ program that walks the BitTorrent DHT, collects
    info-hashes, fetches the metadata of the torrents from peers, and stores
    both in a MySQL database.  This library models the program from its source
    under [src/src/] and proves what its components do.

    ** The program

    The executable is built from [dht_crawler.cpp] and the headers it includes.
    [main] parses the command line and runs one [DHTTorrentCrawler], which owns
    a libtorrent session, the database connection, a priority queue of metadata
    requests with a tracker of active ones ([enhanced_metadata_manager.hpp]), a
    pool of metadata worker threads ([metadata_worker_pool.hpp]), a pool of DHT
    query threads ([concurrent_dht_manager.hpp]), and a rate-limited "smart"
    crawler with a BEP 51 indexer.  Further managers (routing table, metadata
    pieces, request cache, timeouts, tokens, ut_metadata, peer wire protocol,
    node quality, errors, validation, performance, database, bootstrap,
    connections, diagnostics) are classes with source files of their own that
    are not linked into the executable.  Several of their headers declare
    other members than their source files use; there the model follows the
    source file and says so.

    ** The files, in dependency order

    - [Prelude]: record update, machine-width casts, durations, iteration order
      of [std::map], bytes, tactics and hints.
    - [World]: classes for what the code calls and does not define: session and
      clock, alerts, the MySQL client; and [Sim], a concrete world.
    - [HashFormat]: [convert_hash_to_hex] and its decoders
      ([enhanced_metadata_manager.hpp], [metadata_worker_pool.hpp]).
    - [RequestQueue]: [MetadataRequestQueue], [ActiveRequestTracker]; the class
      [RequestQueue] is the queue's contract, the file proves the
      vector-plus-set representation refines a finite map.
    - [Downloader]: [PersistentMetadataDownloader], against that contract.
    - [Numeric]: [stoi], [std::to_string], binary64 arithmetic.
    - [SmartCrawler]: [smart_dht_crawler.hpp] and [bep51_dht_indexer.hpp].
    - [WorkerPool]: [MetadataWorkerPool]; threads, mutex and condition variable
      as interleaved transitions.
    - [ConcurrentDht]: [ConcurrentDHTManager], likewise.
    - [DoubleText]: [std::stod], doubles written to a stream, [formatBytes].
    - [Sql]: [MySQLConnection] and every statement it sends.
    - [Cli]: the parser of [main], the hash list, [determineContentType].
    - [Crawler]: [DHTTorrentCrawler], which composes the components above.
    - [Traces]: one traversal of the crawler: a relation between states of the
      world that holds across every call it makes holds across each of its
      operations.
    - [Program]: [startCrawling] with its three loops, and [main], from the
      command line to the exit status; other threads, signals and time act
      between two iterations, and between the steps of [gracefulShutdown],
      which takes the mutex of the pool's queue.
    - [RoutingTable], [RoutingFacts], [RoutingRuns]: [RoutingTableManager], with
      a store of shared nodes; its invariant; what happens over runs.
    - [Pieces], [PieceFacts]: [MetadataPieceManager] and its correctness.
    - [Registry]: the sweep of expired entries that four managers share.
    - [RequestCache]: [RequestCacheManager].
    - [Timeouts]: [TimeoutManager] and its callbacks.
    - [Tokens]: [DHTTokenManager].
    - [UtMetadata]: [UTMetadataProtocol].
    - [Performance], [PerformanceFacts]: [PerformanceMonitor].
    - [Monitor]: the monitor thread, [start], [stop] and [isRunning], the same
      code in five managers, over the interface [Monitored]; the managers'
      invariants hold under every interleaving ([MonitoredInv]).
    - [PeerProtocol]: [BitTorrentProtocol], messages byte by byte.
    - [Validator], [ErrorHandler], [NodeQuality]: the classes of the same names.
    - [Logs]: the vectors of time-stamped records of the next two.
    - [Diagnostics], [IssueResolver]: [ExtensionProtocolDiagnostics] and
      [BEP9IssueResolver].
    - [Bootstrap]: [EnhancedBootstrap].
    - [DatabasePool], [DatabaseFacts]: [DatabaseManager] over MySQL
      Connector/C++; the laws of its transactions are the class [ConnectorLaws],
      threads are interleaved operations.
    - [ConfigFile]: [PerformanceConfig] and the loop that reads "key=value"
      lines, which [Optimizer], [PerformanceOptimizer], shares.
    - [HybridConnection]: [HybridConnectionManager].
    - [PeerConnector]: [DirectPeerConnector] over the system calls, whose laws
      about open descriptors are the class [SocketLaws].
    - [Usage]: [printUsage] and [checkLibraries] of [dht_crawler.cpp], and what
      [main] prints before it returns; [Settings]: the session's settings.
    - [Reports]: CSV rows, casts and tables; on top of it [PieceReports],
      [RoutingReports] and [PerformanceReports], the exports, capacities and
      health reports of three managers, and [HealthReports], those of twelve
      others.
    - [Summaries]: the status lines, the final summary and the banner.
    - [Statements]: whole runs against the lexical rules of MySQL.
    - [Shutdown]: a schedule of the threads under which Ctrl-C never ends the
      program.
    - [ErrorLog]: console and log file of the error handler.
    - [Drafts]: the fragments beside [src/src/].

    ** How the code is modelled

    A class is a record of its members and a method a function from the record
    (and the world) to its result, the new record and the new world; fields and
    functions keep the source's names where possible.  A [std::map] or
    [std::set] with string keys is a [gmap] or [gset] and is iterated in the
    order of its keys ([map_iter]).  Where several owners share an object (the
    nodes of the routing table) there is a store and the owners hold locations;
    an object with one owner is kept by value.  Exceptions that the code
    catches are values of [outcome], undefined behaviour is a value of the
    result type ([None] of [parseMessage], [Undefined] of the routing table's
    monitor).

    An [int] that comes from a caller or the command line keeps its width
    ([int_of_Z], [size_t_of_int], [size_t_sub], [uint32_add]); counters of
    events are unbounded, which is right until they reach 2^31.  Times are
    nanoseconds of [steady_clock]; the clock is a parameter [now] that is read
    as often and in the order in which the code reads it, and nothing is assumed
    of it unless a theorem says so.  Doubles are binary64 numbers computed by
    the operations of [SpecFloat].

    A method that holds one mutex from beginning to end is one step.  Where
    threads interleave inside an operation ([WorkerPool], [ConcurrentDht],
    [Monitor]) the position of each thread is part of the state, a transition is
    one critical section or one access to an atomic, and a run is any list of
    events.

    Some loops need fuel.  The loop of [process_queue] takes at most
    [queue_weight] iterations, which [process_queue_terminates] proves; the
    monitor's walk over the buckets takes one step per bucket, and
    [monitor_undefined] holds for every fuel of at least two.  The wait of the
    metadata modes takes at most 3001 tests ([metadata_wait_ends]); the two
    crawling loops run until a limit or a signal, and [shutdown_ends_loops]
    gives the fuel that ends them.  The decimal exponent of a double is found
    within 400 digits, more than any has.  Everything else is structurally
    recursive.

    ** What the theorems show

    - Values: conversions preserve the number a hash denotes; command lines,
      wire messages, stored pieces, settings and integer thresholds are read
      back unchanged; SQL statements contain exactly the values they were built
      from, the insertion of a peer only when its address has no colon.
    - Bookkeeping: hashes, requests, timeouts, tokens and pieces are counted and
      kept exactly once in every reachable state; statistics equal a recount.
    - Order and limits: the queue refines a priority map; no second holds more
      queries than the rate limit; windows and retries stay within their bounds.
    - Resources: every connection refers to an open socket of its own, and which
      calls lose one; a database connection serves one thread at a time, and a
      write that reports success is committed once.
    - The database server: in every run of the program each statement it
      receives is one of the schema or is read with the program's values as its
      literals (of an IPv6 address, what precedes its first colon), and the metadata a session reports is what is inserted.
    - Output: the usage text explains exactly the options of the parser and
      states their defaults; the
      log of the error handler lists the stored errors; which exports can be
      read back.
    - Threads: which shutdowns terminate, within how many transitions, and
      where a notification can be lost or a restart leaves no thread.
    - The process: a run of [main] is a run of the crawler's step relation
      ([program_is_run]), so that its invariants hold of the program; a request
      to shut down ends every loop at its next test, one made before the crawl
      starts included, the metadata modes end after five minutes, and the exit status is decided by
      the command line; one schedule of the pool's threads keeps the process
      from ending at all.
    - Simulations: several managers only pretend to use the network; what their
      results depend on instead (counters, configuration, the clock), and which
      of their settings have no effect.
    - Defects: where the code does not do what it means to, a theorem states
      what it does instead, for all inputs it concerns.

    ** Not modelled

    The progress lines printed inside the loops.  [getHealthStatus] of the
    routing table, which calls three functions no file defines.  The assembly
    operations of the piece manager, [clearExpiredAssemblies] among them, are
    declared and called, but defined nowhere; so [forceCleanup] and
    [optimizePieceManager] of that class, which call it, do not link.  Header
    files of classes whose source file uses other members (see "The program")
    declare operations no file defines; there is nothing to model.  The stubs of
    a build without libtorrent are in [Usage] as far as [main] goes.  The
    drafts beside [src/src/] are pieces of classes that no build includes; what
    their comments leave to be filled in is left out.  libtorrent, OpenSSL, the
    MySQL clients, the random number generators, the system calls and the clock
    are parameters. *)

(** ** The prelude

    Shared vocabulary of the component files: record field update, the results
    of calls that may throw, machine-width casts, the iteration order of
    [std::map], bytes and hexadecimal digits, and the tactics and hint
    databases used throughout. *)

From Stdlib Require Export ZArith Lia Ascii.
From Stdlib Require String.
From stdpp Require Export gmap strings list fin_maps sorting pretty.

#[global] Set Default Goal Selector "!".

(** ** Record field update

    [r <| f := v |>] is the record [r] with its field [f] set to [v].  The
    setter of a field is computed from the record's [Eta] instance, the
    function that rebuilds a record from its projections. *)

Declare Scope crawler_scope.
Delimit Scope crawler_scope with crawler.
Open Scope crawler_scope.

Class Eta (R : Type) := eta : R → R.
Class Setter {R T : Type} (proj : R → T) := set_field : (T → T) → R → R.
Arguments set_field {_ _} _ {_} _ _.

Ltac solve_setter :=
  lazymatch goal with
  | |- @Setter ?R ?T ?proj =>
    let inst := constr:(_ : Eta R) in
    let e := eval cbv delta [eta] in inst in
    let e := eval hnf in e in
    let k := eval pattern proj in e in
    lazymatch k with
    | ?k proj => exact (λ (f : T → T), k (λ r : R, f (proj r)))
    end
  end.
#[export] Hint Extern 1 (Setter _) => solve_setter : typeclass_instances.

Notation "r <| f := v |>" := (set_field f (λ _, v) r)
  (at level 1, left associativity, v at level 99) : crawler_scope.
Notation "r <| f ::= g |>" := (set_field f g r)
  (at level 1, left associativity, g at level 99) : crawler_scope.

(** ** Calls that may throw

    A library call that is wrapped in [try]/[catch] by the code returns one
    of these. *)

Inductive outcome (A : Type) :=
  | Returned (a : A)
  | Threw (what : string).
Arguments Returned {_} _.
Arguments Threw {_} _.

#[export] Instance outcome_eq_dec `{EqDecision A} : EqDecision (outcome A).
Proof. solve_decision. Defined.

(** ** Machine integers *)

(** The value of [static_cast<size_t>(z)] for an [int] [z]: negative
    values wrap around to the top of the 64-bit range. *)
Definition size_t_of_int (z : Z) : Z := (z mod 2 ^ 64)%Z.

(** Subtraction on [size_t], which wraps around below zero. *)
Definition size_t_sub (a b : Z) : Z := ((a - b) mod 2 ^ 64)%Z.

(** The conversion of an integer to [int] (32 bits, two's complement). *)
Definition int_of_Z (z : Z) : Z :=
  let m := (z mod 2 ^ 32)%Z in if (m <? 2 ^ 31)%Z then m else (m - 2 ^ 32)%Z.

Lemma size_t_of_int_nonneg z : (0 ≤ z < 2 ^ 64)%Z → size_t_of_int z = z.
Proof. intros. by apply Z.mod_small. Qed.

Lemma int_of_Z_small z : (- 2 ^ 31 ≤ z < 2 ^ 31)%Z → int_of_Z z = z.
Proof.
  intros Hz. unfold int_of_Z. destruct (decide (0 ≤ z)%Z).
  - rewrite Z.mod_small by lia. case (Z.ltb_spec z (2 ^ 31)); lia.
  - assert ((z mod 2 ^ 32)%Z = (z + 2 ^ 32)%Z) as ->.
    { symmetry. apply Z.mod_unique with (-1)%Z; lia. }
    case (Z.ltb_spec (z + 2 ^ 32) (2 ^ 31)); lia.
Qed.

(** ** Durations, in nanoseconds as [std::chrono::steady_clock] counts them *)

Definition nanoseconds_per_second : Z := 1000000000.
Definition nanoseconds_per_ms : Z := 1000000.
Definition seconds (n : Z) : Z := (n * nanoseconds_per_second)%Z.
Definition milliseconds (n : Z) : Z := (n * nanoseconds_per_ms)%Z.
Definition minutes (n : Z) : Z := seconds (60 * n).

(** [std::chrono::duration_cast] to a coarser unit truncates toward zero. *)
Definition duration_cast_seconds (ns : Z) : Z := Z.quot ns nanoseconds_per_second.
Definition duration_cast_ms (ns : Z) : Z := Z.quot ns nanoseconds_per_ms.

(** ** Iteration over [std::map<std::string, A>] and [std::set<std::string>]

    The containers are finite maps and sets; iteration visits the keys in
    lexicographic order of their bytes, which is [String.le]. *)

Definition key_le {A} (p q : string * A) : Prop := String.le p.1 q.1.
#[export] Instance key_le_dec {A} : RelDecision (@key_le A).
Proof. unfold key_le. intros [??] [??]. apply _. Defined.
#[export] Instance key_le_total {A} : Total (@key_le A).
Proof. intros [a ?] [b ?]. apply (total String.le a b). Qed.
#[export] Instance key_le_trans {A} : Transitive (@key_le A).
Proof. intros [a ?] [b ?] [c ?]. unfold key_le; simpl. intros; by etrans. Qed.

Definition map_iter {A} (m : gmap string A) : list (string * A) :=
  merge_sort key_le (map_to_list m).
Definition set_iter (s : gset string) : list string :=
  merge_sort String.le (elements s).

Lemma map_iter_perm {A} (m : gmap string A) : map_iter m ≡ₚ map_to_list m.
Proof. apply merge_sort_Permutation. Qed.

Lemma elem_of_map_iter {A} (m : gmap string A) k v :
  (k, v) ∈ map_iter m ↔ m !! k = Some v.
Proof. rewrite map_iter_perm. apply elem_of_map_to_list. Qed.

Lemma length_map_iter {A} (m : gmap string A) : length (map_iter m) = size m.
Proof. by rewrite map_iter_perm, length_map_to_list. Qed.

Lemma NoDup_map_iter {A} (m : gmap string A) : NoDup (map_iter m).*1.
Proof. rewrite map_iter_perm. apply NoDup_fst_map_to_list. Qed.

Lemma Sorted_map_iter {A} (m : gmap string A) : StronglySorted key_le (map_iter m).
Proof. apply StronglySorted_merge_sort; apply _. Qed.

Lemma map_iter_empty {A} : map_iter (∅ : gmap string A) = [].
Proof. unfold map_iter. by rewrite map_to_list_empty. Qed.

(** ** Iteration over [std::map<int, A>], in ascending order of the keys *)

Definition int_key_le {A} (p q : Z * A) : Prop := (p.1 ≤ q.1)%Z.
#[export] Instance int_key_le_dec {A} : RelDecision (@int_key_le A).
Proof. unfold int_key_le. intros [??] [??]. apply _. Defined.
#[export] Instance int_key_le_total {A} : Total (@int_key_le A).
Proof. intros [a ?] [b ?]. unfold int_key_le; simpl. lia. Qed.
#[export] Instance int_key_le_trans {A} : Transitive (@int_key_le A).
Proof. intros [a ?] [b ?] [c ?]. unfold int_key_le; simpl. lia. Qed.

Definition int_map_iter {A} (m : gmap Z A) : list (Z * A) := merge_sort int_key_le (map_to_list m).

Lemma int_map_iter_perm {A} (m : gmap Z A) : int_map_iter m ≡ₚ map_to_list m.
Proof. apply merge_sort_Permutation. Qed.

Lemma elem_of_int_map_iter {A} (m : gmap Z A) k v : (k, v) ∈ int_map_iter m ↔ m !! k = Some v.
Proof. rewrite int_map_iter_perm. apply elem_of_map_to_list. Qed.

(** The key an iterator reaches by [++it] from [k]: the least key above it,
    whatever has been inserted meanwhile. *)
Definition next_key {A} (k : Z) (m : gmap Z A) : option Z :=
  head (filter (λ j, (k < j)%Z) ((int_map_iter m).*1)).

Lemma int_map_keys {A} (m : gmap Z A) k : k ∈ (int_map_iter m).*1 ↔ is_Some (m !! k).
Proof.
  rewrite list_elem_of_fmap. split.
  - intros ([k' v] & -> & Hin%elem_of_int_map_iter). by exists v.
  - intros [v Hv]. exists (k, v). split; [done|]. by apply elem_of_int_map_iter.
Qed.

Lemma int_map_keys_sorted {A} (m : gmap Z A) : StronglySorted Z.le (int_map_iter m).*1.
Proof.
  apply (StronglySorted_fmap fst int_key_le); [by intros [??] [??]|].
  apply StronglySorted_merge_sort; apply _.
Qed.

Lemma head_least (l : list Z) j :
  StronglySorted Z.le l → j ∈ l → (∀ i, i ∈ l → (j ≤ i)%Z) → head l = Some j.
Proof.
  intros Hs Hj Hleast. destruct l as [|h l]; [by apply elem_of_nil in Hj|]. simpl. f_equal.
  apply StronglySorted_inv in Hs as [_ Hh]. rewrite Forall_forall in Hh.
  pose proof (Hleast h (list_elem_of_here _ _)). apply elem_of_cons in Hj as [->|Hj]; [done|].
  specialize (Hh j Hj). lia.
Qed.

Lemma next_key_least {A} (k j : Z) (m : gmap Z A) :
  is_Some (m !! j) → (k < j)%Z → (∀ i, is_Some (m !! i) → (k < i)%Z → (j ≤ i)%Z) → next_key k m = Some j.
Proof.
  intros Hj Hkj Hleast. apply head_least.
  - assert (∀ l, StronglySorted Z.le l → StronglySorted Z.le (filter (λ j, (k < j)%Z) l)) as Hf.
    { induction 1 as [|x l Hs IH Hx]; [constructor|]. rewrite filter_cons. case_decide; [|done].
      constructor; [done|]. rewrite Forall_forall in *. intros y [_ Hy]%list_elem_of_filter. by apply Hx. }
    apply Hf, int_map_keys_sorted.
  - apply list_elem_of_filter. split; [done|]. by apply int_map_keys.
  - intros i [Hi Hin]%list_elem_of_filter. apply Hleast; [by apply int_map_keys | done].
Qed.

Lemma elem_of_set_iter s k : k ∈ set_iter s ↔ k ∈ s.
Proof. unfold set_iter. rewrite merge_sort_Permutation. apply elem_of_elements. Qed.

Lemma NoDup_set_iter s : NoDup (set_iter s).
Proof. unfold set_iter. rewrite merge_sort_Permutation. apply NoDup_elements. Qed.

Lemma length_set_iter s : length (set_iter s) = size s.
Proof. unfold set_iter. by rewrite merge_sort_Permutation. Qed.

(** ** Bytes and strings *)

Definition byte_val (c : ascii) : Z := Z.of_nat (nat_of_ascii c).
Definition byte_of (z : Z) : ascii := ascii_of_nat (Z.to_nat (z mod 256)).

Abbreviation chars := String.list_ascii_of_string.
Abbreviation of_chars := String.string_of_list_ascii.

Lemma byte_val_bound c : (0 ≤ byte_val c < 256)%Z.
Proof. unfold byte_val. pose proof (nat_ascii_bounded c). lia. Qed.

(** A property of every byte, by evaluation. *)
Lemma forall_bytes (P : ascii → bool) :
  forallb P (map ascii_of_nat (seq 0 256)) = true → ∀ c, P c = true.
Proof.
  intros HP c. rewrite forallb_forall in HP. apply HP, in_map_iff. exists (nat_of_ascii c).
  split; [apply ascii_nat_embedding|]. apply in_seq. pose proof (nat_ascii_bounded c). lia.
Qed.

Lemma byte_of_val c : byte_of (byte_val c) = c.
Proof.
  unfold byte_of. rewrite Z.mod_small by apply byte_val_bound.
  unfold byte_val. rewrite Nat2Z.id. apply ascii_nat_embedding.
Qed.

Lemma byte_val_of z : (0 ≤ z < 256)%Z → byte_val (byte_of z) = z.
Proof.
  intros. unfold byte_val, byte_of. rewrite Z.mod_small by done.
  rewrite nat_ascii_embedding by lia. lia.
Qed.

Lemma chars_of_chars l : chars (of_chars l) = l.
Proof. apply String.list_ascii_of_string_of_list_ascii. Qed.

Lemma of_chars_chars s : of_chars (chars s) = s.
Proof. apply String.string_of_list_ascii_of_string. Qed.

Lemma length_chars s : length (chars s) = String.length s.
Proof. induction s; simpl; congruence. Qed.

Lemma length_of_chars l : String.length (of_chars l) = length l.
Proof. induction l; simpl; congruence. Qed.

Lemma length_append s1 s2 : String.length (s1 +:+ s2) = String.length s1 + String.length s2.
Proof. induction s1; simpl; [done|]. unfold String.append; fold String.append. simpl. congruence. Qed.

Lemma chars_append s1 s2 : chars (s1 +:+ s2) = chars s1 ++ chars s2.
Proof. induction s1; simpl; [done|]. unfold String.append; fold String.append. simpl. congruence. Qed.

#[export] Instance chars_inj : Inj (=) (=) chars.
Proof. intros s1 s2 H. by rewrite <-(of_chars_chars s1), H, of_chars_chars. Qed.

#[export] Instance of_chars_inj : Inj (=) (=) of_chars.
Proof. intros l1 l2 H. by rewrite <-(chars_of_chars l1), H, chars_of_chars. Qed.

(** [std::to_string] of an integer, in decimal. *)
Definition to_string (z : Z) : string := pretty z.

(** [s.find(c)] for a character: the position of the first occurrence. *)
Fixpoint find_char (c : ascii) (s : list ascii) : option nat :=
  match s with
  | [] => None
  | d :: s => if decide (d = c) then Some 0 else S <$> find_char c s
  end.

(** [s.substr(pos, n)] within range. *)
Definition substr (pos n : nat) (s : string) : string := String.substring pos n s.

(** ** Sums over lists *)

Definition sumZ {A} (f : A → Z) (l : list A) : Z := foldr (λ x acc, f x + acc)%Z 0%Z l.

Lemma sumZ_app {A} (f : A → Z) l1 l2 : sumZ f (l1 ++ l2) = (sumZ f l1 + sumZ f l2)%Z.
Proof. induction l1; simpl; lia. Qed.

Lemma sumZ_insert {A} (f : A → Z) l i x y :
  l !! i = Some y → sumZ f (<[i := x]> l) = (sumZ f l - f y + f x)%Z.
Proof.
  revert i. induction l as [|z l IH]; intros [|i]; simpl; intros; simplify_eq; [lia|].
  rewrite (IH i) by done. lia.
Qed.

Lemma sumZ_nonneg {A} (f : A → Z) l : (∀ x, 0 ≤ f x)%Z → (0 ≤ sumZ f l)%Z.
Proof. intros Hf. induction l as [|x l IH]; simpl; [lia|]. specialize (Hf x). lia. Qed.

Lemma sumZ_fmap {A B} (f : B → Z) (g : A → B) l : sumZ f (g <$> l) = sumZ (λ x, f (g x)) l.
Proof. induction l as [|x l IH]; [done|]. rewrite fmap_cons. unfold sumZ in *. simpl. by rewrite IH. Qed.

Lemma sumZ_ext {A} (f g : A → Z) l : (∀ x, f x = g x) → sumZ f l = sumZ g l.
Proof. intros Hfg. unfold sumZ. induction l as [|x l IH]; simpl; [done|]. by rewrite IH, Hfg. Qed.

Lemma sumZ_add {A} (f g : A → Z) l : sumZ (λ x, f x + g x)%Z l = (sumZ f l + sumZ g l)%Z.
Proof. induction l; simpl; lia. Qed.

Lemma sumZ_replicate {A} (f : A → Z) n x : sumZ f (replicate n x) = (Z.of_nat n * f x)%Z.
Proof.
  induction n as [|n IH]; [done|]. simpl replicate.
  change (f x + sumZ f (replicate n x) = Z.of_nat (S n) * f x)%Z. lia.
Qed.

Lemma sumZ_const {A} (c : Z) (l : list A) : sumZ (λ _, c) l = (c * Z.of_nat (length l))%Z.
Proof. induction l; simpl length; simpl sumZ; lia. Qed.

Lemma sumZ_bound {A} (f : A → Z) (b : Z) l : (∀ x, f x ≤ b)%Z → (sumZ f l ≤ b * Z.of_nat (length l))%Z.
Proof.
  intros Hf. induction l as [|x l IH]; [simpl; lia|]. cbn [length].
  change (f x + sumZ f l ≤ b * Z.of_nat (S (length l)))%Z. specialize (Hf x). lia.
Qed.

(** ** Boolean predicates on lists *)

Lemma forallb_insert {A} (f : A → bool) l i x :
  forallb f l = true → f x = true → forallb f (<[i := x]> l) = true.
Proof.
  intros Hl Hx. revert i. induction l as [|y l IH]; intros [|i]; simpl in *; try done;
    apply andb_true_iff in Hl as [Hy Hl]; apply andb_true_iff; auto.
Qed.

Lemma forallb_lookup {A} (f : A → bool) l i x : forallb f l = true → l !! i = Some x → f x = true.
Proof.
  intros Hl Hi. rewrite forallb_forall in Hl. apply Hl, list_elem_of_In. by eapply list_elem_of_lookup_2.
Qed.

Lemma forallb_false_lookup {A} (f : A → bool) l :
  forallb f l = false → ∃ i x, l !! i = Some x ∧ f x = false.
Proof.
  induction l as [|y l IH]; simpl; [done|]. intros [Hy|Hl]%andb_false_iff.
  - by exists 0, y.
  - destruct (IH Hl) as (i & x & Hi & Hx). by exists (S i), x.
Qed.

(** ** Filters that keep everything or nothing *)

Lemma filter_keeps_all {A} (P : A → Prop) `{!∀ x, Decision (P x)} (l : list A) :
  (∀ x, x ∈ l → P x) → filter P l = l.
Proof.
  induction l as [|x l IH]; intros HP; [done|]. rewrite filter_cons_True by (apply HP; by left).
  f_equal. apply IH. intros y Hy. apply HP. by right.
Qed.

Lemma filter_keeps_none {A} (P : A → Prop) `{!∀ x, Decision (P x)} (l : list A) :
  (∀ x, x ∈ l → ¬ P x) → filter P l = [].
Proof.
  induction l as [|x l IH]; intros HP; [done|]. rewrite filter_cons_False by (apply HP; by left).
  apply IH. intros y Hy. apply HP. by right.
Qed.

(** ** Sorting by a relation that is transitive on the elements only *)

Lemma Sorted_StronglySorted_on {A} (R : relation A) (l : list A) :
  (∀ x y z, x ∈ l → y ∈ l → z ∈ l → R x y → R y z → R x z) → Sorted R l → StronglySorted R l.
Proof.
  intros Htr Hs. induction Hs as [|x l Hs IH Hhd]; [constructor|].
  assert (StronglySorted R l) as Hl.
  { apply IH. intros a b c Ha Hb Hc. apply Htr; by right. }
  constructor; [done|]. destruct Hhd as [|y l Hxy]; [constructor|]. constructor; [done|].
  apply Forall_forall. intros z Hz. apply (Htr x y z); [by left | by right; left | by right; right | done |].
  apply StronglySorted_inv in Hl as [_ Hy]. rewrite Forall_forall in Hy. by apply Hy.
Qed.

(** ** Bounded histories

    [v.push_back(x)], then [v.erase(v.begin())] when [v.size()] exceeds the
    limit, which is converted to [size_t]. *)

Definition push_bounded {A} (limit : Z) (x : A) (l : list A) : list A :=
  let l := l ++ [x] in
  if (size_t_of_int limit <? Z.of_nat (length l))%Z then tail l else l.

(** The last [n] elements. *)
Definition last_n {A} (n : nat) (l : list A) : list A := drop (length l - n) l.

Lemma push_bounded_last_n {A} limit (x : A) l :
  (0 ≤ limit < 2 ^ 64)%Z → length l ≤ Z.to_nat limit → push_bounded limit x l = last_n (Z.to_nat limit) (l ++ [x]).
Proof.
  intros Hn Hlen. unfold push_bounded, last_n. rewrite size_t_of_int_nonneg, length_app by done. simpl length.
  set (n := Z.to_nat limit) in *. case (Z.ltb_spec limit (Z.of_nat (length l + 1))); intros H.
  - replace (length l + 1 - n) with 1 by lia. by destruct (l ++ [x]).
  - replace (length l + 1 - n) with 0 by lia. done.
Qed.

Lemma last_n_length {A} n (l : list A) : length (last_n n l) ≤ n.
Proof. unfold last_n. rewrite length_drop. lia. Qed.

Lemma last_n_all {A} n (l : list A) : length l ≤ n → last_n n l = l.
Proof. intros. unfold last_n. by replace (length l - n) with 0 by lia. Qed.

Lemma last_n_last_n_app {A} n (l l' : list A) : last_n n (last_n n l ++ l') = last_n n (l ++ l').
Proof.
  unfold last_n. rewrite !length_app, length_drop. destruct (decide (length l ≤ n)).
  - replace (length l - n) with 0 by lia. simpl. by rewrite Nat.sub_0_r.
  - replace (length l - (length l - n) + length l' - n) with (length l') by lia.
    replace (length l + length l' - n) with ((length l - n) + length l') by lia.
    by rewrite <-drop_drop, (drop_app_le l l') by lia.
Qed.

(** ** Tactics *)

(** Case analysis on every conditional and match of the goal. *)
Ltac cases := repeat (case_match || case_decide); simplify_eq/=.

(** Splits a conjunction of goals and closes what is immediate. *)
Ltac split_all := repeat match goal with |- _ ∧ _ => split end.

(** A closed decidable proposition, by evaluation; and a false one. *)
Ltac by_evaluation :=
  match goal with
  | |- ?P => let d := constr:(_ : Decision P) in apply (@bool_decide_eq_true_1 P d); vm_compute; reflexivity
  end.
Ltac refute_by_evaluation H :=
  match type of H with
  | ?P => let d := constr:(_ : Decision P) in apply (@bool_decide_eq_true_2 P d) in H; vm_compute in H; discriminate H
  end.

Create HintDb crawler.
Create Rewrite HintDb crawler.
#[export] Hint Rewrite @length_map_iter length_chars length_of_chars length_append
  chars_append chars_of_chars of_chars_chars : crawler.
#[export] Hint Resolve byte_val_bound NoDup_map_iter NoDup_set_iter : crawler.

(** The largest of a list of numbers that are not negative. *)
Definition largest (l : list Z) : Z := foldr Z.max 0%Z l.
Lemma largest_ge l z : z ∈ l → (z ≤ largest l)%Z.
Proof. induction 1; simpl; lia. Qed.
Lemma largest_nonneg l : (0 ≤ largest l)%Z.
Proof. induction l; simpl; lia. Qed.
