(* ===== verification/World.v ===== *)
(** * The outside world of the crawler

    What the code calls and does not define: the libtorrent session and the
    system clock (class [Session]), the session's alerts (class [Alerts]) and
    the MySQL client library (class [Database]).  Each call is a field of its class, an argument of the
    definitions that use it; a value of type [W] is the state of the outside
    world, threaded through the calls in program order.  Nothing is assumed
    about these functions here: a theorem that needs documented behaviour of
    one states it as a hypothesis.  [Sim] is a small concrete world on which
    the definitions can be run. *)

From S2P Require Import Prelude.

(** The fields of [lt::add_torrent_params] the code touches; [uri] stands for
    everything [lt::parse_magnet_uri] fills in. *)
Record add_torrent_params := mk_add_torrent_params {
  uri : string;
  save_path : string;
  flags : Z;
}.
#[export] Instance eta_add_torrent_params : Eta add_torrent_params :=
  λ r, mk_add_torrent_params (uri r) (save_path r) (flags r).

(** [W]: states of the world; [H]: [lt::torrent_handle]. *)
Class Session (W H : Type) := {
  (** [std::chrono::steady_clock::now()], in nanoseconds *)
  steady_now : W → Z * W;
  (** [lt::parse_magnet_uri(magnet, ec)]; [None] when [ec] is set *)
  parse_magnet_uri : string → option add_torrent_params;
  (** [session::add_torrent], which may throw *)
  add_torrent : add_torrent_params → W → outcome H * W;
  (** [torrent_handle::is_valid()] *)
  is_valid : H → W → bool;
  (** [session::remove_torrent], which may throw *)
  remove_torrent : H → W → outcome unit * W;
  (** [session::dht_get_peers] and [session::dht_get_item], which may throw *)
  dht_get_peers : string → W → outcome unit * W;
  dht_get_item : string → W → outcome unit * W;
  (** [lt::torrent_flags] *)
  flag_auto_managed : Z;
  flag_duplicate_is_error : Z;
  flag_seed_mode : Z;
}.

(** The clock never runs backwards: [reading w] bounds from below every later
    reading, and no call turns it back.  This is what
    [std::chrono::steady_clock] promises. *)
Class MonotoneClock (W H : Type) `{Session W H} := {
  reading : W → Z;
  steady_now_mono w : (reading w ≤ (steady_now w).1)%Z ∧ reading (steady_now w).2 = (steady_now w).1;
  add_torrent_mono p w : (reading w ≤ reading (add_torrent p w).2)%Z;
  remove_torrent_mono h w : (reading w ≤ reading (remove_torrent h w).2)%Z;
  dht_get_peers_mono t w : (reading w ≤ reading (dht_get_peers t w).2)%Z;
  dht_get_item_mono t w : (reading w ≤ reading (dht_get_item t w).2)%Z;
}.

(** The fields of [lt::torrent_info] and of its [lt::file_storage] that the
    code reads; [ti_magnet_uri] is [lt::make_magnet_uri(ti)]. *)
Record file_entry := mk_file_entry {
  fe_path : string;
  fe_size : Z;
  fe_offset : Z;
  fe_pad_file : bool;
  fe_executable : bool;
  fe_hidden : bool;
  fe_symlink : bool;
}.
Record torrent_info := mk_torrent_info {
  ti_name : string;
  ti_total_size : Z;
  ti_num_pieces : Z;
  ti_piece_length : Z;
  ti_comment : string;
  ti_creator : string;
  ti_creation_date : Z;
  ti_priv : bool;
  ti_magnet_uri : string;
  ti_trackers : list string;
  ti_files : list file_entry;
  ti_web_seeds : list string;
}.

(** The alerts the code acts on; the others are only printed.  Hashes are 20
    bytes, a peer is the text of its address and its port. *)
Inductive alert (H : Type) :=
  | dht_get_peers_reply_alert (info_hash : string) (peers : list (string * Z))
  | dht_announce_alert (info_hash : string)
  | dht_immutable_item_alert (target : string)
  | metadata_received_alert (handle : H)
  | dht_bootstrap_alert
  | other_alert.
Arguments dht_get_peers_reply_alert {_} _ _.
Arguments dht_announce_alert {_} _.
Arguments dht_immutable_item_alert {_} _.
Arguments metadata_received_alert {_} _.
Arguments dht_bootstrap_alert {_}.
Arguments other_alert {_}.

Class Alerts (W H : Type) := {
  (** [session::pop_alerts] *)
  pop_alerts : W → list (alert H) * W;
  (** [torrent_handle::torrent_file()] and [torrent_handle::info_hash()]; both
      throw for a handle that is no longer valid *)
  torrent_file : H → W → outcome (option torrent_info);
  handle_info_hash : H → W → outcome string;
  (** [rand()] *)
  rand : W → Z * W;
}.

(** The MySQL client library, on a connection that is open.  A row is the
    list of its columns, [None] for SQL's NULL. *)
Class Database (W : Type) := {
  (** [mysql_real_connect] to a server, as a user, to a database; the error
      number and text when it fails *)
  mysql_real_connect : string → string → string → string → Z → W → option (Z * string) * W;
  (** [mysql_query], with [mysql_errno] and [mysql_error] when it fails *)
  mysql_query : string → W → option (Z * string) * W;
  (** [mysql_store_result] and the rows [mysql_fetch_row] then yields; [inl]
      the error number when there is no result *)
  mysql_store_result : W → (Z + list (list (option string))) * W;
  (** the bytes [mysql_real_escape_string] writes before the terminating zero *)
  mysql_real_escape_string : string → string;
  (** [std::strftime(buffer, 32, "%Y-%m-%d %H:%M:%S", std::localtime(&t))] *)
  format_local_time : Z → string;
  (** [std::to_string] of the hash of the thread's id, and [getpid()] *)
  this_thread_id : string;
  getpid : Z;
}.

(** The encoding the documentation of [mysql_real_escape_string] gives for
    each byte: backslash, the two quotes, zero, newline, carriage return and
    control-Z are written with a backslash. *)
Definition escape_char (c : ascii) : list ascii :=
  match nat_of_ascii c with
  | 0 => ["\"; "0"]%char
  | 10 => ["\"; "n"]%char
  | 13 => ["\"; "r"]%char
  | 26 => ["\"; "Z"]%char
  | 34 => ["\"; c]%char
  | 39 => ["\"; c]%char
  | 92 => ["\"; c]%char
  | _ => [c]
  end.

(** What the code relies on: the escaping is the documented one, and the
    printed time holds neither a quote nor a backslash nor a zero byte. *)
Definition plain_char (c : ascii) : bool :=
  match nat_of_ascii c with 0 | 39 | 92 => false | _ => true end.
Class DocumentedEscaping (W : Type) `{Database W} := {
  escape_documented s :
    mysql_real_escape_string s = of_chars (mjoin (escape_char <$> chars s));
  format_local_time_plain t : forallb plain_char (chars (format_local_time t)) = true;
}.

(** ** A concrete world

    The clock advances by one millisecond per reading.  A torrent that is
    already in the session is refused with an exception, as
    [duplicate_is_error] asks; [reject] lists the URIs the session throws on
    for another reason.  A handle is the URI it was made from.  The database
    keeps the statements it was sent, answers every [SELECT] with the rows
    [sql_rows], and refuses every statement while [sql_down] is set.
    [pending_alerts] and [infos] are what the session reports next and what it
    knows of its torrents. *)

Module Sim.

Record world := mk_world {
  time : Z;
  torrents : gset string;
  reject : gset string;
  peers_queries : list string;
  item_queries : list string;
  sql_log : list string;
  sql_rows : list (list (option string));
  sql_down : bool;
  pending_alerts : list (alert string);
  infos : gmap string (string * torrent_info);
}.
#[export] Instance eta_world : Eta world :=
  λ w, mk_world (time w) (torrents w) (reject w) (peers_queries w) (item_queries w)
         (sql_log w) (sql_rows w) (sql_down w) (pending_alerts w) (infos w).

Definition initial (t : Z) : world := mk_world t ∅ ∅ [] [] [] [] false [] ∅.

#[export] Instance sim_session : Session world string := {
  steady_now w := let t := (time w + nanoseconds_per_ms)%Z in (t, w <| time := t |>);
  parse_magnet_uri s := Some (mk_add_torrent_params s "" 0);
  add_torrent p w :=
    if decide (uri p ∈ torrents w ∪ reject w) then (Threw "add_torrent failed", w)
    else (Returned (uri p), w <| torrents := {[uri p]} ∪ torrents w |>);
  is_valid h w := bool_decide (h ∈ torrents w);
  remove_torrent h w := (Returned tt, w <| torrents := torrents w ∖ {[h]} |>);
  dht_get_peers t w := (Returned tt, w <| peers_queries ::= (λ l, l ++ [t]) |>);
  dht_get_item t w := (Returned tt, w <| item_queries ::= (λ l, l ++ [t]) |>);
  flag_auto_managed := 1;
  flag_duplicate_is_error := 2;
  flag_seed_mode := 4;
}.

#[export] Instance sim_clock : MonotoneClock world string.
Proof.
  refine {| reading := time |}; intros; simpl; unfold nanoseconds_per_ms; try lia.
  case_decide; simpl; lia.
Defined.

#[export] Instance sim_database : Database world := {
  mysql_real_connect _ _ _ _ _ w := (if sql_down w then Some (2002%Z, "down") else None, w);
  mysql_query q w :=
    if sql_down w then (Some (2006%Z, "gone"), w) else (None, w <| sql_log ::= (λ l, l ++ [q]) |>);
  mysql_store_result w := (inr (sql_rows w), w);
  mysql_real_escape_string s := of_chars (mjoin (escape_char <$> chars s));
  format_local_time _ := "2001-09-09 01:46:40";
  this_thread_id := "1";
  getpid := 1;
}.

#[export] Instance sim_alerts : Alerts world string := {
  pop_alerts w := (pending_alerts w, w <| pending_alerts := [] |>);
  torrent_file h w := Returned (snd <$> infos w !! h);
  handle_info_hash h w := Returned (default "" (fst <$> infos w !! h));
  rand w := (time w, w <| time ::= Z.succ |>);
}.

#[export] Instance sim_escaping : DocumentedEscaping world.
Proof. constructor; [done | by vm_compute]. Qed.

End Sim.
#[export] Existing Instances Sim.sim_session Sim.sim_clock Sim.eta_world
  Sim.sim_database Sim.sim_escaping Sim.sim_alerts.
