(* ===== verification/HashFormat.v ===== *)
(** * Info-hash formats

    Models [convert_hash_to_hex] of [src/src/enhanced_metadata_manager.hpp]
    (hexadecimal, base32 and binary info-hashes, all normalised to
    hexadecimal), the "%02x" loop the alert handlers of
    [src/src/dht_crawler.cpp] use to print a binary hash, and the simplified
    converter of [src/src/metadata_worker_pool.hpp].  The theorems say that
    the conversion preserves the number the hash denotes, that its result is
    a well-formed 40-digit hash or the empty string, and which inputs are
    refused. *)

From S2P Require Import Prelude.

(** ** Characters *)

Definition in_range (lo hi c : ascii) : bool :=
  (byte_val lo <=? byte_val c)%Z && (byte_val c <=? byte_val hi)%Z.

(** [std::isxdigit] and [std::toupper] in the "C" locale. *)
Definition isxdigit (c : ascii) : bool :=
  in_range "0" "9" c || in_range "a" "f" c || in_range "A" "F" c.
Definition toupper (c : ascii) : ascii :=
  if in_range "a" "z" c then byte_of (byte_val c - 32) else c.

(** ["0123456789abcdef"[v]] *)
Definition hex_digits : list ascii := chars "0123456789abcdef".
Definition hex_digit (v : Z) : ascii := nth (Z.to_nat v) hex_digits "0"%char.

Definition base32_chars : list ascii := chars "ABCDEFGHIJKLMNOPQRSTUVWXYZ234567".

(** ** Binary to hexadecimal: [snprintf(hex, sizeof(hex), "%02x", c)] *)

Definition hex_byte (c : ascii) : list ascii :=
  [hex_digit (byte_val c / 16)%Z; hex_digit (byte_val c mod 16)%Z].
Definition binary_to_hex (s : string) : string := of_chars (mjoin (hex_byte <$> chars s)).

(** ** Base32 to hexadecimal *)

(** The five bits [((pos >> i) & 1)] for [i] from 4 down to 0. *)
Definition bits5 (pos : nat) : list bool :=
  (λ i, Z.testbit (Z.of_nat pos) i) <$> [4; 3; 2; 1; 0]%Z.

(** The loop that expands every base32 character; [None] is the early
    [return ""] on a character outside the alphabet. *)
Fixpoint base32_bits (s : list ascii) : option (list bool) :=
  match s with
  | [] => Some []
  | c :: s =>
    pos ← find_char (toupper c) base32_chars;
    rest ← base32_bits s;
    Some (bits5 pos ++ rest)
  end.

(** [value |= (1 << (3 - j))] for the bits set in a nibble. *)
Fixpoint nibble_value (j : Z) (nibble : list bool) : Z :=
  match nibble with
  | [] => 0
  | b :: rest => Z.lor (if b then Z.shiftl 1 (3 - j) else 0) (nibble_value (j + 1) rest)
  end.

(** [for (i = 0; i < binary.length(); i += 4)] *)
Fixpoint bits_to_hex (bits : list bool) : list ascii :=
  match bits with
  | b0 :: b1 :: b2 :: b3 :: rest =>
    hex_digit (nibble_value 0 [b0; b1; b2; b3]) :: bits_to_hex rest
  | [] => []
  | short => [hex_digit (nibble_value 0 short)]
  end.

Definition base32_to_hex (s : string) : string :=
  match base32_bits (chars s) with
  | Some bits => of_chars (bits_to_hex bits)
  | None => ""
  end.

Definition convert_hash_to_hex (hash : string) : string :=
  if (String.length hash =? 40) && forallb isxdigit (chars hash) then hash
  else if String.length hash =? 32 then base32_to_hex hash
  else if String.length hash =? 20 then binary_to_hex hash
  else "".

(** [MetadataWorkerPool::convert_hash_to_hex]: the length alone is checked,
    and a 32-character hash is passed through unchanged. *)
Definition pool_convert_hash_to_hex (hash : string) : string :=
  if String.length hash =? 40 then hash
  else if String.length hash =? 32 then hash
  else "".

(** ["magnet:?xt=urn:btih:" + hex_hash] *)
Definition magnet_link (hex_hash : string) : string := "magnet:?xt=urn:btih:" +:+ hex_hash.

(** ** Numbers written in a base *)

Definition digits_value (base : Z) (ds : list Z) : Z :=
  fold_left (λ acc d, acc * base + d)%Z ds 0%Z.

Lemma digits_value_acc base ds acc :
  fold_left (λ acc d, acc * base + d)%Z ds acc
  = (acc * base ^ Z.of_nat (length ds) + digits_value base ds)%Z.
Proof.
  unfold digits_value. revert acc.
  induction ds as [|d ds IH]; intros acc; simpl; [lia|].
  rewrite (IH (acc * base + d)%Z), (IH (0 * base + d)%Z).
  rewrite Nat2Z.inj_succ, Z.pow_succ_r by lia. ring.
Qed.

Lemma digits_value_cons base d ds :
  digits_value base (d :: ds) = (d * base ^ Z.of_nat (length ds) + digits_value base ds)%Z.
Proof. unfold digits_value at 1. simpl. rewrite digits_value_acc. ring. Qed.

Lemma digits_value_app base ds1 ds2 :
  digits_value base (ds1 ++ ds2)
  = (digits_value base ds1 * base ^ Z.of_nat (length ds2) + digits_value base ds2)%Z.
Proof. unfold digits_value at 1. rewrite fold_left_app. apply digits_value_acc. Qed.

(** The digit a hexadecimal character stands for, upper or lower case. *)
Definition hex_val (c : ascii) : Z :=
  if in_range "0" "9" c then (byte_val c - 48)%Z
  else if in_range "a" "f" c then (byte_val c - 87)%Z
  else (byte_val c - 55)%Z.

Definition hex_value (s : string) : Z := digits_value 16 (hex_val <$> chars s).
Definition bits_value (bits : list bool) : Z := digits_value 2 (Z.b2z <$> bits).
Definition bytes_value (s : string) : Z := digits_value 256 (byte_val <$> chars s).

(** The number a base32 hash denotes; [None] outside the alphabet. *)
Definition base32_value (s : string) : option Z :=
  ds ← mapM (λ c, Z.of_nat <$> find_char (toupper c) base32_chars) (chars s);
  Some (digits_value 32 ds).

(** A hash in the normal form the rest of the program expects. *)
Definition hex40 (s : string) : Prop :=
  String.length s = 40 ∧ forallb isxdigit (chars s) = true.

#[export] Instance hex40_dec s : Decision (hex40 s).
Proof. unfold hex40. apply _. Defined.

#[global] Arguments bits5 : simpl never.
#[global] Arguments bits_value : simpl never.
#[global] Arguments digits_value : simpl never.
#[global] Arguments nibble_value : simpl never.
#[global] Arguments hex_digit : simpl never.

(** ** Digits *)

(** A property of all numbers below [n], checked by evaluation. *)
Definition all_below (n : nat) (P : Z → bool) : bool := forallb (λ i, P (Z.of_nat i)) (seq 0 n).

Lemma all_below_elim n P z : all_below n P = true → (0 ≤ z < Z.of_nat n)%Z → P z = true.
Proof.
  intros H Hz. unfold all_below in H. rewrite forallb_forall in H.
  specialize (H (Z.to_nat z)). rewrite Z2Nat.id in H by lia.
  apply H. apply in_seq. lia.
Qed.

Lemma hex_digit_spec v : (0 ≤ v < 16)%Z → isxdigit (hex_digit v) = true ∧ hex_val (hex_digit v) = v.
Proof.
  intros Hv.
  assert (isxdigit (hex_digit v) && (hex_val (hex_digit v) =? v)%Z = true) as H.
  { by apply (all_below_elim 16 (λ v, isxdigit (hex_digit v) && (hex_val (hex_digit v) =? v)%Z)). }
  apply andb_true_iff in H as [? ?%Z.eqb_eq]. done.
Qed.

Lemma find_char_bound c s i : find_char c s = Some i → i < length s.
Proof.
  revert i. induction s as [|d s IH]; intros i; simpl; [done|].
  case_decide; intros; simplify_eq; [lia|].
  destruct (find_char c s); simplify_eq/=. specialize (IH _ eq_refl). lia.
Qed.

Lemma bits5_value pos : pos < 32 → bits_value (bits5 pos) = Z.of_nat pos.
Proof.
  intros. apply Z.eqb_eq.
  pose (P := λ z : Z, (bits_value (bits5 (Z.to_nat z)) =? z)%Z).
  assert (P (Z.of_nat pos) = true) as HP by (apply (all_below_elim 32 P); [done | lia]).
  unfold P in HP. by rewrite Nat2Z.id in HP.
Qed.

Lemma nibble_value_bits b0 b1 b2 b3 : nibble_value 0 [b0; b1; b2; b3] = bits_value [b0; b1; b2; b3].
Proof. by destruct b0, b1, b2, b3. Qed.

Lemma bits_value_bound bits : (0 ≤ bits_value bits < 2 ^ Z.of_nat (length bits))%Z.
Proof.
  unfold bits_value. induction bits as [|b bits IH]; [done|].
  rewrite fmap_cons, digits_value_cons, length_fmap. simpl length.
  rewrite Nat2Z.inj_succ, Z.pow_succ_r by lia. destruct b; simpl; lia.
Qed.

(** ** Bits to hexadecimal *)

(** Induction on a list of bits four at a time. *)
Lemma bits4_ind (P : list bool → Prop) :
  P [] → (∀ b0 b1 b2 b3 l, P l → P (b0 :: b1 :: b2 :: b3 :: l)) →
  ∀ l, Nat.divide 4 (length l) → P l.
Proof.
  intros Hnil Hstep l [k Hk]. revert l Hk.
  induction k as [|k IH]; intros l Hk.
  - destruct l; [done | simpl in Hk; lia].
  - destruct l as [|b0 [|b1 [|b2 [|b3 l]]]]; simpl in Hk; try lia.
    apply Hstep, IH. lia.
Qed.

Lemma bits_to_hex_value bits :
  Nat.divide 4 (length bits) →
  digits_value 16 (hex_val <$> bits_to_hex bits) = bits_value bits
  ∧ 4 * length (bits_to_hex bits) = length bits
  ∧ forallb isxdigit (bits_to_hex bits) = true.
Proof.
  intros Hd. pattern bits. revert bits Hd.
  apply bits4_ind; [done|]. intros b0 b1 b2 b3 bits (IHv & IHl & IHx).
  pose proof (bits_value_bound [b0; b1; b2; b3]) as Hb. simpl in Hb.
  destruct (hex_digit_spec (bits_value [b0; b1; b2; b3])) as [Hx Hv]; [done|].
  cbn [bits_to_hex]. split_all.
  - rewrite fmap_cons, digits_value_cons, nibble_value_bits, Hv, IHv, length_fmap.
    change (b0 :: b1 :: b2 :: b3 :: bits) with ([b0; b1; b2; b3] ++ bits).
    unfold bits_value at 3. rewrite fmap_app, digits_value_app, length_fmap.
    fold (bits_value [b0; b1; b2; b3]) (bits_value bits). rewrite <- IHl.
    rewrite Nat2Z.inj_mul, Z.pow_mul_r by lia. done.
  - simpl. lia.
  - cbn [forallb]. by rewrite nibble_value_bits, Hx.
Qed.

Lemma base32_bits_value s bits :
  base32_bits s = Some bits →
  length bits = 5 * length s
  ∧ (ds ← mapM (λ c, Z.of_nat <$> find_char (toupper c) base32_chars) s;
     Some (digits_value 32 ds)) = Some (bits_value bits).
Proof.
  revert bits. induction s as [|c s IH]; intros bits H; [by simplify_eq/=|].
  apply bind_Some in H as (pos & Hpos & (rest & Hrest & Hbits)%bind_Some).
  assert (bits = bits5 pos ++ rest) as -> by congruence. clear Hbits.
  destruct (IH rest Hrest) as [Hlen (ds & Hds & [= Hval])%bind_Some].
  split; [rewrite length_app, Hlen; simpl; lia|].
  cbn [mapM]. rewrite Hpos, Hds.
  cbn [mbind option_bind fmap option_fmap option_map mret option_ret]. f_equal.
  apply find_char_bound in Hpos. change (length base32_chars) with 32 in Hpos.
  rewrite digits_value_cons, Hval. unfold bits_value at 2.
  rewrite fmap_app, digits_value_app, length_fmap, Hlen.
  fold (bits_value (bits5 pos)) (bits_value rest). rewrite bits5_value by done.
  apply mapM_Some_1, Forall2_length in Hds.
  rewrite <-Hds, Nat2Z.inj_mul, Z.pow_mul_r by lia. done.
Qed.

Lemma base32_bits_defined s bits : base32_bits s = Some bits → ∃ v, base32_value (of_chars s) = Some v.
Proof.
  intros [_ H]%base32_bits_value. unfold base32_value. rewrite chars_of_chars. eauto.
Qed.

Lemma base32_value_bits s v : base32_value s = Some v → ∃ bits, base32_bits (chars s) = Some bits.
Proof.
  intros (ds & Hds & _)%bind_Some. revert ds Hds.
  induction (chars s) as [|c l IH]; intros ds Hds; [by eexists|].
  apply bind_Some in Hds as (z & Hz & (ds' & Hds' & _)%bind_Some).
  apply fmap_Some in Hz as (pos & Hpos & _).
  destruct (IH ds' Hds') as [bits Hbits]. exists (bits5 pos ++ bits).
  cbn [base32_bits]. by rewrite Hpos, Hbits.
Qed.

(** ** Binary to hexadecimal *)

Lemma hex_byte_spec c :
  digits_value 16 (hex_val <$> hex_byte c) = byte_val c
  ∧ forallb isxdigit (hex_byte c) = true.
Proof.
  pose proof (byte_val_bound c) as Hb. unfold hex_byte. cbn [fmap list_fmap forallb].
  destruct (hex_digit_spec (byte_val c / 16)) as [-> ->].
  { split; [apply Z.div_pos; lia | apply Z.div_lt_upper_bound; lia]. }
  destruct (hex_digit_spec (byte_val c mod 16)) as [-> ->].
  { apply Z.mod_pos_bound; lia. }
  split; [|done]. rewrite !digits_value_cons. cbn [length].
  change (digits_value 16 []) with 0%Z. change (16 ^ Z.of_nat 1)%Z with 16%Z.
  change (16 ^ Z.of_nat 0)%Z with 1%Z. pose proof (Z.div_mod (byte_val c) 16). lia.
Qed.

Lemma binary_to_hex_spec s :
  String.length (binary_to_hex s) = 2 * String.length s
  ∧ forallb isxdigit (chars (binary_to_hex s)) = true
  ∧ hex_value (binary_to_hex s) = bytes_value s.
Proof.
  unfold binary_to_hex, hex_value, bytes_value.
  rewrite length_of_chars, chars_of_chars, <-length_chars.
  induction (chars s) as [|c l (IHl & IHx & IHv)]; [done|].
  destruct (hex_byte_spec c) as [Hv Hx].
  assert (mjoin (hex_byte <$> c :: l) = hex_byte c ++ mjoin (hex_byte <$> l)) as -> by done.
  split_all.
  - rewrite length_app, IHl. simpl. lia.
  - by rewrite forallb_app, Hx, IHx.
  - rewrite fmap_app, digits_value_app, fmap_cons, digits_value_cons, !length_fmap, Hv, IHv, IHl.
    rewrite Nat2Z.inj_mul, Z.pow_mul_r by lia. done.
Qed.

Lemma bytes_value_inj s1 s2 :
  String.length s1 = String.length s2 → bytes_value s1 = bytes_value s2 → s1 = s2.
Proof.
  intros Hl Hv. apply (inj chars). rewrite <-!length_chars in Hl.
  unfold bytes_value in Hv. revert Hl Hv. generalize (chars s2) as l2.
  induction (chars s1) as [|c1 l1 IH]; intros [|c2 l2] Hl Hv; simplify_eq/=; [done|].
  rewrite !digits_value_cons, !length_fmap in Hv. rewrite Hl in Hv.
  assert (∀ l, 0 ≤ digits_value 256 (byte_val <$> l) < 256 ^ Z.of_nat (length l))%Z as Hb.
  { intros l. induction l as [|c l IHl]; [done|].
    rewrite fmap_cons, digits_value_cons, length_fmap. simpl length.
    rewrite Nat2Z.inj_succ, Z.pow_succ_r by lia. pose proof (byte_val_bound c). nia. }
  pose proof (Hb l1) as Hb1. pose proof (Hb l2) as Hb2. rewrite Hl in Hb1.
  assert (byte_val c1 = byte_val c2) as Hc by nia.
  rewrite Hc in Hv. f_equal.
  - rewrite <-(byte_of_val c1), Hc. apply byte_of_val.
  - apply IH; [done | lia].
Qed.

(** ** The properties of the conversion *)

Lemma base32_convert h v :
  String.length h = 32 → base32_value h = Some v →
  hex40 (convert_hash_to_hex h) ∧ hex_value (convert_hash_to_hex h) = v.
Proof.
  intros Hl Hv. destruct (base32_value_bits h v Hv) as [bits Hbits].
  unfold convert_hash_to_hex. rewrite Hl. cbn [Nat.eqb andb].
  unfold base32_to_hex. rewrite Hbits.
  destruct (base32_bits_value _ _ Hbits) as [Hlen Hval].
  rewrite length_chars, Hl in Hlen.
  destruct (bits_to_hex_value bits) as (Hhv & Hhl & Hhx); [exists 40; lia|].
  unfold hex40, hex_value. rewrite length_of_chars, chars_of_chars. unfold base32_value in Hv.
  split_all; [lia | done | congruence].
Qed.

Lemma binary_convert h :
  String.length h = 20 →
  hex40 (convert_hash_to_hex h) ∧ hex_value (convert_hash_to_hex h) = bytes_value h.
Proof.
  intros Hl. unfold convert_hash_to_hex. rewrite Hl. cbn [Nat.eqb andb].
  destruct (binary_to_hex_spec h) as (H1 & H2 & H3). unfold hex40. rewrite H1, Hl. done.
Qed.

Lemma hex_convert h : hex40 h → convert_hash_to_hex h = h.
Proof. intros [Hl Hx]. unfold convert_hash_to_hex. by rewrite Hl, Hx. Qed.

Lemma convert_cases h :
  hex40 h ∨ String.length h = 32 ∨ String.length h = 20 ∨ convert_hash_to_hex h = "".
Proof.
  unfold convert_hash_to_hex, hex40.
  destruct (Nat.eqb_spec (String.length h) 40), (Nat.eqb_spec (String.length h) 32),
    (Nat.eqb_spec (String.length h) 20), (forallb isxdigit (chars h)); tauto.
Qed.

Lemma convert_base32_invalid h :
  String.length h = 32 → base32_value h = None → convert_hash_to_hex h = "".
Proof.
  intros Hl Hv. unfold convert_hash_to_hex, base32_to_hex. rewrite Hl. cbn [Nat.eqb andb].
  destruct (base32_bits (chars h)) as [bits|] eqn:Hb; [|done].
  destruct (base32_bits_defined _ _ Hb) as [v Hv']. rewrite of_chars_chars in Hv'. congruence.
Qed.

Lemma convert_normal h : convert_hash_to_hex h = "" ∨ hex40 (convert_hash_to_hex h).
Proof.
  destruct (convert_cases h) as [Hh|[Hl|[Hl|?]]]; [| | |tauto].
  - right. by rewrite hex_convert.
  - destruct (base32_value h) as [v|] eqn:Hv.
    + right. by eapply base32_convert.
    + left. by apply convert_base32_invalid.
  - right. by apply binary_convert.
Qed.

(** C1: [convert_hash_to_hex] preserves the info-hash: a 32-character base32
    string, a 20-byte binary string and a 40-digit hexadecimal string are each
    turned into 40 hexadecimal digits that denote the same 160-bit number. *)
Theorem convert_preserves_value h :
  (∀ v, String.length h = 32 → base32_value h = Some v →
        hex40 (convert_hash_to_hex h) ∧ hex_value (convert_hash_to_hex h) = v)
  ∧ (String.length h = 20 →
        hex40 (convert_hash_to_hex h) ∧ hex_value (convert_hash_to_hex h) = bytes_value h)
  ∧ (hex40 h → convert_hash_to_hex h = h).
Proof. split_all; eauto using base32_convert, binary_convert, hex_convert. Qed.

Lemma convert_preserves_value_witness :
  hex40 (convert_hash_to_hex "MFRGGZDFMZTWQ2LKNNWG23TPOBYXE43U")
  ∧ hex_value (convert_hash_to_hex "abcdefghijklmnopqrst")
    = bytes_value "abcdefghijklmnopqrst".
Proof.
  split.
  - apply (proj1 (convert_preserves_value "MFRGGZDFMZTWQ2LKNNWG23TPOBYXE43U")
             (bytes_value "abcdefghijklmnopqrst")); vm_compute; reflexivity.
  - apply (proj1 (proj2 (convert_preserves_value "abcdefghijklmnopqrst"))). reflexivity.
Defined.

(** The result of [convert_hash_to_hex] is a normal form: it is either the
    empty string or 40 hexadecimal digits, converting it again changes
    nothing, and it is empty exactly for the inputs that are no info-hash in
    any of the three formats. *)
Theorem convert_normal_form h :
  convert_hash_to_hex (convert_hash_to_hex h) = convert_hash_to_hex h
  ∧ (convert_hash_to_hex h = "" ∨ hex40 (convert_hash_to_hex h))
  ∧ (convert_hash_to_hex h ≠ "" ↔
     hex40 h ∨ String.length h = 20 ∨ (String.length h = 32 ∧ is_Some (base32_value h))).
Proof.
  pose proof (convert_normal h) as Hn. split_all; [|done|].
  - destruct Hn as [-> | Hx]; [done | by apply hex_convert].
  - assert (∀ s, hex40 s → s ≠ "") as Hne by (by intros ? [? ?] ->).
    split.
    + intros Hc. destruct (convert_cases h) as [?|[Hl|[?|?]]]; [tauto| |tauto|done].
      right. right. split; [done|]. destruct (base32_value h) eqn:Hv; [done|].
      by rewrite convert_base32_invalid in Hc.
    + intros [Hh|[Hl|[Hl [v Hv]]]].
      * rewrite hex_convert by done. by apply Hne.
      * by apply Hne, binary_convert.
      * by eapply Hne, base32_convert.
Qed.

(** Distinct 20-byte hashes get distinct hexadecimal strings, so a binary
    info-hash can be tracked under its printed form. *)
Theorem binary_to_hex_injective h1 h2 :
  String.length h1 = String.length h2 → binary_to_hex h1 = binary_to_hex h2 → h1 = h2.
Proof.
  intros Hl Hh. apply bytes_value_inj; [done|].
  destruct (binary_to_hex_spec h1) as (_ & _ & <-). rewrite Hh. apply binary_to_hex_spec.
Qed.

Lemma binary_to_hex_injective_witness :
  String.length "abcdefghijklmnopqrst" = 20
  ∧ binary_to_hex "abcdefghijklmnopqrst" = "6162636465666768696a6b6c6d6e6f7071727374"
  ∧ (binary_to_hex "abcdefghijklmnopqrst" = binary_to_hex "abcdefghijklmnopqrst" →
     "abcdefghijklmnopqrst" = "abcdefghijklmnopqrst").
Proof.
  split; [reflexivity|]. split; [vm_compute; reflexivity|].
  intros H. exact (binary_to_hex_injective _ _ eq_refl H).
Defined.

(** The worker pool's own converter is not the shared one: it hands a
    base32 hash to the magnet link as it is, and the two agree only on hashes
    that are already hexadecimal or that both refuse. *)
Theorem pool_convert_differs :
  pool_convert_hash_to_hex "MFRGGZDFMZTWQ2LKNNWG23TPOBYXE43U" = "MFRGGZDFMZTWQ2LKNNWG23TPOBYXE43U"
  ∧ convert_hash_to_hex "MFRGGZDFMZTWQ2LKNNWG23TPOBYXE43U"
    = "6162636465666768696a6b6c6d6e6f7071727374"
  ∧ ∀ h, convert_hash_to_hex h = pool_convert_hash_to_hex h →
         hex40 h ∨ convert_hash_to_hex h = "".
Proof.
  split; [reflexivity|]. split; [vm_compute; reflexivity|].
  intros h H. destruct (convert_normal h) as [?|Hx]; [by right|]. left.
  rewrite H in Hx. unfold pool_convert_hash_to_hex in *.
  destruct (Nat.eqb_spec (String.length h) 40); [done|].
  destruct (Nat.eqb_spec (String.length h) 32); [done|].
  by destruct Hx.
Qed.
