(* ===== verification/RequestQueue.v ===== *)
(** * Metadata request bookkeeping

    Models the small classes of [src/src/enhanced_metadata_manager.hpp]:
    [QueueEntry] and [MetadataRequestQueue] (the unlimited priority queue of
    pending requests), [ActiveRequestTracker] (the requests handed to
    libtorrent) and the counters of [MetadataManager].

    [RequestQueue] is what the queue promises to its client, the downloader:
    it behaves as a finite map from hashes to priority and source, whose
    [dequeue] removes an entry of the highest priority.  The instance shows
    that the vector-plus-set representation of the source keeps the promise. *)

From S2P Require Import Prelude.

(** ** [QueueEntry] and [MetadataRequestQueue] *)

Record QueueEntry := mk_QueueEntry {
  qe_hash : string;
  qe_priority : Z;
  qe_source : string;
  qe_queued_time : Z;
}.

#[export] Instance QueueEntry_eq_dec : EqDecision QueueEntry.
Proof. solve_decision. Defined.

Record MetadataRequestQueue := mk_queue {
  m_queue : list QueueEntry;
  m_queue_set : gset string;
}.

Definition empty_queue : MetadataRequestQueue := mk_queue [] ∅.

(** [now] is the clock reading of the [QueueEntry] constructor. *)
Definition enqueue (hash : string) (priority : Z) (source : string) (now : Z)
    (q : MetadataRequestQueue) : MetadataRequestQueue :=
  if decide (hash ∈ m_queue_set q) then q
  else mk_queue (m_queue q ++ [mk_QueueEntry hash priority source now])
                ({[hash]} ∪ m_queue_set q).

(** The scan of [dequeue]: [best] is [best_it], kept unless the entry at
    position [i] has a strictly higher priority. *)
Fixpoint scan_best (i best : nat) (best_priority : Z) (l : list QueueEntry) : nat :=
  match l with
  | [] => best
  | e :: l =>
    if (qe_priority e >? best_priority)%Z then scan_best (S i) i (qe_priority e) l
    else scan_best (S i) best best_priority l
  end.

Definition best_index (l : list QueueEntry) : nat :=
  match l with
  | [] => 0
  | e :: _ => scan_best 0 0 (qe_priority e) l
  end.

Definition dequeue (q : MetadataRequestQueue)
    : option (string * Z * string) * MetadataRequestQueue :=
  match m_queue q !! best_index (m_queue q) with
  | None => (None, q)
  | Some e =>
    (Some (qe_hash e, qe_priority e, qe_source e),
     mk_queue (delete (best_index (m_queue q)) (m_queue q)) (m_queue_set q ∖ {[qe_hash e]}))
  end.

Definition is_empty (q : MetadataRequestQueue) : bool :=
  match m_queue q with [] => true | _ => false end.
Definition queue_size (q : MetadataRequestQueue) : nat := length (m_queue q).
Definition contains (hash : string) (q : MetadataRequestQueue) : bool :=
  bool_decide (hash ∈ m_queue_set q).
Definition clear_queue (q : MetadataRequestQueue) : MetadataRequestQueue := mk_queue [] ∅.

Record QueueStats := mk_QueueStats {
  total_queued : nat;
  high_priority_count : nat;
  medium_priority_count : nat;
  low_priority_count : nat;
  oldest_queue_time : Z;
}.

(** [now] is the reading [get_stats] takes; the loop counts the three
    priority classes and keeps the oldest queueing time. *)
Fixpoint stats_loop (l : list QueueEntry) (high medium low : nat) (oldest : Z)
    : nat * nat * nat * Z :=
  match l with
  | [] => (high, medium, low, oldest)
  | e :: l =>
    let oldest' := if (qe_queued_time e <? oldest)%Z then qe_queued_time e else oldest in
    if (qe_priority e >=? 3)%Z then stats_loop l (S high) medium low oldest'
    else if (qe_priority e >=? 2)%Z then stats_loop l high (S medium) low oldest'
    else stats_loop l high medium (S low) oldest'
  end.

Definition get_stats (now : Z) (q : MetadataRequestQueue) : QueueStats :=
  let '(high, medium, low, oldest) := stats_loop (m_queue q) 0 0 0 now in
  mk_QueueStats (length (m_queue q)) high medium low (duration_cast_seconds (now - oldest)).

(** ** The interface of the queue *)

(** The operations the downloader uses. *)
Class RequestQueue (Q : Type) := {
  rq_enqueue : string → Z → string → Z → Q → Q;
  rq_dequeue : Q → option (string * Z * string) * Q;
  rq_size : Q → nat;
  rq_contains : string → Q → bool;
}.

(** The abstract specification: a map from the queued hashes to their
    priority and source. *)
Class RequestQueueLaws (Q : Type) `{RequestQueue Q} := {
  rq_valid : Q → Prop;
  rq_view : Q → gmap string (Z * string);
  rq_size_spec q : rq_valid q → rq_size q = size (rq_view q);
  rq_contains_spec h q :
    rq_valid q → rq_contains h q = bool_decide (is_Some (rq_view q !! h));
  rq_enqueue_spec h p s t q :
    rq_valid q →
    rq_valid (rq_enqueue h p s t q)
    ∧ rq_view (rq_enqueue h p s t q)
      = (if rq_view q !! h is Some _ then rq_view q else <[h := (p, s)]> (rq_view q));
  rq_dequeue_spec q :
    rq_valid q →
    match rq_dequeue q with
    | (None, q') => rq_view q = ∅ ∧ q' = q
    | (Some (h, p, s), q') =>
      rq_valid q' ∧ rq_view q !! h = Some (p, s) ∧ rq_view q' = delete h (rq_view q)
      ∧ ∀ h' p' s', rq_view q !! h' = Some (p', s') → (p' ≤ p)%Z
    end;
}.

#[export] Instance metadata_request_queue : RequestQueue MetadataRequestQueue := {
  rq_enqueue := enqueue;
  rq_dequeue := dequeue;
  rq_size := queue_size;
  rq_contains := contains;
}.

(** ** Correctness of the representation *)

Definition queue_valid (q : MetadataRequestQueue) : Prop :=
  NoDup (qe_hash <$> m_queue q) ∧ m_queue_set q = list_to_set (qe_hash <$> m_queue q).

Definition entry_pair (e : QueueEntry) : string * (Z * string) :=
  (qe_hash e, (qe_priority e, qe_source e)).
Definition queue_view (q : MetadataRequestQueue) : gmap string (Z * string) :=
  list_to_map (entry_pair <$> m_queue q).

Lemma entry_pair_fst l : (entry_pair <$> l).*1 = qe_hash <$> l.
Proof. by rewrite <-list_fmap_compose. Qed.

Lemma queue_view_lookup q e :
  queue_valid q → e ∈ m_queue q → queue_view q !! qe_hash e = Some (qe_priority e, qe_source e).
Proof.
  intros [Hnd _] He. unfold queue_view. apply elem_of_list_to_map_1.
  - by rewrite entry_pair_fst.
  - apply list_elem_of_fmap. by exists e.
Qed.

Lemma queue_view_lookup_inv q h p s :
  queue_view q !! h = Some (p, s) →
  ∃ e, e ∈ m_queue q ∧ qe_hash e = h ∧ qe_priority e = p ∧ qe_source e = s.
Proof.
  intros Hv%elem_of_list_to_map_2. apply list_elem_of_fmap in Hv as (e & He & Hin).
  exists e. unfold entry_pair in He. by simplify_eq.
Qed.

Lemma queue_view_None q h : queue_valid q → queue_view q !! h = None ↔ h ∉ m_queue_set q.
Proof.
  intros [Hnd ->]. unfold queue_view. rewrite <-not_elem_of_list_to_map, entry_pair_fst.
  by rewrite elem_of_list_to_set.
Qed.

(** [i] is the first position whose entry [e] has the highest priority. *)
Definition first_max (l : list QueueEntry) (i : nat) (e : QueueEntry) : Prop :=
  l !! i = Some e
  ∧ (∀ j e', l !! j = Some e' → (qe_priority e' ≤ qe_priority e)%Z)
  ∧ (∀ j e', j < i → l !! j = Some e' → (qe_priority e' < qe_priority e)%Z).

Lemma first_max_keep l i e e' :
  first_max l i e → (qe_priority e' ≤ qe_priority e)%Z → first_max (l ++ [e']) i e.
Proof.
  intros (Hi & Hle & Hlt) He. pose proof (lookup_lt_Some _ _ _ Hi) as Hi'.
  unfold first_max. split_all.
  - by rewrite lookup_app_l.
  - intros j e0 Hj. apply lookup_app_Some in Hj as [Hj|[_ Hj]]; [eauto|].
    apply list_lookup_singleton_Some in Hj as [_ ->]. done.
  - intros j e0 Hj He0. rewrite lookup_app_l in He0 by lia. eauto.
Qed.

Lemma first_max_replace l i e e' :
  first_max l i e → (qe_priority e' > qe_priority e)%Z → first_max (l ++ [e']) (length l) e'.
Proof.
  intros (Hi & Hle & Hlt) He. unfold first_max. split_all.
  - by rewrite list_lookup_middle.
  - intros j e0 Hj. apply lookup_app_Some in Hj as [Hj|[_ Hj]].
    + apply Hle in Hj. lia.
    + apply list_lookup_singleton_Some in Hj as [_ ->]. lia.
  - intros j e0 Hj He0. rewrite lookup_app_l in He0 by lia. apply Hle in He0. lia.
Qed.

Lemma scan_best_first_max l : ∀ pre best e,
  first_max pre best e →
  ∃ e', first_max (pre ++ l) (scan_best (length pre) best (qe_priority e) l) e'.
Proof.
  induction l as [|x l IH]; intros pre best e Hm; simpl.
  - rewrite app_nil_r. eauto.
  - rewrite cons_middle, app_assoc, <-Nat.add_1_r.
    replace (length pre + 1) with (length (pre ++ [x])) by (rewrite length_app; done).
    rewrite Z.gtb_ltb. case (Z.ltb_spec (qe_priority e) (qe_priority x)); intros Hx.
    + apply IH. eapply first_max_replace; [done | lia].
    + apply IH. by apply first_max_keep.
Qed.

Lemma best_index_first_max l : l ≠ [] → ∃ e, first_max l (best_index l) e.
Proof.
  destruct l as [|x l]; [done|]. intros _. simpl.
  rewrite Z.gtb_ltb, Z.ltb_irrefl. apply (scan_best_first_max l [x] 0 x).
  unfold first_max. split_all; [done| |lia]. intros j e' He. apply list_lookup_singleton_Some in He as [_ ->]. done.
Qed.

Lemma dequeue_nil q : m_queue q = [] → dequeue q = (None, q).
Proof. intros H. unfold dequeue. by rewrite H. Qed.

Lemma dequeue_cons q :
  m_queue q ≠ [] →
  ∃ i e, first_max (m_queue q) i e
  ∧ dequeue q = (Some (qe_hash e, qe_priority e, qe_source e),
                 mk_queue (delete i (m_queue q)) (m_queue_set q ∖ {[qe_hash e]})).
Proof.
  intros H. destruct (best_index_first_max _ H) as [e He].
  exists (best_index (m_queue q)), e. split; [done|].
  unfold dequeue. destruct He as [-> _]. done.
Qed.

Lemma delete_middle_perm {A} (l : list A) i x : l !! i = Some x → l ≡ₚ x :: delete i l.
Proof. apply delete_Permutation. Qed.

Lemma queue_valid_delete q i e :
  queue_valid q → m_queue q !! i = Some e →
  let q' := mk_queue (delete i (m_queue q)) (m_queue_set q ∖ {[qe_hash e]}) in
  queue_valid q' ∧ queue_view q' = delete (qe_hash e) (queue_view q).
Proof.
  intros [Hnd Hset] Hi q'. pose proof (delete_middle_perm _ _ _ Hi) as Hp.
  assert (NoDup (qe_hash e :: (qe_hash <$> delete i (m_queue q)))) as Hnd'.
  { by rewrite <-fmap_cons, <-Hp. }
  apply NoDup_cons in Hnd' as [Hni Hnd'].
  assert (queue_valid q') as Hq'.
  { split; [done|]. simpl. rewrite Hset.
    rewrite (list_to_set_perm_L _ _ (fmap_Permutation qe_hash _ _ Hp)). set_solver. }
  split; [done|]. unfold queue_view at 2.
  rewrite (list_to_map_proper (entry_pair <$> m_queue q) (entry_pair <$> e :: delete i (m_queue q))).
  - rewrite fmap_cons. simpl. rewrite delete_insert_id; [done|].
    by apply not_elem_of_list_to_map; rewrite entry_pair_fst.
  - by rewrite entry_pair_fst.
  - by apply fmap_Permutation.
Qed.

Lemma queue_valid_snoc q h p s t :
  queue_valid q → h ∉ m_queue_set q →
  let q' := mk_queue (m_queue q ++ [mk_QueueEntry h p s t]) ({[h]} ∪ m_queue_set q) in
  queue_valid q' ∧ queue_view q' = <[h := (p, s)]> (queue_view q).
Proof.
  intros [Hnd Hset] Hh q'.
  assert (h ∉ qe_hash <$> m_queue q) as Hh' by (rewrite Hset, elem_of_list_to_set in Hh; done).
  split.
  - split; simpl.
    + rewrite fmap_app. apply NoDup_app. split_all; [done| |apply NoDup_singleton].
      intros x Hx ->%list_elem_of_singleton. done.
    + rewrite fmap_app, list_to_set_app_L, Hset. simpl. set_solver.
  - unfold queue_view. simpl. rewrite fmap_app.
    rewrite (list_to_map_proper _ (entry_pair (mk_QueueEntry h p s t) :: (entry_pair <$> m_queue q))).
    + done.
    + rewrite fmap_app, entry_pair_fst. apply NoDup_app.
      split_all; [done| |apply NoDup_singleton]. intros x Hx ->%list_elem_of_singleton. done.
    + rewrite Permutation_app_comm. done.
Qed.

Lemma queue_size_view q : queue_valid q → queue_size q = size (queue_view q).
Proof.
  intros [Hnd _]. unfold queue_view, queue_size.
  rewrite map_size_list_to_map by (by rewrite entry_pair_fst). by rewrite length_fmap.
Qed.

Lemma contains_view h q :
  queue_valid q → contains h q = bool_decide (is_Some (queue_view q !! h)).
Proof.
  intros Hq. unfold contains. apply bool_decide_ext.
  rewrite <-not_eq_None_Some, queue_view_None by done. destruct (decide (h ∈ m_queue_set q)); tauto.
Qed.

Lemma enqueue_view h p s t q :
  queue_valid q →
  queue_valid (enqueue h p s t q)
  ∧ queue_view (enqueue h p s t q)
    = (if queue_view q !! h is Some _ then queue_view q else <[h := (p, s)]> (queue_view q)).
Proof.
  intros Hq. unfold enqueue. case_decide as Hin.
  - destruct (queue_view q !! h) eqn:Hv; [done|]. by apply queue_view_None in Hv.
  - rewrite (proj2 (queue_view_None q h Hq) Hin). by apply queue_valid_snoc.
Qed.

Lemma dequeue_view q :
  queue_valid q →
  match dequeue q with
  | (None, q') => queue_view q = ∅ ∧ q' = q
  | (Some (h, p, s), q') =>
    queue_valid q' ∧ queue_view q !! h = Some (p, s) ∧ queue_view q' = delete h (queue_view q)
    ∧ ∀ h' p' s', queue_view q !! h' = Some (p', s') → (p' ≤ p)%Z
  end.
Proof.
  intros Hq. destruct (decide (m_queue q = [])) as [Hnil|Hne].
  { rewrite dequeue_nil by done. unfold queue_view. by rewrite Hnil. }
  destruct (dequeue_cons q Hne) as (i & e & (Hi & Hle & _) & ->).
  destruct (queue_valid_delete q i e Hq Hi) as [Hq' Hv']. split_all; [done| |done|].
  - apply queue_view_lookup; [done|]. by eapply list_elem_of_lookup_2.
  - intros h' p' s' Hv. apply queue_view_lookup_inv in Hv as (e' & He' & _ & <- & _).
    apply list_elem_of_lookup in He' as [j Hj]. eauto.
Qed.

#[export] Instance metadata_request_queue_laws : RequestQueueLaws MetadataRequestQueue := {
  rq_valid := queue_valid;
  rq_view := queue_view;
  rq_size_spec := queue_size_view;
  rq_contains_spec := contains_view;
  rq_enqueue_spec := enqueue_view;
  rq_dequeue_spec := dequeue_view;
}.

(** ** [ActiveRequestTracker] *)

Section Tracker.
Context {H : Type}.

Record RequestInfo := mk_RequestInfo {
  request_time : Z;
  ri_priority : Z;
  ri_source : string;
  ri_handle : H;
}.

Definition add_request (hash : string) (t : Z) (priority : Z) (source : string) (handle : H)
    (m : gmap string RequestInfo) : gmap string RequestInfo :=
  <[hash := mk_RequestInfo t priority source handle]> m.
Definition remove_request (hash : string) (m : gmap string RequestInfo) : gmap string RequestInfo :=
  delete hash m.
Definition has_request (hash : string) (m : gmap string RequestInfo) : bool :=
  bool_decide (is_Some (m !! hash)).

Definition request_timed_out (now timeout_seconds : Z) (r : RequestInfo) : Prop :=
  (timeout_seconds ≤ duration_cast_seconds (now - request_time r))%Z.
#[export] Instance request_timed_out_dec now t r : Decision (request_timed_out now t r).
Proof. unfold request_timed_out. apply _. Defined.

Definition tracker_timed_out (now timeout_seconds : Z) (m : gmap string RequestInfo) : list string :=
  (filter (λ p, request_timed_out now timeout_seconds p.2) (map_iter m)).*1.
Definition active_requests (m : gmap string RequestInfo) : nat := size m.
Definition tracker_available_slots (max_concurrent : Z) (m : gmap string RequestInfo) : Z :=
  Z.max 0 (max_concurrent - int_of_Z (Z.of_nat (size m))).

Lemma elem_of_tracker_timed_out now t m h :
  h ∈ tracker_timed_out now t m ↔ ∃ r, m !! h = Some r ∧ request_timed_out now t r.
Proof.
  unfold tracker_timed_out. rewrite list_elem_of_fmap. split.
  - intros ([h' r] & -> & [Ht Hin]%list_elem_of_filter). apply elem_of_map_iter in Hin. eauto.
  - intros (r & Hr & Ht). exists (h, r). split; [done|].
    apply list_elem_of_filter. split; [done|]. by apply elem_of_map_iter.
Qed.

Lemma NoDup_tracker_timed_out now t m : NoDup (tracker_timed_out now t m).
Proof.
  unfold tracker_timed_out. pose proof (NoDup_map_iter m) as Hnd.
  induction (map_iter m) as [|[h r] l IH]; [constructor|].
  apply NoDup_cons in Hnd as [Hni Hnd]. rewrite filter_cons. case_decide; [|by auto].
  apply NoDup_cons. split; [|by auto]. simpl. intros Hin. apply Hni. simpl in *.
  apply list_elem_of_fmap in Hin as (x & -> & [_ Hx]%list_elem_of_filter).
  by apply list_elem_of_fmap_2.
Qed.

End Tracker.
Arguments RequestInfo : clear implicits.

(** ** [MetadataManager] *)

Record MetadataManager := mk_MetadataManager {
  m_total_requests : Z;
  m_successful_requests : Z;
  m_failed_requests : Z;
  m_timeout_requests : Z;
}.
#[export] Instance eta_MetadataManager : Eta MetadataManager :=
  λ r, mk_MetadataManager (m_total_requests r) (m_successful_requests r)
         (m_failed_requests r) (m_timeout_requests r).

Definition new_MetadataManager : MetadataManager := mk_MetadataManager 0 0 0 0.
Definition log_metadata_request (mm : MetadataManager) : MetadataManager :=
  mm <| m_total_requests ::= Z.succ |>.
Definition log_metadata_success (mm : MetadataManager) : MetadataManager :=
  mm <| m_successful_requests ::= Z.succ |>.
Definition log_metadata_failure (mm : MetadataManager) : MetadataManager :=
  mm <| m_failed_requests ::= Z.succ |>.
Definition log_metadata_timeout (mm : MetadataManager) : MetadataManager :=
  mm <| m_timeout_requests ::= Z.succ |>.

(** ** Sequences of queue operations *)

Inductive queue_op :=
  | OpEnqueue (hash : string) (priority : Z) (source : string) (now : Z)
  | OpDequeue
  | OpClear.

Definition queue_step (op : queue_op) (q : MetadataRequestQueue)
    : option (string * Z * string) * MetadataRequestQueue :=
  match op with
  | OpEnqueue h p s t => (None, enqueue h p s t q)
  | OpDequeue => dequeue q
  | OpClear => (None, clear_queue q)
  end.

Fixpoint run_queue (ops : list queue_op) (q : MetadataRequestQueue)
    : list (option (string * Z * string)) * MetadataRequestQueue :=
  match ops with
  | [] => ([], q)
  | op :: ops =>
    let '(r, q) := queue_step op q in
    let '(rs, q) := run_queue ops q in
    (r :: rs, q)
  end.

(** The abstract queue: a map, from which [dequeue] may take any entry of
    maximal priority. *)
Inductive abstract_step : queue_op → gmap string (Z * string) →
    option (string * Z * string) → gmap string (Z * string) → Prop :=
  | abs_enqueue_new h p s t m :
    m !! h = None → abstract_step (OpEnqueue h p s t) m None (<[h := (p, s)]> m)
  | abs_enqueue_dup h p s t m x :
    m !! h = Some x → abstract_step (OpEnqueue h p s t) m None m
  | abs_dequeue_none : abstract_step OpDequeue ∅ None ∅
  | abs_dequeue_some h p s m :
    m !! h = Some (p, s) →
    (∀ h' p' s', m !! h' = Some (p', s') → (p' ≤ p)%Z) →
    abstract_step OpDequeue m (Some (h, p, s)) (delete h m)
  | abs_clear m : abstract_step OpClear m None ∅.

Inductive abstract_run : list queue_op → gmap string (Z * string) →
    list (option (string * Z * string)) → gmap string (Z * string) → Prop :=
  | abs_run_nil m : abstract_run [] m [] m
  | abs_run_cons op ops r rs m1 m2 m3 :
    abstract_step op m1 r m2 → abstract_run ops m2 rs m3 →
    abstract_run (op :: ops) m1 (r :: rs) m3.

Lemma queue_step_refines op q :
  queue_valid q →
  queue_valid (queue_step op q).2
  ∧ abstract_step op (queue_view q) (queue_step op q).1 (queue_view (queue_step op q).2).
Proof.
  intros Hq. destruct op as [h p s t| |]; simpl.
  - destruct (enqueue_view h p s t q Hq) as [Hv Hm]. split; [done|].
    rewrite Hm. destruct (queue_view q !! h) eqn:E; by econstructor.
  - pose proof (dequeue_view q Hq) as Hd.
    destruct (dequeue q) as [[[[h p] s]|] q']; simpl in *.
    + destruct Hd as (Hv & Hl & -> & Hmax). split; [done | by constructor].
    + destruct Hd as [He ->]. split; [done|]. rewrite He. constructor.
  - split; [split; [constructor | done]|]. constructor.
Qed.

Lemma run_queue_refines ops q :
  queue_valid q →
  queue_valid (run_queue ops q).2
  ∧ abstract_run ops (queue_view q) (run_queue ops q).1 (queue_view (run_queue ops q).2).
Proof.
  revert q. induction ops as [|op ops IH]; intros q Hq; [split; [done | constructor]|].
  destruct (queue_step_refines op q Hq) as [Hq' Hs]. simpl.
  destruct (queue_step op q) as [r q']. simpl in *.
  destruct (IH q' Hq') as [Hq'' Hr]. destruct (run_queue ops q') as [rs q'']. simpl in *.
  split; [done | by econstructor].
Qed.

Lemma empty_queue_valid : queue_valid empty_queue.
Proof. split; [constructor | done]. Qed.

(** C5: [MetadataRequestQueue] implements the abstract queue: whatever
    sequence of [enqueue], [dequeue] and [clear] is run from the empty queue,
    the lookup set stays equal to the set of queued hashes, no hash is queued
    twice, and every result is one the map-based specification allows. *)
Theorem queue_refines_map ops :
  queue_valid (run_queue ops empty_queue).2
  ∧ abstract_run ops ∅ (run_queue ops empty_queue).1 (queue_view (run_queue ops empty_queue).2).
Proof. apply (run_queue_refines ops empty_queue), empty_queue_valid. Qed.

(** [dequeue] removes the first entry of the highest priority: earlier
    entries all have a lower priority, none has a higher one, and the other
    entries keep their order. *)
Theorem dequeue_first_max q :
  m_queue q ≠ [] →
  ∃ i e, dequeue q = (Some (qe_hash e, qe_priority e, qe_source e),
                      mk_queue (delete i (m_queue q)) (m_queue_set q ∖ {[qe_hash e]}))
  ∧ m_queue q !! i = Some e
  ∧ (∀ j e', m_queue q !! j = Some e' → (qe_priority e' ≤ qe_priority e)%Z)
  ∧ (∀ j e', j < i → m_queue q !! j = Some e' → (qe_priority e' < qe_priority e)%Z).
Proof.
  intros Hne. destruct (dequeue_cons q Hne) as (i & e & (Hi & Hle & Hlt) & Hd).
  exists i, e. done.
Qed.

Definition demo_queue : MetadataRequestQueue :=
  enqueue "c" 3 "DHT_PEERS" 30 (enqueue "b" 3 "DHT_PEERS" 20 (enqueue "a" 1 "DHT_ITEM" 10 empty_queue)).

Lemma dequeue_first_max_witness :
  m_queue demo_queue ≠ [] ∧ (dequeue demo_queue).1 = Some ("b", 3%Z, "DHT_PEERS")
  ∧ ∃ i e, m_queue demo_queue !! i = Some e ∧ (dequeue demo_queue).1
      = Some (qe_hash e, qe_priority e, qe_source e).
Proof.
  split; [discriminate|]. split; [vm_compute; reflexivity|].
  assert (m_queue demo_queue ≠ []) as H by discriminate.
  destruct (dequeue_first_max demo_queue H) as (i & e & Hd & Hi & _).
  exists i, e. split; [exact Hi | rewrite Hd; reflexivity].
Defined.

(** The entries of the three priority classes. *)
Definition high_priority (l : list QueueEntry) : nat := length (filter (λ e, 3 ≤ qe_priority e)%Z l).
Definition medium_priority (l : list QueueEntry) : nat := length (filter (λ e, qe_priority e = 2)%Z l).
Definition low_priority (l : list QueueEntry) : nat := length (filter (λ e, qe_priority e < 2)%Z l).

Lemma priority_classes e l :
  high_priority (e :: l) = (if (3 <=? qe_priority e)%Z then 1 else 0) + high_priority l
  ∧ medium_priority (e :: l) = (if (qe_priority e =? 2)%Z then 1 else 0) + medium_priority l
  ∧ low_priority (e :: l) = (if (qe_priority e <? 2)%Z then 1 else 0) + low_priority l.
Proof.
  unfold high_priority, medium_priority, low_priority. rewrite !filter_cons.
  destruct (Z.leb_spec 3 (qe_priority e)), (Z.eqb_spec (qe_priority e) 2),
    (Z.ltb_spec (qe_priority e) 2); repeat case_decide; simpl; lia.
Qed.

Lemma stats_loop_spec l : ∀ h m lo o h' m' lo' o',
  stats_loop l h m lo o = (h', m', lo', o') →
  h' = h + high_priority l ∧ m' = m + medium_priority l ∧ lo' = lo + low_priority l
  ∧ high_priority l + medium_priority l + low_priority l = length l
  ∧ (o' ≤ o)%Z ∧ Forall (λ e, o' ≤ qe_queued_time e)%Z l.
Proof.
  induction l as [|e l IH]; intros h m lo o h' m' lo' o' Hs; simpl in Hs.
  { simplify_eq. split_all; [..|by constructor]; cbn; lia. }
  destruct (priority_classes e l) as (-> & -> & ->). rewrite !Z.geb_leb in Hs. revert Hs.
  destruct (Z.ltb_spec (qe_queued_time e) o), (Z.leb_spec 3 (qe_priority e)), (Z.leb_spec 2 (qe_priority e)),
    (Z.eqb_spec (qe_priority e) 2), (Z.ltb_spec (qe_priority e) 2); try lia;
    intros (-> & -> & -> & Hsum & Ho & Hall)%IH; simpl; split_all;
    try lia; by constructor; [lia|].
Qed.

(** The statistics of the queue are right: the three priority classes
    partition the queued entries, and the age reported as oldest is at least
    the age of every entry. *)
Theorem get_stats_partition now q :
  let st := get_stats now q in
  total_queued st = length (m_queue q)
  ∧ high_priority_count st + medium_priority_count st + low_priority_count st = total_queued st
  ∧ high_priority_count st = high_priority (m_queue q)
  ∧ medium_priority_count st = medium_priority (m_queue q)
  ∧ low_priority_count st = low_priority (m_queue q)
  ∧ (0 ≤ oldest_queue_time st)%Z
  ∧ Forall (λ e, duration_cast_seconds (now - qe_queued_time e) ≤ oldest_queue_time st)%Z (m_queue q).
Proof.
  intros st. unfold st, get_stats.
  destruct (stats_loop (m_queue q) 0 0 0 now) as [[[h m] lo] o] eqn:E.
  apply stats_loop_spec in E as (-> & -> & -> & Hsum & Ho & Hall).
  simpl. unfold duration_cast_seconds, nanoseconds_per_second. split_all; [done|lia|done|done|done| |].
  - apply Z.quot_pos; lia.
  - eapply Forall_impl; [exact Hall|]. intros e He. simpl in He. apply Z.quot_le_mono; lia.
Qed.
