(* ===== verification/Downloader.v ===== *)
(** * The persistent metadata downloader

    Models [PersistentMetadataDownloader] of
    [src/src/enhanced_metadata_manager.hpp]: every request is queued, and
    [process_queue] moves queued requests into the libtorrent session as long
    as the concurrency limit and the per-round limit allow.  The queue is used
    through the interface [RequestQueue], the session and the clock through
    [Session].

    The loop of [process_queue] is bounded by [queue_weight], the number of
    attempts its queue can still cause: a failed request is queued again with
    a priority lower by one, and dropped when its priority is down to one. *)

From S2P Require Import Prelude World HashFormat RequestQueue.

Section Downloader.
Context {W H Q : Type} `{Session W H} `{RequestQueue Q}.

Record downloader := mk_downloader {
  m_active_tracker : gmap string (RequestInfo H);
  dl_queue : Q;
  m_max_concurrent_requests : Z;
  m_request_timeout_seconds : Z;
  m_success_count : Z;
  m_failure_count : Z;
  m_timeout_count : Z;
  m_total_queued : Z;
  m_total_processed : Z;
}.
#[export] Instance eta_downloader : Eta downloader :=
  λ d, mk_downloader (m_active_tracker d) (dl_queue d) (m_max_concurrent_requests d)
         (m_request_timeout_seconds d) (m_success_count d) (m_failure_count d)
         (m_timeout_count d) (m_total_queued d) (m_total_processed d).

(** The constructor: 1000 concurrent requests, 20 seconds. *)
Definition new_downloader (q : Q) : downloader := mk_downloader ∅ q 1000 20 0 0 0 0 0.

(** [params.save_path = "."] and the three [flags |=] assignments. *)
Definition configure_params (p : add_torrent_params) : add_torrent_params :=
  let p := p <| save_path := "." |> in
  let p := p <| flags ::= (λ f, Z.lor f flag_auto_managed) |> in
  let p := p <| flags ::= (λ f, Z.lor f flag_duplicate_is_error) |> in
  p <| flags ::= (λ f, Z.lor f flag_seed_mode) |>.

(** [process_single_request]; an exception of [add_torrent] is caught and
    reported as failure. *)
Definition process_single_request (info_hash : string) (priority : Z) (source : string)
    (d : downloader) (w : W) : bool * downloader * W :=
  let hex_hash := convert_hash_to_hex info_hash in
  if decide (hex_hash = "") then (false, d, w)
  else match parse_magnet_uri (magnet_link hex_hash) with
  | None => (false, d, w)
  | Some params =>
    let '(r, w) := add_torrent (configure_params params) w in
    match r with
    | Threw _ => (false, d, w)
    | Returned handle =>
      if is_valid handle w then
        let '(now, w) := steady_now w in
        (true, d <| m_active_tracker ::= add_request info_hash now priority source handle |>, w)
      else (false, d, w)
    end
  end.

Definition max_per_round : Z := 50.

(** The three conditions of the [while] loop. *)
Definition process_queue_continues (d : downloader) (processed : Z) : bool :=
  negb (rq_size (dl_queue d) =? 0)
  && (Z.of_nat (active_requests (m_active_tracker d)) <? size_t_of_int (m_max_concurrent_requests d))%Z
  && (processed <? max_per_round)%Z.

(** The failure branch of the loop body: queue again with a lower priority,
    or give up. *)
Definition retry_or_drop (hash : string) (priority : Z) (source : string)
    (d : downloader) (w : W) : downloader * W :=
  if (1 <? priority)%Z then
    let '(now, w) := steady_now w in
    (d <| dl_queue ::= rq_enqueue hash (priority - 1) (source +:+ "_RETRY") now |>, w)
  else (d <| m_failure_count ::= Z.succ |>, w).

(** [None]: out of fuel. *)
Fixpoint process_queue_loop (fuel : nat) (processed : Z) (d : downloader) (w : W)
    : option (Z * downloader * W) :=
  if process_queue_continues d processed then
    match fuel with
    | O => None
    | S fuel =>
      match rq_dequeue (dl_queue d) with
      | (None, q) => Some (processed, d <| dl_queue := q |>, w)
      | (Some (hash, priority, source), q) =>
        match process_single_request hash priority source (d <| dl_queue := q |>) w with
        | (true, d, w) =>
          process_queue_loop fuel (processed + 1) (d <| m_total_processed ::= Z.succ |>) w
        | (false, d, w) =>
          let '(d, w) := retry_or_drop hash priority source d w in
          process_queue_loop fuel processed d w
        end
      end
    end
  else Some (processed, d, w).

Context `{!RequestQueueLaws Q}.

(** The attempts an entry can still cause, and those of a whole queue. *)
Definition entry_weight (e : Z * string) : nat := Z.to_nat (Z.max 1 e.1).
Definition view_weight (m : gmap string (Z * string)) : nat :=
  sum_list (entry_weight <$> (map_to_list m).*2).
Definition queue_weight (q : Q) : nat := view_weight (rq_view q).

Definition process_queue (d : downloader) (w : W) : downloader * W :=
  match process_queue_loop (queue_weight (dl_queue d)) 0 d w with
  | Some (_, d, w) => (d, w)
  | None => (d, w)
  end.

(** [session] tells whether [m_session] is set. *)
Definition request_metadata (session : bool) (info_hash : string) (priority : Z) (source : string)
    (d : downloader) (w : W) : bool * downloader * W :=
  if negb session then (false, d, w)
  else if has_request info_hash (m_active_tracker d) || rq_contains info_hash (dl_queue d)
  then (true, d, w)
  else
    let '(now, w) := steady_now w in
    let d := d <| dl_queue ::= rq_enqueue info_hash priority source now |> in
    let d := d <| m_total_queued ::= Z.succ |> in
    let '(d, w) := process_queue d w in
    (true, d, w).

Definition handle_metadata_received (info_hash : string) (d : downloader) (w : W) : downloader * W :=
  let d := d <| m_active_tracker ::= remove_request info_hash |> in
  let d := d <| m_success_count ::= Z.succ |> in
  process_queue d w.

(** One iteration of the loop of [cleanup_timed_out_requests]; an exception
    of [remove_torrent] is only logged. *)
Definition cleanup_one (hash : string) (s : downloader * W) : downloader * W :=
  let '(d, w) := s in
  let w := match m_active_tracker d !! hash with
           | Some r => if is_valid (ri_handle r) w then (remove_torrent (ri_handle r) w).2 else w
           | None => w
           end in
  (d <| m_active_tracker ::= remove_request hash |> <| m_timeout_count ::= Z.succ |>, w).

Definition cleanup_timed_out_requests (d : downloader) (w : W) : downloader * W :=
  let '(now, w) := steady_now w in
  let timed_out := tracker_timed_out now (m_request_timeout_seconds d) (m_active_tracker d) in
  let '(d, w) := foldl (λ s h, cleanup_one h s) (d, w) timed_out in
  if (0 <? length timed_out) then process_queue d w else (d, w).

Definition log_success (d : downloader) : downloader := d <| m_success_count ::= Z.succ |>.
Definition log_failure (d : downloader) : downloader := d <| m_failure_count ::= Z.succ |>.
Definition get_available_slots (d : downloader) : Z :=
  tracker_available_slots (m_max_concurrent_requests d) (m_active_tracker d).
Definition set_max_concurrent_requests (max : Z) (d : downloader) : downloader :=
  d <| m_max_concurrent_requests := max |>.
Definition set_request_timeout (s : Z) (d : downloader) : downloader :=
  d <| m_request_timeout_seconds := s |>.

(** [int] division truncates toward zero. *)
Definition adjust_concurrent_limit (d : downloader) : downloader :=
  if (2000 <? Z.of_nat (rq_size (dl_queue d)))%Z
     && (m_timeout_count d <? Z.quot (m_success_count d) 10)%Z then
    if (m_max_concurrent_requests d <? 1000)%Z then
      d <| m_max_concurrent_requests := Z.min 1000 (m_max_concurrent_requests d + 100) |>
    else d
  else if (Z.quot (m_success_count d) 5 <? m_timeout_count d)%Z
          && (200 <? m_max_concurrent_requests d)%Z then
    d <| m_max_concurrent_requests := Z.max 200 (m_max_concurrent_requests d - 50) |>
  else d.

End Downloader.
Arguments downloader : clear implicits.

(** ** The invariant and the effect of a round *)

Section Facts.
Context {W H Q : Type} `{Session W H} `{RequestQueue Q} `{!RequestQueueLaws Q}.
Implicit Types (d : downloader H Q) (w : W).

Definition queued d : gmap string (Z * string) := rq_view (dl_queue d).

(** The queue is well formed and no hash is queued while its request is
    active. *)
Definition dl_inv d : Prop :=
  rq_valid (dl_queue d) ∧ ∀ h, is_Some (queued d !! h) → m_active_tracker d !! h = None.

(** What moving [k] requests from the queue into the session does. *)
Record progress (k : Z) d d' : Prop := {
  pg_nonneg : (0 ≤ k)%Z;
  pg_processed : m_total_processed d' = (m_total_processed d + k)%Z;
  pg_active_size :
    Z.of_nat (size (m_active_tracker d')) = (Z.of_nat (size (m_active_tracker d)) + k)%Z;
  pg_balance :
    (Z.of_nat (size (queued d')) + k + (m_failure_count d' - m_failure_count d)
     = Z.of_nat (size (queued d)))%Z;
  pg_failures : (m_failure_count d ≤ m_failure_count d')%Z;
  pg_active_kept : m_active_tracker d ⊆ m_active_tracker d';
  pg_no_new_hash :
    dom (queued d') ∪ dom (m_active_tracker d') ⊆ dom (queued d) ∪ dom (m_active_tracker d);
  pg_started_valid h :
    h ∈ dom (m_active_tracker d') →
    h ∈ dom (m_active_tracker d) ∨ convert_hash_to_hex h ≠ "";
  pg_frame :
    m_max_concurrent_requests d' = m_max_concurrent_requests d
    ∧ m_request_timeout_seconds d' = m_request_timeout_seconds d
    ∧ m_success_count d' = m_success_count d
    ∧ m_timeout_count d' = m_timeout_count d
    ∧ m_total_queued d' = m_total_queued d;
}.

Lemma progress_refl d : progress 0 d d.
Proof. constructor; try lia; auto. Qed.

Lemma progress_trans k1 k2 d1 d2 d3 :
  progress k1 d1 d2 → progress k2 d2 d3 → progress (k1 + k2) d1 d3.
Proof.
  intros P1 P2. destruct (pg_frame _ _ _ P1), (pg_frame _ _ _ P2), P1, P2.
  constructor; try lia; [by etrans | set_solver | naive_solver].
Qed.

Lemma view_weight_insert m h e :
  m !! h = None → view_weight (<[h := e]> m) = entry_weight e + view_weight m.
Proof.
  intros Hh. unfold view_weight.
  by rewrite (map_to_list_insert m h e Hh).
Qed.

Lemma view_weight_delete m h e :
  m !! h = Some e → view_weight m = entry_weight e + view_weight (delete h m).
Proof.
  intros Hh. rewrite <-(insert_delete_id m h e Hh) at 1.
  apply view_weight_insert, lookup_delete_eq.
Qed.

Lemma process_single_request_cases h p s d w :
  let '(b, d', w') := process_single_request h p s d w in
  if b then convert_hash_to_hex h ≠ ""
            ∧ ∃ now hd, d' = d <| m_active_tracker ::= add_request h now p s hd |>
  else d' = d.
Proof.
  unfold process_single_request.
  repeat (case_match || case_decide || simplify_eq/=); eauto.
Qed.

(** Taking an entry out of the queue. *)
Lemma dequeue_inv d h p s q :
  dl_inv d → rq_dequeue (dl_queue d) = (Some (h, p, s), q) →
  rq_valid q ∧ queued d !! h = Some (p, s) ∧ rq_view q = delete h (queued d)
  ∧ m_active_tracker d !! h = None.
Proof.
  intros [Hv Hd] Hq. pose proof (rq_dequeue_spec (dl_queue d) Hv) as Hs.
  rewrite Hq in Hs. destruct Hs as (Hv' & Hl & Hview & _). eauto.
Qed.

Lemma start_progress d h p s q now hd :
  dl_inv d → rq_dequeue (dl_queue d) = (Some (h, p, s), q) → convert_hash_to_hex h ≠ "" →
  let d' := d <| dl_queue := q |> <| m_active_tracker ::= add_request h now p s hd |>
              <| m_total_processed ::= Z.succ |> in
  dl_inv d' ∧ progress 1 d d' ∧ queue_weight q < queue_weight (dl_queue d).
Proof.
  intros Hinv Hq Hhex d'. pose proof Hinv as [_ Hdis].
  destruct (dequeue_inv _ _ _ _ _ Hinv Hq) as (Hv & Hl & Hview & Hact).
  assert (queued d' = delete h (queued d)) as Hqd' by done.
  split_all.
  - split; [done|]. intros h' Hh'. rewrite Hqd' in Hh'. unfold d', add_request. simpl.
    rewrite lookup_insert. case_decide; subst.
    + rewrite lookup_delete_eq in Hh'. by destruct Hh'.
    + rewrite lookup_delete_ne in Hh' by done. auto.
  - constructor; rewrite ?Hqd'; unfold d'; simpl; try lia.
    + unfold add_request. rewrite map_size_insert_None by done. lia.
    + rewrite map_size_delete_Some by eauto.
      assert (size (queued d) ≠ 0); [|lia]. apply map_size_ne_0_lookup. eauto.
    + by apply insert_subseteq.
    + unfold add_request. rewrite dom_insert_L, dom_delete_L.
      apply elem_of_dom_2 in Hl. set_solver.
    + intros h'. unfold add_request. rewrite dom_insert_L, elem_of_union, elem_of_singleton.
      intros [->|]; auto.
  - unfold queue_weight. rewrite Hview.
    pose proof (view_weight_delete _ _ _ Hl). unfold entry_weight, queued in *. simpl in *. lia.
Qed.

Lemma retry_progress d h p s q w :
  dl_inv d → rq_dequeue (dl_queue d) = (Some (h, p, s), q) →
  let d' := (retry_or_drop h p s (d <| dl_queue := q |>) w).1 in
  dl_inv d' ∧ progress 0 d d' ∧ queue_weight (dl_queue d') < queue_weight (dl_queue d).
Proof.
  intros Hinv Hq d'. pose proof Hinv as [_ Hdis].
  destruct (dequeue_inv _ _ _ _ _ Hinv Hq) as (Hv & Hl & Hview & Hact).
  pose proof (view_weight_delete _ _ _ Hl) as Hw. unfold d', retry_or_drop.
  assert (size (queued d) ≠ 0) as Hsz by (apply map_size_ne_0_lookup; eauto).
  assert (size (delete h (queued d)) = pred (size (queued d))) as Hdel.
  { apply map_size_delete_Some; eauto. }
  destruct (Z.ltb_spec 1 p).
  - destruct (steady_now w) as [now w']. simpl.
    destruct (rq_enqueue_spec h (p - 1) (s +:+ "_RETRY") now q Hv) as [Hv' Hview'].
    rewrite Hview, lookup_delete_eq in Hview'.
    rewrite insert_delete_eq in Hview'.
    split_all.
    + split; [done|]. unfold queued. simpl. intros h'. rewrite Hview'.
      rewrite lookup_insert. case_decide; subst; auto.
    + constructor; unfold queued; simpl; rewrite ?Hview'; try lia; [|done| |by auto].
      * rewrite map_size_insert_Some by eauto. unfold queued in *. lia.
      * rewrite dom_insert_L. apply elem_of_dom_2 in Hl. unfold queued in *. set_solver.
    + unfold queue_weight. rewrite Hview', <-insert_delete_eq.
      rewrite view_weight_insert by apply lookup_delete_eq.
      unfold queued, entry_weight in *. simpl in *. lia.
  - simpl. split_all.
    + split; [done|]. unfold queued. simpl. intros h'. rewrite Hview.
      rewrite lookup_delete_is_Some. naive_solver.
    + constructor; unfold queued; simpl; rewrite ?Hview; fold (queued d); try lia; [done| |by auto].
      rewrite dom_delete_L. set_solver.
    + unfold queue_weight. rewrite Hview. unfold queued, entry_weight in *. simpl in *. lia.
Qed.

(** ** The loop of [process_queue] *)

(** One round ends because the loop condition is false, and it started only
    as many requests as the limits allow. *)
Definition round_done (n : Z) d d' (k : Z) : Prop :=
  dl_inv d' ∧ progress k d d' ∧ process_queue_continues d' (n + k) = false
  ∧ (k = 0%Z ∨ (n + k ≤ max_per_round
                ∧ Z.of_nat (size (m_active_tracker d')) ≤ size_t_of_int (m_max_concurrent_requests d'))%Z).

Lemma continues_nonempty d n :
  dl_inv d → process_queue_continues d n = true →
  ∃ h p s q, rq_dequeue (dl_queue d) = (Some (h, p, s), q).
Proof.
  intros [Hv _] Hc. unfold process_queue_continues in Hc.
  apply andb_true_iff in Hc as [[Hc _]%andb_true_iff _].
  pose proof (rq_dequeue_spec (dl_queue d) Hv) as Hs.
  destruct (rq_dequeue (dl_queue d)) as [[[[h p] s]|] q]; [eauto|].
  destruct Hs as [He _]. rewrite rq_size_spec, He, map_size_empty in Hc by done. done.
Qed.

Lemma round_done_step k n d1 d2 d3 k' :
  progress k d1 d2 → process_queue_continues d1 n = true → (k = 0 ∨ k = 1)%Z →
  round_done (n + k) d2 d3 k' → round_done n d1 d3 (k + k').
Proof.
  intros P Hc Hk (Hinv & P' & Hstop & Hb). rewrite <-Z.add_assoc in Hstop.
  split; [done|]. split; [by eapply progress_trans|]. split; [done|].
  unfold process_queue_continues in Hc. rewrite !andb_true_iff, !Z.ltb_lt in Hc.
  destruct (pg_frame _ _ _ P) as [Hmax _], (pg_frame _ _ _ P') as [Hmax' _].
  pose proof (pg_active_size _ _ _ P). pose proof (pg_active_size _ _ _ P').
  unfold active_requests in Hc. rewrite Hmax', Hmax in *.
  destruct Hk as [-> | ->]; [rewrite Z.add_0_r in *; destruct Hb; [left|right]; lia|].
  right. destruct Hb as [->|]; lia.
Qed.

Lemma process_queue_loop_done fuel : ∀ n d w,
  dl_inv d → queue_weight (dl_queue d) ≤ fuel →
  ∃ k d' w', process_queue_loop fuel n d w = Some ((n + k)%Z, d', w') ∧ round_done n d d' k.
Proof.
  induction fuel as [|fuel IH]; intros n d w Hinv Hw; simpl;
    destruct (process_queue_continues d n) eqn:Hc.
  2, 4: exists 0%Z, d, w; rewrite Z.add_0_r; split; [done|];
    (split; [done|]; split; [apply progress_refl|]; split; [by rewrite Z.add_0_r | by left]).
  { destruct (continues_nonempty d n Hinv Hc) as (h & p & s & q & Hq).
    destruct (retry_progress d h p s q w Hinv Hq) as (_ & _ & ?). lia. }
  destruct (continues_nonempty d n Hinv Hc) as (h & p & s & q & Hq). rewrite Hq.
  pose proof (process_single_request_cases h p s (d <| dl_queue := q |>) w) as Hone.
  destruct (process_single_request h p s _ w) as [[[] d1] w1].
  - destruct Hone as (Hhex & now & hd & ->).
    destruct (start_progress d h p s q now hd Hinv Hq Hhex) as (Hinv' & P & Hlt).
    destruct (IH (n + 1)%Z _ w1 Hinv') as (k & d' & w' & Hl & Hd); [simpl; lia|].
    exists (1 + k)%Z, d', w'. split; [by rewrite Hl, Z.add_assoc|].
    by eapply round_done_step; [| |right|].
  - subst d1. pose proof (retry_progress d h p s q w1 Hinv Hq) as (Hinv' & P & Hlt).
    destruct (retry_or_drop h p s _ w1) as [d2 w2]. simpl in *.
    destruct (IH n d2 w2 Hinv') as (k & d' & w' & Hl & Hd); [lia|].
    exists (0 + k)%Z, d', w'. split; [by rewrite Hl|].
    eapply round_done_step; [done|done|by left|]. by rewrite Z.add_0_r.
Qed.

Lemma process_queue_done d w : dl_inv d → ∃ k, round_done 0 d (process_queue d w).1 k.
Proof.
  intros Hinv. unfold process_queue.
  destruct (process_queue_loop_done (queue_weight (dl_queue d)) 0 d w Hinv)
    as (k & d' & w' & -> & Hd); [lia|]. by exists k.
Qed.

(** ** The other operations preserve the invariant *)

Lemma dl_inv_enqueue d h p s now :
  dl_inv d → m_active_tracker d !! h = None →
  dl_inv (d <| dl_queue ::= rq_enqueue h p s now |>)
  ∧ queued (d <| dl_queue ::= rq_enqueue h p s now |>)
    = (if queued d !! h is Some _ then queued d else <[h := (p, s)]> (queued d)).
Proof.
  intros [Hv Hd] Ha. destruct (rq_enqueue_spec h p s now (dl_queue d) Hv) as [Hv' Hview].
  split; [|done]. split; [done|]. unfold queued. simpl. rewrite Hview.
  intros h' Hh'. destruct (rq_view (dl_queue d) !! h) eqn:E; [by apply Hd|].
  rewrite lookup_insert in Hh'. case_decide; subst; auto.
Qed.

Lemma dl_inv_remove d h : dl_inv d → dl_inv (d <| m_active_tracker ::= remove_request h |>).
Proof.
  intros [Hv Hd]. split; [done|]. intros h' Hh'. unfold remove_request. simpl.
  rewrite lookup_delete. case_decide; [done|]. by apply Hd.
Qed.

Lemma dl_inv_frame d d' :
  dl_queue d' = dl_queue d → m_active_tracker d' = m_active_tracker d → dl_inv d → dl_inv d'.
Proof. unfold dl_inv, queued. by intros -> ->. Qed.

Lemma cleanup_fold hs : ∀ d w,
  let d' := (foldl (λ s h, cleanup_one h s) (d, w) hs).1 in
  m_active_tracker d' = filter (λ p, p.1 ∉ hs) (m_active_tracker d)
  ∧ dl_queue d' = dl_queue d
  ∧ m_timeout_count d' = (m_timeout_count d + Z.of_nat (length hs))%Z
  ∧ m_max_concurrent_requests d' = m_max_concurrent_requests d
  ∧ m_total_queued d' = m_total_queued d ∧ m_total_processed d' = m_total_processed d
  ∧ m_failure_count d' = m_failure_count d ∧ m_success_count d' = m_success_count d.
Proof.
  induction hs as [|h hs IH]; intros d w; simpl.
  { split_all; [|try lia; done..]. symmetry. apply map_filter_id. intros. apply not_elem_of_nil. }
  set (w' := match m_active_tracker d !! h with Some _ => _ | None => _ end).
  destruct (IH (d <| m_active_tracker ::= remove_request h |> <| m_timeout_count ::= Z.succ |>) w')
    as (-> & -> & -> & -> & -> & -> & -> & ->).
  simpl. split_all; [|lia || done..]. apply map_eq. intros k. apply option_eq. intros r.
  rewrite !map_lookup_filter_Some. unfold remove_request. rewrite lookup_delete_Some.
  simpl. rewrite not_elem_of_cons. naive_solver.
Qed.

(** ** Sequences of operations *)

Inductive dl_op :=
  | OpRequest (hash : string) (priority : Z) (source : string)
  | OpProcessQueue
  | OpReceived (hash : string)
  | OpCleanup
  | OpLogSuccess
  | OpLogFailure
  | OpSetMax (max : Z)
  | OpSetTimeout (secs : Z)
  | OpAdjust.

Definition dl_step (op : dl_op) (s : downloader H Q * W) : downloader H Q * W :=
  let '(d, w) := s in
  match op with
  | OpRequest h p src => let '(_, d, w) := request_metadata true h p src d w in (d, w)
  | OpProcessQueue => process_queue d w
  | OpReceived h => handle_metadata_received h d w
  | OpCleanup => cleanup_timed_out_requests d w
  | OpLogSuccess => (log_success d, w)
  | OpLogFailure => (log_failure d, w)
  | OpSetMax m => (set_max_concurrent_requests m d, w)
  | OpSetTimeout t => (set_request_timeout t d, w)
  | OpAdjust => (adjust_concurrent_limit d, w)
  end.

Definition run_ops (ops : list dl_op) (s : downloader H Q * W) : downloader H Q * W :=
  foldl (λ s op, dl_step op s) s ops.

(** Every queued request is started, dropped, or still queued; [logged] is
    the number of failures reported from outside. *)
Definition accounted (logged : Z) d : Prop :=
  (m_total_queued d + logged
   = m_total_processed d + m_failure_count d + Z.of_nat (size (queued d)))%Z.

Definition is_log_failure (op : dl_op) : Z := if op is OpLogFailure then 1 else 0.
Definition failures_logged (ops : list dl_op) : Z :=
  foldr (λ op n, (is_log_failure op + n)%Z) 0%Z ops.

Lemma accounted_progress k l d d' : progress k d d' → accounted l d → accounted l d'.
Proof.
  intros P. destruct (pg_frame _ _ _ P) as (_ & _ & _ & _ & Hq).
  destruct P. unfold accounted. lia.
Qed.

Lemma process_queue_keeps l d w :
  dl_inv d ∧ accounted l d → dl_inv (process_queue d w).1 ∧ accounted l (process_queue d w).1.
Proof.
  intros [Hinv Ha]. destruct (process_queue_done d w Hinv) as (k & Hinv' & P & _).
  split; [done|]. by eapply accounted_progress.
Qed.

Lemma request_keeps l h p src d w :
  dl_inv d ∧ accounted l d →
  let d' := (request_metadata true h p src d w).1.2 in dl_inv d' ∧ accounted l d'.
Proof.
  intros [Hinv Ha]. unfold request_metadata. simpl.
  destruct (has_request _ _ || _) eqn:Hdup; [done|].
  apply orb_false_iff in Hdup as [Hact Hq].
  rewrite rq_contains_spec in Hq by apply Hinv.
  apply bool_decide_eq_false, eq_None_not_Some in Hact, Hq.
  destruct (steady_now w) as [now w'].
  destruct (dl_inv_enqueue d h p src now Hinv Hact) as [Hinv' Hview].
  unfold queued in Hview at 2. rewrite Hq in Hview.
  set (d1 := d <| dl_queue ::= rq_enqueue h p src now |> <| m_total_queued ::= Z.succ |>).
  pose proof (process_queue_keeps l d1 w') as Hk.
  destruct (process_queue d1 w') as [d2 w2]. apply Hk. split; [by eapply dl_inv_frame; [..|done]|].
  unfold accounted in *.
  assert (queued d1 = <[h := (p, src)]> (queued d)) as -> by done.
  rewrite map_size_insert_None by done. simpl. lia.
Qed.

Lemma cleanup_keeps l d w :
  dl_inv d ∧ accounted l d →
  let d' := (cleanup_timed_out_requests d w).1 in dl_inv d' ∧ accounted l d'.
Proof.
  intros [Hinv Ha]. unfold cleanup_timed_out_requests. destruct (steady_now w) as [now w'].
  set (hs := tracker_timed_out _ _ _).
  pose proof (cleanup_fold hs d w') as (Hact & Hq & _ & _ & Htq & Htp & Hf & _).
  destruct (foldl _ (d, w') hs) as [d1 w1]. simpl in *.
  assert (dl_inv d1 ∧ accounted l d1) as Hd1.
  { split.
    - destruct Hinv as [Hv Hdis]. split; [by rewrite Hq|]. intros h Hh. unfold queued in *.
      rewrite Hq in Hh. rewrite Hact. apply map_lookup_filter_None. left. auto.
    - unfold accounted, queued in *. by rewrite Hq, Htq, Htp, Hf. }
  case_match; [by apply process_queue_keeps | done].
Qed.

Lemma adjust_frame d :
  dl_queue (adjust_concurrent_limit d) = dl_queue d
  ∧ m_active_tracker (adjust_concurrent_limit d) = m_active_tracker d
  ∧ m_total_queued (adjust_concurrent_limit d) = m_total_queued d
  ∧ m_total_processed (adjust_concurrent_limit d) = m_total_processed d
  ∧ m_failure_count (adjust_concurrent_limit d) = m_failure_count d.
Proof. unfold adjust_concurrent_limit. repeat case_match; done. Qed.

Lemma dl_step_keeps l op d w :
  dl_inv d ∧ accounted l d →
  dl_inv (dl_step op (d, w)).1 ∧ accounted (l + is_log_failure op) (dl_step op (d, w)).1.
Proof.
  intros Hd. destruct op; cbn [dl_step is_log_failure]; rewrite ?Z.add_0_r.
  - pose proof (request_keeps l hash priority source d w Hd) as Hk.
    by destruct (request_metadata _ _ _ _ _ _) as [[b d1] w1].
  - by apply process_queue_keeps.
  - apply process_queue_keeps. destruct Hd as [Hinv Ha]. split; [|done].
    eapply dl_inv_frame; [..|apply (dl_inv_remove d hash Hinv)]; done.
  - by apply cleanup_keeps.
  - done.
  - destruct Hd as [Hinv Ha]. split; [done|]. unfold accounted, queued in *. simpl. lia.
  - done.
  - done.
  - destruct (adjust_frame d) as (Hq & Hact & Htq & Htp & Hf), Hd as [Hinv Ha]. simpl.
    split; [by eapply dl_inv_frame|]. unfold accounted, queued in *. by rewrite Hq, Htq, Htp, Hf.
Qed.

Lemma run_ops_keeps ops : ∀ l d w,
  dl_inv d ∧ accounted l d →
  dl_inv (run_ops ops (d, w)).1 ∧ accounted (l + failures_logged ops) (run_ops ops (d, w)).1.
Proof.
  induction ops as [|op ops IH]; intros l d w Hd; [by rewrite Z.add_0_r|].
  change (run_ops (op :: ops) (d, w)) with (run_ops ops (dl_step op (d, w))).
  change (failures_logged (op :: ops)) with (is_log_failure op + failures_logged ops)%Z.
  pose proof (dl_step_keeps l op d w Hd) as Hd'. destruct (dl_step op (d, w)) as [d' w'].
  rewrite Z.add_assoc. by apply IH.
Qed.

End Facts.

(** ** Properties

    They hold for every implementation of [RequestQueue] that satisfies its
    laws, in particular for [MetadataRequestQueue]; the witnesses use it. *)

Abbreviation sim_downloader := (downloader string MetadataRequestQueue).
Definition sim_new : sim_downloader := new_downloader empty_queue.

(** C4: [process_queue] terminates: with [queue_weight] iterations (or any
    larger number) its loop always reaches the end, whatever the session
    answers. *)
Theorem process_queue_terminates `{Session W H, RequestQueueLaws Q}
    (d : downloader H Q) (w : W) (fuel : nat) :
  dl_inv d → queue_weight (dl_queue d) ≤ fuel →
  ∃ n d' w', process_queue_loop fuel 0 d w = Some (n, d', w').
Proof.
  intros Hinv Hw. destruct (process_queue_loop_done fuel 0 d w Hinv Hw) as (k & d' & w' & Hl & _).
  eauto.
Qed.

Lemma sim_new_inv : dl_inv sim_new.
Proof. split; [apply empty_queue_valid|]. by intros h [? ?]. Qed.

Lemma process_queue_terminates_witness :
  ∃ n d' w', process_queue_loop 0 0 sim_new (Sim.initial 0) = Some (n, d', w').
Proof. apply (process_queue_terminates sim_new (Sim.initial 0) 0 sim_new_inv). vm_compute. lia. Defined.

(** C3: one call of [process_queue] starts [k] requests and accounts for every
    queued one: it is started, dropped as failed, or still queued; [k] is at
    most 50 and the active requests stay within the limit; running requests
    are untouched; and it stops only when the queue is empty, the limit is
    reached or 50 requests were started. *)
Theorem process_queue_round `{Session W H, RequestQueueLaws Q} (d : downloader H Q) (w : W) :
  dl_inv d →
  let d' := (process_queue d w).1 in
  ∃ k, (0 ≤ k ≤ 50)%Z
  ∧ m_total_processed d' = (m_total_processed d + k)%Z
  ∧ Z.of_nat (size (m_active_tracker d')) = (Z.of_nat (size (m_active_tracker d)) + k)%Z
  ∧ (Z.of_nat (size (queued d)) = Z.of_nat (size (queued d')) + k
                                  + (m_failure_count d' - m_failure_count d))%Z
  ∧ m_active_tracker d ⊆ m_active_tracker d'
  ∧ (k ≠ 0 → Z.of_nat (size (m_active_tracker d')) ≤ size_t_of_int (m_max_concurrent_requests d))%Z
  ∧ (queued d' = ∅ ∨ k = 50
     ∨ size_t_of_int (m_max_concurrent_requests d) ≤ Z.of_nat (size (m_active_tracker d')))%Z.
Proof.
  intros Hinv d'. destruct (process_queue_done d w Hinv) as (k & Hinv' & P & Hstop & Hb).
  fold d' in Hinv', P, Hstop, Hb. destruct (pg_frame _ _ _ P) as [Hmax _].
  unfold max_per_round in Hb. rewrite Hmax in Hb. exists k. destruct P.
  split_all; try lia; [done|]. unfold process_queue_continues, max_per_round, active_requests in Hstop.
  rewrite rq_size_spec, Hmax in Hstop by apply Hinv'.
  rewrite !andb_false_iff, negb_false_iff, Nat.eqb_eq, !Z.ltb_ge in Hstop.
  destruct Hstop as [[Hz%map_size_empty_iff|?]|?]; [by left | right; right; lia | right; left; lia].
Qed.

Lemma process_queue_round_witness :
  ∃ k, (0 ≤ k ≤ 50)%Z ∧ m_total_processed (process_queue sim_new (Sim.initial 0)).1 = (0 + k)%Z.
Proof.
  destruct (process_queue_round sim_new (Sim.initial 0) sim_new_inv) as (k & Hk & Hp & _).
  exists k. split; [exact Hk | exact Hp].
Defined.

(** C2: in every state reachable from the constructor by any sequence of
    operations, the queue is well formed, no hash is both queued and active,
    and each request ever queued is started, counted as failed, or queued. *)
Theorem downloader_invariant `{Session W H, RequestQueueLaws Q}
    (q : Q) (ops : list dl_op) (w : W) :
  rq_valid q → rq_view q = ∅ →
  let d := (run_ops ops (new_downloader q, w)).1 in
  dl_inv d ∧ accounted (failures_logged ops) d.
Proof.
  intros Hv He d. apply (run_ops_keeps ops 0). split.
  - split; [done|]. intros h. unfold queued. simpl. rewrite He. by intros [? ?].
  - unfold accounted, queued. simpl. by rewrite He.
Qed.

Definition demo_ops : list dl_op :=
  [OpRequest "6162636465666768696a6b6c6d6e6f7071727374" 3 "DHT_PEERS";
   OpRequest "MFRGGZDFMZTWQ2LKNNWG23TPOBYXE43U" 2 "MANUAL"; OpRequest "not a hash" 4 "BEP51"; OpLogFailure].

Lemma downloader_invariant_witness :
  let d := (run_ops demo_ops (sim_new, Sim.initial 0)).1 in
  m_total_queued d = 3%Z ∧ m_total_processed d = 1%Z ∧ m_failure_count d = 3%Z
  ∧ accounted (failures_logged demo_ops) d.
Proof.
  split; [vm_compute; reflexivity|]. split; [vm_compute; reflexivity|].
  split; [vm_compute; reflexivity|].
  apply (downloader_invariant empty_queue demo_ops (Sim.initial 0)); [apply empty_queue_valid | reflexivity].
Defined.

(** Asking again for a hash that is active or queued succeeds and changes
    nothing: neither a counter nor the queue nor the session. *)
Theorem request_metadata_idempotent `{Session W H, RequestQueueLaws Q}
    (h : string) (p : Z) (src : string) (d : downloader H Q) (w : W) :
  dl_inv d → is_Some (m_active_tracker d !! h) ∨ is_Some (queued d !! h) →
  request_metadata true h p src d w = (true, d, w).
Proof.
  intros [Hv _] Hh. unfold request_metadata, has_request. simpl. rewrite rq_contains_spec by done.
  fold (queued d). by destruct Hh as [Hh|Hh]; rewrite (bool_decide_true _ Hh), ?orb_true_r.
Qed.

Definition demo_state : sim_downloader * Sim.world := run_ops demo_ops (sim_new, Sim.initial 0).

Lemma demo_state_inv : dl_inv demo_state.1.
Proof.
  apply (run_ops_keeps demo_ops 0 sim_new (Sim.initial 0)). split; [apply sim_new_inv | reflexivity].
Qed.

Lemma request_metadata_idempotent_witness :
  request_metadata true "6162636465666768696a6b6c6d6e6f7071727374" 5 "BEP51" demo_state.1 demo_state.2
  = (true, demo_state.1, demo_state.2).
Proof.
  apply (request_metadata_idempotent _ 5 "BEP51" demo_state.1 demo_state.2 demo_state_inv).
  left. vm_compute. eexists. reflexivity.
Defined.

(** [request_metadata] also reports success for a hash it discards: on an
    empty queue with room for requests, a string that is no info-hash is
    retried down to priority one, dropped and counted as a failure, and the
    call still returns true with nothing queued or active. *)
Theorem request_metadata_drops_invalid `{Session W H, RequestQueueLaws Q}
    (h : string) (p : Z) (src : string) (d : downloader H Q) (w : W) :
  dl_inv d → queued d = ∅ → m_active_tracker d !! h = None → convert_hash_to_hex h = "" →
  (Z.of_nat (size (m_active_tracker d)) < size_t_of_int (m_max_concurrent_requests d))%Z →
  let '(b, d', _) := request_metadata true h p src d w in
  b = true ∧ queued d' = ∅ ∧ m_active_tracker d' = m_active_tracker d
  ∧ m_failure_count d' = (m_failure_count d + 1)%Z.
Proof.
  intros Hinv He Ha Hh Hroom. unfold request_metadata. simpl.
  rewrite rq_contains_spec by apply Hinv. fold (queued d). unfold has_request.
  rewrite He, Ha, lookup_empty, !bool_decide_false by (by intros [? ?]). simpl.
  destruct (steady_now w) as [now w'].
  destruct (dl_inv_enqueue d h p src now Hinv Ha) as [Hinv1 Hview].
  rewrite He, lookup_empty in Hview.
  set (d1 := d <| dl_queue ::= rq_enqueue h p src now |> <| m_total_queued ::= Z.succ |>).
  assert (dl_inv d1) as Hinv1' by (by eapply dl_inv_frame; [..|exact Hinv1]).
  assert (queued d1 = {[h := (p, src)]}) as Hq1 by done.
  destruct (process_queue_done d1 w' Hinv1') as (k & Hinv2 & P & Hstop & _).
  destruct (process_queue d1 w') as [d2 w2]. simpl in *.
  destruct (pg_frame _ _ _ P) as [Hmax _].
  assert (m_active_tracker d2 = m_active_tracker d) as Hact.
  { symmetry. apply (map_subseteq_size_eq (m_active_tracker d1) (m_active_tracker d2)).
    { apply (pg_active_kept _ _ _ P). }
    rewrite <-!(size_dom (D := gset string)). apply subseteq_size. intros g Hg.
    destruct (pg_started_valid _ _ _ P g Hg) as [|Hne]; [done|].
    assert (g ∈ dom (queued d1) ∪ dom (m_active_tracker d1)) as Hin.
    { apply (pg_no_new_hash _ _ _ P). set_solver. }
    rewrite Hq1, dom_singleton_L in Hin. set_solver. }
  assert (k = 0%Z) as -> by (pose proof (pg_active_size _ _ _ P) as Hs; rewrite Hact in Hs; simpl in Hs; lia).
  unfold process_queue_continues, active_requests in Hstop.
  rewrite Hact, Hmax, rq_size_spec in Hstop by apply Hinv2. fold (queued d2) in Hstop. simpl in Hstop.
  rewrite (proj2 (Z.ltb_lt _ _) Hroom), !andb_true_r, negb_false_iff, Nat.eqb_eq in Hstop.
  split_all; [done|by apply map_size_empty_inv|done|].
  pose proof (pg_balance _ _ _ P) as Hb. rewrite Hq1, map_size_singleton, Hstop in Hb. simpl in Hb. lia.
Qed.

Lemma request_metadata_drops_invalid_witness :
  let '(b, d', _) := request_metadata true "not a hash" 4 "MANUAL" sim_new (Sim.initial 0) in
  b = true ∧ queued d' = ∅ ∧ m_active_tracker d' = m_active_tracker sim_new
  ∧ m_failure_count d' = (m_failure_count sim_new + 1)%Z.
Proof.
  apply (request_metadata_drops_invalid "not a hash" 4 "MANUAL" sim_new (Sim.initial 0) sim_new_inv);
    vm_compute; reflexivity.
Defined.

(** A request is tracked under the spelling it was made with, so metadata
    reported under the hexadecimal form of a hash does not retire a request
    made with another spelling of it: that request stays active. *)
Theorem received_keeps_other_spelling `{Session W H, RequestQueueLaws Q}
    (h : string) (r : RequestInfo H) (d : downloader H Q) (w : W) :
  dl_inv d → m_active_tracker d !! h = Some r → convert_hash_to_hex h ≠ h →
  m_active_tracker (handle_metadata_received (convert_hash_to_hex h) d w).1 !! h = Some r.
Proof.
  intros Hinv Hr Hne. unfold handle_metadata_received.
  set (d1 := d <| m_active_tracker ::= remove_request _ |> <| m_success_count ::= Z.succ |>).
  assert (dl_inv d1) as Hinv1.
  { eapply dl_inv_frame; [..|apply (dl_inv_remove d (convert_hash_to_hex h) Hinv)]; done. }
  destruct (process_queue_done d1 w Hinv1) as (k & _ & P & _).
  eapply lookup_weaken; [|apply (pg_active_kept _ _ _ P)].
  unfold d1, remove_request. simpl. by rewrite lookup_delete_ne.
Qed.

Definition base32_ops : list dl_op := [OpRequest "MFRGGZDFMZTWQ2LKNNWG23TPOBYXE43U" 4 "MANUAL"].
Definition base32_state : sim_downloader * Sim.world := run_ops base32_ops (sim_new, Sim.initial 0).

Lemma base32_state_inv : dl_inv base32_state.1.
Proof.
  apply (run_ops_keeps base32_ops 0 sim_new (Sim.initial 0)). split; [apply sim_new_inv | reflexivity].
Qed.

Lemma received_keeps_other_spelling_witness :
  ∃ r, m_active_tracker (handle_metadata_received "6162636465666768696a6b6c6d6e6f7071727374"
         base32_state.1 base32_state.2).1 !! "MFRGGZDFMZTWQ2LKNNWG23TPOBYXE43U" = Some r.
Proof.
  destruct (m_active_tracker base32_state.1 !! "MFRGGZDFMZTWQ2LKNNWG23TPOBYXE43U") as [r|] eqn:E;
    [|exfalso; vm_compute in E; discriminate].
  exists r.
  assert (convert_hash_to_hex "MFRGGZDFMZTWQ2LKNNWG23TPOBYXE43U"
          ≠ "MFRGGZDFMZTWQ2LKNNWG23TPOBYXE43U") as Hne by (vm_compute; discriminate).
  exact (received_keeps_other_spelling _ r base32_state.1 base32_state.2 base32_state_inv E Hne).
Defined.

(** [cleanup_timed_out_requests] retires exactly the requests that are
    older than the timeout at the reading it takes: they are neither active
    nor queued afterwards, every younger request is untouched, and the
    timeout counter grows by their number. *)
Theorem cleanup_retires_timed_out `{Session W H, RequestQueueLaws Q}
    (d : downloader H Q) (w : W) :
  dl_inv d →
  let now := (steady_now w).1 in
  let expired r := request_timed_out now (m_request_timeout_seconds d) r in
  let d' := (cleanup_timed_out_requests d w).1 in
  (∀ h r, m_active_tracker d !! h = Some r → expired r →
     m_active_tracker d' !! h = None ∧ queued d' !! h = None)
  ∧ (∀ h r, m_active_tracker d !! h = Some r → ¬ expired r → m_active_tracker d' !! h = Some r)
  ∧ m_timeout_count d' = (m_timeout_count d + Z.of_nat (length
      (tracker_timed_out now (m_request_timeout_seconds d) (m_active_tracker d))))%Z.
Proof.
  intros Hinv now expired d'. pose proof Hinv as [Hv Hdis].
  unfold d', cleanup_timed_out_requests. unfold now in *.
  destruct (steady_now w) as [t w']. simpl in *. set (hs := tracker_timed_out t _ _).
  pose proof (cleanup_fold hs d w') as (Hact & Hq & Htc & _).
  destruct (foldl _ (d, w') hs) as [d1 w1]. simpl in *.
  assert (∀ h r, m_active_tracker d !! h = Some r → h ∈ hs ↔ expired r) as Hhs.
  { intros h r Hr. unfold hs. rewrite elem_of_tracker_timed_out. split; [|eauto].
    intros (r' & Hr' & He). congruence. }
  assert (dl_inv d1) as Hinv1.
  { split; [by rewrite Hq|]. intros h Hh. unfold queued in *. rewrite Hq in Hh. rewrite Hact.
    apply map_lookup_filter_None. left. auto. }
  assert (∃ k, progress k d1 (if 0 <? length hs then process_queue d1 w1 else (d1, w1)).1)
    as [k P].
  { case_match; [|exists 0%Z; apply progress_refl].
    destruct (process_queue_done d1 w1 Hinv1) as (k & _ & P & _). by exists k. }
  destruct (if 0 <? length hs then _ else _) as [d2 w2]. simpl in *.
  split_all.
  - intros h r Hr He.
    assert (h ∉ dom (queued d2) ∪ dom (m_active_tracker d2)) as Hni.
    { intros Hin%(pg_no_new_hash _ _ _ P). apply elem_of_union in Hin as [Hin|Hin].
      - apply elem_of_dom in Hin. unfold queued in Hin. rewrite Hq in Hin.
        apply Hdis in Hin. congruence.
      - apply elem_of_dom in Hin as [r' Hr']. rewrite Hact in Hr'.
        apply map_lookup_filter_Some in Hr' as [Hr' Hn]. simpl in Hn. by apply Hn, Hhs with r. }
    rewrite not_elem_of_union, !not_elem_of_dom in Hni. tauto.
  - intros h r Hr Hne. eapply lookup_weaken; [|apply (pg_active_kept _ _ _ P)].
    rewrite Hact. apply map_lookup_filter_Some. split; [done|]. simpl. by rewrite (Hhs h r Hr).
  - destruct (pg_frame _ _ _ P) as (_ & _ & _ & -> & _). done.
Qed.

Lemma cleanup_retires_timed_out_witness :
  let w := base32_state.2 <| Sim.time := seconds 60 |> in
  m_active_tracker (cleanup_timed_out_requests base32_state.1 w).1 = ∅
  ∧ m_timeout_count (cleanup_timed_out_requests base32_state.1 w).1 = (0 + 1)%Z.
Proof.
  split; [vm_compute; reflexivity|].
  destruct (cleanup_retires_timed_out base32_state.1 (base32_state.2 <| Sim.time := seconds 60 |>)
              base32_state_inv) as (_ & _ & Hc).
  exact Hc.
Defined.

(** The self-adjusting concurrency limit stays between 200 and 1000 once
    it is there, moves by at most 100 up or 50 down, and rises only when the
    queue holds more than 2000 requests. *)
Theorem adjust_limit_bounds {T Q : Type} {rq : RequestQueue Q} (d : downloader T Q) :
  let m := m_max_concurrent_requests d in
  let m' := m_max_concurrent_requests (adjust_concurrent_limit d) in
  ((200 ≤ m ≤ 1000 → 200 ≤ m' ≤ 1000)
   ∧ m - 50 ≤ m' ≤ m + 100
   ∧ (m < m' → 2000 < Z.of_nat (rq_size (dl_queue d))))%Z.
Proof.
  intros m m'. unfold m', adjust_concurrent_limit. fold m.
  destruct (Z.ltb_spec 2000 (Z.of_nat (rq_size (dl_queue d)))); simpl;
    repeat case_match; simpl; fold m; rewrite ?andb_true_iff, ?Z.ltb_lt, ?Z.ltb_ge in *; lia.
Qed.

Lemma adjust_limit_bounds_witness :
  (200 ≤ m_max_concurrent_requests sim_new ≤ 1000
   ∧ 200 ≤ m_max_concurrent_requests (adjust_concurrent_limit sim_new) ≤ 1000)%Z.
Proof.
  assert (200 ≤ m_max_concurrent_requests sim_new ≤ 1000)%Z as Hb by (vm_compute; split; discriminate).
  split; [exact Hb | exact (proj1 (adjust_limit_bounds sim_new) Hb)].
Defined.
