(* ===== verification/Numeric.v ===== *)
(** * Numbers read from text, and doubles

    What the code uses of the C++ standard library to read and compare
    numbers: [std::stoi] in a given base, with its two exceptions, and IEEE
    binary64 arithmetic as the Standard Library's [SpecFloat] defines it. *)

From Stdlib Require Export SpecFloat.
From S2P Require Import Prelude HashFormat.

(** ** [std::stoi] *)

(** [std::isspace] in the "C" locale. *)
Definition isspace (c : ascii) : bool :=
  (byte_val c =? 32)%Z || ((9 <=? byte_val c) && (byte_val c <=? 13))%Z.

Definition digit_value (c : ascii) : option Z :=
  if in_range "0" "9" c then Some (byte_val c - 48)%Z
  else if in_range "a" "z" c then Some (byte_val c - 87)%Z
  else if in_range "A" "Z" c then Some (byte_val c - 55)%Z
  else None.

Definition digit_in (base : Z) (c : ascii) : option Z :=
  d ← digit_value c; if (d <? base)%Z then Some d else None.

(** The longest prefix of digits. *)
Fixpoint digits_prefix (base : Z) (s : list ascii) : list Z :=
  match s with
  | [] => []
  | c :: s => match digit_in base c with Some d => d :: digits_prefix base s | None => [] end
  end.

Fixpoint skip_spaces (s : list ascii) : list ascii :=
  match s with
  | c :: s' => if isspace c then skip_spaces s' else s
  | [] => []
  end.

Definition read_sign (s : list ascii) : Z * list ascii :=
  match s with
  | "-"%char :: s => ((-1)%Z, s)
  | "+"%char :: s => (1%Z, s)
  | _ => (1%Z, s)
  end.

(** In base 16 an optional "0x", taken only when a digit follows it. *)
Definition skip_0x (base : Z) (s : list ascii) : list ascii :=
  match s with
  | "0"%char :: x :: c :: rest =>
    if (base =? 16)%Z && (bool_decide (x = "x"%char) || bool_decide (x = "X"%char)) && isxdigit c
    then c :: rest else s
  | _ => s
  end.

(** [strtol] before it clamps: [None] when there is no digit to convert. *)
Definition strtol (base : Z) (s : string) : option Z :=
  let '(sign, rest) := read_sign (skip_spaces (chars s)) in
  match digits_prefix base (skip_0x base rest) with
  | [] => None
  | ds => Some (sign * digits_value base ds)%Z
  end.

Definition invalid_argument : string := "std::invalid_argument: stoi".
Definition out_of_range : string := "std::out_of_range: stoi".

Definition stoi (base : Z) (s : string) : outcome Z :=
  match strtol base s with
  | None => Threw invalid_argument
  | Some v => if (- 2 ^ 31 <=? v)%Z && (v <? 2 ^ 31)%Z then Returned v else Threw out_of_range
  end.

(** ** [double] *)

Abbreviation double := spec_float.
Definition double_of_int (z : Z) : double := binary_normalize 53 1024 z 0 false.
Definition double_add : double → double → double := SFadd 53 1024.
Definition double_mul : double → double → double := SFmul 53 1024.
Definition double_div : double → double → double := SFdiv 53 1024.
Definition double_sub : double → double → double := SFsub 53 1024.
Definition double_lt : double → double → bool := SFltb.
Definition double_le : double → double → bool := SFleb.
(** [std::max(a, b)] and [std::min(a, b)] *)
Definition double_max (a b : double) : double := if double_lt a b then b else a.
Definition double_min (a b : double) : double := if double_lt b a then b else a.


(** The value of the literal [n / d] in the source, for [n] and [d] below
    2^53: the correctly rounded quotient. *)
Definition double_lit (n d : Z) : double := double_div (double_of_int n) (double_of_int d).

(** [std::to_string(double)], the format [%f]: six decimals, the exact value
    rounded to the nearest, ties to even. *)
Definition div_half_even (a b : Z) : Z :=
  let q := (a / b)%Z in
  match (2 * (a mod b) ?= b)%Z with
  | Lt => q | Gt => (q + 1)%Z | Eq => if Z.even q then q else (q + 1)%Z
  end.
Definition millionths (m : positive) (e : Z) : Z :=
  if (0 <=? e)%Z then (Zpos m * 10 ^ 6 * 2 ^ e)%Z else div_half_even (Zpos m * 10 ^ 6) (2 ^ (- e)).
Definition pad_zeros (n : nat) (s : string) : string := of_chars (replicate (n - String.length s) "0"%char) +:+ s.
Definition double_to_string (d : double) : string :=
  match d with
  | S754_zero s => (if s then "-" else "") +:+ "0.000000"
  | S754_infinity s => (if s then "-" else "") +:+ "inf"
  | S754_nan => "nan"
  | S754_finite s m e =>
    let n := millionths m e in
    (if s then "-" else "") +:+ to_string (n / 10 ^ 6) +:+ "." +:+ pad_zeros 6 (to_string (n mod 10 ^ 6))
  end.

Example percentile_string : double_to_string (double_lit 995 10) = "99.500000".
Proof. vm_compute. reflexivity. Qed.

Example stoi_examples :
  stoi 16 "ff" = Returned 255%Z ∧ stoi 16 "0x" = Returned 0%Z ∧ stoi 16 "-1" = Returned (-1)%Z
  ∧ stoi 16 "g0" = Threw invalid_argument ∧ stoi 10 " 42x" = Returned 42%Z
  ∧ stoi 10 "99999999999" = Threw out_of_range.
Proof. by vm_compute. Qed.

(** ** Two hexadecimal digits *)

Lemma isxdigit_cases c :
  isxdigit c = true →
  digit_in 16 c = Some (hex_val c) ∧ (0 ≤ hex_val c < 16)%Z
  ∧ isspace c = false ∧ c ≠ "-"%char ∧ c ≠ "+"%char.
Proof. destruct c as [[] [] [] [] [] [] [] []]; vm_compute; intros; split_all; done. Qed.

Lemma isxdigit_not_x c : isxdigit c = true → c ≠ "x"%char ∧ c ≠ "X"%char.
Proof. by split; intros ->. Qed.

Lemma read_sign_xdigit c s : isxdigit c = true → read_sign (c :: s) = (1%Z, c :: s).
Proof. destruct c as [[] [] [] [] [] [] [] []]; vm_compute; intros; done. Qed.

(** [std::stoi(byte_str, nullptr, 16)] on two hexadecimal digits. *)
Lemma stoi_hex_pair a b :
  isxdigit a = true → isxdigit b = true →
  stoi 16 (of_chars [a; b]) = Returned (hex_val a * 16 + hex_val b)%Z.
Proof.
  intros Ha Hb.
  destruct (isxdigit_cases a Ha) as (Hda & Hba & Hsa & _).
  destruct (isxdigit_cases b Hb) as (Hdb & Hbb & _).
  unfold stoi, strtol. rewrite chars_of_chars. cbn [skip_spaces]. rewrite Hsa.
  rewrite read_sign_xdigit by done.
  assert (skip_0x 16 [a; b] = [a; b]) as ->.
  { unfold skip_0x. by destruct a as [[] [] [] [] [] [] [] []]. }
  cbn [digits_prefix]. rewrite Hda, Hdb.
  assert (digits_value 16 [hex_val a; hex_val b] = hex_val a * 16 + hex_val b)%Z as ->.
  { unfold digits_value. simpl. lia. }
  rewrite Z.mul_1_l. case_match eqn:Hr; [done|].
  apply andb_false_iff in Hr as [Hr|Hr]; rewrite ?Z.leb_gt, ?Z.ltb_ge in Hr; lia.
Qed.

(** ** [std::to_string] *)

Definition isdigit (c : ascii) : bool := in_range "0" "9" c.
Definition digit_val (c : ascii) : Z := (byte_val c - 48)%Z.

Lemma pretty_N_char_spec d :
  (d < 10)%N → isdigit (pretty_N_char d) = true ∧ digit_val (pretty_N_char d) = Z.of_N d.
Proof.
  intros Hd. assert (d = 0 ∨ d = 1 ∨ d = 2 ∨ d = 3 ∨ d = 4 ∨ d = 5 ∨ d = 6 ∨ d = 7 ∨ d = 8 ∨ d = 9)%N by lia.
  naive_solver.
Qed.

Lemma pretty_N_go_digits x s :
  ∃ l, chars (pretty_N_go x s) = l ++ chars s ∧ forallb isdigit l = true
       ∧ digits_value 10 (digit_val <$> l) = Z.of_N x ∧ (x ≠ 0%N → l ≠ []).
Proof.
  revert s. induction (N.lt_wf_0 x) as [x _ IH]; intros s.
  destruct (decide (x = 0%N)) as [->|Hx]; [by exists []|].
  rewrite pretty_N_go_step by lia.
  assert (x mod 10 < 10)%N as Hm by (apply N.mod_lt; lia).
  destruct (pretty_N_char_spec _ Hm) as [Hd Hv].
  destruct (IH (x `div` 10)%N (N.div_lt x 10 ltac:(lia) ltac:(done))
              (String (pretty_N_char (x `mod` 10)) s)) as (l & Hl & Hf & Hval & _).
  exists (l ++ [pretty_N_char (x `mod` 10)]). split_all.
  - rewrite Hl. simpl. by rewrite <-(assoc_L app).
  - rewrite forallb_app, Hf. cbn [forallb]. by rewrite Hd.
  - rewrite fmap_app, digits_value_app, Hval. cbn [fmap list_fmap length].
    rewrite Hv. unfold digits_value. simpl. rewrite N2Z.inj_div, N2Z.inj_mod.
    pose proof (Z.div_mod (Z.of_N x) 10). lia.
  - by destruct l.
Qed.

(** The decimal notation of a natural number. *)
Lemma pretty_N_digits (x : N) :
  forallb isdigit (chars (pretty x)) = true ∧ digits_value 10 (digit_val <$> chars (pretty x)) = Z.of_N x
  ∧ chars (pretty x) ≠ [].
Proof.
  unfold pretty, pretty_N. case_decide; [by subst|].
  destruct (pretty_N_go_digits x "") as (l & -> & Hf & Hv & Hn). rewrite app_nil_r. auto.
Qed.

Lemma isdigit_cases c :
  isdigit c = true → digit_in 10 c = Some (digit_val c) ∧ isspace c = false ∧ c ≠ "-"%char ∧ c ≠ "+"%char.
Proof. destruct c as [[] [] [] [] [] [] [] []]; vm_compute; intros; split_all; done. Qed.

Lemma digits_prefix_digits l : forallb isdigit l = true → digits_prefix 10 l = digit_val <$> l.
Proof.
  induction l as [|c l IH]; [done|]. cbn [forallb]. intros [Hc Hl]%andb_true_iff.
  destruct (isdigit_cases c Hc) as (Hd & _). cbn [digits_prefix fmap list_fmap]. by rewrite Hd, IH.
Qed.

Lemma skip_0x_10 s : skip_0x 10 s = s.
Proof. unfold skip_0x. by repeat case_match. Qed.

Lemma read_sign_digit c s : isdigit c = true → read_sign (c :: s) = (1%Z, c :: s).
Proof. destruct c as [[] [] [] [] [] [] [] []]; vm_compute; intros; done. Qed.

(** Reading back a printed number. *)
Lemma strtol_to_string z : strtol 10 (to_string z) = Some z.
Proof.
  unfold strtol, to_string, pretty, pretty_Z.
  assert (∀ p, let l := chars (pretty (Npos p)) in
    skip_spaces l = l ∧ read_sign l = (1%Z, l)
    ∧ ∃ d ds, digits_prefix 10 l = d :: ds ∧ digits_value 10 (d :: ds) = Zpos p) as Hpos.
  { intros p l. destruct (pretty_N_digits (Npos p)) as (Hf & Hv & Hn). fold l in Hf, Hv, Hn.
    destruct l as [|c l']; [done|]. pose proof Hf as Hf'. cbn [forallb] in Hf'.
    apply andb_true_iff in Hf' as [Hc _]. destruct (isdigit_cases c Hc) as (_ & Hs & _).
    cbn [skip_spaces]. rewrite Hs, read_sign_digit, digits_prefix_digits by done.
    split_all; [done..|]. rewrite fmap_cons in *. eauto. }
  destruct z as [|p|p]; [done|..].
  - destruct (Hpos p) as (Hsp & Hsi & d & ds & Hd & Hv).
    change (pretty p) with (pretty (Npos p)). rewrite Hsp, Hsi, skip_0x_10, Hd, Hv. f_equal.
  - destruct (Hpos p) as (_ & _ & d & ds & Hd & Hv).
    change (pretty p) with (pretty (Npos p)). rewrite chars_append.
    change (chars "-" ++ chars (pretty (Npos p))) with ("-"%char :: chars (pretty (Npos p))).
    cbn [skip_spaces]. change (isspace "-") with false. cbn [read_sign].
    rewrite skip_0x_10, Hd, Hv. f_equal.
Qed.

Lemma stoi_to_string z : (- 2 ^ 31 ≤ z < 2 ^ 31)%Z → stoi 10 (to_string z) = Returned z.
Proof.
  intros Hz. unfold stoi. rewrite strtol_to_string. case_match eqn:Hr; [done|].
  apply andb_false_iff in Hr as [Hr|Hr]; rewrite ?Z.leb_gt, ?Z.ltb_ge in Hr; lia.
Qed.

(** The characters of a printed number. *)
Lemma to_string_chars z :
  forallb (λ c, isdigit c || bool_decide (c = "-"%char)) (chars (to_string z)) = true
  ∧ chars (to_string z) ≠ [].
Proof.
  assert (∀ x : N, forallb (λ c, isdigit c || bool_decide (c = "-"%char)) (chars (pretty x)) = true) as HN.
  { intros x. destruct (pretty_N_digits x) as (Hf & _). rewrite forallb_forall in *.
    intros c Hc. by rewrite (Hf c Hc). }
  unfold to_string, pretty, pretty_Z. destruct z as [|p|p]; [done|..].
  - split; [apply (HN (Npos p)) | apply (pretty_N_digits (Npos p))].
  - change (pretty p) with (pretty (Npos p)). rewrite chars_append, forallb_app, HN. done.
Qed.

(** ** Integers as doubles *)

Lemma digits2_size p : digits2_pos p = Pos.size p.
Proof. induction p; simpl; congruence. Qed.

Lemma digits2_iter p k : Zpos (digits2_pos (Pos.iter xO p k)) = (Zpos (digits2_pos p) + Zpos k)%Z.
Proof. induction k as [|k IH] using Pos.peano_ind; [simpl; lia|]. rewrite Pos.iter_succ. simpl. lia. Qed.

Lemma digits2_bound p (k : positive) : (Zpos p < 2 ^ Zpos k)%Z → (Zpos (digits2_pos p) ≤ Zpos k)%Z.
Proof.
  intros Hp. rewrite digits2_size. destruct (decide (Pos.size p ≤ k)%positive) as [Hle|Hgt]; [lia|].
  pose proof (Pos.size_le p) as Hs. apply Pos2Z.pos_le_pos in Hs. rewrite Pos2Z.inj_pow in Hs. change (Zpos p~0) with (2 * Zpos p)%Z in Hs.
  assert (2 ^ Z.succ (Zpos k) ≤ 2 ^ Zpos (Pos.size p))%Z as Hpow by (apply Z.pow_le_mono_r; lia).
  rewrite Z.pow_succ_r in Hpow by lia. lia.
Qed.

(** Rounding leaves a mantissa of 53 bits as it is. *)
Lemma round_exact m e : Zpos (digits2_pos m) = 53%Z → (-1074 ≤ e ≤ 971)%Z →
  binary_round_aux 53 1024 false (Zpos m) e loc_Exact = S754_finite false m e.
Proof.
  intros Hd He. unfold binary_round_aux, shr_fexp.
  assert (Hz : (fexp 53 1024 (Zdigits2 (Zpos m) + e) - e = 0)%Z).
  { unfold fexp, emin. change (Zdigits2 (Zpos m)) with (Zpos (digits2_pos m)). rewrite Hd. lia. }
  rewrite Hz. simpl shr. cbn [shr_m shr_record_of_loc loc_of_shr_record round_nearest_even]. rewrite Hz. simpl shr.
  cbn [shr_m shr_record_of_loc]. by rewrite (proj2 (Z.leb_le _ _)) by lia.
Qed.

(** A positive integer below 2^53 is a finite double: its binary digits,
    shifted to a mantissa of 53 bits. *)
Lemma double_of_pos p : (Zpos p < 2 ^ 53)%Z →
  ∃ m e, double_of_int (Zpos p) = S754_finite false m e ∧ (e ≤ 0)%Z ∧ Zpos m = (Zpos p * 2 ^ (- e))%Z
         ∧ Zpos (digits2_pos m) = 53%Z.
Proof.
  intros Hp%(digits2_bound p 53). unfold double_of_int, binary_normalize, binary_round, shl_align.
  assert (Hf : (fexp 53 1024 (Zpos (digits2_pos p) + 0) - 0 = Zpos (digits2_pos p) - 53)%Z).
  { unfold fexp, emin. lia. }
  rewrite Hf. destruct (Zpos (digits2_pos p) - 53)%Z as [|q|k] eqn:Hk; [|lia|].
  - exists p, 0%Z. rewrite round_exact by lia. split_all; lia || done.
  - replace (fexp 53 1024 (Zpos (digits2_pos p) + 0)) with (Zneg k) by lia.
    exists (Pos.iter xO p k), (Zneg k). pose proof (digits2_iter p k) as Hd.
    rewrite round_exact by lia. split_all; [done|lia| |lia].
    change (- Zneg k)%Z with (Zpos k). clear. induction k as [|k IH] using Pos.peano_ind; [simpl; lia|].
    rewrite Pos.iter_succ, Pos2Z.inj_xO, IH. replace (Zpos (Pos.succ k)) with (Z.succ (Zpos k)) by lia.
    rewrite Z.pow_succ_r by lia. lia.
Qed.

(** Nothing out of [n] is zero. *)
Lemma zero_share (n : Z) : (0 < n < 2 ^ 53)%Z → double_div (double_of_int 0) (double_of_int n) = double_of_int 0.
Proof.
  intros Hn. destruct n as [|p|p]; [lia| |lia]. destruct (double_of_pos p) as (m & e & -> & _); [lia|]. done.
Qed.
