(* ===== verification/SmartCrawler.v ===== *)
(** * The smart DHT crawler and the BEP 51 indexer

    Models [src/src/smart_dht_crawler.hpp] ([RateLimitedDHTManager],
    [PassiveObservationManager] and [SmartDHTCrawler]) and
    [src/src/bep51_dht_indexer.hpp] ([BEP51DHTIndexer]).

    The rate limiter keeps the times of the queries it let through in a FIFO
    queue and drops those older than one second before it counts them; the
    main theorem is that no closed interval of one second ever holds more
    queries than the limit.  Event counters are unbounded integers; the
    limits, which come from callers, are [int]s compared as [size_t]. *)

From S2P Require Import Prelude World HashFormat Numeric.

(** ** [RateLimitedDHTManager] *)

Record rate_limiter := mk_rate_limiter {
  m_query_timestamps : list Z;
  m_queries_per_second : Z;
  m_burst_limit : Z;
  m_burst_window_ms : Z;
  rl_total_queries : Z;
  m_blocked_queries : Z;
}.
#[export] Instance eta_rate_limiter : Eta rate_limiter :=
  λ r, mk_rate_limiter (m_query_timestamps r) (m_queries_per_second r) (m_burst_limit r)
         (m_burst_window_ms r) (rl_total_queries r) (m_blocked_queries r).

Definition new_rate_limiter : rate_limiter := mk_rate_limiter [] 10 50 5000 0 0.

(** The loop that pops timestamps older than one second off the front. *)
Fixpoint clean_old_timestamps (now : Z) (ts : list Z) : list Z :=
  match ts with
  | [] => []
  | t :: rest => if (seconds 1 <? now - t)%Z then clean_old_timestamps now rest else ts
  end.

(** The loop over [temp_queue]. *)
Fixpoint count_burst (burst_start : Z) (temp_queue : list Z) : Z :=
  match temp_queue with
  | [] => 0
  | timestamp :: rest =>
    ((if (burst_start <? timestamp)%Z then 1 else 0) + count_burst burst_start rest)%Z
  end.

Definition set_rate_limit (queries_per_second : Z) (r : rate_limiter) : rate_limiter :=
  r <| m_queries_per_second := queries_per_second |>.
Definition set_burst_limit (burst_limit window_ms : Z) (r : rate_limiter) : rate_limiter :=
  r <| m_burst_limit := burst_limit |> <| m_burst_window_ms := window_ms |>.

(** [get_block_rate]: an [int] division in [double]. *)
Definition get_block_rate (r : rate_limiter) : double :=
  if (0 <? rl_total_queries r)%Z
  then double_div (double_of_int (m_blocked_queries r)) (double_of_int (rl_total_queries r))
  else double_of_int 0.

Section RateLimiter.
Context {W H : Type} `{Session W H}.

(** The call of the session [query_type] selects; other types send nothing
    and count as sent. *)
Definition issue_query (target query_type : string) (w : W) : outcome unit * W :=
  if decide (query_type = "get_peers") then dht_get_peers target w
  else if decide (query_type = "get_item") then dht_get_item target w
  else (Returned tt, w).

Definition send_query (target query_type : string) (r : rate_limiter) (w : W)
    : bool * rate_limiter * W :=
  let '(now, w) := steady_now w in
  let r := r <| m_query_timestamps ::= clean_old_timestamps now |> in
  if (size_t_of_int (m_queries_per_second r) <=? Z.of_nat (length (m_query_timestamps r)))%Z then
    (false, r <| m_blocked_queries ::= Z.succ |>, w)
  else
    let burst_start := (now - milliseconds (m_burst_window_ms r))%Z in
    let burst_count := count_burst burst_start (m_query_timestamps r) in
    if (m_burst_limit r <=? burst_count)%Z then
      (false, r <| m_blocked_queries ::= Z.succ |>, w)
    else
      let '(res, w) := issue_query target query_type w in
      match res with
      | Returned _ =>
        (true, r <| m_query_timestamps ::= (λ ts, ts ++ [now]) |>
                 <| rl_total_queries ::= Z.succ |>, w)
      | Threw _ => (false, r, w)
      end.

End RateLimiter.

(** ** [PassiveObservationManager] *)

Record ObservedInfo := mk_ObservedInfo {
  oi_infohash : string;
  oi_source : string;
  oi_observed_time : Z;
  oi_peer_count : Z;
  oi_peer_addresses : list string;
}.

Record observer := mk_observer {
  m_observations : list ObservedInfo;
  m_unique_infohashes_set : gset string;
  m_total_observations : Z;
  m_unique_infohashes : Z;
}.
#[export] Instance eta_observer : Eta observer :=
  λ o, mk_observer (m_observations o) (m_unique_infohashes_set o) (m_total_observations o)
         (m_unique_infohashes o).

Definition new_observer : observer := mk_observer [] ∅ 0 0.

(** [record_observation], the observation made at time [oi_observed_time]. *)
Definition record_observation (info : ObservedInfo) (o : observer) : observer :=
  let o := o <| m_observations ::= (λ l, l ++ [info]) |> in
  let o := o <| m_total_observations ::= Z.succ |> in
  let o := if decide (oi_infohash info ∈ m_unique_infohashes_set o) then o
           else o <| m_unique_infohashes_set ::= ({[oi_infohash info]} ∪.) |>
                  <| m_unique_infohashes ::= Z.succ |> in
  if (1000 <? length (m_observations o)) then o <| m_observations ::= tail |> else o.

Definition get_high_value_infohashes (min_peers : Z) (o : observer) : list string :=
  oi_infohash <$> filter (λ i, (min_peers ≤ oi_peer_count i)%Z) (m_observations o).

Definition get_recent_infohashes (now mins : Z) (o : observer) : list string :=
  let cutoff := (now - minutes mins)%Z in
  oi_infohash <$> filter (λ i, (cutoff < oi_observed_time i)%Z) (m_observations o).

(** The loop of [print_statistics] that counts observations by source. *)
Definition source_counts (o : observer) : gmap string Z :=
  foldl (λ m i, <[oi_source i := (default 0 (m !! oi_source i) + 1)%Z]> m) ∅ (m_observations o).

(** ** [SmartDHTCrawler] *)

Record smart_crawler := mk_smart_crawler {
  m_rate_limiter : rate_limiter;
  m_passive_observer : observer;
  m_adaptive_rate : bool;
  m_base_rate : Z;
  m_max_rate : Z;
  m_success_threshold : double;
}.
#[export] Instance eta_smart_crawler : Eta smart_crawler :=
  λ s, mk_smart_crawler (m_rate_limiter s) (m_passive_observer s) (m_adaptive_rate s)
         (m_base_rate s) (m_max_rate s) (m_success_threshold s).

Definition new_smart_crawler : smart_crawler :=
  mk_smart_crawler new_rate_limiter new_observer true 5 20 (double_lit 1 10).

(** [current_rate] is read from [get_total_queries]. *)
Definition adjust_rate_based_on_success (success_rate : double) (s : smart_crawler) : smart_crawler :=
  if negb (m_adaptive_rate s) then s
  else if double_lt (m_success_threshold s) success_rate then
    let current_rate := rl_total_queries (m_rate_limiter s) in
    if (current_rate <? m_max_rate s)%Z
    then s <| m_rate_limiter ::= set_rate_limit (current_rate + 1) |> else s
  else if double_lt success_rate (double_div (m_success_threshold s) (double_of_int 2)) then
    let current_rate := rl_total_queries (m_rate_limiter s) in
    if (m_base_rate s <? current_rate)%Z
    then s <| m_rate_limiter ::= set_rate_limit (current_rate - 1) |> else s
  else s.

Definition get_priority_infohashes (now : Z) (s : smart_crawler) : list string :=
  let high_value := get_high_value_infohashes 3 (m_passive_observer s) in
  let recent := get_recent_infohashes now 10 (m_passive_observer s) in
  set_iter (list_to_set high_value ∪ list_to_set recent).

(** The loop that reads twenty pairs of digits into [target]; [std::stoi]
    throws on a pair with no leading digit, and its value is cast to
    [unsigned char]. *)
Fixpoint hex_pairs_to_bytes (n i : nat) (hash_str : string) : outcome (list ascii) :=
  match n with
  | O => Returned []
  | S n =>
    match stoi 16 (substr (i * 2) 2 hash_str) with
    | Threw e => Threw e
    | Returned v =>
      match hex_pairs_to_bytes n (i + 1) hash_str with
      | Threw e => Threw e
      | Returned rest => Returned (byte_of v :: rest)
      end
    end
  end.
Definition hex_to_target (hash_str : string) : outcome string :=
  match hex_pairs_to_bytes 20 0 hash_str with
  | Returned bytes => Returned (of_chars bytes)
  | Threw e => Threw e
  end.

Section Smart.
Context {W H : Type} `{Session W H} (rand : W → Z * W).

(** [n] bytes [rand() % 256]. *)
Fixpoint random_bytes (n : nat) (w : W) : list ascii * W :=
  match n with
  | O => ([], w)
  | S n => let '(v, w) := rand w in
           let '(rest, w) := random_bytes n w in (byte_of v :: rest, w)
  end.

(** The loop over the priority hashes; an exception of [std::stoi] leaves
    the loop and the function. *)
Fixpoint query_priority_hashes (hashes : list string) (r : rate_limiter) (w : W)
    : outcome unit * rate_limiter * W :=
  match hashes with
  | [] => (Returned tt, r, w)
  | hash_str :: rest =>
    if String.length hash_str =? 40 then
      match hex_to_target hash_str with
      | Threw e => (Threw e, r, w)
      | Returned target =>
        let '(_, r, w) := send_query target "get_peers" r w in
        query_priority_hashes rest r w
      end
    else query_priority_hashes rest r w
  end.

Fixpoint send_random_queries (n : nat) (r : rate_limiter) (w : W) : rate_limiter * W :=
  match n with
  | O => (r, w)
  | S n =>
    let '(bytes, w) := random_bytes 20 w in
    let '(_, r, w) := send_query (of_chars bytes) "get_peers" r w in
    send_random_queries n r w
  end.

Definition send_smart_queries (s : smart_crawler) (w : W) : outcome unit * smart_crawler * W :=
  let '(now, w) := steady_now w in
  let priority_hashes := get_priority_infohashes now s in
  let '(res, r, w) := query_priority_hashes priority_hashes (m_rate_limiter s) w in
  match res with
  | Threw e => (Threw e, s <| m_rate_limiter := r |>, w)
  | Returned _ =>
    let '(r, w) := match priority_hashes with
                   | [] => send_random_queries 3 r w
                   | _ => (r, w)
                   end in
    (Returned tt, s <| m_rate_limiter := r |>, w)
  end.

Definition record_incoming_observation (infohash source : string) (peer_count : Z)
    (peers : list string) (s : smart_crawler) (w : W) : smart_crawler * W :=
  let '(now, w) := steady_now w in
  (s <| m_passive_observer ::=
       record_observation (mk_ObservedInfo infohash source now peer_count peers) |>, w).

End Smart.

(** ** [BEP51DHTIndexer] *)

Record BEP51Response := mk_BEP51Response {
  br_infohashes : list string;
  br_nodes : list string;
  br_interval : Z;
  br_num_total : Z;
}.

Record BEP51DHTIndexer := mk_BEP51DHTIndexer {
  bep_total_queries : Z;
  bep_successful_queries : Z;
  m_infohashes_collected : Z;
  m_collected_infohashes : gset string;
  m_known_nodes : gset string;
  transaction_counter : Z;
}.
#[export] Instance eta_BEP51DHTIndexer : Eta BEP51DHTIndexer :=
  λ b, mk_BEP51DHTIndexer (bep_total_queries b) (bep_successful_queries b)
         (m_infohashes_collected b) (m_collected_infohashes b) (m_known_nodes b)
         (transaction_counter b).

Definition new_BEP51DHTIndexer : BEP51DHTIndexer := mk_BEP51DHTIndexer 0 0 0 ∅ ∅ 0.

(** The query as the bencoded dictionary's entries. *)
Record bep51_query := mk_bep51_query {
  q_y : string; q_q : string; q_t : string; q_id : string; q_target : string;
}.

Section Bep51.
Context {W : Type} (rand : W → Z * W).
(** [session::dht_put_item], which may throw. *)
Context (dht_put_item : bep51_query → W → outcome unit * W).

Definition generate_transaction_id (b : BEP51DHTIndexer) : string * BEP51DHTIndexer :=
  (to_string (transaction_counter b), b <| transaction_counter ::= Z.succ |>).
Definition generate_random_id (w : W) : string * W :=
  let '(bytes, w) := random_bytes rand 20 w in (of_chars bytes, w).

Definition query_sample_infohashes (session : bool) (node_id target_id : string)
    (b : BEP51DHTIndexer) (w : W) : bool * BEP51DHTIndexer * W :=
  if negb session then (false, b, w)
  else
    let '(tid, b) := generate_transaction_id b in
    let '(target, w) := if decide (target_id = "") then generate_random_id w else (target_id, w) in
    let '(res, w) := dht_put_item (mk_bep51_query "q" "sample_infohashes" tid node_id target) w in
    match res with
    | Returned _ => (true, b <| bep_total_queries ::= Z.succ |>, w)
    | Threw _ => (false, b, w)
    end.
End Bep51.

Definition handle_bep51_response (response : BEP51Response) (b : BEP51DHTIndexer) : BEP51DHTIndexer :=
  let b := b <| bep_successful_queries ::= Z.succ |> in
  let b := b <| m_infohashes_collected ::= Z.add (Z.of_nat (length (br_infohashes response))) |> in
  let b := b <| m_collected_infohashes ::= λ s, foldl (λ s h, {[h]} ∪ s) s (br_infohashes response) |> in
  b <| m_known_nodes ::= λ s,
       foldl (λ s n, if 20 <=? String.length n then {[substr 0 20 n]} ∪ s else s) s (br_nodes response) |>.

Definition get_collected_infohashes (b : BEP51DHTIndexer) : list string := set_iter (m_collected_infohashes b).
Definition get_known_nodes (b : BEP51DHTIndexer) : list string := set_iter (m_known_nodes b).

(** ** The rate limit *)

Section RateFacts.
Context {W H : Type} `{MonotoneClock W H}.
Implicit Types (r : rate_limiter) (w : W).

(** A run of the rate limiter: calls of [send_query], between which the
    world moves on by itself.  The last component records the times of the
    queries that were sent. *)
Inductive rl_step : rate_limiter * W * list Z → rate_limiter * W * list Z → Prop :=
  | rl_query target query_type r w sent b r' w' :
      send_query target query_type r w = (b, r', w') →
      rl_step (r, w, sent) (r', w', if b then sent ++ [(steady_now w).1] else sent)
  | rl_world r w w' sent :
      (reading w ≤ reading w')%Z → rl_step (r, w, sent) (r, w', sent).

(** The queries of the closed interval of one second that starts at [a]. *)
Definition in_window (a t : Z) : Prop := (a ≤ t ≤ a + seconds 1)%Z.
#[export] Instance in_window_dec a t : Decision (in_window a t).
Proof. unfold in_window. apply _. Defined.
Definition window_count (a : Z) (sent : list Z) : nat := length (filter (in_window a) sent).

Lemma clean_old_suffix now ts :
  ∃ old, ts = old ++ clean_old_timestamps now ts ∧ Forall (λ t, (t < now - seconds 1)%Z) old.
Proof.
  induction ts as [|t ts (old & Hts & Hold)]; [by exists []|]. cbn [clean_old_timestamps].
  destruct (Z.ltb_spec (seconds 1) (now - t)).
  - exists (t :: old). split; [simpl; by rewrite <-Hts | constructor; [lia | done]].
  - by exists [].
Qed.

Lemma window_count_app a l1 l2 : window_count a (l1 ++ l2) = window_count a l1 + window_count a l2.
Proof. unfold window_count. by rewrite filter_app, length_app. Qed.

Lemma window_count_old a now old :
  (now - seconds 1 ≤ a)%Z → Forall (λ t, (t < now - seconds 1)%Z) old → window_count a old = 0.
Proof.
  intros Ha Hold. unfold window_count. induction Hold as [|t old Ht _ IH]; [done|].
  rewrite filter_cons_False; [done|]. unfold in_window. lia.
Qed.

Lemma window_count_length a l : window_count a l ≤ length l.
Proof. apply length_filter. Qed.

(** Everything sent is still in the queue or more than a second old, and no
    window of one second is too full. *)
Definition rl_inv (q : Z) (st : rate_limiter * W * list Z) : Prop :=
  let '(r, w, sent) := st in
  m_queries_per_second r = q
  ∧ (∃ old, sent = old ++ m_query_timestamps r
            ∧ Forall (λ t, (t < reading w - seconds 1)%Z) old)
  ∧ ∀ a, (Z.of_nat (window_count a sent) ≤ q)%Z.

Lemma issue_query_mono target ty w : (reading w ≤ reading (issue_query target ty w).2)%Z.
Proof. unfold issue_query. cases; [apply dht_get_peers_mono | apply dht_get_item_mono | lia]. Qed.

(** The branches of [send_query]. *)
Lemma send_query_cases target ty r w b r' w' :
  send_query target ty r w = (b, r', w') →
  let now := (steady_now w).1 in
  let ts := clean_old_timestamps now (m_query_timestamps r) in
  m_queries_per_second r' = m_queries_per_second r ∧ (now ≤ reading w')%Z
  ∧ m_query_timestamps r' = (if b then ts ++ [now] else ts)
  ∧ (b = true → (Z.of_nat (length ts) < size_t_of_int (m_queries_per_second r))%Z).
Proof.
  unfold send_query. pose proof (steady_now_mono w) as [_ Hnow].
  destruct (steady_now w) as [now w1]. simpl in *.
  pose proof (issue_query_mono target ty w1) as Hiss.
  destruct (Z.leb_spec (size_t_of_int (m_queries_per_second r))
              (Z.of_nat (length (clean_old_timestamps now (m_query_timestamps r)))));
    [|case_match; [|destruct (issue_query target ty w1) as [[?|?] w2]]];
    intros; simplify_eq/=; split_all; auto; lia.
Qed.

Lemma rl_inv_step q st st' : (0 ≤ q < 2 ^ 64)%Z → rl_inv q st → rl_step st st' → rl_inv q st'.
Proof.
  intros Hq Hinv Hst. destruct Hst as [target ty r w sent b r' w' Hsq | r w w' sent Hw].
  - destruct Hinv as (Hr & (old & Hsent & Hold) & Hcount).
    destruct (send_query_cases _ _ _ _ _ _ _ Hsq) as (Hq' & Hw' & Hts & Hlen).
    pose proof (steady_now_mono w) as [Hmono _]. revert Hmono Hw' Hts Hlen.
    generalize (steady_now w).1 as now. intros now Hmono Hw' Hts Hlen.
    destruct (clean_old_suffix now (m_query_timestamps r)) as (old' & Hcl & Hold').
    set (ts := clean_old_timestamps now (m_query_timestamps r)) in *.
    assert (sent = (old ++ old') ++ ts) as Hs by (by rewrite Hsent, Hcl, (assoc_L app)).
    assert (Forall (λ t, (t < now - seconds 1)%Z) (old ++ old')) as Hall.
    { apply Forall_app. split; [|done]. eapply Forall_impl; [done|]. simpl. lia. }
    cbn [rl_inv]. split_all; [congruence| |].
    + exists (old ++ old'). split.
      * rewrite Hts, Hs. by destruct b; rewrite <-?(assoc_L app).
      * eapply Forall_impl; [done|]. simpl. lia.
    + intros a. destruct b; [|done]. rewrite window_count_app.
      destruct (decide (in_window a now)) as [Hin|Hin].
      * rewrite Hs, window_count_app, (window_count_old a now) by (unfold in_window in Hin; done || lia).
        pose proof (window_count_length a ts). pose proof (window_count_length a [now]) as Hnow1.
        simpl in Hnow1. specialize (Hlen eq_refl). rewrite Hr, size_t_of_int_nonneg in Hlen by lia. lia.
      * assert (window_count a [now] = 0) as ->; [|rewrite Nat.add_0_r; apply Hcount].
        unfold window_count. by rewrite filter_cons_False.
  - destruct Hinv as (Hr & (old & Hsent & Hold) & Hcount). cbn [rl_inv]. split_all; [done| |done].
    exists old. split; [done|]. eapply Forall_impl; [done|]. simpl. lia.
Qed.

Lemma rl_inv_reachable q st st' :
  (0 ≤ q < 2 ^ 64)%Z → rl_inv q st → rtc rl_step st st' → rl_inv q st'.
Proof. intros Hq Hinv Hrun. induction Hrun; [done|]. eauto using rl_inv_step. Qed.

(** C7: Whatever calls are made and however the clock advances, no closed
    interval of one second ever contains more sent queries than the limit of
    the rate limiter. *)
Theorem rate_limit_window (w : W) st a r :
  m_query_timestamps r = [] → (0 ≤ m_queries_per_second r < 2 ^ 31)%Z →
  rtc rl_step (r, w, []) st →
  (Z.of_nat (window_count a st.2) ≤ m_queries_per_second r)%Z.
Proof.
  intros Hts Hq Hrun.
  assert (rl_inv (m_queries_per_second r) (r, w, [])) as Hinv.
  { cbn [rl_inv]. split_all; [done | by exists []; rewrite Hts | intros a0; change (window_count a0 []) with 0; lia]. }
  assert (0 ≤ m_queries_per_second r < 2 ^ 64)%Z as Hq64 by lia.
  pose proof (rl_inv_reachable _ _ st Hq64 Hinv Hrun) as Hinv'.
  destruct st as [[r' w'] sent]. apply Hinv'.
Qed.
End RateFacts.

(** A run on the simulated world: twelve queries in a row, of which the last
    two are blocked. *)
Definition sim_query (st : rate_limiter * Sim.world * list Z) : rate_limiter * Sim.world * list Z :=
  let '(r, w, sent) := st in
  let '(b, r', w') := send_query "target" "get_peers" r w in
  (r', w', if b then sent ++ [(steady_now w).1] else sent).
Definition sim_queries (n : nat) : rate_limiter * Sim.world * list Z :=
  Nat.iter n sim_query (new_rate_limiter, Sim.initial 0, []).

Lemma sim_queries_run n : rtc rl_step (sim_queries 0) (sim_queries n).
Proof.
  induction n as [|n IH]; [done|]. eapply rtc_r; [exact IH|].
  change (sim_queries (S n)) with (sim_query (sim_queries n)).
  destruct (sim_queries n) as [[r w] sent]. unfold sim_query.
  destruct (send_query "target" "get_peers" r w) as [[b r'] w'] eqn:Hq.
  exact (rl_query _ _ r w sent b r' w' Hq).
Qed.

Lemma rate_limit_window_witness :
  window_count (milliseconds 1) (sim_queries 12).2 = 10
  ∧ (Z.of_nat (window_count (milliseconds 1) (sim_queries 12).2) ≤ 10)%Z.
Proof.
  split; [by vm_compute|].
  apply (rate_limit_window (Sim.initial 0) (sim_queries 12) (milliseconds 1) new_rate_limiter);
    [done | by vm_compute | exact (sim_queries_run 12)].
Defined.

(** ** The burst limit *)

Lemma count_burst_bound start ts : (0 ≤ count_burst start ts ≤ Z.of_nat (length ts))%Z.
Proof. induction ts as [|t ts IH]; simpl; [lia|]. case_match; lia. Qed.

(** As long as the burst limit is not below the rate limit the burst
    check never blocks a query: changing the burst window changes neither
    the result nor the state otherwise.  The constructor's limits (50 against
    10) are such limits, so the five-second window is never enforced. *)
Theorem burst_check_redundant {W H : Type} `{Session W H} target query_type r (w : W) window :
  (0 ≤ m_queries_per_second r < 2 ^ 31)%Z → (m_queries_per_second r ≤ m_burst_limit r)%Z →
  let '(b, r1, w1) := send_query target query_type r w in
  send_query target query_type (set_burst_limit (m_burst_limit r) window r) w
  = (b, set_burst_limit (m_burst_limit r) window r1, w1).
Proof.
  intros Hq Hb. unfold send_query, set_burst_limit. simpl.
  destruct (steady_now w) as [now w1]. rewrite size_t_of_int_nonneg by lia.
  destruct (Z.leb_spec (m_queries_per_second r)
              (Z.of_nat (length (clean_old_timestamps now (m_query_timestamps r))))); simpl; [done|].
  assert (∀ start, (m_burst_limit r <=? count_burst start
            (clean_old_timestamps now (m_query_timestamps r)))%Z = false) as Hburst.
  { intros start. apply Z.leb_gt.
    pose proof (count_burst_bound start (clean_old_timestamps now (m_query_timestamps r))). lia. }
  rewrite !Hburst. by destruct (issue_query target query_type w1) as [[?|?] w2].
Qed.

Lemma burst_check_redundant_witness :
  let r := (sim_queries 9).1.1 in let w := (sim_queries 9).1.2 in
  (send_query "target" "get_peers" r w).1.1 = true
  ∧ let '(b, r1, w1) := send_query "target" "get_peers" r w in
    send_query "target" "get_peers" (set_burst_limit (m_burst_limit r) 1 r) w
    = (b, set_burst_limit (m_burst_limit r) 1 r1, w1).
Proof.
  intros r w. split; [by vm_compute|].
  apply (burst_check_redundant "target" "get_peers" r w 1); vm_compute; [by split | discriminate].
Defined.

(** ** The adaptive rate *)

(** [adjust_rate_based_on_success] takes the number of queries sent so
    far for the current rate: a poor success rate raises the limit as soon as
    more than limit + 1 queries were sent, and a good one lowers it while
    fewer than limit - 1 were. *)
Theorem adjust_rate_follows_total s success_rate :
  let limit s := m_queries_per_second (m_rate_limiter s) in
  let total := rl_total_queries (m_rate_limiter s) in
  m_adaptive_rate s = true →
  (double_lt (m_success_threshold s) success_rate = false →
   double_lt success_rate (double_div (m_success_threshold s) (double_of_int 2)) = true →
   (m_base_rate s < total)%Z → (limit s + 1 < total)%Z →
   (limit s < limit (adjust_rate_based_on_success success_rate s))%Z)
  ∧ (double_lt (m_success_threshold s) success_rate = true →
     (total < m_max_rate s)%Z → (total + 1 < limit s)%Z →
     (limit (adjust_rate_based_on_success success_rate s) < limit s)%Z).
Proof.
  intros limit total Ha. unfold limit, adjust_rate_based_on_success. rewrite Ha. simpl. fold total.
  split.
  - intros -> -> Hb Hl. apply Z.ltb_lt in Hb as ->. simpl. lia.
  - intros -> Hm Hl. apply Z.ltb_lt in Hm as ->. simpl. lia.
Qed.

(** A success rate of one half lowers the limit of a fresh crawler. *)
Lemma adjust_rate_follows_total_witness :
  (m_queries_per_second (m_rate_limiter
     (adjust_rate_based_on_success (double_lit 1 2) new_smart_crawler)) < 10)%Z.
Proof.
  apply (adjust_rate_follows_total new_smart_crawler (double_lit 1 2)); by vm_compute.
Defined.

(** ** The passive observer *)

Definition observe (infos : list ObservedInfo) : observer :=
  foldl (λ o i, record_observation i o) new_observer infos.

Lemma observe_snoc infos i : observe (infos ++ [i]) = record_observation i (observe infos).
Proof. unfold observe. by rewrite foldl_app. Qed.

Lemma last_1000_snoc {A} (l : list A) x :
  (let l' := drop (length l - 1000) l ++ [x] in if 1000 <? length l' then tail l' else l')
  = drop (length (l ++ [x]) - 1000) (l ++ [x]).
Proof.
  cbv zeta. rewrite !length_app, length_drop. cbn [length].
  destruct (decide (length l < 1000)) as [Hs|Hs].
  - replace (length l - 1000) with 0 by lia. replace (length l + 1 - 1000) with 0 by lia.
    rewrite !drop_0. case_match eqn:Hb; [|done]. apply Nat.ltb_lt in Hb. lia.
  - case_match eqn:Hb; [|apply Nat.ltb_ge in Hb; lia].
    replace (length l + 1 - 1000) with (S (length l - 1000)) by lia.
    rewrite drop_app_le by lia.
    destruct (drop (length l - 1000) l) as [|y ys] eqn:Hd.
    + apply (f_equal length) in Hd. rewrite length_drop in Hd. simpl in Hd. lia.
    + simpl. f_equal. replace (S (length l - 1000)) with ((length l - 1000) + 1) by lia.
      by rewrite <-drop_drop, Hd.
Qed.

(** What the observer has kept of the observations made so far. *)
Lemma observe_spec infos :
  m_observations (observe infos) = drop (length infos - 1000) infos
  ∧ m_total_observations (observe infos) = Z.of_nat (length infos)
  ∧ m_unique_infohashes_set (observe infos) = list_to_set (oi_infohash <$> infos)
  ∧ m_unique_infohashes (observe infos) = Z.of_nat (size (m_unique_infohashes_set (observe infos))).
Proof.
  induction infos as [|i infos (IHo & IHt & IHs & IHu)] using rev_ind; [done|].
  rewrite observe_snoc, fmap_app, list_to_set_app_L, length_app.
  rewrite <-length_app, <-last_1000_snoc, length_app. cbn [length fmap list_fmap list_to_set].
  unfold record_observation. revert IHo IHt IHs IHu. generalize (observe infos) as o.
  intros [obs u tot uni]; simpl; intros -> -> -> ->.
  rewrite union_empty_r_L, (comm_L (∪)).
  case_decide; simpl; case_match; simpl; split_all; try lia; try done;
    try (symmetry; apply subseteq_union_1_L; set_solver);
    try (f_equal; f_equal; symmetry; apply subseteq_union_1_L; set_solver);
    rewrite size_union by set_solver; rewrite size_singleton; lia.
Qed.

(** After any observations, the priority hashes are exactly the hashes
    among the last thousand observations that were seen with three peers or
    more, or less than ten minutes ago, each once and in order; the number of
    unique hashes counts every hash ever observed. *)
Theorem priority_infohashes_spec infos s now :
  m_passive_observer s = observe infos →
  StronglySorted String.le (get_priority_infohashes now s) ∧ NoDup (get_priority_infohashes now s)
  ∧ (∀ h, h ∈ get_priority_infohashes now s ↔
       ∃ i, i ∈ drop (length infos - 1000) infos ∧ oi_infohash i = h
            ∧ (3 ≤ oi_peer_count i ∨ now - minutes 10 < oi_observed_time i)%Z)
  ∧ m_unique_infohashes (m_passive_observer s)
    = Z.of_nat (length (remove_dups (oi_infohash <$> infos))).
Proof.
  intros Hs. destruct (observe_spec infos) as (Ho & _ & Hset & Huniq).
  unfold get_priority_infohashes. split_all.
  - apply StronglySorted_merge_sort; apply _.
  - apply NoDup_set_iter.
  - intros h. rewrite elem_of_set_iter, elem_of_union, !elem_of_list_to_set.
    unfold get_high_value_infohashes, get_recent_infohashes. rewrite Hs, Ho.
    rewrite !list_elem_of_fmap. setoid_rewrite list_elem_of_filter. naive_solver.
  - rewrite Hs, Huniq, Hset. f_equal.
    assert (list_to_set (oi_infohash <$> infos) =@{gset string}
            list_to_set (remove_dups (oi_infohash <$> infos))) as ->.
    { apply set_eq. intros x. by rewrite !elem_of_list_to_set, elem_of_remove_dups. }
    apply size_list_to_set, NoDup_remove_dups.
Qed.

Definition sim_infos : list ObservedInfo :=
  [mk_ObservedInfo "b" "announce" 0 5 []; mk_ObservedInfo "a" "peer_reply" (minutes 15) 0 [];
   mk_ObservedInfo "c" "peer_reply" 0 1 []; mk_ObservedInfo "b" "peer_reply" 0 1 []].
Definition sim_observed : smart_crawler :=
  mk_smart_crawler new_rate_limiter (observe sim_infos) true 5 20 (double_lit 1 10).

Lemma priority_infohashes_spec_witness :
  get_priority_infohashes (minutes 20) sim_observed = ["a"; "b"]
  ∧ m_unique_infohashes (m_passive_observer sim_observed) = 3%Z.
Proof.
  split; [by vm_compute|].
  assert (m_passive_observer sim_observed = observe sim_infos) as Hs by (unfold sim_observed; reflexivity).
  destruct (priority_infohashes_spec sim_infos sim_observed (minutes 20) Hs) as (_ & _ & _ & Hu).
  rewrite Hu. by vm_compute.
Defined.

(** ** Targets *)

Lemma chars_substr n m s : chars (substr n m s) = take m (drop n (chars s)).
Proof.
  unfold substr. revert n m. induction s as [|c s IH]; intros [|n] [|m]; simpl; try done; rewrite IH; by rewrite ?drop_0.
Qed.

Lemma substr_pair s i a b rest : drop i (chars s) = a :: b :: rest → substr i 2 s = of_chars [a; b].
Proof. intros Hd. apply (inj chars). by rewrite chars_substr, Hd, chars_of_chars. Qed.

Lemma hex_pairs_spec s n i :
  2 * n ≤ length (drop (i * 2) (chars s)) → forallb isxdigit (chars s) = true →
  ∃ bytes, hex_pairs_to_bytes n i s = Returned bytes ∧ length bytes = n
    ∧ digits_value 256 (byte_val <$> bytes)
      = digits_value 16 (hex_val <$> take (2 * n) (drop (i * 2) (chars s))).
Proof.
  revert i. induction n as [|n IH]; intros i Hlen Hx; [by exists []|].
  destruct (drop (i * 2) (chars s)) as [|a [|b rest]] eqn:Hd; simpl in Hlen; try lia.
  assert (drop ((i + 1) * 2) (chars s) = rest) as Hrest.
  { replace ((i + 1) * 2) with (i * 2 + 2) by lia. by rewrite <-drop_drop, Hd. }
  assert (isxdigit a = true ∧ isxdigit b = true) as [Ha Hb].
  { rewrite forallb_forall in Hx. setoid_rewrite <-list_elem_of_In in Hx.
    rewrite <-(take_drop (i * 2) (chars s)), Hd in Hx.
    split; apply Hx; rewrite elem_of_app, !elem_of_cons; auto. }
  destruct (IH (i + 1)) as (bytes & Hb1 & Hb2 & Hb3); [rewrite Hrest; lia | done|].
  exists (byte_of (hex_val a * 16 + hex_val b) :: bytes).
  pose proof (isxdigit_cases a Ha) as (_ & Hva & _). pose proof (isxdigit_cases b Hb) as (_ & Hvb & _).
  cbn [hex_pairs_to_bytes]. rewrite (substr_pair _ _ _ _ _ Hd), stoi_hex_pair, Hb1 by done.
  split_all; [done | by simpl; rewrite Hb2|]. rewrite Hrest in Hb3.
  assert (length (take (2 * n) rest) = 2 * n) as Hl by (rewrite length_take; lia).
  replace (2 * S n) with (S (S (2 * n))) by lia. rewrite !firstn_cons.
  rewrite !fmap_cons, !digits_value_cons, Hb3. cbn [length]. rewrite !length_fmap, Hl, Hb2.
  rewrite byte_val_of by lia.
  rewrite Nat2Z.inj_succ, Z.pow_succ_r, Nat2Z.inj_mul, Z.pow_mul_r by lia.
  change (16 ^ Z.of_nat 2)%Z with 256%Z. ring.
Qed.

Lemma hex_to_target_spec s :
  hex40 s → ∃ t, hex_to_target s = Returned t ∧ String.length t = 20 ∧ bytes_value t = hex_value s.
Proof.
  intros [Hl Hx]. rewrite <-length_chars in Hl.
  destruct (hex_pairs_spec s 20 0) as (bytes & Hb & Hlb & Hv); [simpl; rewrite drop_0; lia | done|].
  exists (of_chars bytes). unfold hex_to_target, bytes_value, hex_value.
  rewrite Hb, length_of_chars, chars_of_chars. split_all; [done..|].
  rewrite Hv. simpl Nat.mul. by rewrite drop_0, take_ge by lia.
Qed.

(** The target a smart query is sent for is the info-hash its
    hexadecimal form denotes: reading back the 40 digits printed for a 20-byte
    hash gives that hash, and every 40-digit string is read as a 20-byte hash
    denoting the same number. *)
Theorem hex_to_target_roundtrip :
  (∀ t, String.length t = 20 → hex_to_target (binary_to_hex t) = Returned t)
  ∧ (∀ s, hex40 s → ∃ t, hex_to_target s = Returned t ∧ String.length t = 20
                        ∧ hex_value (binary_to_hex t) = hex_value s).
Proof.
  split.
  - intros t Ht. destruct (binary_to_hex_spec t) as (Hl & Hx & Hv).
    destruct (hex_to_target_spec (binary_to_hex t)) as (t' & Ht' & Hl' & Hv').
    { split; [lia | done]. }
    rewrite Ht'. f_equal. apply bytes_value_inj; [congruence | by rewrite Hv', Hv].
  - intros s Hs. destruct (hex_to_target_spec s Hs) as (t & Ht & Hl & Hv).
    exists t. split_all; [done..|]. destruct (binary_to_hex_spec t) as (_ & _ & ->). done.
Qed.

Lemma hex_to_target_roundtrip_witness :
  hex_to_target (binary_to_hex "01234567890123456789") = Returned "01234567890123456789".
Proof. by apply (proj1 hex_to_target_roundtrip). Defined.

(** ** Which hashes make [send_smart_queries] throw *)

Lemma query_priority_hashes_ok {W H : Type} `{Session W H} hashes r (w : W) :
  (∀ h, h ∈ hashes → String.length h = 40 → hex40 h) →
  (query_priority_hashes hashes r w).1.1 = Returned tt.
Proof.
  revert r w. induction hashes as [|h hashes IH]; intros r w Hh; [done|].
  cbn [query_priority_hashes].
  assert (∀ h, h ∈ hashes → String.length h = 40 → hex40 h) as Hrest by set_solver.
  destruct (Nat.eqb_spec (String.length h) 40) as [H40|_]; [|by apply IH].
  destruct (hex_to_target_spec h) as (t & -> & _); [set_solver|].
  destruct (send_query t "get_peers" r w) as [[? ?] ?]. by apply IH.
Qed.

(** [send_smart_queries] never throws as long as every observed hash of
    length 40 is hexadecimal, and it never touches the observations. *)
Theorem send_smart_queries_ok {W H : Type} `{Session W H} rand s (w : W) :
  (∀ i, i ∈ m_observations (m_passive_observer s) →
        String.length (oi_infohash i) = 40 → hex40 (oi_infohash i)) →
  (send_smart_queries rand s w).1.1 = Returned tt
  ∧ m_passive_observer (send_smart_queries rand s w).1.2 = m_passive_observer s.
Proof.
  intros Hobs. unfold send_smart_queries. destruct (steady_now w) as [now w1].
  pose proof (query_priority_hashes_ok (get_priority_infohashes now s) (m_rate_limiter s) w1) as Hok.
  destruct (query_priority_hashes _ _ _) as [[res r] w2]. simpl in Hok.
  rewrite Hok; [by destruct (match get_priority_infohashes now s with [] => _ | _ => _ end)|].
  intros h. unfold get_priority_infohashes, get_high_value_infohashes, get_recent_infohashes.
  rewrite elem_of_set_iter, elem_of_union, !elem_of_list_to_set, !list_elem_of_fmap.
  setoid_rewrite list_elem_of_filter. naive_solver.
Qed.

Definition sim_hash : string := "0123456789abcdef0123456789abcdef01234567".
Definition sim_smart : smart_crawler :=
  mk_smart_crawler new_rate_limiter
    (record_observation (mk_ObservedInfo sim_hash "announce" 0 5 []) new_observer) true 5 20
    (double_lit 1 10).

Lemma send_smart_queries_ok_witness :
  (send_smart_queries (λ w : Sim.world, (0%Z, w)) sim_smart (Sim.initial 0)).1.1 = Returned tt
  ∧ length (Sim.peers_queries (send_smart_queries (λ w : Sim.world, (0%Z, w)) sim_smart
              (Sim.initial 0)).2) = 1.
Proof.
  split; [|by vm_compute].
  apply (send_smart_queries_ok (λ w : Sim.world, (0%Z, w)) sim_smart (Sim.initial 0)).
  intros i Hi. apply list_elem_of_singleton in Hi as ->. intros _. by vm_compute.
Defined.

(** ** What the BEP 51 indexer accumulates *)

Definition bep51_run (rs : list BEP51Response) : BEP51DHTIndexer :=
  foldl (λ b r, handle_bep51_response r b) new_BEP51DHTIndexer rs.

Lemma foldl_union_singletons (l : list string) (s : gset string) :
  foldl (λ s h, {[h]} ∪ s) s l = s ∪ list_to_set l.
Proof. revert s. induction l as [|x l IH]; intros s; simpl; [set_solver|]. rewrite IH. set_solver. Qed.

(** The node ids [handle_bep51_response] stores of a response. *)
Definition node_ids (nodes : list string) : gset string :=
  list_to_set (substr 0 20 <$> filter (λ n, 20 ≤ String.length n) nodes).

Lemma foldl_known_nodes (l : list string) (s : gset string) :
  foldl (λ s n, if 20 <=? String.length n then {[substr 0 20 n]} ∪ s else s) s l = s ∪ node_ids l.
Proof.
  unfold node_ids. revert s. induction l as [|n l IH]; intros s; cbn [foldl]; [set_solver|].
  rewrite IH, filter_cons. destruct (Nat.leb_spec 20 (String.length n)); case_decide; try lia; set_solver.
Qed.

Lemma length_substr_prefix n s : n ≤ String.length s → String.length (substr 0 n s) = n.
Proof. intros. rewrite <-length_chars, chars_substr, drop_0, length_take, length_chars. lia. Qed.

Lemma bep51_run_spec rs :
  m_collected_infohashes (bep51_run rs) = list_to_set (mjoin (br_infohashes <$> rs))
  ∧ m_known_nodes (bep51_run rs) = ⋃ ((λ r, node_ids (br_nodes r)) <$> rs)
  ∧ m_infohashes_collected (bep51_run rs) = Z.of_nat (length (mjoin (br_infohashes <$> rs)))
  ∧ bep_successful_queries (bep51_run rs) = Z.of_nat (length rs).
Proof.
  induction rs as [|r rs (IHc & IHn & IHi & IHs)] using rev_ind; [done|].
  assert (bep51_run (rs ++ [r]) = handle_bep51_response r (bep51_run rs)) as ->.
  { unfold bep51_run. by rewrite foldl_app. }
  revert IHc IHn IHi IHs. generalize (bep51_run rs) as b. intros b Hc Hn Hi Hs.
  rewrite !fmap_app, join_app, !length_app, list_to_set_app_L, union_list_app_L.
  cbn [fmap list_fmap mjoin list_join union_list foldr length]. rewrite app_nil_r.
  unfold handle_bep51_response. simpl. rewrite foldl_union_singletons, foldl_known_nodes.
  split_all; [by rewrite Hc | rewrite Hn; set_solver | lia | lia].
Qed.

Lemma elem_of_node_ids n nodes :
  n ∈ node_ids nodes ↔ ∃ node, node ∈ nodes ∧ 20 ≤ String.length node ∧ n = substr 0 20 node.
Proof.
  unfold node_ids. rewrite elem_of_list_to_set, list_elem_of_fmap.
  setoid_rewrite list_elem_of_filter. naive_solver.
Qed.

Lemma elem_of_known_nodes n rs :
  n ∈ get_known_nodes (bep51_run rs) ↔
  ∃ r node, r ∈ rs ∧ node ∈ br_nodes r ∧ 20 ≤ String.length node ∧ n = substr 0 20 node.
Proof.
  destruct (bep51_run_spec rs) as (_ & Hn & _). unfold get_known_nodes.
  rewrite elem_of_set_iter, Hn, elem_of_union_list. setoid_rewrite list_elem_of_fmap.
  split; [intros (X & (r & -> & Hr) & (node & ?)%elem_of_node_ids); naive_solver|].
  intros (r & node & Hr & Hnode). exists (node_ids (br_nodes r)).
  rewrite elem_of_node_ids. naive_solver.
Qed.

Lemma size_list_to_set_le (l : list string) : size (list_to_set l : gset string) ≤ length l.
Proof.
  induction l as [|x l IH]; simpl; [done|].
  pose proof (size_union_alt (C := gset string) {[x]} (list_to_set l)) as Hu. rewrite Hu.
  rewrite size_singleton.
  assert (size (list_to_set l ∖ {[x]} : gset string) ≤ size (list_to_set l : gset string));
    [apply subseteq_size; set_solver | lia].
Qed.

(** After any responses the indexer knows exactly the info-hashes they
    contained and the 20-byte ids of their nodes, each listed once, and its
    counter of collected hashes is their total number, an upper bound of the
    number of distinct ones. *)
Theorem bep51_accumulates rs :
  let b := bep51_run rs in
  (∀ h, h ∈ get_collected_infohashes b ↔ ∃ r, r ∈ rs ∧ h ∈ br_infohashes r)
  ∧ NoDup (get_collected_infohashes b)
  ∧ (∀ n, n ∈ get_known_nodes b ↔
       ∃ r node, r ∈ rs ∧ node ∈ br_nodes r ∧ 20 ≤ String.length node ∧ n = substr 0 20 node)
  ∧ (∀ n, n ∈ get_known_nodes b → String.length n = 20)
  ∧ m_infohashes_collected b = Z.of_nat (length (mjoin (br_infohashes <$> rs)))
  ∧ (Z.of_nat (length (get_collected_infohashes b)) ≤ m_infohashes_collected b)%Z
  ∧ bep_successful_queries b = Z.of_nat (length rs).
Proof.
  cbv zeta.
  destruct (bep51_run_spec rs) as (Hc & _ & Hi & Hs).
  split_all; try done.
  - intros h. unfold get_collected_infohashes. rewrite elem_of_set_iter, Hc, elem_of_list_to_set.
    rewrite list_elem_of_join. setoid_rewrite list_elem_of_fmap. naive_solver.
  - apply NoDup_set_iter.
  - intros n. apply elem_of_known_nodes.
  - intros n (r & node & _ & _ & Hl & ->)%elem_of_known_nodes. by apply length_substr_prefix.
  - unfold get_collected_infohashes. rewrite length_set_iter, Hc, Hi.
    pose proof (size_list_to_set_le (mjoin (br_infohashes <$> rs))). lia.
Qed.
