(* ===== verification/WorkerPool.v ===== *)
(** * The metadata worker pool

    Models [MetadataWorkerPool] of [src/src/metadata_worker_pool.hpp]: worker
    threads take requests from a shared queue, add them to the libtorrent
    session and enter them in the table of pending requests, while the main
    thread queues requests, reports received metadata, and collects
    timeouts.

    The threads interleave.  A worker's position in its loop is a
    [worker_state]; each transition of [worker_step] is one critical section,
    one access to an atomic, or one call of the session.  The condition
    variable is modelled as the standard describes it: a worker that found
    the predicate false still holds the mutex ([WPred]) until it blocks
    ([WBlocked]), and a notification wakes blocked workers only.  A run is a
    list of events. *)

From S2P Require Import Prelude World HashFormat.

Record MetadataRequest := mk_MetadataRequest {
  mr_info_hash : string;
  mr_priority : Z;
  mr_source : string;
  mr_queued_time : Z;
}.

Record WorkerStats := mk_WorkerStats {
  requests_processed : Z;
  requests_successful : Z;
  requests_failed : Z;
  requests_timeout : Z;
}.
#[export] Instance eta_WorkerStats : Eta WorkerStats :=
  λ s, mk_WorkerStats (requests_processed s) (requests_successful s) (requests_failed s)
         (requests_timeout s).
Definition new_WorkerStats : WorkerStats := mk_WorkerStats 0 0 0 0.

(** Where a worker is: at the loop condition; about to take the queue mutex
    (first time or after a wake-up); holding it after a false predicate;
    blocked; holding a request taken from the queue; past [add_torrent];
    past the insertion into the pending table; past [requests_processed++];
    out of the loop. *)
Inductive worker_state :=
  | WIdle | WWant | WPred | WBlocked
  | WGot (r : MetadataRequest) | WAdded (r : MetadataRequest)
  | WTracked (r : MetadataRequest) | WCounted (r : MetadataRequest)
  | WStopped.

(** A call of [queue_request] between its two critical sections, and between
    the second one and [notify_one]. *)
Inductive caller := Checked (info_hash : string) (priority : Z) (source : string) | Pushed.

(** The progress of [shutdown]. *)
Inductive shutdown_phase := Running | FlagSet | Joining | ShutDown.

Record pool := mk_pool {
  p_workers : list worker_state;
  p_shutdown : bool;
  m_request_queue : list MetadataRequest;
  m_pending_requests : gmap string Z;
  m_worker_stats : list WorkerStats;
  p_total_queued : Z;
  p_total_processed : Z;
  p_request_timeout_seconds : Z;
  p_callers : list caller;
  p_phase : shutdown_phase;
}.
#[export] Instance eta_pool : Eta pool :=
  λ p, mk_pool (p_workers p) (p_shutdown p) (m_request_queue p) (m_pending_requests p)
         (m_worker_stats p) (p_total_queued p) (p_total_processed p)
         (p_request_timeout_seconds p) (p_callers p) (p_phase p).

(** The constructor, with [start_workers]. *)
Definition new_pool (num_workers : nat) (request_timeout : Z) : pool :=
  mk_pool (replicate num_workers WIdle) false [] ∅ (replicate num_workers new_WorkerStats)
    0 0 request_timeout [] Running.

(** Nobody is inside the critical section of the queue mutex between two
    transitions, except a worker that is about to block. *)
Definition holds_mutex (s : worker_state) : bool := match s with WPred => true | _ => false end.
Definition queue_mutex_free (p : pool) : bool := forallb (λ s, negb (holds_mutex s)) (p_workers p).

Definition set_worker (i : nat) (s : worker_state) (p : pool) : pool := p <| p_workers ::= <[i := s]> |>.
Definition update_stats (i : nat) (f : WorkerStats → WorkerStats) (p : pool) : pool :=
  p <| m_worker_stats ::= alter f i |>.

Section Pool.
Context {W H : Type} `{Session W H}.

(** [params.save_path = "."] and the three flags. *)
Definition pool_configure_params (ps : add_torrent_params) : add_torrent_params :=
  let ps := ps <| save_path := "." |> in
  let ps := ps <| flags ::= (λ f, Z.lor f flag_auto_managed) |> in
  let ps := ps <| flags ::= (λ f, Z.lor f flag_duplicate_is_error) |> in
  ps <| flags ::= (λ f, Z.lor f flag_seed_mode) |>.

(** [process_metadata_request] up to the valid handle: [true] when the
    request is now in the session, [false] when it failed. *)
Definition add_to_session (info_hash : string) (w : W) : bool * W :=
  let hex_hash := pool_convert_hash_to_hex info_hash in
  if decide (hex_hash = "") then (false, w)
  else match parse_magnet_uri (magnet_link hex_hash) with
  | None => (false, w)
  | Some params =>
    let '(r, w) := add_torrent (pool_configure_params params) w in
    match r with
    | Threw _ => (false, w)
    | Returned handle => (is_valid handle w, w)
    end
  end.

(** One transition of worker [i]: [worker_thread] with
    [process_metadata_request] inlined.  [None]: it cannot move. *)
Definition worker_step (i : nat) (st : pool * W) : option (pool * W) :=
  let '(p, w) := st in
  s ← p_workers p !! i;
  match s with
  | WIdle => Some (set_worker i (if p_shutdown p then WStopped else WWant) p, w)
  | WWant =>
    if queue_mutex_free p then
      match m_request_queue p with
      | request :: rest =>
        if p_shutdown p then Some (set_worker i WIdle p, w)
        else Some (set_worker i (WGot request) (p <| m_request_queue := rest |>), w)
      | [] => Some (set_worker i (if p_shutdown p then WIdle else WPred) p, w)
      end
    else None
  | WPred => Some (set_worker i WBlocked p, w)
  | WBlocked => None
  | WGot request =>
    let '(ok, w) := add_to_session (mr_info_hash request) w in
    if ok then Some (set_worker i (WAdded request) p, w)
    else Some (set_worker i WIdle (update_stats i (λ s, s <| requests_failed ::= Z.succ |>) p), w)
  | WAdded request =>
    let '(now, w) := steady_now w in
    Some (set_worker i (WTracked request)
            (p <| m_pending_requests ::= <[mr_info_hash request := now]> |>), w)
  | WTracked request =>
    Some (set_worker i (WCounted request)
            (update_stats i (λ s, s <| requests_processed ::= Z.succ |>) p), w)
  | WCounted request => Some (set_worker i WIdle (p <| p_total_processed ::= Z.succ |>), w)
  | WStopped => None
  end.

(** [queue_request], first part: the shutdown flag and the pending table. *)
Definition queue_check (info_hash : string) (priority : Z) (source : string) (p : pool) : bool * pool :=
  if p_shutdown p then (false, p)
  else match m_pending_requests p !! info_hash with
  | Some _ => (true, p)
  | None => (true, p <| p_callers ::= (λ l, l ++ [Checked info_hash priority source]) |>)
  end.

Definition is_blocked (s : worker_state) : bool := match s with WBlocked => true | _ => false end.

(** [notify_one]: one blocked worker wakes up, if there is one. *)
Definition notify_one (j : nat) (p : pool) : option pool :=
  if existsb is_blocked (p_workers p) then
    match p_workers p !! j with
    | Some WBlocked => Some (set_worker j WWant p)
    | _ => None
    end
  else Some p.

(** [notify_all] *)
Definition wake (s : worker_state) : worker_state := match s with WBlocked => WWant | s => s end.
Definition notify_all (p : pool) : pool := p <| p_workers ::= fmap wake |>.

(** The rest of call [k] of [queue_request]; [j] is the worker that
    [notify_one] picks. *)
Definition caller_step (k j : nat) (st : pool * W) : option (pool * W) :=
  let '(p, w) := st in
  c ← p_callers p !! k;
  match c with
  | Checked info_hash priority source =>
    if queue_mutex_free p then
      let '(now, w) := steady_now w in
      Some (p <| m_request_queue ::= (λ q, q ++ [mk_MetadataRequest info_hash priority source now]) |>
              <| p_total_queued ::= Z.succ |>
              <| p_callers ::= <[k := Pushed]> |>, w)
    else None
  | Pushed => p ← notify_one j p; Some (p <| p_callers ::= delete k |>, w)
  end.

(** [queue_request] as its caller sees it when no other thread intervenes:
    the check, the insertion and the notification of the first blocked
    worker. *)
Fixpoint wake_first (ws : list worker_state) : list worker_state :=
  match ws with
  | [] => []
  | WBlocked :: ws => WWant :: ws
  | s :: ws => s :: wake_first ws
  end.
Definition queue_request (info_hash : string) (priority : Z) (source : string) (p : pool) (w : W)
    : bool * pool * W :=
  if p_shutdown p then (false, p, w)
  else match m_pending_requests p !! info_hash with
  | Some _ => (true, p, w)
  | None =>
    let '(now, w) := steady_now w in
    (true,
     p <| m_request_queue ::= (λ q, q ++ [mk_MetadataRequest info_hash priority source now]) |>
       <| p_total_queued ::= Z.succ |> <| p_workers ::= wake_first |>, w)
  end.

Definition handle_metadata_received (info_hash : string) (p : pool) : pool :=
  match m_pending_requests p !! info_hash with
  | Some _ =>
    p <| m_pending_requests ::= delete info_hash |>
      <| m_worker_stats ::= fmap (λ s, s <| requests_successful ::= Z.succ |>) |>
  | None => p
  end.

Definition request_expired (now timeout since : Z) : bool := (seconds timeout <? now - since)%Z.

(** The iteration order of [std::unordered_map] is unspecified; the result
    is listed in the order of its keys. *)
Definition get_timed_out_requests (now : Z) (p : pool) : list string * pool :=
  let expired := λ kv : string * Z, request_expired now (p_request_timeout_seconds p) kv.2 = true in
  ((filter expired (map_iter (m_pending_requests p))).*1,
   p <| m_pending_requests ::= filter (λ kv, ¬ expired kv) |>).

Definition count_timeout (p : pool) (hash : string) : pool :=
  p <| m_worker_stats ::= fmap (λ s, s <| requests_timeout ::= Z.succ |>) |>.

Definition cleanup_timeouts (now : Z) (p : pool) : pool :=
  let '(timed_out, p) := get_timed_out_requests now p in
  foldl count_timeout p timed_out.

Definition get_queue_size (p : pool) : nat := length (m_request_queue p).
Definition get_active_requests (p : pool) : nat := size (m_pending_requests p).

(** [get_stats]: queued, processed, successful, failed, timed out. *)
Definition get_stats (p : pool) : Z * Z * Z * Z * Z :=
  (p_total_queued p, p_total_processed p, sumZ requests_successful (m_worker_stats p),
   sumZ requests_failed (m_worker_stats p), sumZ requests_timeout (m_worker_stats p)).

(** [shutdown], in three steps: the flag; [notify_all]; and, once every
    worker can be joined, the end. *)
Definition is_stopped (s : worker_state) : bool := match s with WStopped => true | _ => false end.
Definition shutdown_step (p : pool) : option pool :=
  match p_phase p with
  | Running => if p_shutdown p then None else Some (p <| p_shutdown := true |> <| p_phase := FlagSet |>)
  | FlagSet => Some (notify_all p <| p_phase := Joining |>)
  | Joining =>
    if forallb is_stopped (p_workers p)
    then Some (p <| m_pending_requests := ∅ |> <| p_phase := ShutDown |>) else None
  | ShutDown => None
  end.

(** ** Runs *)

Inductive pool_event :=
  | EWorker (i : nat)
  | ECall (info_hash : string) (priority : Z) (source : string)
  | ECaller (k j : nat)
  | EReceived (info_hash : string)
  | ECleanup
  | EGetTimedOut
  | EShutdown
  | ESpurious (i : nat)
  | EWorld (w : W).

(** [ESpurious]: a spurious wake-up, which the standard allows.  [EWorld]:
    the outside world changes by itself. *)
Definition pool_step (e : pool_event) (st : pool * W) : option (pool * W) :=
  let '(p, w) := st in
  match e with
  | EWorker i => worker_step i st
  | ECall h prio src => Some ((queue_check h prio src p).2, w)
  | ECaller k j => caller_step k j st
  | EReceived h => Some (handle_metadata_received h p, w)
  | ECleanup => let '(now, w) := steady_now w in Some (cleanup_timeouts now p, w)
  | EGetTimedOut => let '(now, w) := steady_now w in Some ((get_timed_out_requests now p).2, w)
  | EShutdown => p ← shutdown_step p; Some (p, w)
  | ESpurious i => s ← p_workers p !! i; if is_blocked s then Some (set_worker i WWant p, w) else None
  | EWorld w => Some (p, w)
  end.

Fixpoint pool_run (es : list pool_event) (st : pool * W) : option (pool * W) :=
  match es with
  | [] => Some st
  | e :: es => st ← pool_step e st; pool_run es st
  end.

End Pool.
Arguments pool_event : clear implicits.

(** ** Conservation of requests *)

Definition in_flight (s : worker_state) : Z :=
  match s with WGot _ | WAdded _ | WTracked _ | WCounted _ => 1 | _ => 0 end.
Definition counted (s : worker_state) : Z := match s with WCounted _ => 1 | _ => 0 end.

(** Every request ever queued is in the queue, in the hands of a worker,
    failed or processed; the per-worker counters agree with the total but for
    the workers between the two increments. *)
Record pool_inv (p : pool) : Prop := {
  pi_stats : length (m_worker_stats p) = length (p_workers p);
  pi_queued :
    p_total_queued p = (Z.of_nat (length (m_request_queue p)) + sumZ in_flight (p_workers p)
                        + sumZ requests_failed (m_worker_stats p) + p_total_processed p)%Z;
  pi_processed :
    sumZ requests_processed (m_worker_stats p) = (p_total_processed p + sumZ counted (p_workers p))%Z;
}.

Lemma sumZ_alter {A} (f : A → Z) (g : A → A) l i x :
  l !! i = Some x → sumZ f (alter g i l) = (sumZ f l - f x + f (g x))%Z.
Proof.
  revert i. induction l as [|y l IH]; intros [|i]; simpl; intros; simplify_eq; [lia|].
  change (f y + sumZ f (alter g i l) = f y + sumZ f l - f x + f (g x))%Z. rewrite (IH i) by done. lia.
Qed.

Lemma sumZ_fmap_ext {A} (f : A → Z) (g : A → A) l : (∀ x, f (g x) = f x) → sumZ f (g <$> l) = sumZ f l.
Proof. intros Hg. rewrite sumZ_fmap. by apply sumZ_ext. Qed.

Lemma new_pool_inv n t : pool_inv (new_pool n t).
Proof.
  constructor; simpl; rewrite ?length_replicate, ?sumZ_replicate; simpl; lia.
Qed.

(** Changes that concern neither the workers' positions nor the counters the
    invariant mentions. *)
Lemma pool_inv_frame p p' :
  pool_inv p → length (m_worker_stats p') = length (m_worker_stats p) →
  length (p_workers p') = length (p_workers p) →
  m_request_queue p' = m_request_queue p →
  p_total_queued p' = p_total_queued p → p_total_processed p' = p_total_processed p →
  sumZ in_flight (p_workers p') = sumZ in_flight (p_workers p) →
  sumZ counted (p_workers p') = sumZ counted (p_workers p) →
  sumZ requests_failed (m_worker_stats p') = sumZ requests_failed (m_worker_stats p) →
  sumZ requests_processed (m_worker_stats p') = sumZ requests_processed (m_worker_stats p) →
  pool_inv p'.
Proof. intros [Hs Hq Hp] Hls Hlw Hrq Htq Htp Hin Hco Hfa Hpr. constructor; rewrite ?Hrq; lia. Qed.

Lemma set_worker_frame i s s' p :
  pool_inv p → p_workers p !! i = Some s → in_flight s' = in_flight s → counted s' = counted s →
  pool_inv (set_worker i s' p).
Proof.
  intros Hinv Hi Hf Hc. apply (pool_inv_frame p); simpl; auto.
  - apply length_insert.
  - rewrite (sumZ_insert _ _ _ _ _ Hi). lia.
  - rewrite (sumZ_insert _ _ _ _ _ Hi). lia.
Qed.

Section PoolFacts.
Context {W H : Type} `{Session W H}.
Implicit Types (p : pool) (w : W).

Lemma worker_step_inv i p w st :
  pool_inv p → worker_step i (p, w) = Some st → pool_inv st.1.
Proof.
  intros Hinv Hst. apply bind_Some in Hst as (s & Hi & Hst).
  assert (is_Some (m_worker_stats p !! i)) as [si Hsi].
  { apply lookup_lt_is_Some. rewrite (pi_stats _ Hinv). by eapply lookup_lt_Some. }
  destruct s; simplify_eq/=; try (cases; by eapply set_worker_frame).
  - (* WWant *)
    repeat case_match; simplify_eq/=; try (by eapply set_worker_frame).
    destruct Hinv as [Hs Hq Hp]. constructor; simpl; rewrite ?length_insert, ?(sumZ_insert _ _ _ _ _ Hi);
      simpl; [done | | lia].
    match goal with Hr : m_request_queue p = _ |- _ => rewrite Hr in Hq end. simpl length in Hq. lia.
  - (* WGot *)
    repeat case_match; simplify_eq/=; [by eapply set_worker_frame|].
    destruct Hinv as [Hs Hq Hp]. constructor; simpl; rewrite ?length_insert, ?length_alter,
      ?(sumZ_insert _ _ _ _ _ Hi), ?(sumZ_alter _ _ _ _ _ Hsi); simpl; try done; lia.
  - (* WAdded *)
    destruct (steady_now w) as [now w1]. simplify_eq/=.
    destruct Hinv as [Hs Hq Hp]. constructor; simpl; rewrite ?length_insert, ?(sumZ_insert _ _ _ _ _ Hi);
      simpl; try done; lia.
  - (* WTracked *)
    destruct Hinv as [Hs Hq Hp]. constructor; simpl; rewrite ?length_insert, ?length_alter,
      ?(sumZ_insert _ _ _ _ _ Hi), ?(sumZ_alter _ _ _ _ _ Hsi); simpl; try done; lia.
  - (* WCounted *)
    destruct Hinv as [Hs Hq Hp]. constructor; simpl; rewrite ?length_insert, ?(sumZ_insert _ _ _ _ _ Hi);
      simpl; try done; lia.
Qed.

Lemma notify_inv (f : worker_state → worker_state) p :
  (∀ s, in_flight (f s) = in_flight s ∧ counted (f s) = counted s) →
  pool_inv p → pool_inv (p <| p_workers ::= fmap f |>).
Proof.
  intros Hf Hinv. apply (pool_inv_frame p); simpl; auto using length_fmap;
    apply sumZ_fmap_ext; intros; apply Hf.
Qed.

Lemma caller_step_inv k j p w st :
  pool_inv p → caller_step k j (p, w) = Some st → pool_inv st.1.
Proof.
  intros Hinv Hst. apply bind_Some in Hst as (c & _ & Hst). destruct c as [h prio src|].
  - case_match; [|done]. destruct (steady_now w) as [now w1]. simplify_eq/=.
    destruct Hinv as [Hs Hq Hp]. constructor; simpl; [done| |done]. rewrite length_app. simpl. lia.
  - apply bind_Some in Hst as (p1 & Hn & Hst). simplify_eq/=. unfold notify_one in Hn.
    repeat case_match; simplify_eq; [|by eapply pool_inv_frame; [exact Hinv|..]].
    apply (pool_inv_frame (set_worker j WWant p)); try done. by eapply set_worker_frame.
Qed.

Lemma cleanup_timeouts_spec now p :
  cleanup_timeouts now p =
  let '(timed_out, p') := get_timed_out_requests now p in
  p' <| m_worker_stats ::= fmap (λ s, s <| requests_timeout ::= Z.add (Z.of_nat (length timed_out)) |>) |>.
Proof.
  unfold cleanup_timeouts. destruct (get_timed_out_requests now p) as [l p']. clear p now.
  revert p'. induction l as [|h l IH]; intros p.
  - destruct p. cbn [foldl length]. unfold set_field. cbn. f_equal.
    rewrite <-(list_fmap_id m_worker_stats0) at 1. apply list_fmap_ext.
    intros i s Hs. by destruct s.
  - cbn [foldl]. rewrite IH. destruct p. unfold count_timeout, set_field. cbn -[Z.of_nat Z.add]. f_equal.
    rewrite <-list_fmap_compose. apply list_fmap_ext.
    intros i s Hs. destruct s. unfold set_field. cbn -[Z.of_nat Z.add]. f_equal. lia.
Qed.

Lemma pool_step_inv e p w st : pool_inv p → pool_step e (p, w) = Some st → pool_inv st.1.
Proof.
  intros Hinv. destruct e as [i|h prio src|k j|h| | | |i|w']; simpl; intros Hst.
  - by eapply worker_step_inv.
  - simplify_eq/=. unfold queue_check. repeat case_match; simpl; by apply (pool_inv_frame p).
  - by eapply caller_step_inv.
  - simplify_eq/=. unfold handle_metadata_received. case_match; [|done].
    apply (pool_inv_frame p); simpl; auto using length_fmap, sumZ_fmap_ext.
  - destruct (steady_now w) as [now w1]. simplify_eq/=. rewrite cleanup_timeouts_spec.
    apply (pool_inv_frame p); simpl; auto using length_fmap, sumZ_fmap_ext.
  - destruct (steady_now w) as [now w1]. simplify_eq/=. by apply (pool_inv_frame p).
  - apply bind_Some in Hst as (p' & Hs & Hst). simplify_eq/=. unfold shutdown_step in Hs.
    repeat case_match; simplify_eq; try by apply (pool_inv_frame p).
    apply (pool_inv_frame (notify_all p)); try done. apply notify_inv; [by intros []|done].
  - apply bind_Some in Hst as (s & Hi & Hst). case_match eqn:Hb; simplify_eq/=.
    destruct s; try done. by eapply set_worker_frame.
  - by simplify_eq/=.
Qed.

Lemma pool_run_app es1 es2 (st : pool * W) :
  pool_run (es1 ++ es2) st = pool_run es1 st ≫= pool_run es2.
Proof.
  revert st. induction es1 as [|e es1 IH]; intros st; [done|]. cbn [app pool_run].
  destruct (pool_step e st) as [st1|]; [|done]. apply IH.
Qed.

Lemma pool_run_ind (P : pool → Prop) es st st' :
  (∀ e p w st', P p → pool_step e (p, w) = Some st' → P st'.1) →
  P st.1 → pool_run es st = Some st' → P st'.1.
Proof.
  intros Hstep. revert st. induction es as [|e es IH]; intros [p w] Hp Hrun; [by simplify_eq/=|].
  apply bind_Some in Hrun as (st1 & Hs & Hrun). eauto.
Qed.

Lemma pool_step_workers e p w st :
  pool_step e (p, w) = Some st → length (p_workers st.1) = length (p_workers p).
Proof.
  destruct e as [i|h prio src|k j|h| | | |i|w']; simpl; intros Hst.
  - apply bind_Some in Hst as (s & _ & Hst).
    repeat case_match; simplify_eq/=; by rewrite ?length_insert.
  - simplify_eq/=. unfold queue_check. by repeat case_match.
  - apply bind_Some in Hst as (c & _ & Hst). destruct c as [h prio src|].
    + by repeat case_match; simplify_eq/=.
    + apply bind_Some in Hst as (p1 & Hn & Hst). unfold notify_one in Hn.
      repeat case_match; simplify_eq/=; by rewrite ?length_insert.
  - simplify_eq/=. unfold handle_metadata_received. by case_match.
  - destruct (steady_now w). simplify_eq/=. by rewrite cleanup_timeouts_spec.
  - destruct (steady_now w). by simplify_eq/=.
  - apply bind_Some in Hst as (p' & Hs & Hst). unfold shutdown_step in Hs.
    repeat case_match; simplify_eq/=; by rewrite ?length_fmap.
  - apply bind_Some in Hst as (s & Hi & Hst). case_match; simplify_eq/=. by rewrite length_insert.
  - by simplify_eq/=.
Qed.

(** C6: In every interleaving of workers, callers, the alert thread and
    shutdown, every request ever queued is in the queue, in the hands of a
    worker, failed, or processed, and the workers' processed counters add up
    to the total but for workers between the two increments. *)
Theorem pool_conservation n t w es p w' :
  pool_run es (new_pool n t, w) = Some (p, w') →
  let '(queued, processed, _, failed, _) := get_stats p in
  (queued = Z.of_nat (get_queue_size p) + sumZ in_flight (p_workers p) + failed + processed
   ∧ sumZ requests_processed (m_worker_stats p) = processed + sumZ counted (p_workers p)
   ∧ 0 ≤ sumZ counted (p_workers p) ≤ sumZ in_flight (p_workers p) ≤ Z.of_nat n)%Z
  ∧ length (p_workers p) = n ∧ length (m_worker_stats p) = n.
Proof.
  intros Hrun.
  assert (pool_inv p) as [Hs Hq Hp].
  { apply (pool_run_ind pool_inv es (new_pool n t, w) (p, w') pool_step_inv (new_pool_inv n t) Hrun). }
  assert (length (p_workers p) = n) as Hn.
  { refine (pool_run_ind (λ p, length (p_workers p) = n) es (new_pool n t, w) (p, w') _ _ Hrun).
    - intros e p1 w1 st1 <-. apply pool_step_workers.
    - apply length_replicate. }
  unfold get_stats, get_queue_size.
  assert (∀ l, 0 ≤ sumZ counted l ≤ sumZ in_flight l ∧ sumZ in_flight l ≤ Z.of_nat (length l))%Z as Hb.
  { intros l. induction l as [|s l IH]; [done|]. cbn [sumZ foldr length].
    fold (sumZ counted l) (sumZ in_flight l). destruct s; simpl; lia. }
  specialize (Hb (p_workers p)). rewrite Hn in *. split_all; try lia.
Qed.
End PoolFacts.

(** A run on the simulated world: one request is queued, the only worker
    adds it to the session and enters it in the pending table. *)
Definition pool_hash : string := "0123456789abcdef0123456789abcdef01234567".
Definition sim_request : list (pool_event Sim.world) :=
  [ECall pool_hash 1 "TEST"; ECaller 0 0; ECaller 0 0; EWorker 0; EWorker 0; EWorker 0].
Definition sim_tracked : list (pool_event Sim.world) := sim_request ++ [EWorker 0; EWorker 0; EWorker 0].
Definition sim_pool (es : list (pool_event Sim.world)) : pool * Sim.world :=
  default (new_pool 0 0, Sim.initial 0) (pool_run es (new_pool 1 20, Sim.initial 0)).

Lemma pool_conservation_witness :
  get_stats (sim_pool sim_tracked).1 = (1, 1, 0, 0, 0)%Z ∧ length (p_workers (sim_pool sim_tracked).1) = 1.
Proof.
  split; [by vm_compute|].
  apply (pool_conservation 1 20 (Sim.initial 0) sim_tracked (sim_pool sim_tracked).1 (sim_pool sim_tracked).2).
  by vm_compute.
Defined.

(** ** The statistics *)

Section StatsFacts.
Context {W H : Type} `{Session W H}.
Implicit Types (p : pool) (w : W).

(** What an event contributes to the two totals: a pending request whose
    metadata arrives, and the requests a clean-up retires. *)
Definition event_received (e : pool_event W) (st : pool * W) : Z :=
  match e with
  | EReceived h => if m_pending_requests st.1 !! h then 1 else 0
  | _ => 0
  end.
Definition event_timeouts (e : pool_event W) (st : pool * W) : Z :=
  match e with
  | ECleanup => Z.of_nat (length (get_timed_out_requests (steady_now st.2).1 st.1).1)
  | _ => 0
  end.
Fixpoint run_total (f : pool_event W → pool * W → Z) (es : list (pool_event W)) (st : pool * W) : Z :=
  match es with
  | [] => 0
  | e :: es => (f e st + default 0 (run_total f es <$> pool_step e st))%Z
  end.

Lemma sumZ_alter_same {A} (f : A → Z) (g : A → A) l i :
  (∀ x, f (g x) = f x) → sumZ f (alter g i l) = sumZ f l.
Proof.
  intros Hg. destruct (l !! i) as [x|] eqn:Hi.
  - rewrite (sumZ_alter _ _ _ _ _ Hi), Hg. lia.
  - revert i Hi. induction l as [|y l IH]; intros [|i]; simpl; intros; try done.
    change (f y + sumZ f (alter g i l) = f y + sumZ f l)%Z. by rewrite IH.
Qed.

Lemma sumZ_fmap_plus {A} (f : A → Z) (g : A → A) (c : Z) l :
  (∀ x, f (g x) = c + f x)%Z → sumZ f (g <$> l) = (sumZ f l + Z.of_nat (length l) * c)%Z.
Proof.
  intros Hg. rewrite sumZ_fmap, (sumZ_ext _ (λ x, c + f x)%Z) by done.
  rewrite sumZ_add, sumZ_const. lia.
Qed.

(** How one event changes the two sums. *)
Lemma pool_step_stats e p w st :
  pool_step e (p, w) = Some st →
  let n := Z.of_nat (length (m_worker_stats p)) in
  length (m_worker_stats st.1) = length (m_worker_stats p)
  ∧ sumZ requests_successful (m_worker_stats st.1)
    = (sumZ requests_successful (m_worker_stats p) + n * event_received e (p, w))%Z
  ∧ sumZ requests_timeout (m_worker_stats st.1)
    = (sumZ requests_timeout (m_worker_stats p) + n * event_timeouts e (p, w))%Z.
Proof.
  destruct e as [i|h prio src|k j|h| | | |i|w']; simpl; intros Hst; rewrite ?Z.mul_0_r, ?Z.add_0_r.
  - apply bind_Some in Hst as (s & _ & Hst).
    repeat case_match; simplify_eq/=; rewrite ?length_alter, ?sumZ_alter_same by done; done.
  - simplify_eq/=. unfold queue_check. by repeat case_match.
  - apply bind_Some in Hst as (c & _ & Hst). destruct c as [h prio src|].
    + by repeat case_match; simplify_eq/=.
    + apply bind_Some in Hst as (p1 & Hn & Hst). unfold notify_one in Hn.
      by repeat case_match; simplify_eq/=.
  - simplify_eq/=. unfold handle_metadata_received. case_match; simpl; split_all; try lia.
    + apply length_fmap.
    + by rewrite (sumZ_fmap_plus _ _ 1) by (intros []; simpl; lia).
    + apply sumZ_fmap_ext. by intros [].
  - destruct (steady_now w). simplify_eq/=. rewrite cleanup_timeouts_spec. simpl. split_all.
    + apply length_fmap.
    + apply sumZ_fmap_ext. by intros [].
    + by apply sumZ_fmap_plus.
  - destruct (steady_now w). by simplify_eq/=.
  - apply bind_Some in Hst as (p' & Hs & Hst). unfold shutdown_step in Hs.
    by repeat case_match; simplify_eq/=.
  - apply bind_Some in Hst as (s & Hi & Hst). by case_match; simplify_eq/=.
  - by simplify_eq/=.
Qed.

(** [get_stats] multiplies: the totals it reports for received metadata
    and for timeouts are the number of events times the number of workers,
    since each event increments the counter of every worker. *)
Theorem pool_stats_multiplied n t w es p w' :
  pool_run es (new_pool n t, w) = Some (p, w') →
  let '(_, _, successful, _, timeouts) := get_stats p in
  successful = (Z.of_nat n * run_total event_received es (new_pool n t, w))%Z
  ∧ timeouts = (Z.of_nat n * run_total event_timeouts es (new_pool n t, w))%Z.
Proof.
  assert (∀ es st st', pool_run es st = Some st' →
    let n := Z.of_nat (length (m_worker_stats st.1)) in
    sumZ requests_successful (m_worker_stats st'.1)
    = (sumZ requests_successful (m_worker_stats st.1) + n * run_total event_received es st)%Z
    ∧ sumZ requests_timeout (m_worker_stats st'.1)
      = (sumZ requests_timeout (m_worker_stats st.1) + n * run_total event_timeouts es st)%Z) as Hgen.
  { clear. intros es. induction es as [|e es IH]; intros [p w] st' Hrun; [simplify_eq/=; lia|].
    apply bind_Some in Hrun as (st1 & Hs & Hrun). specialize (IH _ _ Hrun).
    destruct (pool_step_stats _ _ _ _ Hs) as (Hl & Hsu & Hti). cbn [run_total]. rewrite Hs.
    rewrite Hl in IH. cbn [fmap option_fmap option_map default from_option fst] in *. unfold id. lia. }
  intros Hrun. specialize (Hgen _ _ _ Hrun). cbn [fst] in Hgen.
  simpl in Hgen. rewrite !sumZ_replicate, length_replicate in Hgen. simpl in Hgen. unfold get_stats. lia.
Qed.
End StatsFacts.

(** With sixteen workers one received torrent counts sixteen times. *)
Definition sim_received16 : list (pool_event Sim.world) := sim_tracked ++ [EReceived pool_hash].
Definition sim_pool16 : pool * Sim.world :=
  default (new_pool 0 0, Sim.initial 0) (pool_run sim_received16 (new_pool 16 20, Sim.initial 0)).

Lemma pool_stats_multiplied_witness :
  sumZ requests_successful (m_worker_stats sim_pool16.1) = 16%Z.
Proof.
  pose proof (pool_stats_multiplied 16 20 (Sim.initial 0) sim_received16 sim_pool16.1 sim_pool16.2
    ltac:(by vm_compute)) as Hs.
  destruct Hs as [Hs _]. rewrite Hs. by vm_compute.
Defined.

(** ** Timeouts *)

(** [cleanup_timeouts] retires exactly the pending requests older than
    the timeout, and since it collects them itself no later call of
    [get_timed_out_requests] returns any of them; called again at the same
    time it returns nothing. *)
Theorem cleanup_hides_timeouts p now now' :
  let expired h := ∃ since, m_pending_requests p !! h = Some since
                            ∧ request_expired now (p_request_timeout_seconds p) since = true in
  let p' := cleanup_timeouts now p in
  (∀ h since, m_pending_requests p' !! h = Some since
              ↔ m_pending_requests p !! h = Some since ∧ ¬ expired h)
  ∧ (∀ h, h ∈ (get_timed_out_requests now p).1 ↔ expired h)
  ∧ (∀ h, expired h → h ∉ (get_timed_out_requests now' p').1)
  ∧ (get_timed_out_requests now p').1 = [].
Proof.
  assert (∀ now p h, h ∈ (get_timed_out_requests now p).1 ↔ ∃ since, m_pending_requests p !! h = Some since
            ∧ request_expired now (p_request_timeout_seconds p) since = true) as Hin.
  { clear. intros now p h. unfold get_timed_out_requests. simpl. rewrite list_elem_of_fmap. split.
    - intros ([k v] & -> & [He Hk]%list_elem_of_filter). apply elem_of_map_iter in Hk. eauto.
    - intros (since & Hl & He). exists (h, since). split; [done|].
      apply list_elem_of_filter. split; [done | by apply elem_of_map_iter]. }
  intros expired p'.
  assert (∀ h since, m_pending_requests p' !! h = Some since
              ↔ m_pending_requests p !! h = Some since ∧ ¬ expired h) as Hkept.
  { intros h since. unfold p'. rewrite cleanup_timeouts_spec. simpl. rewrite map_lookup_filter_Some. simpl.
    unfold expired. naive_solver. }
  split_all; [done | by intros; apply Hin | |].
  - intros h Hexp (since & Hl & _)%Hin. apply Hkept in Hl as [_ []]. done.
  - destruct (get_timed_out_requests now p').1 as [|h l] eqn:Hl; [done|].
    assert (h ∈ (get_timed_out_requests now p').1) as Hh by (rewrite Hl; set_solver).
    apply Hin in Hh as (since & Hs & He). apply Hkept in Hs as [Hs []]. exists since.
    split; [done|]. revert He. unfold p'. by rewrite cleanup_timeouts_spec.
Qed.

Lemma cleanup_hides_timeouts_witness :
  (get_timed_out_requests (seconds 30) (sim_pool sim_tracked).1).1 = [pool_hash]
  ∧ pool_hash ∉ (get_timed_out_requests (seconds 31)
                   (cleanup_timeouts (seconds 30) (sim_pool sim_tracked).1)).1.
Proof.
  split; [by vm_compute|].
  apply (cleanup_hides_timeouts (sim_pool sim_tracked).1 (seconds 30) (seconds 31)).
  exists (milliseconds 2). by vm_compute.
Defined.

(** ** Shutdown *)

Section ShutdownFacts.
Context {W H : Type} `{Session W H}.
Implicit Types (p : pool) (w : W).

(** The transitions a worker has left once the flag is set. *)
Definition steps_left (s : worker_state) : Z :=
  match s with
  | WGot _ => 5 | WAdded _ => 4 | WTracked _ => 3 | WCounted _ => 2 | WWant => 2
  | WIdle => 1 | WPred | WBlocked | WStopped => 0
  end.

(** No worker waits on the condition variable or is about to. *)
Definition awake (s : worker_state) : bool :=
  match s with WPred | WBlocked => false | _ => true end.

Record shutting_down p : Prop := {
  sd_flag : p_shutdown p = true;
  sd_phase : p_phase p = Joining;
  sd_awake : forallb awake (p_workers p) = true;
}.

Lemma awake_mutex_free p : forallb awake (p_workers p) = true → queue_mutex_free p = true.
Proof.
  unfold queue_mutex_free. rewrite !forallb_forall. intros Ha s Hs. specialize (Ha s Hs). by destruct s.
Qed.

Lemma worker_step_shutdown i p w st :
  shutting_down p → worker_step i (p, w) = Some st →
  shutting_down st.1
  ∧ (sumZ steps_left (p_workers st.1) < sumZ steps_left (p_workers p))%Z
  ∧ length (p_workers st.1) = length (p_workers p).
Proof.
  intros [Hf Hp Ha] Hst. apply bind_Some in Hst as (s & Hi & Hst). rewrite Hf in Hst.
  assert (awake s = true) as Has by by eapply forallb_lookup.
  destruct s; try done; repeat case_match; simplify_eq/=;
    rewrite length_insert, (sumZ_insert _ _ _ _ _ Hi); simpl;
    (split; [constructor; simpl; auto using forallb_insert | lia]).
Qed.

(** A worker that is awake can move until it stops. *)
Lemma worker_can_move i s p w :
  shutting_down p → p_workers p !! i = Some s → s ≠ WStopped → is_Some (worker_step i (p, w)).
Proof.
  intros [Hf Hp Ha] Hi Hs. unfold worker_step. rewrite Hi. cbn [mbind option_bind].
  rewrite (awake_mutex_free p Ha), Hf. pose proof (forallb_lookup _ _ _ _ Ha Hi) as Has.
  destruct s; try done; repeat case_match; eauto.
Qed.

Lemma not_all_stopped p :
  forallb is_stopped (p_workers p) = false → ∃ i s, p_workers p !! i = Some s ∧ s ≠ WStopped.
Proof. intros (i & s & Hi & Hs)%forallb_false_lookup. exists i, s. split; [done|]. by intros ->. Qed.

Definition worker_event (e : pool_event W) : Prop := ∃ i, e = EWorker i.

(** Running the workers until none can move. *)
Lemma drain (n : nat) p w :
  shutting_down p → (sumZ steps_left (p_workers p) ≤ Z.of_nat n)%Z →
  ∃ es st, Forall worker_event es ∧ pool_run es (p, w) = Some st ∧ shutting_down st.1
           ∧ forallb is_stopped (p_workers st.1) = true.
Proof.
  revert p w. induction n as [|n IH]; intros p w Hsd Hn;
    (destruct (forallb is_stopped (p_workers p)) eqn:Hall; [by exists [], (p, w)|]);
    destruct (not_all_stopped p Hall) as (i & s & Hi & Hs);
    destruct (worker_can_move i s p w Hsd Hi Hs) as [[p1 w1] Hst];
    destruct (worker_step_shutdown i p w (p1, w1) Hsd Hst) as (Hsd' & Hlt & _).
  - assert (0 ≤ sumZ steps_left (p_workers p1))%Z by (apply sumZ_nonneg; by intros []).
    simpl in *. lia.
  - destruct (IH p1 w1) as (es & st & Hes & Hrun & Hfin); [done | simpl in *; lia|].
    exists (EWorker i :: es), st. split_all; try apply Hfin.
    + constructor; [by eexists | done].
    + cbn [pool_run pool_step]. rewrite Hst. exact Hrun.
Qed.

Lemma worker_runs_bounded es p w st :
  shutting_down p → Forall worker_event es → pool_run es (p, w) = Some st →
  (Z.of_nat (length es) ≤ sumZ steps_left (p_workers p))%Z.
Proof.
  revert p w. induction es as [|e es IH]; intros p w Hsd Hes Hrun.
  - simpl. apply sumZ_nonneg. by intros [].
  - apply Forall_cons in Hes as [[i ->] Hes].
    apply bind_Some in Hrun as ([p1 w1] & Hs & Hrun). cbn [pool_step] in Hs.
    destruct (worker_step_shutdown _ _ _ _ Hsd Hs) as (Hsd' & Hlt & _).
    specialize (IH p1 w1 Hsd' Hes Hrun). simpl in *. lia.
Qed.

(** After the notification of [shutdown], if no worker is waiting on the
    condition variable or about to wait, the join terminates: every schedule
    of the workers has at most five transitions per worker, and the workers
    can all be joined, after which the pool is shut down with no pending
    request. *)
Theorem shutdown_terminates p w :
  shutting_down p →
  (∀ es st, Forall worker_event es → pool_run es (p, w) = Some st →
            (Z.of_nat (length es) ≤ 5 * Z.of_nat (length (p_workers p)))%Z)
  ∧ (∃ es p' w', Forall worker_event es
       ∧ pool_run (es ++ [EShutdown]) (p, w) = Some (p', w')
       ∧ p_phase p' = ShutDown ∧ m_pending_requests p' = ∅
       ∧ forallb is_stopped (p_workers p') = true).
Proof.
  intros Hsd. split.
  - intros es st Hes Hrun. pose proof (worker_runs_bounded es p w st Hsd Hes Hrun).
    assert (sumZ steps_left (p_workers p) ≤ 5 * Z.of_nat (length (p_workers p)))%Z; [|lia].
    apply sumZ_bound. intros []; simpl; lia.
  - destruct (drain (Z.to_nat (sumZ steps_left (p_workers p))) p w) as
      (es & [p1 w1] & Hes & Hrun & Hsd' & Hall); [done | lia|].
    exists es, (p1 <| m_pending_requests := ∅ |> <| p_phase := ShutDown |>), w1.
    split_all; try done. rewrite pool_run_app, Hrun. simpl.
    unfold shutdown_step. destruct Hsd' as [_ Hp _]. simpl in *. by rewrite Hp, Hall.
Qed.

(** Worker 0 is blocked while [shutdown] waits for it, and no call of
    [queue_request] is under way that could still notify it. *)
Record stuck p : Prop := {
  st_flag : p_shutdown p = true;
  st_phase : p_phase p = Joining;
  st_callers : p_callers p = [];
  st_worker : p_workers p !! 0 = Some WBlocked;
}.

Lemma stuck_step e p w st :
  (∀ i, e ≠ ESpurious i) → stuck p → pool_step e (p, w) = Some st → stuck st.1.
Proof.
  intros He [Hf Hp Hc Hw] Hst. destruct e as [i|h prio src|k j|h| | | |i|w']; simpl in Hst.
  - apply bind_Some in Hst as (s & Hi & Hst).
    assert (0 ≠ i ∨ s = WBlocked) as [Hi0| ->] by (destruct i; [right; congruence | left; lia]); [|done].
    destruct s; repeat case_match; simplify_eq/=;
      (constructor; simpl; [done..|by rewrite list_lookup_insert_ne]).
  - simplify_eq/=. unfold queue_check. by rewrite Hf.
  - by rewrite Hc in Hst.
  - simplify_eq/=. unfold handle_metadata_received. by case_match.
  - destruct (steady_now w). simplify_eq/=. by rewrite cleanup_timeouts_spec.
  - destruct (steady_now w). by simplify_eq/=.
  - apply bind_Some in Hst as (p' & Hs & Hst). unfold shutdown_step in Hs. rewrite Hp in Hs.
    case_match eqn:Hall; [|done]. by pose proof (forallb_lookup _ _ _ _ Hall Hw).
  - by destruct (He i).
  - by simplify_eq/=.
Qed.

Lemma stuck_run es p w st :
  Forall (λ e, ∀ i, e ≠ ESpurious i) es → stuck p → pool_run es (p, w) = Some st → stuck st.1.
Proof.
  revert p w. induction es as [|e es IH]; intros p w Hes Hst Hrun; [by simplify_eq/=|].
  apply Forall_cons in Hes as [He Hes]. apply bind_Some in Hrun as ([p1 w1] & Hs & Hrun).
  eapply IH; [done | by apply (stuck_step e p w (p1, w1)) | done].
Qed.

(** [shutdown] can wait for ever.  It sets the flag and notifies without
    taking the queue mutex; when that happens between a worker's evaluation
    of the predicate and its blocking, the notification is lost: the worker
    blocks, and in every continuation without a spurious wake-up [shutdown]
    is still joining. *)
Theorem shutdown_lost_wakeup n t w :
  ∃ es p' w', pool_run es (new_pool (S n) t, w) = Some (p', w') ∧ p_phase p' = Joining
    ∧ ∀ es' st', Forall (λ e, ∀ i, e ≠ ESpurious i) es' → pool_run es' (p', w') = Some st' →
                 p_phase st'.1 = Joining ∧ p_workers st'.1 !! 0 = Some WBlocked.
Proof.
  assert (∃ p', pool_run [EWorker 0; EWorker 0; EShutdown; EShutdown; EWorker 0] (new_pool (S n) t, w)
                = Some (p', w) ∧ stuck p') as (p' & Hrun & Hstuck).
  { eexists. split.
    - cbn. unfold queue_mutex_free. cbn.
      assert (forallb (λ s, negb (holds_mutex s)) (replicate n WIdle) = true) as ->
        by (induction n; done). cbn. reflexivity.
    - by constructor. }
  eexists _, p', w. split_all; [exact Hrun | apply Hstuck|].
  intros es' st' Hes Hrun'. by destruct (stuck_run es' p' w st' Hes Hstuck Hrun').
Qed.

(** ** Metadata that arrives early *)

(** Metadata reported between a worker's [add_torrent] and its entry in
    the pending table is ignored, and the worker then enters the request as
    pending although its metadata has been received: only a timeout removes
    it. *)
Theorem received_before_tracked p w i r :
  p_workers p !! i = Some (WAdded r) → m_pending_requests p !! mr_info_hash r = None →
  ∃ p' w', pool_run [EReceived (mr_info_hash r); EWorker i] (p, w) = Some (p', w')
    ∧ is_Some (m_pending_requests p' !! mr_info_hash r)
    ∧ m_worker_stats p' = m_worker_stats p.
Proof.
  intros Hi Hp. unfold pool_run, pool_step. cbn [mbind option_bind].
  unfold handle_metadata_received. rewrite Hp. unfold worker_step. rewrite Hi. cbn [mbind option_bind].
  destruct (steady_now w) as [now w1]. eexists _, _. split; [reflexivity|]. simpl.
  rewrite lookup_insert_eq. eauto.
Qed.
End ShutdownFacts.

(** On the simulated world: a shutdown of an idle pool, and metadata that
    arrives just after [add_torrent]. *)
Definition sim_joining : pool := (sim_pool [EWorker 0; EShutdown; EShutdown]).1.

Lemma shutdown_terminates_witness :
  ∃ es p' w', Forall worker_event es
    ∧ pool_run (es ++ [EShutdown]) (sim_joining, Sim.initial 0) = Some (p', w')
    ∧ p_phase p' = ShutDown.
Proof.
  destruct (shutdown_terminates sim_joining (Sim.initial 0)) as [_ (es & p' & w' & He & Hr & Hp & _)].
  - constructor; by vm_compute.
  - by exists es, p', w'.
Defined.

Lemma shutdown_lost_wakeup_witness :
  ∃ es p' w', pool_run es (new_pool 1 20, Sim.initial 0) = Some (p', w') ∧ p_phase p' = Joining.
Proof.
  destruct (shutdown_lost_wakeup 0 20 (Sim.initial 0)) as (es & p' & w' & Hr & Hp & _).
  by exists es, p', w'.
Defined.

Lemma received_before_tracked_witness :
  ∃ p' w', pool_run [EReceived pool_hash; EWorker 0] ((sim_pool sim_request).1, (sim_pool sim_request).2)
           = Some (p', w')
    ∧ is_Some (m_pending_requests p' !! pool_hash).
Proof.
  pose proof (received_before_tracked (sim_pool sim_request).1 (sim_pool sim_request).2 0
    (mk_MetadataRequest pool_hash 1 "TEST" (milliseconds 1))) as Hx. cbn [mr_info_hash] in Hx.
  destruct (Hx ltac:(by vm_compute) ltac:(by vm_compute)) as (p' & w' & Hr & Hp & _).
  exists p', w'. split; [exact Hr | exact Hp].
Defined.
