(* ===== verification/ConcurrentDht.v ===== *)
(** * The concurrent DHT manager

    Models [ConcurrentDHTManager] of [src/src/concurrent_dht_manager.hpp]: a
    fixed number of worker threads that draw random targets, skip those any
    worker has drawn before, and query the DHT for the others.

    The threads interleave: a worker's position in its loops is a
    [dht_worker] and each transition of [dht_worker_step] is one critical
    section, one access to an atomic, or the calls of the session inside the
    [try] block.  The target a worker draws is an argument of its transition.
    [c_issued] records, for the theorems only, the targets for which the
    session was called. *)

From S2P Require Import Prelude World.

Record DHTQuery := mk_DHTQuery { hash_str : string; random_hash : string; queued_time : Z }.

(** Before [m_worker_count++]; at the [while] condition; at the [for]
    condition with loop counter [i]; with a fresh target entered in the set of
    queried hashes; past [m_queries_generated++]; at the progress callback
    (and the sleep); past the loop, before [m_worker_count--]; ended. *)
Inductive dht_worker :=
  | DStart | DLoop | DFor (i : nat) | DFresh (i : nat) (h : string)
  | DQuery (i : nat) (h : string) (timestamp : Z) | DProgress | DLeave | DEnded.

Record dht_manager := mk_dht_manager {
  c_running : bool;
  c_shutdown_requested : bool;
  c_workers : list dht_worker;
  m_queried_hashes : gset string;
  m_total_queries_sent : Z;
  m_queries_generated : Z;
  m_worker_count : Z;
  c_num_workers : nat;
  c_query_delay_ms : Z;
  c_issued : list string;
}.
#[export] Instance eta_dht_manager : Eta dht_manager :=
  λ m, mk_dht_manager (c_running m) (c_shutdown_requested m) (c_workers m) (m_queried_hashes m)
         (m_total_queries_sent m) (m_queries_generated m) (m_worker_count m) (c_num_workers m)
         (c_query_delay_ms m) (c_issued m).

Definition new_dht_manager (num_workers : nat) : dht_manager :=
  mk_dht_manager false false [] ∅ 0 0 0 num_workers 10 [].

Definition queries_per_iteration : nat := 5.

Definition start (m : dht_manager) : dht_manager :=
  if c_running m then m
  else m <| c_running := true |> <| c_shutdown_requested := false |>
         <| c_workers := replicate (c_num_workers m) DStart |>.

(** [stop] up to the joins, and from them on: [None] while a worker is
    still running. *)
Definition request_stop (m : dht_manager) : dht_manager :=
  if c_running m then m <| c_shutdown_requested := true |> else m.
Definition has_ended (s : dht_worker) : bool := match s with DEnded => true | _ => false end.
Definition join_workers (m : dht_manager) : option dht_manager :=
  if negb (c_running m) then Some m
  else if forallb has_ended (c_workers m)
  then Some (m <| c_workers := [] |> <| c_running := false |>) else None.

Definition set_query_delay (delay_ms : Z) (m : dht_manager) : dht_manager := m <| c_query_delay_ms := delay_ms |>.

Section Manager.
Context {W H : Type} `{Session W H}.
(** The callbacks of [set_query_callback] and [set_progress_callback]; they
    may throw. *)
Context (query_callback : option (DHTQuery → W → outcome unit * W)).
Context (progress_callback : option (W → outcome unit * W)).

Definition call_back {A} (f : option (A → W → outcome unit * W)) (a : A) (w : W) : outcome unit * W :=
  match f with Some f => f a w | None => (Returned tt, w) end.

Definition set_dht_worker (i : nat) (s : dht_worker) (m : dht_manager) : dht_manager :=
  m <| c_workers ::= <[i := s]> |>.
Definition keeps_running (m : dht_manager) : bool := c_running m && negb (c_shutdown_requested m).

(** The [try] block: both queries, the counter and the callback; an
    exception skips what follows it. *)
Definition send_queries (h : string) (timestamp : Z) (m : dht_manager) (w : W) : dht_manager * W :=
  let m := m <| c_issued ::= (λ l, l ++ [h]) |> in
  match dht_get_peers h w with
  | (Threw _, w) => (m, w)
  | (Returned _, w) =>
    match dht_get_item h w with
    | (Threw _, w) => (m, w)
    | (Returned _, w) =>
      let m := m <| m_total_queries_sent ::= Z.add 2 |> in
      (m, (call_back query_callback (mk_DHTQuery h h timestamp) w).2)
    end
  end.

(** One transition of worker [i], which draws [h] when it needs a target:
    [worker_thread] with [generate_and_send_queries] inlined.  An exception
    of the progress callback is caught by the worker's loop. *)
Definition dht_worker_step (i : nat) (h : string) (st : dht_manager * W) : option (dht_manager * W) :=
  let '(m, w) := st in
  s ← c_workers m !! i;
  match s with
  | DStart => Some (set_dht_worker i DLoop (m <| m_worker_count ::= Z.succ |>), w)
  | DLoop => Some (set_dht_worker i (if keeps_running m then DFor 0 else DLeave) m, w)
  | DFor k =>
    if (k <? queries_per_iteration) && keeps_running m then
      if decide (h ∈ m_queried_hashes m) then Some (set_dht_worker i (DFor (S k)) m, w)
      else Some (set_dht_worker i (DFresh k h) (m <| m_queried_hashes ::= ({[h]} ∪.) |>), w)
    else Some (set_dht_worker i DProgress m, w)
  | DFresh k h =>
    let '(now, w) := steady_now w in
    Some (set_dht_worker i (DQuery k h now) (m <| m_queries_generated ::= Z.succ |>), w)
  | DQuery k h timestamp =>
    let '(m, w) := send_queries h timestamp m w in Some (set_dht_worker i (DFor (S k)) m, w)
  | DProgress =>
    let w := if (m_queries_generated m mod 100 =? 0)%Z
             then (call_back (const <$> progress_callback) tt w).2 else w in
    Some (set_dht_worker i DLoop m, w)
  | DLeave => Some (set_dht_worker i DEnded (m <| m_worker_count ::= Z.pred |>), w)
  | DEnded => None
  end.

Inductive dht_event :=
  | DWorker (i : nat) (h : string) | DStartCall | DStopCall | DJoin | DWorld (w : W).

Definition dht_step (e : dht_event) (st : dht_manager * W) : option (dht_manager * W) :=
  let '(m, w) := st in
  match e with
  | DWorker i h => dht_worker_step i h st
  | DStartCall => Some (start m, w)
  | DStopCall => Some (request_stop m, w)
  | DJoin => if c_shutdown_requested m then m ← join_workers m; Some (m, w) else None
  | DWorld w => Some (m, w)
  end.

Fixpoint dht_run (es : list dht_event) (st : dht_manager * W) : option (dht_manager * W) :=
  match es with
  | [] => Some st
  | e :: es => st ← dht_step e st; dht_run es st
  end.

(** ** The invariant *)

(** Fresh targets not yet counted; targets not yet queried; live workers. *)
Definition uncounted (s : dht_worker) : Z := match s with DFresh _ _ => 1 | _ => 0 end.
Definition live (s : dht_worker) : Z := match s with DStart | DEnded => 0 | _ => 1 end.
Definition target_of (s : dht_worker) : list string :=
  match s with DFresh _ h | DQuery _ h _ => [h] | _ => [] end.
Definition in_hand (ws : list dht_worker) : list string := mjoin (target_of <$> ws).

Record dht_inv (m : dht_manager) : Prop := {
  di_perm : NoDup (c_issued m ++ in_hand (c_workers m));
  di_queried : list_to_set (c_issued m ++ in_hand (c_workers m)) = m_queried_hashes m;
  di_generated :
    (m_queries_generated m + sumZ uncounted (c_workers m) = Z.of_nat (size (m_queried_hashes m)))%Z;
  di_sent : (0 ≤ m_total_queries_sent m ≤ 2 * Z.of_nat (length (c_issued m)))%Z;
  di_live : m_worker_count m = sumZ live (c_workers m);
}.

Lemma in_hand_insert ws i s s' :
  ws !! i = Some s → target_of s ++ in_hand (<[i := s']> ws) ≡ₚ target_of s' ++ in_hand ws.
Proof.
  revert i. induction ws as [|s0 ws IH]; intros [|i] Hi; simplify_eq/=.
  - unfold in_hand. simpl. rewrite !(assoc_L app). by rewrite (Permutation_app_comm (target_of s)).
  - specialize (IH i Hi). unfold in_hand in *. simpl.
    rewrite !(assoc_L app), (Permutation_app_comm (target_of s)), (Permutation_app_comm (target_of s')).
    rewrite <-!(assoc_L app). by rewrite IH.
Qed.

Lemma in_hand_keep ws i s s' :
  ws !! i = Some s → target_of s' = target_of s → in_hand (<[i := s']> ws) ≡ₚ in_hand ws.
Proof.
  intros Hi Ht. pose proof (in_hand_insert ws i s s' Hi) as Hp. rewrite Ht in Hp.
  by apply (inj (target_of s ++.)) in Hp.
Qed.

Lemma list_to_set_perm_str (l1 l2 : list string) :
  l1 ≡ₚ l2 → (list_to_set l1 : gset string) = list_to_set l2.
Proof. intros Hp. apply set_eq. intros x. by rewrite !elem_of_list_to_set, Hp. Qed.

(** A transition that only moves worker [i], keeping its target. *)
Lemma dht_move_inv i s s' m :
  dht_inv m → c_workers m !! i = Some s → target_of s' = target_of s →
  uncounted s' = uncounted s → live s' = live s → dht_inv (set_dht_worker i s' m).
Proof.
  intros [Hn Hq Hg Hs Hl] Hi Ht Hu Hv. pose proof (in_hand_keep _ _ _ _ Hi Ht) as Hp.
  constructor; simpl; rewrite ?(sumZ_insert _ _ _ _ _ Hi), ?Hp; try done; try lia.
Qed.

Lemma dht_worker_step_inv i h m w st :
  dht_inv m → dht_worker_step i h (m, w) = Some st → dht_inv st.1.
Proof.
  intros Hinv Hst. apply bind_Some in Hst as (s & Hi & Hst). destruct s as [| |k|k h'|k h'| | |]; simpl in Hst.
  - simplify_eq/=. destruct Hinv as [Hn Hq Hg Hs Hl]. pose proof (in_hand_keep _ _ _ DLoop Hi eq_refl) as Hp.
    constructor; simpl; rewrite ?(sumZ_insert _ _ _ _ _ Hi), ?Hp; simpl; try done; lia.
  - simplify_eq/=. case_match; by eapply dht_move_inv.
  - case_match; [|simplify_eq/=; by eapply dht_move_inv].
    destruct (decide (h ∈ m_queried_hashes m)) as [Hin|Hnew]; simplify_eq/=; [by eapply dht_move_inv|].
    destruct Hinv as [Hn Hq Hg Hs Hl]. pose proof (in_hand_insert _ _ _ (DFresh k h) Hi) as Hp.
    simpl in Hp. assert (h ∉ c_issued m ++ in_hand (c_workers m)) as Hfresh.
    { by rewrite <-Hq, elem_of_list_to_set in Hnew. }
    constructor; simpl; rewrite ?(sumZ_insert _ _ _ _ _ Hi), ?Hp; simpl; try done; try lia.
    + rewrite <-Permutation_middle. by constructor.
    + rewrite <-Hq. rewrite !list_to_set_app_L. simpl. set_solver.
    + rewrite size_union by set_solver. rewrite size_singleton. lia.
  - destruct (steady_now w) as [now w']. simplify_eq/=. destruct Hinv as [Hn Hq Hg Hs Hl].
    pose proof (in_hand_keep _ _ _ (DQuery k h' now) Hi eq_refl) as Hp.
    constructor; simpl; rewrite ?(sumZ_insert _ _ _ _ _ Hi), ?Hp; simpl; try done; lia.
  - destruct (send_queries h' timestamp m w) as [m' w'] eqn:Hsq. simplify_eq/=.
    destruct Hinv as [Hn Hq Hg Hs Hl]. pose proof (in_hand_insert _ _ _ (DFor (S k)) Hi) as Hp. simpl in Hp.
    assert (∃ d, (d = 0 ∨ d = 2)%Z ∧ m' = m <| c_issued ::= (λ l, l ++ [h']) |>
                                            <| m_total_queries_sent ::= Z.add d |>) as (d & Hd & ->).
    { unfold send_queries in Hsq. repeat case_match; simplify_eq/=; [by exists 2%Z; auto|..];
        (exists 0%Z; split; [by auto|]; by destruct m). }
    assert ((c_issued m ++ [h']) ++ in_hand (<[i:=DFor (S k)]> (c_workers m))
            ≡ₚ c_issued m ++ in_hand (c_workers m)) as Hp'.
    { rewrite <-(assoc_L app). simpl. by rewrite Hp. }
    constructor; simpl; rewrite ?(sumZ_insert _ _ _ _ _ Hi), ?Hp', ?length_app; simpl; try done; lia.
  - simplify_eq/=. by eapply dht_move_inv.
  - simplify_eq/=. destruct Hinv as [Hn Hq Hg Hs Hl]. pose proof (in_hand_keep _ _ _ DEnded Hi eq_refl) as Hp.
    constructor; simpl; rewrite ?(sumZ_insert _ _ _ _ _ Hi), ?Hp; simpl; try done; lia.
  - done.
Qed.

(** Outside [start]..[stop] there are no workers. *)
Definition workers_inv (m : dht_manager) : Prop :=
  if c_running m then length (c_workers m) = c_num_workers m else c_workers m = [].

Lemma ended_workers ws :
  forallb has_ended ws = true → in_hand ws = [] ∧ sumZ uncounted ws = 0%Z ∧ sumZ live ws = 0%Z.
Proof.
  induction ws as [|s ws IH]; simpl; [done|]. intros [Hs Hws]%andb_true_iff. destruct s; try done.
  by destruct (IH Hws) as (? & ? & ?).
Qed.

Lemma dht_step_inv e m w st :
  dht_inv m ∧ workers_inv m → dht_step e (m, w) = Some st → dht_inv st.1 ∧ workers_inv st.1.
Proof.
  intros [Hinv Hw] Hst. destruct e as [i h| | | |w']; simpl in Hst; simplify_eq/=.
  - split; [by eapply dht_worker_step_inv|]. apply bind_Some in Hst as (s & Hi & Hst).
    unfold workers_inv in *. destruct (c_running m) eqn:Hr; [|by rewrite Hw in Hi].
    destruct s; simpl in Hst; unfold send_queries in *; repeat case_match; simplify_eq/=;
      rewrite ?length_insert; congruence.
  - unfold start. case_match eqn:Hr; [done|]. unfold workers_inv in *. rewrite Hr in Hw.
    destruct Hinv as [Hn Hq Hg Hs Hl]. rewrite Hw in *.
    assert (in_hand (replicate (c_num_workers m) DStart) = []) as Hin.
    { generalize (c_num_workers m). intros n. unfold in_hand. by induction n. }
    split; simpl; [|by rewrite length_replicate].
    constructor; simpl; rewrite ?Hin, ?sumZ_replicate, ?Z.mul_0_r; done.
  - unfold request_stop. case_match eqn:Hr; [|done]. split; [by destruct Hinv|].
    unfold workers_inv in *. simpl. by rewrite Hr in *.
  - case_match; [|done]. apply bind_Some in Hst as (m1 & Hj & Hst). simplify_eq/=.
    unfold join_workers in Hj. repeat case_match; simplify_eq/=; [done|].
    destruct (ended_workers (c_workers m)) as (Hh & Hu & Hv); [done|].
    destruct Hinv as [Hn Hq Hg Hs Hl]. split; [|done].
    constructor; simpl; rewrite ?Hh, ?Hu, ?Hv in *; done.
  - done.
Qed.

Lemma uncounted_in_hand ws : (sumZ uncounted ws ≤ Z.of_nat (length (in_hand ws)))%Z.
Proof.
  induction ws as [|s ws IH]; [done|].
  assert (in_hand (s :: ws) = target_of s ++ in_hand ws) as -> by done. rewrite length_app.
  assert (uncounted s ≤ Z.of_nat (length (target_of s)))%Z by (destruct s; simpl; lia).
  change (uncounted s + sumZ uncounted ws
          ≤ Z.of_nat (length (target_of s) + length (in_hand ws)))%Z. lia.
Qed.

Lemma new_dht_inv n : dht_inv (new_dht_manager n).
Proof. constructor; simpl; try done. constructor. Qed.

(** C8: In every interleaving of the workers with [start] and [stop], no
    target is ever queried twice, the counter of generated queries lags the
    set of drawn targets only by the workers between the two updates, at most
    two queries are counted per target, and the worker count is the number of
    workers inside their loop. *)
Theorem dht_queries_unique n w es m w' :
  dht_run es (new_dht_manager n, w) = Some (m, w') →
  NoDup (c_issued m) ∧ list_to_set (c_issued m) ⊆ m_queried_hashes m
  ∧ (m_queries_generated m + sumZ uncounted (c_workers m) = Z.of_nat (size (m_queried_hashes m)))%Z
  ∧ (0 ≤ m_total_queries_sent m ≤ 2 * m_queries_generated m)%Z
  ∧ m_worker_count m = sumZ live (c_workers m)
  ∧ (c_running m = false → m_worker_count m = 0%Z).
Proof.
  intros Hrun.
  assert (∀ es st st', dht_inv st.1 ∧ workers_inv st.1 → dht_run es st = Some st' →
                       dht_inv st'.1 ∧ workers_inv st'.1) as Hgen.
  { clear. intros es. induction es as [|e es IH]; intros [m w] st' Hst Hrun; [by simplify_eq/=|].
    apply bind_Some in Hrun as (st1 & Hs & Hrun). eauto using dht_step_inv. }
  destruct (Hgen es (new_dht_manager n, w) (m, w')) as [Hinv Hw]; [by split; [apply new_dht_inv|]|done|].
  simpl in *. destruct Hinv as [Hn Hq Hg Hs Hl]. pose proof Hn as Hn'.
  apply NoDup_app in Hn' as (Hni & Hdis & Hnh). split_all; try done.
  - rewrite <-Hq, list_to_set_app_L. set_solver.
  - lia.
  - rewrite <-Hq, size_list_to_set, length_app in Hg by done.
    pose proof (uncounted_in_hand (c_workers m)). lia.
  - intros Hr. unfold workers_inv in Hw. rewrite Hr in Hw. rewrite Hl, Hw. done.
Qed.

(** ** Stopping *)

(** The transitions a worker has left once the stop is requested. *)
Definition stop_steps (s : dht_worker) : Z :=
  match s with
  | DFresh _ _ => 6 | DQuery _ _ _ => 5 | DFor _ => 4 | DProgress => 3 | DStart => 3
  | DLoop => 2 | DLeave => 1 | DEnded => 0
  end.

Definition worker_only (e : dht_event) : Prop := ∃ i h, e = DWorker i h.

Lemma dht_worker_step_stopping i h m w st :
  c_shutdown_requested m = true → dht_worker_step i h (m, w) = Some st →
  c_shutdown_requested st.1 = true ∧ c_running st.1 = c_running m
  ∧ length (c_workers st.1) = length (c_workers m)
  ∧ m_queried_hashes st.1 = m_queried_hashes m
  ∧ (sumZ stop_steps (c_workers st.1) < sumZ stop_steps (c_workers m))%Z.
Proof.
  intros Hf Hst. apply bind_Some in Hst as (s & Hi & Hst).
  assert (keeps_running m = false) as Hk by (unfold keeps_running; rewrite Hf; by destruct (c_running m)).
  rewrite Hk, ?andb_false_r in Hst.
  destruct s; simpl in Hst; unfold send_queries in *; rewrite ?andb_false_r in Hst;
    repeat case_match; simplify_eq/=; rewrite length_insert, (sumZ_insert _ _ _ _ _ Hi); simpl;
    split_all; try done; lia.
Qed.

Lemma dht_worker_can_move i s h m w :
  c_workers m !! i = Some s → s ≠ DEnded → is_Some (dht_worker_step i h (m, w)).
Proof.
  intros Hi Hs. unfold dht_worker_step. rewrite Hi. cbn [mbind option_bind].
  destruct s; try done; repeat case_match; eauto.
Qed.

Lemma stop_drain (n : nat) m w :
  c_shutdown_requested m = true → c_running m = true →
  (sumZ stop_steps (c_workers m) ≤ Z.of_nat n)%Z →
  ∃ es m' w', Forall worker_only es ∧ dht_run (es ++ [DJoin]) (m, w) = Some (m', w')
    ∧ c_running m' = false ∧ c_workers m' = [].
Proof.
  revert m w. induction n as [|n IH]; intros m w Hf Hr Hn;
    (destruct (forallb has_ended (c_workers m)) eqn:Hall;
     [exists [], (m <| c_workers := [] |> <| c_running := false |>), w; simpl; unfold join_workers;
      by rewrite Hf, Hr, Hall|]);
    (assert (∃ i s, c_workers m !! i = Some s ∧ s ≠ DEnded) as (i & s & Hi & Hs);
     [apply forallb_false_lookup in Hall as (i & s & Hi & Hs); exists i, s; split; [done|]; by intros ->|]);
    destruct (dht_worker_can_move i s "" m w Hi Hs) as [[m1 w1] Hst];
    destruct (dht_worker_step_stopping i "" m w (m1, w1) Hf Hst) as (Hf' & Hr' & _ & _ & Hlt).
  - assert (0 ≤ sumZ stop_steps (c_workers m1))%Z by (apply sumZ_nonneg; by intros []).
    simpl in *. lia.
  - destruct (IH m1 w1) as (es & m' & w' & Hes & Hrun & Hfin); [done | by rewrite <-Hr, <-Hr' | simpl in *; lia|].
    exists (DWorker i "" :: es), m', w'. split_all; try apply Hfin.
    + constructor; [by eexists _, _ | done].
    + cbn [app dht_run dht_step]. rewrite Hst. exact Hrun.
Qed.

(** [stop] always terminates: once the stop is requested every schedule
    of the workers has at most six transitions per worker and draws no new
    target, and the workers can all be joined, after which the manager is not
    running and has no workers. *)
Theorem dht_stop_terminates m w :
  c_running m = true →
  let m1 := request_stop m in
  (∀ es st, Forall worker_only es → dht_run es (m1, w) = Some st →
            (Z.of_nat (length es) ≤ 6 * Z.of_nat (length (c_workers m)))%Z
            ∧ m_queried_hashes st.1 = m_queried_hashes m)
  ∧ ∃ es m' w', Forall worker_only es ∧ dht_run (es ++ [DJoin]) (m1, w) = Some (m', w')
      ∧ c_running m' = false ∧ c_workers m' = [].
Proof.
  intros Hr m1. unfold m1, request_stop. rewrite Hr. split.
  - assert (∀ es m w st, c_shutdown_requested m = true → Forall worker_only es →
              dht_run es (m, w) = Some st →
              (Z.of_nat (length es) ≤ sumZ stop_steps (c_workers m))%Z
              ∧ m_queried_hashes st.1 = m_queried_hashes m) as Hgen.
    { clear. intros es. induction es as [|e es IH]; intros m w st Hf Hes Hrun.
      - simplify_eq/=. split; [apply sumZ_nonneg; by intros []|done].
      - apply Forall_cons in Hes as [(i & h & ->) Hes].
        apply bind_Some in Hrun as ([m1 w1] & Hs & Hrun). cbn [dht_step] in Hs.
        destruct (dht_worker_step_stopping _ _ _ _ _ Hf Hs) as (Hf' & _ & _ & Hq & Hlt).
        destruct (IH m1 w1 st Hf' Hes Hrun) as [Hle Hq']. simpl in *. split; [lia|congruence]. }
    intros es st Hes Hrun. destruct (Hgen _ (m <| c_shutdown_requested := true |>) w st ltac:(done) Hes Hrun) as [Hle Hq]. simpl in *.
    split; [|done]. etrans; [exact Hle|]. apply sumZ_bound. intros []; simpl; lia.
  - eapply stop_drain; [done | done|]. rewrite Z2Nat.id; [done|]. apply sumZ_nonneg. by intros [].
Qed.
End Manager.
Arguments dht_event : clear implicits.

(** A run on the simulated world: two workers are started, the first one
    draws and queries a target, the second one draws the same and skips it. *)
Definition sim_dht_events : list (dht_event Sim.world) :=
  DStartCall :: ((λ p, DWorker p.1 p.2) <$>
    [(0, ""); (0, ""); (0, "t"); (1, ""); (1, ""); (1, "t"); (0, ""); (0, "")]).
Definition sim_dht : dht_manager * Sim.world :=
  default (new_dht_manager 0, Sim.initial 0)
    (dht_run None None sim_dht_events (new_dht_manager 2, Sim.initial 0)).

Lemma dht_queries_unique_witness :
  c_issued sim_dht.1 = ["t"] ∧ NoDup (c_issued sim_dht.1) ∧ m_worker_count sim_dht.1 = 2%Z.
Proof.
  split; [by vm_compute|]. split; [|by vm_compute].
  apply (dht_queries_unique None None 2 (Sim.initial 0) sim_dht_events sim_dht.1 sim_dht.2).
  by vm_compute.
Defined.

Lemma dht_stop_terminates_witness :
  ∃ es m' w', Forall worker_only es
    ∧ dht_run None None (es ++ [DJoin]) (request_stop sim_dht.1, sim_dht.2) = Some (m', w')
    ∧ c_running m' = false.
Proof.
  destruct (dht_stop_terminates None None sim_dht.1 sim_dht.2) as [_ (es & m' & w' & He & Hr & Hf & _)].
  - by vm_compute.
  - exists es, m', w'. split; [exact He|]. split; [exact Hr | exact Hf].
Defined.
