(* ===== verification/DoubleText.v ===== *)
(** * Doubles read from text and written as text

    What the performance optimizer uses of the C++ standard library on doubles
    in its configuration file and its report: [std::stod] with its two
    exceptions, and [operator<<] in the default format of a stream ([%g], six
    significant digits).  Both round to nearest, ties to even; the sign of a
    NaN, which [SpecFloat] does not represent, is not modelled. *)

From S2P Require Import Prelude HashFormat Numeric.

(** ** [std::stod] *)

(** The double nearest to [n / d], for positive [n] and [d]: a quotient of at
    least 64 bits with a sticky bit for the remainder, rounded once. *)
Definition double_of_ratio (n d : Z) : double :=
  let shift := Z.max 0 (64 + Z.log2 d - Z.log2 n) in
  let scaled := (n * 2 ^ shift)%Z in
  let sticky := if (scaled mod d =? 0)%Z then 0%Z else 1%Z in
  binary_normalize 53 1024 (2 * (scaled / d) + sticky) (- shift - 1) false.

(** [ERANGE] on a small result: one that is not exact and, rounded to 53 bits,
    is below the least normal number. *)
Definition underflows (n d : Z) : bool :=
  (n * 2 ^ 1076 <? (2 ^ 54 - 1) * d)%Z && negb ((n * 2 ^ 1074) mod d =? 0)%Z.

(** The magnitude [n * base ^ e], [None] for [ERANGE]. *)
Definition scaled_double (n base e : Z) : option double :=
  if (n =? 0)%Z then Some (S754_zero false)
  else
    let d := (base ^ (- e))%Z in
    let result := if (0 <=? e)%Z then double_of_int (n * base ^ e) else double_of_ratio n d in
    match result with
    | S754_infinity _ => None
    | _ => if (e <? 0)%Z && underflows n d then None else Some result
    end.

(** Digits with an optional point: their value, the number of digits after
    the point and the rest of the text; [None] when there is no digit. *)
Definition scan_mantissa (base : Z) (s : list ascii) : option (Z * Z * list ascii) :=
  let whole := digits_prefix base s in
  let rest := drop (length whole) s in
  let '(fraction, rest) :=
    match rest with
    | "."%char :: r => let f := digits_prefix base r in (f, drop (length f) r)
    | _ => ([], rest)
    end in
  match whole ++ fraction with
  | [] => None
  | ds => Some (digits_value base ds, Z.of_nat (length fraction), rest)
  end.

(** An exponent, 0 when the letter is not followed by one. *)
Definition scan_exponent (letters s : list ascii) : Z :=
  match s with
  | c :: s =>
    if bool_decide (c ∈ letters) then
      let '(sign, s) := read_sign s in (sign * digits_value 10 (digits_prefix 10 s))%Z
    else 0%Z
  | [] => 0%Z
  end.

Definition tolower (c : ascii) : ascii := if in_range "A" "Z" c then byte_of (byte_val c + 32) else c.
Definition has_prefix (word s : list ascii) : bool := bool_decide (tolower <$> take (length word) s = word).

Inductive conversion := NotNumber | OutOfRange | Converted (d : double).
Definition converted (r : option double) : conversion := match r with Some d => Converted d | None => OutOfRange end.

(** The text after the sign.  A "0x" without digits after it is a zero. *)
Definition strtod_magnitude (s : list ascii) : conversion :=
  if has_prefix (chars "inf") s then Converted (S754_infinity false)
  else if has_prefix (chars "nan") s then Converted S754_nan
  else
    let hex := if has_prefix (chars "0x") s then scan_mantissa 16 (drop 2 s) else None in
    match hex with
    | Some (n, places, rest) =>
      converted (scaled_double n 2 (scan_exponent ["p"%char; "P"%char] rest - 4 * places))
    | None =>
      match scan_mantissa 10 s with
      | Some (n, places, rest) =>
        converted (scaled_double n 10 (scan_exponent ["e"%char; "E"%char] rest - places))
      | None => NotNumber
      end
    end.
Definition stod (text : string) : outcome double :=
  let '(sign, rest) := read_sign (skip_spaces (chars text)) in
  match strtod_magnitude rest with
  | NotNumber => Threw "std::invalid_argument: stod"
  | OutOfRange => Threw "std::out_of_range: stod"
  | Converted d => Returned (if (sign =? -1)%Z then SFopp d else d)
  end.

Example stod_examples :
  stod "80" = Returned (double_of_int 80) ∧ stod " -0.1x" = Returned (SFopp (double_lit 1 10))
  ∧ stod "12.5e1" = Returned (double_of_int 125) ∧ stod "0x1.8p3" = Returned (double_of_int 12)
  ∧ stod "1e400" = Threw "std::out_of_range: stod" ∧ stod "1e-400" = Threw "std::out_of_range: stod"
  ∧ stod "." = Threw "std::invalid_argument: stod" ∧ stod "-Infinity" = Returned (S754_infinity true)
  ∧ stod "0x" = Returned (S754_zero false) ∧ stod "3e" = Returned (double_of_int 3).
Proof. by vm_compute. Qed.

(** ** [operator<<] *)

(** The exponent of the leading decimal digit, of an integer and of a fraction
    below 1; the fuel covers the range of the doubles. *)
Fixpoint int_log10 (fuel : nat) (q : Z) : Z :=
  match fuel with
  | O => 0
  | S fuel => if (q <? 10)%Z then 0 else 1 + int_log10 fuel (q / 10)
  end%Z.
Fixpoint frac_log10 (fuel : nat) (n d : Z) : Z :=
  match fuel with
  | O => 0
  | S fuel => if (d <=? n * 10)%Z then 1 else 1 + frac_log10 fuel (n * 10) d
  end%Z.
Definition decimal_exponent (n d : Z) : Z :=
  if (d <=? n)%Z then int_log10 400 (n / d) else (- frac_log10 400 n d)%Z.

(** Six significant digits of [n / d], with the exponent of the first. *)
Definition six_digits (n d : Z) : Z * Z :=
  let x := decimal_exponent n d in
  let r := if (x <=? 5)%Z then div_half_even (n * 10 ^ (5 - x)) d else div_half_even n (d * 10 ^ (x - 5)) in
  if (r =? 10 ^ 6)%Z then (10 ^ 5, x + 1)%Z else (r, x).

Fixpoint drop_zeros (l : list ascii) : list ascii :=
  match l with "0"%char :: l => drop_zeros l | _ => l end.
(** A fraction of [k] digits without its trailing zeros, and its point. *)
Definition fraction_text (k : nat) (f : Z) : string :=
  match rev (drop_zeros (rev (chars (pad_zeros k (to_string f))))) with
  | [] => ""
  | l => "." +:+ of_chars l
  end.
Definition magnitude_text (n d : Z) : string :=
  let '(r, x) := six_digits n d in
  if ((-4 <=? x) && (x <? 6))%Z then
    let k := (5 - x)%Z in
    to_string (r / 10 ^ k) +:+ fraction_text (Z.to_nat k) (r mod 10 ^ k)
  else
    to_string (r / 10 ^ 5) +:+ fraction_text 5 (r mod 10 ^ 5) +:+ "e" +:+ (if (x <? 0)%Z then "-" else "+")
    +:+ pad_zeros 2 (to_string (Z.abs x)).
Definition double_text (v : double) : string :=
  match v with
  | S754_zero s => if s then "-0" else "0"
  | S754_infinity s => if s then "-inf" else "inf"
  | S754_nan => "nan"
  | S754_finite s m e =>
    (if s then "-" else "")
    +:+ (if (0 <=? e)%Z then magnitude_text (Zpos m * 2 ^ e) 1 else magnitude_text (Zpos m) (2 ^ (- e)))
  end.

Example double_text_examples :
  double_text (double_of_int 800) = "800" ∧ double_text (double_lit 1 10) = "0.1"
  ∧ double_text (double_of_int 1234567) = "1.23457e+06" ∧ double_text (double_of_int 999999) = "999999"
  ∧ double_text (double_lit 2 3) = "0.666667" ∧ double_text (double_lit 1 100000) = "1e-05"
  ∧ double_text (double_lit 12345 100000000) = "0.00012345" ∧ double_text (double_lit 9999995 10) = "1e+06".
Proof. by vm_compute. Qed.

(** ** Integers of up to six digits read back *)

Lemma double_of_neg p : double_of_int (Zneg p) = SFopp (double_of_int (Zpos p)).
Proof.
  unfold double_of_int, binary_normalize, binary_round. destruct (shl_align p 0 _) as [mz ez].
  unfold binary_round_aux. destruct (shr_fexp _ _ (Zpos mz) ez loc_Exact) as [mrs' e'].
  destruct (shr_fexp _ _ _ e' loc_Exact) as [mrs'' e'']. destruct (shr_m mrs''); try done. by destruct (e'' <=? _)%Z.
Qed.

Lemma digit_not_letter c : isdigit c = true →
  tolower c = c ∧ c ≠ "i"%char ∧ c ≠ "n"%char ∧ c ≠ "x"%char ∧ c ≠ "."%char.
Proof. destruct c as [[] [] [] [] [] [] [] []]; vm_compute; intros; split_all; done. Qed.

Lemma digits_no_prefix (l : list ascii) : forallb isdigit l = true → l ≠ [] →
  has_prefix (chars "inf") l = false ∧ has_prefix (chars "nan") l = false ∧ has_prefix (chars "0x") l = false.
Proof.
  intros Hl Hne. destruct l as [|c l]; [done|]. cbn [forallb] in Hl. apply andb_true_iff in Hl as [Hc Hl].
  destruct (digit_not_letter c Hc) as (Hlow & Hi & Hn & _).
  unfold has_prefix. change (length (chars "inf")) with 3. change (length (chars "nan")) with 3.
  change (length (chars "0x")) with 2. cbn [take]. rewrite !fmap_cons, Hlow.
  split_all; apply bool_decide_eq_false; [intros [=]; congruence..|]. intros [= -> Htl].
  destruct l as [|c' l]; [done|]. cbn [forallb] in Hl. apply andb_true_iff in Hl as [Hc' _].
  destruct (digit_not_letter c' Hc') as (Hlow' & _ & _ & Hx & _). simpl in Htl. rewrite Hlow' in Htl. by injection Htl.
Qed.

Lemma scan_digits (l : list ascii) : forallb isdigit l = true → l ≠ [] →
  scan_mantissa 10 l = Some (digits_value 10 (digit_val <$> l), 0%Z, []).
Proof.
  intros Hl Hne. unfold scan_mantissa. rewrite digits_prefix_digits by done. rewrite length_fmap, drop_all, app_nil_r.
  destruct l as [|c l]; [done|]. by rewrite fmap_cons.
Qed.

Lemma double_of_pos_finite p : (Zpos p < 2 ^ 53)%Z → ∃ m e, double_of_int (Zpos p) = S754_finite false m e.
Proof. intros Hp. destruct (double_of_pos p Hp) as (m & e & -> & _). eauto. Qed.

Lemma stod_digits p : (Zpos p < 2 ^ 53)%Z → strtod_magnitude (chars (pretty (Npos p))) = Converted (double_of_int (Zpos p)).
Proof.
  intros Hp. destruct (pretty_N_digits (Npos p)) as (Hf & Hv & Hn).
  destruct (digits_no_prefix _ Hf Hn) as (H1 & H2 & H3). unfold strtod_magnitude. rewrite H1, H2, H3.
  rewrite scan_digits, Hv by done. unfold scaled_double. change (Z.of_N (Npos p)) with (Zpos p).
  change (Zpos p * 10 ^ _)%Z with (Zpos p * 1)%Z. rewrite Z.mul_1_r.
  destruct (double_of_pos_finite p Hp) as (m & e & ->). done.
Qed.

(** [std::stod] reads a printed integer as its double. *)
Lemma stod_to_string z : (- 2 ^ 53 < z < 2 ^ 53)%Z → stod (to_string z) = Returned (double_of_int z).
Proof.
  intros Hz. unfold stod, to_string, pretty, pretty_Z. destruct z as [|p|p]; [done|..].
  - change (pretty p) with (pretty (Npos p)). destruct (pretty_N_digits (Npos p)) as (Hf & _ & Hn).
    destruct (chars (pretty (Npos p))) as [|c l] eqn:Hl; [done|]. cbn [forallb] in Hf.
    apply andb_true_iff in Hf as [Hc _]. destruct (isdigit_cases c Hc) as (_ & Hs & _).
    cbn [skip_spaces]. rewrite Hs, read_sign_digit by done. rewrite <-Hl, stod_digits by lia. done.
  - change (pretty p) with (pretty (Npos p)). rewrite chars_append.
    change (chars "-" ++ chars (pretty (Npos p))) with ("-"%char :: chars (pretty (Npos p))).
    cbn [skip_spaces]. change (isspace "-") with false. cbn [read_sign].
    rewrite stod_digits by lia. by rewrite double_of_neg.
Qed.

Lemma int_log10_bound fuel q k : (0 ≤ q < 10 ^ (k + 1))%Z → (0 ≤ k)%Z → (0 ≤ int_log10 fuel q ≤ k)%Z.
Proof.
  revert q k. induction fuel as [|fuel IH]; intros q k Hq Hk; simpl; [lia|].
  destruct (Z.ltb_spec q 10) as [|Hge]; [lia|].
  destruct (decide (k = 0)%Z) as [->|Hk0]; [simpl in Hq; lia|].
  pose proof (Z.div_mod q 10 ltac:(lia)). pose proof (Z.mod_pos_bound q 10 ltac:(lia)).
  assert (10 ^ (k + 1) = 10 * 10 ^ (k - 1 + 1))%Z as Hpow.
  { replace (k + 1)%Z with (Z.succ k) by lia. rewrite Z.pow_succ_r by lia. f_equal. f_equal. lia. }
  specialize (IH (q / 10)%Z (k - 1)%Z). lia.
Qed.

Lemma int_log10_above fuel q : (0 ≤ q < 10 ^ Z.of_nat fuel)%Z → (q < 10 ^ (int_log10 fuel q + 1))%Z.
Proof.
  revert q. induction fuel as [|fuel IH]; intros q Hq; [simpl in *; lia|]. cbn [int_log10].
  destruct (Z.ltb_spec q 10) as [|Hge]; [simpl; lia|].
  rewrite Nat2Z.inj_succ, Z.pow_succ_r in Hq by lia.
  pose proof (Z.div_mod q 10 ltac:(lia)). pose proof (Z.mod_pos_bound q 10 ltac:(lia)).
  assert (0 ≤ int_log10 fuel (q / 10))%Z as Hpos.
  { clear. generalize (q / 10)%Z. induction fuel as [|fuel IH]; intros q0; simpl; [lia|].
    destruct (q0 <? 10)%Z; [lia|]. pose proof (IH (q0 / 10)%Z). lia. }
  specialize (IH (q / 10)%Z ltac:(lia)).
  replace (1 + int_log10 fuel (q / 10) + 1)%Z with (Z.succ (int_log10 fuel (q / 10) + 1)) by lia.
  rewrite Z.pow_succ_r by lia. lia.
Qed.

Lemma div_half_even_exact q b : (0 < b)%Z → div_half_even (q * b) b = q.
Proof. intros Hb. unfold div_half_even. rewrite Z.div_mul, Z.mod_mul by lia. simpl. destruct b; done || lia. Qed.

Lemma rev_zeros n : rev (replicate n "0"%char) = replicate n "0"%char.
Proof. induction n as [|n IH]; [done|]. simpl. by rewrite IH, <-replicate_S_end. Qed.

Lemma fraction_zero k : fraction_text k 0 = "".
Proof.
  unfold fraction_text, pad_zeros. rewrite chars_append, chars_of_chars. change (chars (to_string 0)) with ["0"%char].
  change (String.length (to_string 0)) with 1. rewrite <-replicate_S_end, rev_zeros.
  assert (∀ n, drop_zeros (replicate n "0"%char) = []) as -> by (by intros n; induction n). done.
Qed.

Lemma integer_text z b : (0 < z < 10 ^ 6)%Z → (0 < b)%Z → magnitude_text (z * b) b = to_string z.
Proof.
  intros Hz Hb. unfold magnitude_text, six_digits, decimal_exponent.
  rewrite (proj2 (Z.leb_le b (z * b))), Z.div_mul by nia.
  pose proof (int_log10_bound 400 z 5 ltac:(simpl; lia) ltac:(lia)) as Hx.
  assert (10 ^ 6 ≤ 10 ^ Z.of_nat 400)%Z as Hbig by (apply Z.pow_le_mono_r; lia).
  pose proof (int_log10_above 400 z ltac:(lia)) as Hlt. clear Hbig.
  set (x := int_log10 400 z) in *. rewrite (proj2 (Z.leb_le x 5)) by lia.
  replace (z * b * 10 ^ (5 - x))%Z with (z * 10 ^ (5 - x) * b)%Z by lia. rewrite div_half_even_exact by done.
  assert (10 ^ 6 = 10 ^ (x + 1) * 10 ^ (5 - x))%Z as Hpow by (rewrite <-Z.pow_add_r by lia; f_equal; lia).
  pose proof (Z.pow_pos_nonneg 10 (5 - x) ltac:(lia) ltac:(lia)).
  rewrite (proj2 (Z.eqb_neq _ _)) by nia. rewrite (proj2 (Z.leb_le (-4) x)), (proj2 (Z.ltb_lt x 6)) by lia. simpl andb.
  cbv iota. rewrite Z.div_mul, Z.mod_mul, fraction_zero by lia. 
  by rewrite <-(of_chars_chars (to_string z +:+ "")), chars_append, app_nil_r, of_chars_chars.
Qed.

(** A double that is an integer of up to six digits is written as it. *)
Lemma double_text_int z : (- 10 ^ 6 < z < 10 ^ 6)%Z → double_text (double_of_int z) = to_string z.
Proof.
  intros Hz. assert (10 ^ 6 < 2 ^ 53)%Z by lia.
  assert (Hpos : ∀ p s m e, (Zpos p < 10 ^ 6)%Z → double_of_int (Zpos p) = S754_finite false m e →
    double_text (S754_finite s m e) = (if s then "-" else "") +:+ to_string (Zpos p)).
  { intros p s m e Hp Hd. destruct (double_of_pos p ltac:(lia)) as (m' & e' & Hd' & He & Hm & _).
    rewrite Hd in Hd'. injection Hd' as <- <-. unfold double_text. f_equal.
    destruct (Z.leb_spec 0 e).
    - replace e with 0%Z in * by lia. rewrite Hm. simpl (2 ^ _)%Z. rewrite !Z.mul_1_r.
      rewrite <-(Z.mul_1_r (Zpos p)) at 1. apply integer_text; lia.
    - rewrite Hm. apply integer_text; [lia|]. apply Z.pow_pos_nonneg; lia. }
  destruct z as [|p|p]; [done|..].
  - destruct (double_of_pos_finite p ltac:(lia)) as (m & e & Hd). rewrite Hd. by rewrite (Hpos p) by (done || lia).
  - rewrite double_of_neg. destruct (double_of_pos_finite p ltac:(lia)) as (m & e & Hd). rewrite Hd.
    simpl SFopp. by rewrite (Hpos p) by (done || lia).
Qed.

(** ** [formatBytes] *)

(** [std::fixed] with two decimals. *)
Definition fixed_two (v : double) : string :=
  match v with
  | S754_zero s => (if s then "-" else "") +:+ "0.00"
  | S754_infinity s => (if s then "-" else "") +:+ "inf"
  | S754_nan => "nan"
  | S754_finite s m e =>
    let n := if (0 <=? e)%Z then (Zpos m * 100 * 2 ^ e)%Z else div_half_even (Zpos m * 100) (2 ^ (- e)) in
    (if s then "-" else "") +:+ to_string (n / 100) +:+ "." +:+ pad_zeros 2 (to_string (n mod 100))
  end.

(** The loop: the size divided down and the units left. *)
Fixpoint scale_size (units : list string) (size : double) : double * string :=
  match units with
  | [] => (size, "")
  | [unit] => (size, unit)
  | unit :: units =>
    if double_le (double_of_int 1024) size then scale_size units (double_div size (double_of_int 1024)) else (size, unit)
  end.
Definition formatBytes (bytes : Z) : string :=
  let '(size, unit) := scale_size ["B"; "KB"; "MB"; "GB"; "TB"] (double_of_int bytes) in
  fixed_two size +:+ " " +:+ unit.

(** Sizes below a kilobyte are exact; rounding can print 1024 of a unit. *)
Lemma formatBytes_small n : n < 1024 → formatBytes (Z.of_nat n) = to_string (Z.of_nat n) +:+ ".00 B".
Proof.
  intros Hn. assert (Hall : forallb (λ n, bool_decide (formatBytes (Z.of_nat n) = to_string (Z.of_nat n) +:+ ".00 B")) (seq 0 1024) = true)
    by (vm_compute; reflexivity).
  rewrite forallb_forall in Hall. apply (bool_decide_eq_true_1 _), (Hall n). apply in_seq. lia.
Qed.
Example formatBytes_examples :
  formatBytes 1536 = "1.50 KB" ∧ formatBytes 1048575 = "1024.00 KB" ∧ formatBytes (5 * 2 ^ 40) = "5.00 TB"
  ∧ formatBytes (2 ^ 60) = "1048576.00 TB".
Proof. by vm_compute. Qed.
