(* ===== verification/Sql.v ===== *)
(** * The database layer

    Models [DiscoveredTorrent], [MySQLConfig] and [MySQLConnection] of
    [src/src/dht_crawler.cpp]: every statement the class sends, built piece by
    piece as the code concatenates it, and every branch of every method.  The
    MySQL client library is the parameter [Database].

    A statement is a list of pieces: text of the program, and quoted values,
    escaped or not.  The main theorem reads statements back with the lexical
    rules of SQL: the string literals of a statement are exactly the values it
    was built from, and no value can change the rest of the statement.  The one
    exception is the insertion of a peer with a colon in its address. *)

From S2P Require Import Prelude World Numeric.

Record DiscoveredTorrent := mk_DiscoveredTorrent {
  info_hash : string;
  name : string;
  dt_size : Z;
  num_files : Z;
  peers : list string;
  file_names : list string;
  file_sizes : list Z;
  comment : string;
  created_by : string;
  creation_date : Z;
  encoding : string;
  piece_length : Z;
  num_pieces : Z;
  trackers : list string;
  private_torrent : bool;
  dt_magnet_link : string;
  announce_url : string;
  announce_list : list string;
  content_type : string;
  language : string;
  category : string;
  seeders_count : Z;
  leechers_count : Z;
  download_speed : Z;
  discovered_time : Z;
  last_seen_time : Z;
  source : string;
  metadata_received : bool;
  timed_out : bool;
}.
#[export] Instance eta_DiscoveredTorrent : Eta DiscoveredTorrent :=
  λ t, mk_DiscoveredTorrent (info_hash t) (name t) (dt_size t) (num_files t) (peers t) (file_names t)
         (file_sizes t) (comment t) (created_by t) (creation_date t) (encoding t) (piece_length t)
         (num_pieces t) (trackers t) (private_torrent t) (dt_magnet_link t) (announce_url t)
         (announce_list t) (content_type t) (language t) (category t) (seeders_count t)
         (leechers_count t) (download_speed t) (discovered_time t) (last_seen_time t) (source t)
         (metadata_received t) (timed_out t).

Record MySQLConfig := mk_MySQLConfig {
  server : string;
  user : string;
  password : string;
  database : string;
  port : Z;
  metadata_hashes : string;
  metadata_database_mode : bool;
  debug_mode : bool;
  verbose_mode : bool;
  metadata_log_mode : bool;
  concurrent_mode : bool;
  num_workers : Z;
  bep51_mode : bool;
}.
#[export] Instance eta_MySQLConfig : Eta MySQLConfig :=
  λ c, mk_MySQLConfig (server c) (user c) (password c) (database c) (port c) (metadata_hashes c)
         (metadata_database_mode c) (debug_mode c) (verbose_mode c) (metadata_log_mode c)
         (concurrent_mode c) (num_workers c) (bep51_mode c).
Definition default_MySQLConfig : MySQLConfig :=
  mk_MySQLConfig "" "" "" "" 3306 "" false false false false true 4 true.

(** [m_connection]: whether [mysql_init] returned a handle. *)
Record MySQLConnection := mk_MySQLConnection {
  m_connection : bool;
  m_config : MySQLConfig;
  m_connected : bool;
}.
#[export] Instance eta_MySQLConnection : Eta MySQLConnection :=
  λ c, mk_MySQLConnection (m_connection c) (m_config c) (m_connected c).
Definition new_MySQLConnection (mysql_init : bool) (config : MySQLConfig) : MySQLConnection :=
  mk_MySQLConnection mysql_init config false.

(** ** Building statements *)

(** Text of the program (or a number); ['] + escapeString(s) + [']; ['] + s + [']. *)
Inductive sql_piece := Sql (s : string) | Quoted (s : string) | Unescaped (s : string).

Definition concat_strings (l : list string) : string := foldr String.append "" l.

(** [", "]-separated, as the loops with [if (i > 0)] build it. *)
Fixpoint comma_separated (l : list string) : string :=
  match l with
  | [] => ""
  | [s] => s
  | s :: l => s +:+ ", " +:+ comma_separated l
  end.

(** The part of a byte string a C string keeps. *)
Fixpoint c_string (s : list ascii) : list ascii :=
  match s with
  | [] => []
  | c :: s => if (byte_val c =? 0)%Z then [] else c :: c_string s
  end.

Definition sql_bool (b : bool) : string := if b then "TRUE" else "FALSE".

(** ** The schema

    The statements of [createTables], with their text. *)

Definition createTorrentsTable : string :=
  "
            CREATE TABLE IF NOT EXISTS discovered_torrents (
                id INT AUTO_INCREMENT PRIMARY KEY,
                info_hash VARCHAR(40) NOT NULL UNIQUE,
                name VARCHAR(500) NULL,
                size BIGINT DEFAULT 0 NULL,
                num_files INT DEFAULT 0 NULL,
                file_names TEXT NULL,
                file_sizes TEXT NULL,
                comment TEXT NULL,
                created_by VARCHAR(255) NULL,
                creation_date TIMESTAMP NULL,
                encoding VARCHAR(50) NULL,
                piece_length BIGINT DEFAULT 0 NULL,
                num_pieces INT DEFAULT 0 NULL,
                trackers TEXT NULL,
                private_torrent BOOLEAN DEFAULT FALSE NULL,
                source VARCHAR(50) DEFAULT 'DHT' NULL,
                metadata_received BOOLEAN DEFAULT FALSE NULL,
                timed_out BOOLEAN DEFAULT FALSE NULL,
                magnet_link TEXT NULL,
                announce_url VARCHAR(500) NULL,
                announce_list TEXT NULL,
                content_type VARCHAR(100) NULL,
                language VARCHAR(10) NULL,
                category VARCHAR(100) NULL,
                seeders_count INT DEFAULT 0 NULL,
                leechers_count INT DEFAULT 0 NULL,
                download_speed BIGINT DEFAULT 0 NULL,
                discovered_at TIMESTAMP DEFAULT CURRENT_TIMESTAMP NULL,
                last_seen_at TIMESTAMP DEFAULT CURRENT_TIMESTAMP NULL,
                created_at TIMESTAMP DEFAULT CURRENT_TIMESTAMP NULL,
                updated_at TIMESTAMP DEFAULT CURRENT_TIMESTAMP NULL ON UPDATE CURRENT_TIMESTAMP,
                INDEX idx_info_hash (info_hash),
                INDEX idx_discovered_at (discovered_at),
                INDEX idx_source (source),
                INDEX idx_metadata_received (metadata_received),
                INDEX idx_timed_out (timed_out),
                INDEX idx_name (name(100)),
                INDEX idx_size (size),
                INDEX idx_num_files (num_files),
                INDEX idx_content_type (content_type),
                INDEX idx_category (category),
                INDEX idx_last_seen (last_seen_at)
            ) ENGINE=InnoDB DEFAULT CHARSET=utf8mb4 COLLATE=utf8mb4_unicode_ci
        ".

Definition createPeersTable : string :=
  "
            CREATE TABLE IF NOT EXISTS discovered_peers (
                id INT AUTO_INCREMENT PRIMARY KEY,
                torrent_hash VARCHAR(40) NOT NULL,
                peer_address VARCHAR(45) NOT NULL,
                peer_port INT NOT NULL,
                peer_id VARCHAR(40) NULL,
                client_name VARCHAR(100) NULL,
                client_version VARCHAR(50) NULL,
                connection_type VARCHAR(20) NULL,
                source VARCHAR(50) DEFAULT 'DHT' NULL,
                discovered_at TIMESTAMP DEFAULT CURRENT_TIMESTAMP NULL,
                last_seen_at TIMESTAMP DEFAULT CURRENT_TIMESTAMP NULL,
                created_at TIMESTAMP DEFAULT CURRENT_TIMESTAMP NULL,
                UNIQUE KEY unique_peer (torrent_hash, peer_address, peer_port),
                INDEX idx_torrent_hash (torrent_hash),
                INDEX idx_peer_address (peer_address),
                INDEX idx_discovered_at (discovered_at),
                INDEX idx_source (source),
                INDEX idx_client_name (client_name),
                FOREIGN KEY (torrent_hash) REFERENCES discovered_torrents(info_hash) ON DELETE CASCADE
            ) ENGINE=InnoDB DEFAULT CHARSET=utf8mb4 COLLATE=utf8mb4_unicode_ci
        ".

Definition createFilesTable : string :=
  "
            CREATE TABLE IF NOT EXISTS torrent_files (
                id INT AUTO_INCREMENT PRIMARY KEY,
                torrent_hash VARCHAR(40) NOT NULL,
                file_index INT NOT NULL,
                file_path VARCHAR(1000) NOT NULL,
                file_size BIGINT NOT NULL,
                file_hash VARCHAR(40) NULL,
                created_at TIMESTAMP DEFAULT CURRENT_TIMESTAMP NULL,
                UNIQUE KEY unique_file (torrent_hash, file_index),
                INDEX idx_torrent_hash (torrent_hash),
                INDEX idx_file_path (file_path(100)),
                INDEX idx_file_size (file_size)
            ) ENGINE=InnoDB DEFAULT CHARSET=utf8mb4 COLLATE=utf8mb4_unicode_ci
        ".

Definition createLogTable : string :=
  "
            CREATE TABLE IF NOT EXISTS log (
                id INT AUTO_INCREMENT PRIMARY KEY,
                timestamp TIMESTAMP DEFAULT CURRENT_TIMESTAMP NULL,
                function_name VARCHAR(255) NOT NULL,
                caller_function VARCHAR(255) NULL,
                error_code INT NULL,
                error_message TEXT NULL,
                stack_trace TEXT NULL,
                severity ENUM('DEBUG', 'INFO', 'WARNING', 'ERROR', 'CRITICAL') DEFAULT 'ERROR' NULL,
                thread_id VARCHAR(50) NULL,
                process_id INT NULL,
                additional_data TEXT NULL,
                created_at TIMESTAMP DEFAULT CURRENT_TIMESTAMP NULL,
                INDEX idx_timestamp (timestamp),
                INDEX idx_function_name (function_name),
                INDEX idx_caller_function (caller_function),
                INDEX idx_error_code (error_code),
                INDEX idx_severity (severity),
                INDEX idx_thread_id (thread_id),
                INDEX idx_created_at (created_at)
            ) ENGINE=InnoDB DEFAULT CHARSET=utf8mb4 COLLATE=utf8mb4_unicode_ci
        ".

Definition schema : list string :=
  [createTorrentsTable; createPeersTable; createFilesTable; createLogTable].

Section Connection.
Context {W : Type} `{Database W}.

(** [std::string result(escaped)] stops at the first zero byte. *)
Definition escapeString (c : MySQLConnection) (str : string) : string :=
  if m_connection c then of_chars (c_string (chars (mysql_real_escape_string str))) else str.

Definition quote : string := of_chars [ascii_of_nat 39].
Definition double_quote : string := of_chars [ascii_of_nat 34].

Definition render_piece (c : MySQLConnection) (p : sql_piece) : string :=
  match p with
  | Sql s => s
  | Quoted s => quote +:+ escapeString c s +:+ quote
  | Unescaped s => quote +:+ s +:+ quote
  end.
Definition render (c : MySQLConnection) (ps : list sql_piece) : string :=
  concat_strings (render_piece c <$> ps).

(** [query.c_str()] is what reaches the server. *)
Definition run_query (c : MySQLConnection) (ps : list sql_piece) (w : W) : option (Z * string) * W :=
  mysql_query (of_chars (c_string (chars (render c ps)))) w.

Definition log_pieces (function_name caller_function : string) (error_code : Z)
    (error_message stack_trace severity additional_data : string) : list sql_piece :=
  [Sql "INSERT INTO log (function_name, caller_function, error_code, error_message, stack_trace, severity, thread_id, process_id, additional_data) VALUES (";
   Quoted function_name; Sql ", "; Quoted caller_function; Sql ", "; Sql (to_string error_code); Sql ", ";
   Quoted error_message; Sql ", "; Quoted stack_trace; Sql ", "; Quoted severity; Sql ", ";
   Quoted this_thread_id; Sql ", "; Sql (to_string getpid); Sql ", "; Quoted additional_data; Sql ")"].

Definition logError (c : MySQLConnection) (function_name caller_function : string) (error_code : Z)
    (error_message stack_trace severity additional_data : string) (w : W) : bool * W :=
  if negb (m_connected c) then (false, w)
  else match run_query c (log_pieces function_name caller_function error_code error_message
                            stack_trace severity additional_data) w with
  | (Some _, w) => (false, w)
  | (None, w) => (true, w)
  end.

Definition logException (c : MySQLConnection) (function_name caller_function what additional_data : string)
    (w : W) : bool * W :=
  logError c function_name caller_function (-1) what "" "CRITICAL" additional_data w.

(** The arrays of [storeTorrent]. *)
Definition file_names_str (t : DiscoveredTorrent) : string := comma_separated (file_names t).
Definition file_sizes_str (t : DiscoveredTorrent) : string :=
  "[" +:+ comma_separated (to_string <$> file_sizes t) +:+ "]".
Definition json_strings (c : MySQLConnection) (l : list string) : string :=
  "[" +:+ comma_separated ((λ s, double_quote +:+ escapeString c s +:+ double_quote) <$> l) +:+ "]".

Definition creation_date_piece (d : Z) : sql_piece :=
  if (0 <? d)%Z then Unescaped (format_local_time d) else Sql "NULL".

Definition store_pieces (c : MySQLConnection) (t : DiscoveredTorrent) : list sql_piece :=
  [Sql "INSERT INTO discovered_torrents (info_hash, name, size, num_files, file_names, file_sizes, comment, created_by, creation_date, encoding, piece_length, num_pieces, trackers, private_torrent, source, metadata_received, timed_out, magnet_link, announce_url, announce_list, content_type, language, category, seeders_count, leechers_count, download_speed, last_seen_at) VALUES (";
   Quoted (info_hash t); Sql ", "; Quoted (name t); Sql ", ";
   Sql (to_string (dt_size t)); Sql ", "; Sql (to_string (num_files t)); Sql ", ";
   Quoted (file_names_str t); Sql ", "; Quoted (file_sizes_str t); Sql ", ";
   Quoted (comment t); Sql ", "; Quoted (created_by t); Sql ", ";
   creation_date_piece (creation_date t); Sql ", "; Quoted (encoding t); Sql ", ";
   Sql (to_string (piece_length t)); Sql ", "; Sql (to_string (num_pieces t)); Sql ", ";
   Quoted (json_strings c (trackers t)); Sql ", "; Sql (sql_bool (private_torrent t)); Sql ", ";
   Quoted (source t); Sql ", "; Sql (sql_bool (metadata_received t)); Sql ", ";
   Sql (sql_bool (timed_out t)); Sql ", "; Quoted (dt_magnet_link t); Sql ", ";
   Quoted (announce_url t); Sql ", "; Quoted (json_strings c (announce_list t)); Sql ", ";
   Quoted (content_type t); Sql ", "; Quoted (language t); Sql ", "; Quoted (category t); Sql ", ";
   Sql (to_string (seeders_count t)); Sql ", "; Sql (to_string (leechers_count t)); Sql ", ";
   Sql (to_string (download_speed t)); Sql ", ";
   Sql "CURRENT_TIMESTAMP) ON DUPLICATE KEY UPDATE name = VALUES(name), size = VALUES(size), num_files = VALUES(num_files), file_names = VALUES(file_names), file_sizes = VALUES(file_sizes), comment = VALUES(comment), created_by = VALUES(created_by), creation_date = VALUES(creation_date), encoding = VALUES(encoding), piece_length = VALUES(piece_length), num_pieces = VALUES(num_pieces), trackers = VALUES(trackers), private_torrent = VALUES(private_torrent), metadata_received = VALUES(metadata_received), magnet_link = VALUES(magnet_link), announce_url = VALUES(announce_url), announce_list = VALUES(announce_list), content_type = VALUES(content_type), language = VALUES(language), category = VALUES(category), seeders_count = VALUES(seeders_count), leechers_count = VALUES(leechers_count), download_speed = VALUES(download_speed), last_seen_at = CURRENT_TIMESTAMP, updated_at = CURRENT_TIMESTAMP"].

(** [peer.find(':')] splits address and port; [None] when there is no colon. *)
Definition split_peer (peer : string) : option (string * string) :=
  colon_pos ← find_char ":" (chars peer);
  Some (of_chars (take colon_pos (chars peer)), of_chars (drop (S colon_pos) (chars peer))).

(** The port is not escaped. *)
Definition peer_pieces (t : DiscoveredTorrent) (address port_str : string) : list sql_piece :=
  [Sql "INSERT IGNORE INTO discovered_peers (torrent_hash, peer_address, peer_port, source) VALUES (";
   Quoted (info_hash t); Sql ", "; Quoted address; Sql ", "; Sql port_str; Sql ", ";
   Quoted (source t); Sql ")"].

(** One iteration of the loop over the peers; an error is only printed. *)
Definition store_peer (c : MySQLConnection) (t : DiscoveredTorrent) (w : W) (peer : string) : W :=
  match split_peer peer with
  | Some (address, port_str) => (run_query c (peer_pieces t address port_str) w).2
  | None => w
  end.

Definition storeTorrent (c : MySQLConnection) (t : DiscoveredTorrent) (w : W) : bool * W :=
  if negb (m_connected c) then
    (false, (logError c "MySQLConnection::storeTorrent" "" (-1) "Not connected to database" "" "WARNING" "" w).2)
  else match run_query c (store_pieces c t) w with
  | (Some (errno, error_msg), w) =>
    (false, (logError c "MySQLConnection::storeTorrent" "" errno error_msg "" "ERROR"
               ("info_hash=" +:+ info_hash t) w).2)
  | (None, w) => (true, foldl (store_peer c t) w (peers t))
  end.

Definition timed_out_pieces (hash : string) : list sql_piece :=
  [Sql "UPDATE discovered_torrents SET timed_out = TRUE WHERE info_hash = "; Quoted hash].

Definition markTorrentTimedOut (c : MySQLConnection) (hash : string) (w : W) : bool * W :=
  if negb (m_connected c) then
    (false, (logError c "MySQLConnection::markTorrentTimedOut" "" (-1) "Not connected to database" "" "WARNING" "" w).2)
  else match run_query c (timed_out_pieces hash) w with
  | (Some (errno, error_msg), w) =>
    (false, (logError c "MySQLConnection::markTorrentTimedOut" "" errno error_msg "" "ERROR"
               ("info_hash=" +:+ hash) w).2)
  | (None, w) => (true, w)
  end.

(** The loop over the rows keeps the first columns that are not NULL. *)
Definition first_columns (rows : list (list (option string))) : list string :=
  omap (λ row, match row with Some s :: _ => Some s | _ => None end) rows.

Definition missing_pieces (limit offset : Z) : list sql_piece :=
  [Sql "SELECT info_hash FROM discovered_torrents WHERE (num_files < 1 OR num_files IS NULL) AND timed_out = 0 ORDER BY id ASC LIMIT ";
   Sql (to_string limit); Sql " OFFSET "; Sql (to_string offset)].

Definition getTorrentsWithMissingMetadata (c : MySQLConnection) (limit offset : Z) (w : W) : list string * W :=
  let fn := "MySQLConnection::getTorrentsWithMissingMetadata" in
  if negb (m_connected c) then
    ([], (logError c fn "" (-1) "Not connected to database" "" "WARNING" "" w).2)
  else match run_query c (missing_pieces limit offset) w with
  | (Some (errno, error_msg), w) => ([], (logError c fn "" errno error_msg "" "ERROR" "" w).2)
  | (None, w) =>
    match mysql_store_result w with
    | (inl errno, w) => ([], (logError c fn "" errno "Failed to store result" "" "ERROR" "" w).2)
    | (inr rows, w) => (first_columns rows, w)
    end
  end.

Definition count_pieces : list sql_piece :=
  [Sql "SELECT COUNT(*) FROM discovered_torrents WHERE (num_files < 1 OR num_files IS NULL) AND timed_out = 0"].

(** An exception of [std::stoi] is caught and logged. *)
Definition getTotalTorrentsWithMissingMetadata (c : MySQLConnection) (w : W) : Z * W :=
  let fn := "MySQLConnection::getTotalTorrentsWithMissingMetadata" in
  if negb (m_connected c) then
    (0%Z, (logError c fn "" (-1) "Not connected to database" "" "WARNING" "" w).2)
  else match run_query c count_pieces w with
  | (Some (errno, error_msg), w) => (0%Z, (logError c fn "" errno error_msg "" "ERROR" "" w).2)
  | (None, w) =>
    match mysql_store_result w with
    | (inl errno, w) => (0%Z, (logError c fn "" errno "Failed to store result" "" "ERROR" "" w).2)
    | (inr ((Some s :: _) :: _), w) =>
      match stoi 10 s with
      | Returned count => (count, w)
      | Threw _ => (0%Z, (logException c fn "" "stoi" "" w).2)
      end
    | (inr _, w) => (0%Z, w)
    end
  end.

(** [updateTorrentMetadata] keeps the first file name, size and tracker. *)
Definition head_or_empty (l : list string) : string := default "" (head l).

Definition update_pieces (hash : string) (t : DiscoveredTorrent) : list sql_piece :=
  [Sql "UPDATE discovered_torrents SET name = "; Quoted (name t);
   Sql ", size = "; Sql (to_string (dt_size t)); Sql ", num_files = "; Sql (to_string (num_files t));
   Sql ", file_names = "; Quoted (head_or_empty (file_names t));
   Sql ", file_sizes = "; Quoted (head_or_empty (to_string <$> file_sizes t));
   Sql ", comment = "; Quoted (comment t); Sql ", created_by = "; Quoted (created_by t);
   Sql ", creation_date = ";
   Sql (if (0 <? creation_date t)%Z then "FROM_UNIXTIME(" +:+ to_string (creation_date t) +:+ ")" else "NULL");
   Sql ", encoding = "; Quoted (encoding t);
   Sql ", piece_length = "; Sql (to_string (piece_length t));
   Sql ", num_pieces = "; Sql (to_string (num_pieces t));
   Sql ", trackers = "; Quoted (head_or_empty (trackers t));
   Sql ", private_torrent = "; Sql (sql_bool (private_torrent t));
   Sql ", content_type = "; Quoted (content_type t); Sql ", language = "; Quoted (language t);
   Sql ", category = "; Quoted (category t);
   Sql ", metadata_received = TRUE, timed_out = FALSE, updated_at = CURRENT_TIMESTAMP WHERE info_hash = ";
   Quoted hash].

Definition updateTorrentMetadata (c : MySQLConnection) (hash : string) (t : DiscoveredTorrent) (w : W) : bool * W :=
  let fn := "MySQLConnection::updateTorrentMetadata" in
  if negb (m_connected c) then
    (false, (logError c fn "" (-1) "Not connected to database" "" "WARNING" "" w).2)
  else match run_query c (update_pieces hash t) w with
  | (Some (errno, error_msg), w) => (false, (logError c fn "" errno error_msg "" "ERROR" "" w).2)
  | (None, w) => (true, w)
  end.

(** [createTables]; an error is only printed. *)
Definition createTables (c : MySQLConnection) (w : W) : W :=
  if negb (m_connected c) then w else foldl (λ w q, (mysql_query q w).2) w schema.

Definition connect (c : MySQLConnection) (w : W) : bool * MySQLConnection * W :=
  let fn := "MySQLConnection::connect" in
  if negb (m_connection c) then
    (false, c, (logError c fn "" (-1) "MySQL initialization failed" "" "CRITICAL" "" w).2)
  else
    let cfg := m_config c in
    match mysql_real_connect (server cfg) (user cfg) (password cfg) (database cfg) (port cfg) w with
    | (Some (errno, error_msg), w) =>
      (false, c, (logError c fn "" errno error_msg "" "CRITICAL"
                    ("server=" +:+ server cfg +:+ ", database=" +:+ database cfg) w).2)
    | (None, w) =>
      let c := c <| m_connected := true |> in (true, c, createTables c w)
    end.

End Connection.

(** ** Reading statements back

    The lexical rules of MySQL that matter here: a single quote opens a string
    literal, in which a backslash escapes the next character and a doubled
    quote stands for one.  Characters that would open another kind of literal,
    a comment (its form with [#]) or another statement are refused outside
    literals. *)

Inductive sql_token := TChar (c : ascii) | TString (s : list ascii).

Definition unescape (c : ascii) : ascii :=
  match nat_of_ascii c with
  | 48 => ascii_of_nat 0
  | 110 => ascii_of_nat 10
  | 114 => ascii_of_nat 13
  | 90 => ascii_of_nat 26
  | 98 => ascii_of_nat 8
  | 116 => ascii_of_nat 9
  | _ => c
  end.

(** Zero byte, double quote, hash, single quote, semicolon, backslash,
    back-quote. *)
Definition sql_text_char (c : ascii) : bool :=
  match nat_of_ascii c with 0 | 34 | 35 | 39 | 59 | 92 | 96 => false | _ => true end.

Definition is_code (n : nat) (c : ascii) : bool := nat_of_ascii c =? n.

(** [lit]: the literal being read.  [None]: not a statement. *)
Fixpoint sql_lex (lit : option (list ascii)) (s : list ascii) : option (list sql_token) :=
  match s, lit with
  | [], None => Some []
  | [], Some _ => None
  | c :: s, None =>
    if is_code 39 c then sql_lex (Some []) s
    else if sql_text_char c then (TChar c ::.) <$> sql_lex None s else None
  | c :: s, Some acc =>
    if is_code 92 c then
      match s with
      | d :: s => sql_lex (Some (acc ++ [unescape d])) s
      | [] => None
      end
    else if is_code 39 c then
      match s with
      | d :: s' =>
        if is_code 39 d then sql_lex (Some (acc ++ [d])) s'
        else (TString acc ::.) <$> sql_lex None s
      | [] => Some [TString acc]
      end
    else sql_lex (Some (acc ++ [c])) s
  end.

(** What a piece is meant to be. *)
Definition piece_tokens (p : sql_piece) : list sql_token :=
  match p with
  | Sql s => TChar <$> chars s
  | Quoted s | Unescaped s => [TString (chars s)]
  end.
Definition tokens (ps : list sql_piece) : list sql_token := mjoin (piece_tokens <$> ps).

(** The string literals of a statement, and the statement without them. *)
Definition literals (ts : list sql_token) : list string :=
  omap (λ t, match t with TString s => Some (of_chars s) | TChar _ => None end) ts.
Definition skeleton (ts : list sql_token) : list (option ascii) :=
  (λ t, match t with TString _ => None | TChar c => Some c end) <$> ts.

(** Pieces that alternate as the code writes them: a literal is followed by
    text, the text holds no quote. *)
Fixpoint well_formed (ps : list sql_piece) : bool :=
  match ps with
  | [] => true
  | Sql s :: ps => forallb sql_text_char (chars s) && well_formed ps
  | p :: ps =>
    match p with Unescaped s => forallb plain_char (chars s) | _ => true end
    && match ps with
       | [] => true
       | Sql s :: _ => negb (bool_decide (s = ""))
       | _ => false
       end && well_formed ps
  end.

Section LexFacts.
Context {W : Type} `{DocumentedEscaping W}.
Implicit Types (c : MySQLConnection).

Lemma escape_char_no_zero ch : Forall (λ d, (byte_val d =? 0)%Z = false) (escape_char ch).
Proof.
  pose proof (forall_bytes (λ e, forallb (λ d, negb (byte_val d =? 0)%Z) (escape_char e))
                (ltac:(by vm_compute)) ch) as Hch. simpl in Hch.
  apply Forall_forall. intros d Hd. rewrite forallb_forall in Hch.
  apply negb_true_iff, Hch. by apply list_elem_of_In.
Qed.

Lemma c_string_app l1 l2 : Forall (λ d, (byte_val d =? 0)%Z = false) l1 → c_string (l1 ++ l2) = l1 ++ c_string l2.
Proof. induction 1 as [|d l Hd _ IH]; simpl; [done|]. by rewrite Hd, IH. Qed.
Lemma c_string_id l : Forall (λ d, (byte_val d =? 0)%Z = false) l → c_string l = l.
Proof. induction 1 as [|d l Hd _ IH]; simpl; [done|]. by rewrite Hd, IH. Qed.

Lemma escapeString_chars c s :
  m_connection c = true → chars (escapeString c s) = mjoin (escape_char <$> chars s).
Proof.
  intros Hc. unfold escapeString. rewrite Hc, escape_documented, chars_of_chars, chars_of_chars.
  apply c_string_id. induction (chars s) as [|ch l IH]; [constructor|].
  apply Forall_app. split; [apply escape_char_no_zero | exact IH].
Qed.

(** Inside a literal, an escaped character is read back. *)
Lemma lex_escape_char acc ch s :
  sql_lex (Some acc) (escape_char ch ++ s) = sql_lex (Some (acc ++ [ch])) s.
Proof. destruct ch as [[] [] [] [] [] [] [] []]; reflexivity. Qed.

Lemma lex_escaped acc l s :
  sql_lex (Some acc) (mjoin (escape_char <$> l) ++ s) = sql_lex (Some (acc ++ l)) s.
Proof.
  revert acc. induction l as [|ch l IH]; intros acc; [by rewrite app_nil_r|].
  rewrite fmap_cons. cbn [mjoin list_join]. rewrite <-(assoc_L app), lex_escape_char, IH.
  by rewrite <-(assoc_L app).
Qed.

Lemma lex_plain acc l s :
  forallb plain_char l = true → sql_lex (Some acc) (l ++ s) = sql_lex (Some (acc ++ l)) s.
Proof.
  revert acc. induction l as [|ch l IH]; intros acc; [by rewrite app_nil_r|].
  cbn [forallb]. intros [Hc Hl]%andb_true_iff.
  assert (sql_lex (Some acc) ((ch :: l) ++ s) = sql_lex (Some (acc ++ [ch])) (l ++ s)) as ->.
  { simpl. destruct (is_code 92 ch) eqn:H92; [|destruct (is_code 39 ch) eqn:H39; [|done]];
      unfold plain_char, is_code in *; apply Nat.eqb_eq in H92 || apply Nat.eqb_eq in H39;
      rewrite ?H92, ?H39 in Hc; done. }
  rewrite IH by done. by rewrite <-(assoc_L app).
Qed.

Lemma lex_text l s :
  forallb sql_text_char l = true → sql_lex None (l ++ s) = ((TChar <$> l) ++.) <$> sql_lex None s.
Proof.
  induction l as [|ch l IH]; [intros _; change ([] ++ s) with s; by destruct (sql_lex None s)|].
  cbn [forallb]. intros [Hc Hl]%andb_true_iff. simpl.
  assert (is_code 39 ch = false) as ->.
  { unfold is_code. destruct (Nat.eqb_spec (nat_of_ascii ch) 39) as [E|]; [|done].
    unfold sql_text_char in Hc. by rewrite E in Hc. }
  rewrite Hc, IH by done. by destruct (sql_lex None s).
Qed.

(** A closing quote that is followed by text or by the end. *)
Lemma lex_close acc s :
  match s with [] => True | d :: _ => is_code 39 d = false end →
  sql_lex (Some acc) (chars quote ++ s) = (TString acc ::.) <$> sql_lex None s.
Proof. intros Hs. destruct s as [|d s]; [done|]. simpl in *. by rewrite Hs. Qed.

Lemma render_cons c p ps : chars (render c (p :: ps)) = chars (render_piece c p) ++ chars (render c ps).
Proof. unfold render. rewrite fmap_cons. cbn [concat_strings foldr]. by rewrite chars_append. Qed.

Lemma render_app c ps1 ps2 : render c (ps1 ++ ps2) = render c ps1 +:+ render c ps2.
Proof.
  apply (inj chars). induction ps1 as [|p ps1 IH]; [done|]. cbn [app].
  by rewrite chars_append, !render_cons, IH, chars_append, (assoc_L app).
Qed.

Lemma render_starts_with_text c ps :
  match ps with [] => true | Sql s :: _ => negb (bool_decide (s = "")) | _ => false end = true →
  well_formed ps = true →
  match chars (render c ps) with [] => True | d :: _ => is_code 39 d = false end.
Proof.
  destruct ps as [|[s|s|s] ps]; try done. intros Hs Hwf. rewrite render_cons. simpl in *.
  destruct s as [|d s]; [done|]. simpl in *.
  apply andb_true_iff in Hwf as [[Hd _]%andb_true_iff _]. unfold is_code, sql_text_char in *.
  destruct (Nat.eqb_spec (nat_of_ascii d) 39) as [E|]; [|done]. by rewrite E in Hd.
Qed.

(** Whether anything may follow: no literal is last. *)
Fixpoint ends_in_text (ps : list sql_piece) : bool :=
  match ps with
  | [] | [Sql _] => true
  | [_] => false
  | _ :: ps => ends_in_text ps
  end.

(** Reading back what the pieces render to, whatever follows. *)
Lemma lex_render_app c ps l :
  m_connection c = true → well_formed ps = true → ends_in_text ps = true ∨ l = [] →
  sql_lex None (chars (render c ps) ++ l) = (tokens ps ++.) <$> sql_lex None l.
Proof.
  intros Hc. induction ps as [|p ps IH]; [intros _ _; change (chars (render c []) ++ l) with l; by destruct (sql_lex None l)|].
  intros Hwf Hend.
  rewrite render_cons, <-(assoc_L app). assert (tokens (p :: ps) = piece_tokens p ++ tokens ps) as -> by done.
  assert (ends_in_text ps = true ∨ l = []) as Hend'.
  { destruct Hend as [Hend|]; [left|by right]. destruct ps; [done|]. by destruct p. }
  assert (∀ acc, (match ps with [] => true | Sql s :: _ => negb (bool_decide (s = "")) | _ => false end) = true →
    well_formed ps = true → match p with Sql _ => False | _ => True end →
    sql_lex (Some acc) (chars quote ++ chars (render c ps) ++ l)
    = ((TString acc :: tokens ps) ++.) <$> sql_lex None l) as Hclose.
  { intros acc Hnext Hps Hp. rewrite lex_close; [rewrite (IH Hps Hend'); by destruct (sql_lex None l)|].
    pose proof (render_starts_with_text c ps Hnext Hps) as Hstart. destruct ps as [|q ps].
    - destruct Hend as [Hend|Hl]; [by destruct p|by subst l].
    - destruct q as [[|d q]| |]; done. }
  destruct p as [s|s|s]; cbn [well_formed] in Hwf.
  - apply andb_true_iff in Hwf as [Hs Hwf]. cbn [render_piece].
    rewrite lex_text, (IH Hwf Hend') by done. destruct (sql_lex None l); [|done]. simpl. by rewrite (assoc_L app).
  - apply andb_true_iff in Hwf as [[_ Hnext]%andb_true_iff Hwf]. cbn [render_piece].
    rewrite !chars_append, <-!(assoc_L app), escapeString_chars by done.
    change (chars quote ++ ?x) with (ascii_of_nat 39 :: x). cbn [sql_lex].
    change (is_code 39 (ascii_of_nat 39)) with true. cbn iota.
    rewrite lex_escaped. change (ascii_of_nat 39 :: ?x) with (chars quote ++ x). by apply Hclose.
  - apply andb_true_iff in Hwf as [[Hp Hnext]%andb_true_iff Hwf]. cbn [render_piece].
    rewrite !chars_append, <-!(assoc_L app).
    change (chars quote ++ ?x) with (ascii_of_nat 39 :: x). cbn [sql_lex].
    change (is_code 39 (ascii_of_nat 39)) with true. cbn iota.
    rewrite lex_plain by done. change (ascii_of_nat 39 :: ?x) with (chars quote ++ x). by apply Hclose.
Qed.

Lemma lex_render c ps :
  m_connection c = true → well_formed ps = true → sql_lex None (chars (render c ps)) = Some (tokens ps).
Proof.
  intros Hc Hwf. rewrite <-(app_nil_r (chars _)), (lex_render_app c ps []) by auto. simpl. by rewrite app_nil_r.
Qed.

(** A well-formed statement has no zero byte, so all of it reaches the
    server. *)
Lemma plain_nonzero (f : ascii → bool) l :
  (∀ d, f d = true → (byte_val d =? 0)%Z = false) → forallb f l = true →
  Forall (λ d, (byte_val d =? 0)%Z = false) l.
Proof.
  intros Hf Hl. rewrite Forall_forall. intros d Hd. apply Hf.
  rewrite forallb_forall in Hl. apply Hl. by apply list_elem_of_In.
Qed.

Lemma render_no_zero c ps :
  m_connection c = true → well_formed ps = true →
  Forall (λ d, (byte_val d =? 0)%Z = false) (chars (render c ps)).
Proof.
  intros Hc. induction ps as [|p ps IH]; [by constructor|]. intros Hwf. rewrite render_cons.
  assert (well_formed ps = true) as Hps.
  { destruct p; simpl in Hwf; repeat apply andb_true_iff in Hwf as [? Hwf]; done. }
  apply Forall_app. split; [|by apply IH].
  destruct p as [s|s|s]; cbn [render_piece well_formed] in *; rewrite ?chars_append.
  - apply andb_true_iff in Hwf as [Hs _]. eapply plain_nonzero; [|done].
    intros d. by destruct d as [[] [] [] [] [] [] [] []].
  - rewrite escapeString_chars by done. rewrite !Forall_app; split_all; [by repeat constructor| |].
    + induction (chars s) as [|ch l IHl]; [constructor|].
      apply Forall_app. split; [apply escape_char_no_zero | exact IHl].
    + by repeat constructor.
  - apply andb_true_iff in Hwf as [[Hs _]%andb_true_iff _].
    rewrite !Forall_app; split_all; [by repeat constructor| |by repeat constructor].
    eapply plain_nonzero; [|done]. intros d. by destruct d as [[] [] [] [] [] [] [] []].
Qed.

(** The statement [run_query] sends, read back. *)
Definition sent_text c (ps : list sql_piece) : string := of_chars (c_string (chars (render c ps))).

Lemma sent_statement c ps :
  m_connection c = true → well_formed ps = true → sql_lex None (chars (sent_text c ps)) = Some (tokens ps).
Proof.
  intros Hc Hwf. unfold sent_text. rewrite chars_of_chars, c_string_id by (by apply render_no_zero). by apply lex_render.
Qed.

Lemma well_formed_number z ps : well_formed (Sql (to_string z) :: ps) = well_formed ps.
Proof.
  cbn [well_formed]. destruct (to_string_chars z) as [Hd _].
  assert (forallb sql_text_char (chars (to_string z)) = true) as ->; [|done].
  rewrite forallb_forall in *. intros d Hin. specialize (Hd d Hin).
  by destruct d as [[] [] [] [] [] [] [] []].
Qed.

(** The statements the class sends, apart from the one per peer, which
    [peer_pieces] gives. *)
Inductive statement c : list sql_piece → Prop :=
  | st_store t : statement c (store_pieces c t)
  | st_update hash t : statement c (update_pieces hash t)
  | st_timed_out hash : statement c (timed_out_pieces hash)
  | st_log f g code m st sev add : statement c (log_pieces f g code m st sev add)
  | st_missing limit offset : statement c (missing_pieces limit offset)
  | st_count : statement c count_pieces.

Lemma wf_text s ps :
  forallb sql_text_char (chars s) = true → well_formed ps = true → well_formed (Sql s :: ps) = true.
Proof. intros Hs Hps. cbn [well_formed]. by rewrite Hs. Qed.

Lemma wf_literal p s ps :
  match p with Sql _ => false | Quoted _ => true | Unescaped u => forallb plain_char (chars u) end = true →
  s ≠ "" → well_formed (Sql s :: ps) = true → well_formed (p :: Sql s :: ps) = true.
Proof.
  intros Hp Hs Hps. destruct p; [done|..];
    change (well_formed (?q :: Sql s :: ps)) with
      (match q with Unescaped u => forallb plain_char (chars u) | _ => true end
       && negb (bool_decide (s = "")) && well_formed (Sql s :: ps));
    rewrite bool_decide_eq_false_2, Hps by done; simpl; by rewrite ?Hp.
Qed.

Lemma sql_bool_text b : forallb sql_text_char (chars (sql_bool b)) = true.
Proof. by destruct b. Qed.

Lemma wf_creation_date d s ps :
  s ≠ "" → well_formed (Sql s :: ps) = true → well_formed (creation_date_piece d :: Sql s :: ps) = true.
Proof.
  intros Hs Hps. unfold creation_date_piece. destruct (0 <? d)%Z.
  - apply wf_literal; [apply format_local_time_plain | done..].
  - by apply wf_text.
Qed.

Ltac solve_well_formed :=
  repeat lazymatch goal with
    | |- well_formed (Sql (to_string _) :: _) = true => rewrite well_formed_number
    | |- well_formed (creation_date_piece _ :: _) = true => apply wf_creation_date; [discriminate|]
    | |- well_formed (Sql (sql_bool _) :: _) = true => apply wf_text; [apply sql_bool_text|]
    | |- well_formed (Sql _ :: _) = true => apply wf_text; [by vm_compute|]
    | |- well_formed (_ :: _) = true => apply wf_literal; [reflexivity | discriminate |]
    end;
  try reflexivity.

Lemma statement_well_formed c ps : statement c ps → well_formed ps = true.
Proof.
  destruct 1 as [t|hash t|hash|f g code m st sev add|limit offset|].
  - unfold store_pieces. solve_well_formed.
  - unfold update_pieces. solve_well_formed.
    apply wf_text; [|solve_well_formed].
    destruct (0 <? creation_date t)%Z; [|done].
    rewrite !chars_append, !forallb_app.
    assert (well_formed [Sql (to_string (creation_date t))] = true) as Hn by (by rewrite well_formed_number).
    cbn [well_formed] in Hn. rewrite andb_true_r in Hn. by rewrite Hn.
  - unfold timed_out_pieces. solve_well_formed.
  - unfold log_pieces. solve_well_formed.
  - unfold missing_pieces. solve_well_formed.
  - unfold count_pieces. solve_well_formed.
Qed.

(** The insertion of a peer, when the port is a number, and when it is any
    text that opens nothing. *)
Lemma peer_well_formed t address port : well_formed (peer_pieces t address (to_string port)) = true.
Proof. unfold peer_pieces. solve_well_formed. Qed.

Lemma peer_text_well_formed t address text :
  forallb sql_text_char (chars text) = true → well_formed (peer_pieces t address text) = true.
Proof.
  intros Htext. unfold peer_pieces. repeat lazymatch goal with
    | |- well_formed (Sql text :: _) = true => apply wf_text; [exact Htext|]
    | |- well_formed (Sql _ :: _) = true => apply wf_text; [by vm_compute|]
    | |- well_formed (_ :: _) = true => apply wf_literal; [reflexivity|discriminate|]
    end. done.
Qed.

(** ** Peers *)

Lemma find_char_app d l1 l2 :
  find_char d (l1 ++ l2) =
  match find_char d l1 with Some i => Some i | None => Nat.add (length l1) <$> find_char d l2 end.
Proof.
  induction l1 as [|x l1 IH]; simpl; [by destruct (find_char d l2)|].
  case_decide; [done|]. rewrite IH. by destruct (find_char d l1), (find_char d l2).
Qed.

Lemma find_char_None d l : find_char d l = None ↔ d ∉ l.
Proof.
  induction l as [|x l IH]; simpl; [set_solver|]. case_decide as Hx.
  - split; [done|]. subst. set_solver.
  - rewrite fmap_None, IH. set_solver.
Qed.

Lemma find_char_split d l i : find_char d l = Some i → l = take i l ++ d :: drop (S i) l ∧ d ∉ take i l.
Proof.
  revert i. induction l as [|x l IH]; intros i; simpl; [done|]. case_decide as Hx.
  - intros [= <-]. subst. rewrite drop_0. split; [done | set_solver].
  - intros (j & Hj & ->)%fmap_Some. destruct (IH j Hj) as [Hl Hn]. simpl. split; [by f_equal | set_solver].
Qed.

(** A peer "address:port" is split as printed exactly when the address
    has no colon; for any other address (every IPv6 address is one) the stored
    address is cut at its first colon and the rest of it goes unescaped into
    the statement in place of the port number. *)
Theorem split_peer_spec (a p : string) :
  (":"%char ∉ chars a → split_peer (a +:+ ":" +:+ p) = Some (a, p))
  ∧ (":"%char ∈ chars a →
     ∃ a1 a2, chars a = chars a1 ++ ":"%char :: chars a2 ∧ ":"%char ∉ chars a1
              ∧ split_peer (a +:+ ":" +:+ p) = Some (a1, a2 +:+ ":" +:+ p)).
Proof.
  unfold split_peer. rewrite !chars_append. split; intros Ha.
  - rewrite find_char_app, (proj2 (find_char_None _ _) Ha). simpl.
    rewrite Nat.add_0_r, take_app_length, drop_app_ge, of_chars_chars by lia.
    replace (S (length (chars a)) - length (chars a)) with 1 by lia. simpl.
    by rewrite drop_0, of_chars_chars.
  - destruct (find_char ":" (chars a)) as [i|] eqn:Hi; [|by apply find_char_None in Hi].
    destruct (find_char_split _ _ _ Hi) as [Hsplit Hn].
    assert (i < length (chars a)) as Hlt.
    { apply (f_equal length) in Hsplit. rewrite length_app, length_take in Hsplit. simpl in Hsplit. lia. }
    exists (of_chars (take i (chars a))), (of_chars (drop (S i) (chars a))).
    rewrite !chars_of_chars. split_all; [done..|]. rewrite find_char_app, Hi. simpl mbind.
    rewrite take_app_le, drop_app_le by lia. do 2 f_equal.
    apply (inj chars). rewrite !chars_append, !chars_of_chars. done.
Qed.

(** The text up to the address is read the same way whatever follows. *)
Lemma peer_prefix_read c t address port_str :
  m_connection c = true →
  sql_lex None (chars (sent_text c (peer_pieces t address port_str)))
  = (tokens (take 5 (peer_pieces t address port_str)) ++.)
    <$> sql_lex None (c_string (chars (render c (drop 5 (peer_pieces t address port_str))))).
Proof.
  intros Hc. set (front := take 5 (peer_pieces t address port_str)).
  assert (well_formed front = true) as Hwf by (unfold front, peer_pieces; simpl take; solve_well_formed).
  assert (peer_pieces t address port_str = front ++ drop 5 (peer_pieces t address port_str)) as Hsplit by done.
  unfold sent_text. rewrite Hsplit at 1. rewrite render_app, chars_append, chars_of_chars, c_string_app by (by apply render_no_zero).
  by apply lex_render_app; [| |left].
Qed.

(** C9: Every statement the connection builds from values is read by the
    server as the program meant it, but for the insertion of a peer: its string
    literals are exactly the values it was built from, whatever bytes they
    hold, and the text around them is the program's.  The insertion of a peer,
    whose port is not escaped, is read with the peer's address and port exactly
    when the address has no colon: for IPv4 addresses, never for IPv6
    addresses. *)
Theorem statements_read_back c :
  m_connection c = true →
  (∀ ps, statement c ps → sql_lex None (chars (sent_text c ps)) = Some (tokens ps))
  ∧ ∀ t a (p : Z), ∃ address port_str,
      split_peer (a +:+ ":" +:+ to_string p) = Some (address, port_str)
      ∧ (sql_lex None (chars (sent_text c (peer_pieces t address port_str))) = Some (tokens (peer_pieces t a (to_string p)))
         ↔ ":"%char ∉ chars a).
Proof.
  intros Hc. split; [intros ps Hst; apply sent_statement; [done|by eapply statement_well_formed]|]. intros t a p.
  destruct (decide (":"%char ∈ chars a)) as [Ha|Ha].
  - destruct (proj2 (split_peer_spec a (to_string p)) Ha) as (a1 & a2 & Hsplit & Ha1 & Hpeer).
    exists a1, (a2 +:+ ":" +:+ to_string p). split; [done|]. split; [|done]. intros Hread. exfalso. revert Hread.
    rewrite peer_prefix_read by done. destruct (sql_lex None (c_string _)) as [ts|]; [|done].
    intros [= Heq]. apply Ha1. assert (chars a1 = chars a) as ->; [congruence|done].
  - rewrite (proj1 (split_peer_spec a (to_string p)) Ha). eexists _, _. split; [done|]. split; [done|]. intros _.
    apply sent_statement; [done|apply peer_well_formed].
Qed.

(** ** A connection that was never opened *)

(** Before a successful [connect] every operation reports failure (no
    hashes, a count of zero) and sends nothing, the attempts to log that
    failure included. *)
Theorem disconnected_sends_nothing c (w : W) hash t limit offset :
  m_connected c = false →
  storeTorrent c t w = (false, w) ∧ markTorrentTimedOut c hash w = (false, w)
  ∧ updateTorrentMetadata c hash t w = (false, w)
  ∧ getTorrentsWithMissingMetadata c limit offset w = ([], w)
  ∧ getTotalTorrentsWithMissingMetadata c w = (0%Z, w).
Proof.
  intros Hc. unfold storeTorrent, markTorrentTimedOut, updateTorrentMetadata,
    getTorrentsWithMissingMetadata, getTotalTorrentsWithMissingMetadata, logError.
  rewrite Hc. done.
Qed.
End LexFacts.

(** ** Statements and schema *)

Fixpoint split_on (d : ascii) (l : list ascii) : list (list ascii) :=
  match l with
  | [] => [[]]
  | c :: l =>
    if decide (c = d) then [] :: split_on d l
    else match split_on d l with w :: ws => (c :: w) :: ws | [] => [[c]] end
  end.
Definition trim_left (l : list ascii) : list ascii := skip_spaces l.

(** The first word of every line of a [CREATE TABLE] statement: the columns
    it declares, and its keywords. *)
Definition declared_names (ddl : string) : list string :=
  (λ l, of_chars (default [] (head (split_on " " (trim_left l))))) <$> split_on (ascii_of_nat 10) (chars ddl).

(** The columns between the first parentheses of an [INSERT] statement. *)
Definition insert_columns (ps : list sql_piece) : list string :=
  match ps with
  | Sql s :: _ =>
    match find_char "(" (chars s), find_char ")" (chars s) with
    | Some i, Some j =>
      (λ l, of_chars (trim_left l)) <$> split_on "," (take (j - S i) (drop (S i) (chars s)))
    | _, _ => []
    end
  | _ => []
  end.
Definition columns_declared (ddl : string) (cols : list string) : bool :=
  negb (bool_decide (cols = [])) && forallb (λ c, bool_decide (c ∈ declared_names ddl)) cols.

(** Every column that an insertion names, into the tables of torrents,
    peers and log entries, is declared by the [CREATE TABLE] statement of its
    table. *)
Theorem inserts_match_schema {W : Type} `{Database W} c t address port_str f g code m st sev add :
  columns_declared createTorrentsTable (insert_columns (store_pieces c t)) = true
  ∧ columns_declared createPeersTable (insert_columns (peer_pieces t address port_str)) = true
  ∧ columns_declared createLogTable (insert_columns (log_pieces f g code m st sev add)) = true.
Proof. split_all; vm_compute; reflexivity. Qed.

(** ** On the simulated database *)

Definition sim_connection : MySQLConnection :=
  mk_MySQLConnection true default_MySQLConfig true.
Definition sim_torrent : DiscoveredTorrent :=
  mk_DiscoveredTorrent "0123456789abcdef0123456789abcdef01234567"
    "it's; DROP TABLE" 7 1 ["10.0.0.1:6881"; "2001:db8::1:6881"] ["a"; "b"] [3%Z; 4%Z] "" "" 1000000000
    "" 16384 1 ["udp://t"] false "" "" [] "video" "" "" 0 0 0 0 0 "DHT" true false.

Lemma statements_read_back_witness :
  literals <$> sql_lex None (chars (sent_text sim_connection (timed_out_pieces "x' OR '1'='1"))) = Some ["x' OR '1'='1"]
  ∧ sql_lex None (chars (sent_text sim_connection (peer_pieces sim_torrent "10.0.0.1" "6881")))
    = Some (tokens (peer_pieces sim_torrent "10.0.0.1" "6881"))
  ∧ sql_lex None (chars (sent_text sim_connection (peer_pieces sim_torrent "2001" "db8::1:6881")))
    ≠ Some (tokens (peer_pieces sim_torrent "2001:db8::1" "6881")).
Proof.
  destruct (statements_read_back sim_connection eq_refl) as [Hst Hpeer]. split_all.
  - rewrite (Hst (timed_out_pieces "x' OR '1'='1")); [by vm_compute | constructor].
  - destruct (Hpeer sim_torrent "10.0.0.1" 6881%Z) as (a & p & Hsplit & Hread).
    vm_compute in Hsplit. injection Hsplit as <- <-. apply Hread. apply (bool_decide_eq_true_1 _). by vm_compute.
  - destruct (Hpeer sim_torrent "2001:db8::1" 6881%Z) as (a & p & Hsplit & Hread).
    vm_compute in Hsplit. injection Hsplit as <- <-. intros Heq. apply Hread in Heq. apply Heq.
    apply (bool_decide_eq_true_1 _). by vm_compute.
Defined.

Lemma split_peer_spec_witness :
  split_peer "10.0.0.1:6881" = Some ("10.0.0.1", "6881")
  ∧ split_peer "2001:db8::1:6881" = Some ("2001", "db8::1:6881").
Proof.
  split; [|by vm_compute].
  apply (proj1 (split_peer_spec "10.0.0.1" "6881")). vm_compute. set_solver.
Defined.

Lemma disconnected_sends_nothing_witness :
  storeTorrent (new_MySQLConnection true default_MySQLConfig) sim_torrent (Sim.initial 0)
  = (false, Sim.initial 0).
Proof.
  apply (disconnected_sends_nothing (new_MySQLConnection true default_MySQLConfig) (Sim.initial 0) ""
           sim_torrent 0 0). reflexivity.
Defined.
