(* ===== verification/Cli.v ===== *)
(** * Command line and text helpers

    Models, of [src/src/dht_crawler.cpp], the argument parser of [main], the
    reading of the hash list of the metadata-only mode, and
    [determineContentType].  The theorems are the round trips of the two
    parsers, what every accepted command line guarantees, and what the content
    type of a torrent depends on. *)

From S2P Require Import Prelude World HashFormat Numeric Sql.

(** ** The argument parser of [main] *)

(** What [main] does after parsing: print the usage text and exit; print an
    error and exit with status 1; let an exception of [std::stoi] escape;
    or run. *)
Inductive cli_result :=
  | ShowUsage (test_missing_libs : bool)
  | BadWorkers
  | UnknownArgument (arg : string)
  | Uncaught (what : string)
  | Run (config : MySQLConfig) (max_queries : Z).

(** An option that takes a value is recognised only when a value follows.
    The options are different words, so those without a value are listed
    first. *)
Fixpoint parse_args (args : list string) (config : MySQLConfig) (max_queries : Z) : cli_result :=
  match args with
  | [] => Run config max_queries
  | arg :: rest =>
    if decide (arg = "--help") then ShowUsage false
    else if decide (arg = "--test-missing-libs") then ShowUsage true
    else if decide (arg = "--metadata_database") then
      parse_args rest (config <| metadata_database_mode := true |>) max_queries
    else if decide (arg = "--debug") then parse_args rest (config <| debug_mode := true |>) max_queries
    else if decide (arg = "--verbose") then parse_args rest (config <| verbose_mode := true |>) max_queries
    else if decide (arg = "--metadata_log") then
      parse_args rest (config <| metadata_log_mode := true |>) max_queries
    else if decide (arg = "--sequential") then
      parse_args rest (config <| concurrent_mode := false |>) max_queries
    else if decide (arg = "--no-bep51") then parse_args rest (config <| bep51_mode := false |>) max_queries
    else match rest with
    | [] => UnknownArgument arg
    | v :: rest =>
      if decide (arg = "--server") then parse_args rest (config <| server := v |>) max_queries
      else if decide (arg = "--port") then
        match stoi 10 v with
        | Returned p => parse_args rest (config <| port := p |>) max_queries
        | Threw e => Uncaught e
        end
      else if decide (arg = "--user") then parse_args rest (config <| user := v |>) max_queries
      else if decide (arg = "--password") then parse_args rest (config <| password := v |>) max_queries
      else if decide (arg = "--database") then parse_args rest (config <| database := v |>) max_queries
      else if decide (arg = "--queries") then
        match stoi 10 v with
        | Returned q => parse_args rest config q
        | Threw e => Uncaught e
        end
      else if decide (arg = "--metadata") then
        parse_args rest (config <| metadata_hashes := v |>) max_queries
      else if decide (arg = "--workers") then
        match stoi 10 v with
        | Returned n =>
          if (n <? 1)%Z || (16 <? n)%Z then BadWorkers
          else parse_args rest (config <| num_workers := n |>) max_queries
        | Threw e => Uncaught e
        end
      else UnknownArgument arg
    end
  end.

(** Missing credentials select the test mode; the server has a default. *)
Definition apply_defaults (config : MySQLConfig) : MySQLConfig :=
  let config :=
    if bool_decide (user config = "") || bool_decide (password config = "")
       || bool_decide (database config = "")
    then config <| user := "test" |> <| password := "test" |> <| database := "test" |>
    else config in
  if decide (server config = "") then config <| server := "localhost" |> else config.

(** [argv] without the program name. *)
Definition parse_command_line (args : list string) : cli_result :=
  match args with
  | [] => ShowUsage false
  | _ =>
    match parse_args args default_MySQLConfig (-1) with
    | Run config max_queries => Run (apply_defaults config) max_queries
    | r => r
    end
  end.

Definition int_range (z : Z) : Prop := (- 2 ^ 31 ≤ z < 2 ^ 31)%Z.

Lemma stoi_range b s z : stoi b s = Returned z → int_range z.
Proof.
  unfold stoi, int_range. repeat case_match; intros; simplify_eq.
  match goal with Hb : _ && _ = true |- _ => apply andb_true_iff in Hb as [?%Z.leb_le ?%Z.ltb_lt] end. lia.
Qed.

Definition numbers_ok (c : MySQLConfig) (q : Z) : Prop :=
  (1 ≤ num_workers c ≤ 16)%Z ∧ int_range (port c) ∧ int_range q.

Lemma parse_args_numbers args c q c' q' :
  numbers_ok c q → parse_args args c q = Run c' q' → numbers_ok c' q'.
Proof.
  revert c q. induction args as [args IH] using (induction_ltof1 _ (@length string)).
  unfold ltof in IH. intros c q Hok. destruct args as [|arg rest]; [by intros [= <- <-]|].
  destruct Hok as (Hw & Hp & Hq). cbn [parse_args].
  repeat (case_decide; [intros Hrun; first
    [ discriminate Hrun
    | eapply (IH rest); [simpl; lia | | exact Hrun]; by repeat split; simpl; try apply Hw; try apply Hp; try apply Hq]|]).
  destruct rest as [|v rest]; [done|].
  repeat case_match; intros Hrun; try done;
    (eapply (IH rest); [simpl; lia | | exact Hrun]);
    repeat split; simpl; try apply Hw; try apply Hp; try apply Hq;
    repeat match goal with
    | Hs : stoi 10 _ = Returned _ |- _ => apply stoi_range in Hs; unfold int_range in Hs
    | Hb : _ || _ = false |- _ => apply orb_false_iff in Hb as [?%Z.ltb_ge ?%Z.ltb_ge]
    end; lia.
Qed.

(** Every command line that is accepted yields between 1 and 16 workers,
    a port and a query limit within [int], and a non-empty user, password,
    database and server. *)
Theorem accepted_command_line args c q :
  parse_command_line args = Run c q →
  (1 ≤ num_workers c ≤ 16)%Z ∧ int_range (port c) ∧ int_range q
  ∧ user c ≠ "" ∧ password c ≠ "" ∧ database c ≠ "" ∧ server c ≠ "".
Proof.
  intros Hrun. unfold parse_command_line in Hrun. destruct args as [|arg rest]; [done|].
  destruct (parse_args (arg :: rest) default_MySQLConfig (-1)) as [| | | |c0 q0] eqn:Hp; try done.
  simplify_eq. apply parse_args_numbers in Hp; [|by vm_compute].
  destruct Hp as (Hw & Hpo & Hq). unfold apply_defaults. cbv zeta.
  destruct (bool_decide (user c0 = "") || bool_decide (password c0 = "")
            || bool_decide (database c0 = "")) eqn:Hb; simpl;
    destruct (decide (server c0 = "")); simpl; split_all; try done; try lia;
    apply orb_false_iff in Hb as [[?%bool_decide_eq_false ?%bool_decide_eq_false]%orb_false_iff
                                  ?%bool_decide_eq_false]; done.
Qed.

(** ** The round trip of the parser *)

(** A command line for a configuration. *)
Definition flag (b : bool) (s : string) : list string := if b then [s] else [].
Definition args_of_config (c : MySQLConfig) (max_queries : Z) : list string :=
  ["--server"; server c; "--port"; to_string (port c); "--user"; user c; "--password"; password c;
   "--database"; database c; "--queries"; to_string max_queries; "--metadata"; metadata_hashes c;
   "--workers"; to_string (num_workers c)]
  ++ flag (metadata_database_mode c) "--metadata_database" ++ flag (debug_mode c) "--debug"
  ++ flag (verbose_mode c) "--verbose" ++ flag (metadata_log_mode c) "--metadata_log"
  ++ flag (negb (concurrent_mode c)) "--sequential" ++ flag (negb (bep51_mode c)) "--no-bep51".

(** One step of the parser for each option. *)
Lemma parse_values v rest c q :
  parse_args ("--server" :: v :: rest) c q = parse_args rest (c <| server := v |>) q
  ∧ parse_args ("--user" :: v :: rest) c q = parse_args rest (c <| user := v |>) q
  ∧ parse_args ("--password" :: v :: rest) c q = parse_args rest (c <| password := v |>) q
  ∧ parse_args ("--database" :: v :: rest) c q = parse_args rest (c <| database := v |>) q
  ∧ parse_args ("--metadata" :: v :: rest) c q = parse_args rest (c <| metadata_hashes := v |>) q.
Proof. split_all; reflexivity. Qed.

Lemma parse_numbers z rest c q :
  int_range z →
  parse_args ("--port" :: to_string z :: rest) c q = parse_args rest (c <| port := z |>) q
  ∧ parse_args ("--queries" :: to_string z :: rest) c q = parse_args rest c z
  ∧ ((1 ≤ z ≤ 16)%Z →
     parse_args ("--workers" :: to_string z :: rest) c q = parse_args rest (c <| num_workers := z |>) q).
Proof.
  intros Hz. pose proof (stoi_to_string z Hz) as Hst. split_all.
  - change (parse_args ("--port" :: to_string z :: rest) c q)
      with (match stoi 10 (to_string z) with
            | Returned p => parse_args rest (c <| port := p |>) q | Threw e => Uncaught e end).
    by rewrite Hst.
  - change (parse_args ("--queries" :: to_string z :: rest) c q)
      with (match stoi 10 (to_string z) with
            | Returned p => parse_args rest c p | Threw e => Uncaught e end).
    by rewrite Hst.
  - intros Hw. change (parse_args ("--workers" :: to_string z :: rest) c q)
      with (match stoi 10 (to_string z) with
            | Returned n => if (n <? 1)%Z || (16 <? n)%Z then BadWorkers
                            else parse_args rest (c <| num_workers := n |>) q
            | Threw e => Uncaught e end).
    rewrite Hst. case_match eqn:Hb; [|done].
    apply orb_true_iff in Hb as [Hb|Hb]; apply Z.ltb_lt in Hb; lia.
Qed.

Lemma parse_flags b rest c q :
  parse_args (flag b "--metadata_database" ++ rest) c q
    = parse_args rest (if b then c <| metadata_database_mode := true |> else c) q
  ∧ parse_args (flag b "--debug" ++ rest) c q = parse_args rest (if b then c <| debug_mode := true |> else c) q
  ∧ parse_args (flag b "--verbose" ++ rest) c q = parse_args rest (if b then c <| verbose_mode := true |> else c) q
  ∧ parse_args (flag b "--metadata_log" ++ rest) c q
    = parse_args rest (if b then c <| metadata_log_mode := true |> else c) q
  ∧ parse_args (flag b "--sequential" ++ rest) c q
    = parse_args rest (if b then c <| concurrent_mode := false |> else c) q
  ∧ parse_args (flag b "--no-bep51" ++ rest) c q = parse_args rest (if b then c <| bep51_mode := false |> else c) q.
Proof. destruct b; split_all; reflexivity. Qed.

Lemma parse_args_of_config c q :
  (1 ≤ num_workers c ≤ 16)%Z → int_range (port c) → int_range q →
  parse_args (args_of_config c q) default_MySQLConfig (-1) = Run c q.
Proof.
  intros Hw Hp Hq. unfold args_of_config. cbn [app].
  assert (int_range (num_workers c)) as Hnw by (unfold int_range; lia).
  rewrite (proj1 (parse_values _ _ _ _)), (proj1 (parse_numbers _ _ _ _ Hp)).
  rewrite (proj1 (proj2 (parse_values _ _ _ _))), (proj1 (proj2 (proj2 (parse_values _ _ _ _)))).
  rewrite (proj1 (proj2 (proj2 (proj2 (parse_values _ _ _ _))))), (proj1 (proj2 (parse_numbers _ _ _ _ Hq))).
  rewrite (proj2 (proj2 (proj2 (proj2 (parse_values _ _ _ _))))).
  rewrite (proj2 (proj2 (parse_numbers _ _ _ _ Hnw)) Hw).
  rewrite (proj1 (parse_flags _ _ _ _)), (proj1 (proj2 (parse_flags _ _ _ _))).
  rewrite (proj1 (proj2 (proj2 (parse_flags _ _ _ _)))), (proj1 (proj2 (proj2 (proj2 (parse_flags _ _ _ _))))).
  rewrite (proj1 (proj2 (proj2 (proj2 (proj2 (parse_flags _ _ _ _)))))).
  rewrite <-(app_nil_r (flag (negb (bep51_mode c)) "--no-bep51")).
  rewrite (proj2 (proj2 (proj2 (proj2 (proj2 (parse_flags _ _ _ _)))))).
  destruct c as [sv us pw db po mh [] [] [] [] [] nw []]; reflexivity.
Qed.

(** C20: Every valid configuration can be given on the command line, and
    parsing that command line gives it back. *)
Theorem parse_args_roundtrip c q :
  (1 ≤ num_workers c ≤ 16)%Z → int_range (port c) → int_range q →
  user c ≠ "" → password c ≠ "" → database c ≠ "" → server c ≠ "" →
  parse_command_line (args_of_config c q) = Run c q.
Proof.
  intros Hw Hp Hq Hu Hpw Hd Hs.
  change (parse_command_line (args_of_config c q)) with
    (match parse_args (args_of_config c q) default_MySQLConfig (-1) with
     | Run config max_queries => Run (apply_defaults config) max_queries | r => r end).
  rewrite parse_args_of_config by done. unfold apply_defaults.
  rewrite !bool_decide_eq_false_2 by done. cbn [orb]. by rewrite decide_False.
Qed.

Definition sim_config : MySQLConfig :=
  default_MySQLConfig <| server := "db" |> <| user := "u" |> <| password := "p" |>
    <| database := "d" |> <| num_workers := 8%Z |> <| verbose_mode := true |>.

Lemma accepted_command_line_witness :
  parse_command_line ["--workers"; "8"; "--sequential"]
    = Run (apply_defaults (default_MySQLConfig <| num_workers := 8%Z |> <| concurrent_mode := false |>)) (-1)
  ∧ user (apply_defaults (default_MySQLConfig <| num_workers := 8%Z |> <| concurrent_mode := false |>)) ≠ "".
Proof.
  split; [by vm_compute|].
  apply (accepted_command_line ["--workers"; "8"; "--sequential"] _ (-1)). by vm_compute.
Defined.

Lemma parse_args_roundtrip_witness :
  parse_command_line (args_of_config sim_config 5000) = Run sim_config 5000.
Proof. apply (parse_args_roundtrip sim_config 5000); vm_compute; (discriminate || (split; discriminate || reflexivity)). Defined.

(** ** The hash list of the metadata-only mode *)

(** One of [" \t\r\n"]. *)
Definition is_blank (c : ascii) : bool :=
  match nat_of_ascii c with 32 | 9 | 13 | 10 => true | _ => false end.

(** [s.erase(0, s.find_first_not_of(...))]; everything goes when there is no
    such character. *)
Fixpoint erase_leading (l : list ascii) : list ascii :=
  match l with
  | c :: rest => if is_blank c then erase_leading rest else l
  | [] => []
  end.
(** [s.erase(s.find_last_not_of(...) + 1)] *)
Definition erase_trailing (l : list ascii) : list ascii := reverse (erase_leading (reverse l)).
Definition trim (l : list ascii) : list ascii := erase_trailing (erase_leading l).

(** The loop over [std::getline(ss, hash, sep)]. *)
Definition parse_hash_list (sep : ascii) (s : string) : list string :=
  filter (λ h, h ≠ "") ((λ l, of_chars (trim l)) <$> split_on sep (chars s)).

Fixpoint is_prefix (p l : list ascii) : bool :=
  match p, l with
  | [], _ => true
  | c :: p, d :: l => bool_decide (c = d) && is_prefix p l
  | _, [] => false
  end.
Fixpoint contains_text (p l : list ascii) : bool :=
  is_prefix p l || match l with [] => false | _ :: l => contains_text p l end.

(** [setupMetadataOnlyMode]: the list is read from a file when the argument
    names one; [read_file] returns its contents, [None] when it cannot be
    opened. *)
Definition metadata_hash_list (read_file : string → option string) (hashes_str : string) : list string :=
  if contains_text (chars ".txt") (chars hashes_str) || contains_text (chars ".csv") (chars hashes_str)
  then match read_file hashes_str with
       | Some contents => parse_hash_list (ascii_of_nat 10) contents
       | None => []
       end
  else parse_hash_list "," hashes_str.

(** A hash the parser can return: no separator, no blank at either end. *)
Definition plain_hash (sep : ascii) (h : string) : Prop :=
  h ≠ "" ∧ sep ∉ chars h
  ∧ (∀ c, head (chars h) = Some c → is_blank c = false)
  ∧ (∀ c, last (chars h) = Some c → is_blank c = false).

Fixpoint join_with (sep : ascii) (hs : list (list ascii)) : list ascii :=
  match hs with
  | [] => []
  | [h] => h
  | h :: hs => h ++ sep :: join_with sep hs
  end.

Lemma is_prefix_app p l : is_prefix p l = true ↔ ∃ k, l = p ++ k.
Proof.
  revert l. induction p as [|c p IH]; intros l; simpl; [split; [by eexists|by destruct l]|].
  destruct l as [|d l]; simpl; [split; [done|by intros [? ?]]|].
  rewrite andb_true_iff, bool_decide_eq_true, IH. split.
  - intros [-> [k ->]]. by exists k.
  - intros [k [= -> ->]]. split; [done|by exists k].
Qed.

Lemma contains_text_app p l : contains_text p l = true ↔ ∃ k1 k2, l = k1 ++ p ++ k2.
Proof.
  induction l as [|d l IH]; simpl; rewrite orb_true_iff, is_prefix_app.
  - split; [|intros (k1 & k2 & Hk)].
    + intros [[k ->]|]; [|done]. by exists [], k.
    + left. exists k2. by destruct k1.
  - rewrite IH. split.
    + intros [[k Hk]|(k1 & k2 & ->)]; [by exists [], k|by exists (d :: k1), k2].
    + intros ([|e k1] & k2 & Hk); [left; by exists k2|]. right. injection Hk as -> ->. by exists k1, k2.
Qed.

Lemma split_on_app sep h l : sep ∉ h → split_on sep (h ++ sep :: l) = h :: split_on sep l.
Proof.
  induction h as [|c h IH]; intros Hn; simpl.
  - by rewrite decide_True.
  - rewrite decide_False by set_solver. rewrite IH by set_solver. done.
Qed.

Lemma split_on_none sep h : sep ∉ h → split_on sep h = [h].
Proof.
  induction h as [|c h IH]; intros Hn; simpl; [done|].
  rewrite decide_False by set_solver. by rewrite IH by set_solver.
Qed.

Lemma split_join sep hs :
  hs ≠ [] → Forall (λ h, sep ∉ h) hs → split_on sep (join_with sep hs) = hs.
Proof.
  intros Hne Hall. induction Hall as [|h hs Hh Hall IH]; [done|].
  destruct hs as [|h' hs]; [by apply split_on_none|].
  change (join_with sep (h :: h' :: hs)) with (h ++ sep :: join_with sep (h' :: hs)).
  rewrite split_on_app by done. by rewrite IH.
Qed.

Lemma split_on_no_sep sep l : Forall (λ h, sep ∉ h) (split_on sep l).
Proof.
  induction l as [|c l IH]; simpl; [repeat constructor; set_solver|].
  case_decide; [constructor; [set_solver | done]|].
  destruct (split_on sep l) as [|w ws]; [repeat constructor; set_solver|].
  apply Forall_cons in IH as [Hw Hws]. constructor; [set_solver | done].
Qed.

Lemma erase_leading_suffix l : ∃ pre, l = pre ++ erase_leading l.
Proof.
  induction l as [|c l [pre IH]]; [by exists []|]. simpl. case_match; [|by exists []].
  exists (c :: pre). simpl. by rewrite <-IH.
Qed.

Lemma elem_of_erase_leading c l : c ∈ erase_leading l → c ∈ l.
Proof. intros Hc. destruct (erase_leading_suffix l) as [pre Hl]. rewrite Hl. set_solver. Qed.

Lemma erase_leading_head l c : head (erase_leading l) = Some c → is_blank c = false.
Proof. induction l as [|d l IH]; simpl; [done|]. case_match; [done|]. simpl. congruence. Qed.

Lemma erase_leading_id l : (∀ c, head l = Some c → is_blank c = false) → erase_leading l = l.
Proof. destruct l as [|c l]; [done|]. intros Hl. simpl. by rewrite (Hl c eq_refl). Qed.

Lemma last_reverse (l : list ascii) : last (reverse l) = head l.
Proof. destruct l as [|c l]; [done|]. by rewrite reverse_cons, last_snoc. Qed.
Lemma head_reverse (l : list ascii) : head (reverse l) = last l.
Proof. by rewrite <-last_reverse, reverse_involutive. Qed.

(** Erasing at the end does not move the first character. *)
Lemma erase_trailing_head l c : head (erase_trailing l) = Some c → head l = Some c.
Proof.
  unfold erase_trailing. rewrite head_reverse. intros Hc.
  destruct (erase_leading_suffix (reverse l)) as [pre Hpre].
  rewrite <-last_reverse, Hpre, last_app, Hc. done.
Qed.

Lemma trim_ends l :
  (∀ c, head (trim l) = Some c → is_blank c = false) ∧ (∀ c, last (trim l) = Some c → is_blank c = false)
  ∧ (∀ c, c ∈ trim l → c ∈ l).
Proof.
  unfold trim. split_all.
  - intros c Hc. apply erase_trailing_head in Hc. by eapply erase_leading_head.
  - intros c. unfold erase_trailing. rewrite last_reverse. apply erase_leading_head.
  - intros c Hc. unfold erase_trailing in Hc. rewrite elem_of_reverse in Hc.
    apply elem_of_erase_leading in Hc. rewrite elem_of_reverse in Hc. by apply elem_of_erase_leading.
Qed.

Lemma trim_id l :
  (∀ c, head l = Some c → is_blank c = false) → (∀ c, last l = Some c → is_blank c = false) → trim l = l.
Proof.
  intros Hh Hl. unfold trim, erase_trailing. rewrite (erase_leading_id l Hh).
  rewrite erase_leading_id, reverse_involutive; [done|]. intros c. rewrite head_reverse. apply Hl.
Qed.

(** The hash list is read back as written: hashes without separators or
    blanks at their ends, joined by the separator, are parsed into the same
    list, and whatever the input, every parsed hash is of that form. *)
Theorem hash_list_roundtrip sep :
  (∀ hs, Forall (plain_hash sep) hs →
     parse_hash_list sep (of_chars (join_with sep (chars <$> hs))) = hs)
  ∧ (∀ s, Forall (plain_hash sep) (parse_hash_list sep s)).
Proof.
  split.
  - intros hs Hall. destruct hs as [|h hs]; [done|]. unfold parse_hash_list.
    rewrite chars_of_chars, split_join; [|done|].
    + rewrite <-list_fmap_compose. induction Hall as [|h' hs' (Hne & _ & Hh & Hl) Hall IH]; [done|].
      rewrite fmap_cons. unfold compose at 1. rewrite trim_id, of_chars_chars by done.
      rewrite filter_cons_True by done. f_equal. exact IH.
    + apply Forall_fmap. eapply Forall_impl; [exact Hall|]. by intros ? (_ & ? & _).
  - intros s. rewrite Forall_forall. intros h [Hne Hin]%list_elem_of_filter.
    apply list_elem_of_fmap in Hin as (l & -> & Hl). unfold plain_hash. rewrite chars_of_chars.
    destruct (trim_ends l) as (Hh & Hla & Hsub). split_all; try done.
    intros Hc%Hsub. pose proof (split_on_no_sep sep (chars s)) as Hno. rewrite Forall_forall in Hno.
    by apply (Hno l Hl).
Qed.

Lemma hash_list_roundtrip_witness :
  parse_hash_list "," (of_chars (join_with "," (chars <$> ["abc123"; "789xyz"]))) = ["abc123"; "789xyz"].
Proof.
  apply (proj1 (hash_list_roundtrip ",")).
  repeat constructor; try discriminate; try (intros ? [= <-]; reflexivity); vm_compute; set_solver.
Defined.

(** ** Content types *)

Definition tolower (c : ascii) : ascii :=
  if in_range "A" "Z" c then byte_of (byte_val c + 32) else c.

(** [filename.substr(filename.find_last_of('.') + 1)], in lower case. *)
Definition extension (filename : string) : option string :=
  pos ← find_char "." (reverse (chars filename));
  Some (of_chars (tolower <$> reverse (take pos (reverse (chars filename))))).

Definition file_extensions (names : list string) : gset string := list_to_set (omap extension names).

Definition video_exts : list string :=
  ["mp4"; "avi"; "mkv"; "mov"; "wmv"; "flv"; "webm"; "m4v"; "3gp"; "mpg"; "mpeg"].
Definition audio_exts : list string := ["mp3"; "flac"; "wav"; "aac"; "ogg"; "wma"; "m4a"; "opus"].
Definition software_exts : list string := ["exe"; "msi"; "dmg"; "pkg"; "deb"; "rpm"; "app"; "iso"; "bin"].
Definition doc_exts : list string :=
  ["pdf"; "doc"; "docx"; "txt"; "rtf"; "odt"; "ppt"; "pptx"; "xls"; "xlsx"].
Definition image_exts : list string := ["jpg"; "jpeg"; "png"; "gif"; "bmp"; "tiff"; "svg"; "webp"].
Definition archive_exts : list string := ["zip"; "rar"; "7z"; "tar"; "gz"; "bz2"; "xz"].

(** [for (ext : extensions) if (exts.count(ext)) return ...] *)
Definition any_extension (extensions : gset string) (exts : list string) : bool :=
  existsb (λ ext, bool_decide (ext ∈ exts)) (set_iter extensions).

Definition determineContentType (names : list string) : string :=
  match names with
  | [] => "unknown"
  | _ =>
    let extensions := file_extensions names in
    if any_extension extensions video_exts then "video"
    else if any_extension extensions audio_exts then "audio"
    else if any_extension extensions software_exts then "software"
    else if any_extension extensions doc_exts then "document"
    else if any_extension extensions image_exts then "image"
    else if any_extension extensions archive_exts then "archive"
    else "other"
  end.

Lemma any_extension_spec names exts :
  any_extension (file_extensions names) exts = true ↔
  ∃ f e, f ∈ names ∧ extension f = Some e ∧ e ∈ exts.
Proof.
  unfold any_extension. rewrite existsb_exists. setoid_rewrite <-list_elem_of_In.
  setoid_rewrite elem_of_set_iter. unfold file_extensions. setoid_rewrite elem_of_list_to_set.
  setoid_rewrite list_elem_of_omap. setoid_rewrite bool_decide_eq_true. naive_solver.
Qed.

(** The classes of content in the order they are tried. *)
Definition content_classes : list (list string * string) :=
  [(video_exts, "video"); (audio_exts, "audio"); (software_exts, "software"); (doc_exts, "document");
   (image_exts, "image"); (archive_exts, "archive")].
Definition has_class (names : list string) (k : nat) : Prop :=
  ∃ exts label f e, content_classes !! k = Some (exts, label)
    ∧ f ∈ names ∧ extension f = Some e ∧ e ∈ exts.

Lemma determine_first_class names k exts label :
  content_classes !! k = Some (exts, label) →
  determineContentType names = label ↔
  (names ≠ [] ∧ any_extension (file_extensions names) exts = true
   ∧ ∀ j exts' label', j < k → content_classes !! j = Some (exts', label') →
                       any_extension (file_extensions names) exts' = false).
Proof.
  intros Hk. assert (names = [] ∨ names ≠ []) as [->|Hne] by (destruct names; auto).
  { do 6 (destruct k as [|k]; [simplify_eq/=; naive_solver|]). done. }
  assert (determineContentType names =
    if any_extension (file_extensions names) video_exts then "video"
    else if any_extension (file_extensions names) audio_exts then "audio"
    else if any_extension (file_extensions names) software_exts then "software"
    else if any_extension (file_extensions names) doc_exts then "document"
    else if any_extension (file_extensions names) image_exts then "image"
    else if any_extension (file_extensions names) archive_exts then "archive" else "other") as ->
    by (by destruct names).
  generalize (any_extension (file_extensions names)) as any. intros any.
  do 6 (destruct k as [|k];
    [simplify_eq/=; split;
     [intros Hl; repeat case_match; simplify_eq; split_all; try done;
      intros j exts' label' Hj Hl'; do 6 (destruct j as [|j]; [by simplify_eq/=; try lia|]); lia
     |intros (_ & Ht & Hf); rewrite ?Ht;
      rewrite ?(Hf 0 _ _ ltac:(lia) eq_refl), ?(Hf 1 _ _ ltac:(lia) eq_refl), ?(Hf 2 _ _ ltac:(lia) eq_refl),
        ?(Hf 3 _ _ ltac:(lia) eq_refl), ?(Hf 4 _ _ ltac:(lia) eq_refl); done]|]).
  done.
Qed.

(** The content type of a torrent is the first class, in the order video,
    audio, software, document, image, archive, that one of its file names has
    an extension of, in any case; it depends neither on the order of the files
    nor on how often a name occurs. *)
Theorem content_type_spec names k exts label :
  content_classes !! k = Some (exts, label) →
  (determineContentType names = label ↔ has_class names k ∧ ∀ j, j < k → ¬ has_class names j)
  ∧ (∀ names', (∀ f, f ∈ names ↔ f ∈ names') → determineContentType names' = determineContentType names).
Proof.
  intros Hk. split.
  - rewrite (determine_first_class _ _ _ _ Hk), any_extension_spec. split.
    + intros (Hne & (f & e & Hf & He & Hin) & Hno). split; [by exists exts, label, f, e|].
      intros j Hj (exts' & label' & f' & e' & Hj' & Hf' & He' & Hin').
      specialize (Hno j exts' label' Hj Hj'). apply not_true_iff_false in Hno. apply Hno.
      apply any_extension_spec. eauto.
    + intros ((exts0 & label0 & f & e & Hk0 & Hf & He & Hin) & Hno). simplify_eq.
      split_all; [intros ->; by apply not_elem_of_nil in Hf | by eauto|].
      intros j exts' label' Hj Hj'. apply not_true_iff_false. rewrite any_extension_spec.
      intros (f' & e' & ? & ? & ?). apply (Hno j Hj). by exists exts', label', f', e'.
  - intros names' Hn.
    assert (file_extensions names' = file_extensions names) as Hext.
    { apply set_eq. intros e. unfold file_extensions. rewrite !elem_of_list_to_set, !list_elem_of_omap.
      setoid_rewrite Hn. done. }
    destruct names as [|f names], names' as [|f' names']; [done|set_solver|set_solver|].
    unfold determineContentType. by rewrite Hext.
Qed.

Lemma content_type_spec_witness :
  determineContentType ["readme.txt"; "Film.MKV"] = "video".
Proof.
  destruct (content_type_spec ["readme.txt"; "Film.MKV"] 0 video_exts "video" eq_refl) as [[_ Hv] _].
  apply Hv. split; [|intros j Hj; lia]. exists video_exts, "video", "Film.MKV", "mkv".
  split; [done|]. split; [set_solver|]. split; [by vm_compute|]. unfold video_exts. set_solver.
Defined.
