(* ===== verification/Crawler.v ===== *)
(** * The crawler

    Models [DHTTorrentCrawler] of [src/src/dht_crawler.cpp], the class that
    composes the other components: the alert handlers, the requests for
    metadata, the metadata-only and metadata-database modes, the bodies of the
    three loops of [startCrawling], and the shutdown.  The worker threads of
    the pool and of the concurrent DHT manager run between the operations of
    this class; their interleavings are the subject of [WorkerPool] and
    [ConcurrentDht], and a run of the crawler ([crawler_step]) lets them
    change their component at any point between two operations. *)

From S2P Require Import Prelude World HashFormat RequestQueue Downloader Numeric.
From S2P Require Import SmartCrawler WorkerPool ConcurrentDht Sql Cli.

(** ** [extract_comprehensive_metadata] *)

Record EnhancedTorrentMetadata := mk_EnhancedTorrentMetadata {
  em_info_hash : string;
  em_name : string;
  em_total_size : Z;
  em_num_files : Z;
  em_num_pieces : Z;
  em_piece_length : Z;
  em_comment : string;
  em_created_by : string;
  em_creation_date : Z;
  em_magnet_link : string;
  em_trackers : list string;
  em_tracker_tiers : list Z;
  em_file_names : list string;
  em_file_sizes : list Z;
  em_file_offsets : list Z;
  em_file_flags : list string;
  em_web_seeds : list string;
  em_private_torrent : bool;
}.

(** The flags of a file, each followed by a comma, without the last comma. *)
Definition pop_back (s : string) : string := of_chars (removelast (chars s)).
Definition file_flags_str (f : file_entry) : string :=
  let flag_str := (if fe_pad_file f then "pad," else "") +:+ (if fe_executable f then "exec," else "")
                  +:+ (if fe_hidden f then "hidden," else "") +:+ (if fe_symlink f then "symlink," else "") in
  if decide (flag_str = "") then flag_str else pop_back flag_str.

Definition extract_comprehensive_metadata (ti : torrent_info) (hash : string) : EnhancedTorrentMetadata :=
  mk_EnhancedTorrentMetadata hash (ti_name ti) (size_t_of_int (ti_total_size ti))
    (Z.of_nat (length (ti_files ti))) (ti_num_pieces ti) (ti_piece_length ti) (ti_comment ti)
    (ti_creator ti) (ti_creation_date ti) (ti_magnet_uri ti) (ti_trackers ti)
    ((λ _, 0%Z) <$> ti_trackers ti) (fe_path <$> ti_files ti) ((λ f, size_t_of_int (fe_size f)) <$> ti_files ti)
    ((λ f, size_t_of_int (fe_offset f)) <$> ti_files ti) (file_flags_str <$> ti_files ti) (ti_web_seeds ti) (ti_priv ti).

(** ** The state of the crawler *)

Record crawler (H : Type) := mk_crawler {
  m_mysql : MySQLConnection;
  m_discovered_torrents : gmap string DiscoveredTorrent;
  k_queried_hashes : gset string;
  m_metadata_requested : gset string;
  m_running : bool;
  m_shutdown_requested : bool;
  m_total_queries : Z;
  m_torrents_found : Z;
  m_peers_found : Z;
  m_metadata_fetched : Z;
  m_metadata_only_mode : bool;
  m_metadata_hash_list : list string;
  m_metadata_database_mode : bool;
  m_metadata_db_offset : Z;
  m_metadata_db_total_records : Z;
  m_metadata_db_processed : Z;
  m_metadata_manager : MetadataManager;
  m_metadata_downloader : downloader H MetadataRequestQueue;
  m_metadata_worker_pool : option pool;
  m_concurrent_dht : dht_manager;
  m_bep51_indexer : BEP51DHTIndexer;
  m_smart_crawler : smart_crawler;
  m_use_concurrent_mode : bool;
  m_use_bep51_mode : bool;
  m_use_smart_mode : bool;
}.
Arguments mk_crawler {_}.
Arguments m_mysql {_} _.
Arguments m_discovered_torrents {_} _.
Arguments k_queried_hashes {_} _.
Arguments m_metadata_requested {_} _.
Arguments m_running {_} _.
Arguments m_shutdown_requested {_} _.
Arguments m_total_queries {_} _.
Arguments m_torrents_found {_} _.
Arguments m_peers_found {_} _.
Arguments m_metadata_fetched {_} _.
Arguments m_metadata_only_mode {_} _.
Arguments m_metadata_hash_list {_} _.
Arguments m_metadata_database_mode {_} _.
Arguments m_metadata_db_offset {_} _.
Arguments m_metadata_db_total_records {_} _.
Arguments m_metadata_db_processed {_} _.
Arguments m_metadata_manager {_} _.
Arguments m_metadata_downloader {_} _.
Arguments m_metadata_worker_pool {_} _.
Arguments m_concurrent_dht {_} _.
Arguments m_bep51_indexer {_} _.
Arguments m_smart_crawler {_} _.
Arguments m_use_concurrent_mode {_} _.
Arguments m_use_bep51_mode {_} _.
Arguments m_use_smart_mode {_} _.
#[export] Instance eta_crawler {H} : Eta (crawler H) :=
  λ k, mk_crawler (m_mysql k) (m_discovered_torrents k) (k_queried_hashes k) (m_metadata_requested k)
         (m_running k) (m_shutdown_requested k) (m_total_queries k) (m_torrents_found k)
         (m_peers_found k) (m_metadata_fetched k) (m_metadata_only_mode k) (m_metadata_hash_list k)
         (m_metadata_database_mode k) (m_metadata_db_offset k) (m_metadata_db_total_records k)
         (m_metadata_db_processed k) (m_metadata_manager k) (m_metadata_downloader k)
         (m_metadata_worker_pool k) (m_concurrent_dht k) (m_bep51_indexer k) (m_smart_crawler k)
         (m_use_concurrent_mode k) (m_use_bep51_mode k) (m_use_smart_mode k).

(** The constructor: ten workers with a timeout of twenty seconds in the
    pool, the configured number in the concurrent DHT manager. *)
Definition new_crawler {H} (mysql_init : bool) (config : MySQLConfig) : crawler H :=
  mk_crawler (new_MySQLConnection mysql_init config) ∅ ∅ ∅ false false 0 0 0 0 false []
    (metadata_database_mode config) 0 0 0 new_MetadataManager (new_downloader empty_queue)
    (Some (new_pool 10 20)) (new_dht_manager (Z.to_nat (num_workers config))) new_BEP51DHTIndexer
    new_smart_crawler (concurrent_mode config) (bep51_mode config) true.

Section Crawler.
Context {W H : Type} `{Session W H} `{Alerts W H} `{Database W}.
Implicit Types (k : crawler H) (w : W).

(** The pool is gone only after [gracefulShutdown]. *)
Definition on_pool (f : pool → pool) k : crawler H := k <| m_metadata_worker_pool ::= fmap f |>.

(** ** Discovered torrents *)

(** The record the three handlers fill in. *)
Definition fresh_torrent (hash_str torrent_name torrent_source : string) (torrent_peers : list string)
    (discovered last_seen : Z) : DiscoveredTorrent :=
  mk_DiscoveredTorrent hash_str torrent_name 0 0 torrent_peers [] [] "" "" 0 "" 0 0 [] false
    (magnet_link hash_str) "" [] "" "" "" 0 0 0 discovered last_seen torrent_source false false.

(** Memory and database; the torrent counts as found in both branches. *)
Definition store_discovered (t : DiscoveredTorrent) k w : crawler H * W :=
  let k := k <| m_discovered_torrents ::= <[info_hash t := t]> |> in
  let w := if m_connected (m_mysql k) then (storeTorrent (m_mysql k) t w).2 else w in
  (k <| m_torrents_found ::= Z.succ |>, w).

(** The request for metadata that ends each handler. *)
Definition auto_queue (hash_str : string) (priority : Z) (src : string) k w : crawler H * W :=
  if decide (hash_str ∈ m_metadata_requested k) then (k, w)
  else
    let '(queued, d, w) := request_metadata true hash_str priority src (m_metadata_downloader k) w in
    let k := k <| m_metadata_downloader := d |> in
    if queued then (k <| m_metadata_requested ::= ({[hash_str]} ∪.) |>, w) else (k, w).

Definition peer_str (peer : string * Z) : string := peer.1 +:+ ":" +:+ to_string peer.2.

Definition handlePeerReply (hash_binary : string) (alert_peers : list (string * Z)) k w : crawler H * W :=
  let hash_str := binary_to_hex hash_binary in
  let '(t1, w) := steady_now w in
  let '(t2, w) := steady_now w in
  let torrent := fresh_torrent hash_str "Unknown Torrent" "DHT_PEERS" (peer_str <$> alert_peers) t1 t2 in
  let k := k <| m_peers_found ::= Z.add (Z.of_nat (length alert_peers)) |> in
  let '(k, w) :=
    if m_use_smart_mode k then
      let '(s, w) := record_incoming_observation hash_str "peer_reply"
                       (Z.of_nat (length (peers torrent))) (peers torrent) (m_smart_crawler k) w in
      (k <| m_smart_crawler := s |>, w)
    else (k, w) in
  let '(k, w) := store_discovered torrent k w in
  auto_queue hash_str 3 "DHT_PEERS" k w.

Definition handleAnnounce (hash_binary : string) k w : crawler H * W :=
  let hash_str := binary_to_hex hash_binary in
  let '(t1, w) := steady_now w in
  let '(t2, w) := steady_now w in
  let torrent := fresh_torrent hash_str "Announced Torrent" "DHT_ANNOUNCE" [] t1 t2 in
  let '(k, w) := store_discovered torrent k w in
  auto_queue hash_str 2 "DHT_ANNOUNCE" k w.

Definition handleImmutableItem (hash_binary : string) k w : crawler H * W :=
  let hash_str := binary_to_hex hash_binary in
  let '(t1, w) := steady_now w in
  let '(t2, w) := steady_now w in
  let torrent := fresh_torrent hash_str "DHT Item" "DHT_ITEM" [] t1 t2 in
  let '(k, w) := store_discovered torrent k w in
  auto_queue hash_str 1 "DHT_ITEM" k w.

(** ** Received metadata *)

(** The record of the metadata-only mode: [seeders_count], [leechers_count]
    and [download_speed] are never initialised and hold [indeterminate]. *)
Definition metadata_only_torrent (indeterminate : Z) (hash_str : string) (t1 t2 : Z) : DiscoveredTorrent :=
  mk_DiscoveredTorrent hash_str "" 0 0 [] [] [] "" "" 0 "" 0 0 [] false "" "" [] "" "" ""
    indeterminate indeterminate indeterminate t1 t2 "METADATA_ONLY" false false.

Definition with_metadata (t : DiscoveredTorrent) (m : EnhancedTorrentMetadata) (now : Z) : DiscoveredTorrent :=
  let t := t <| dt_magnet_link := em_magnet_link m |> <| name := em_name m |>
             <| dt_size := em_total_size m |> <| num_files := em_num_files m |>
             <| num_pieces := em_num_pieces m |> <| piece_length := size_t_of_int (em_piece_length m) |>
             <| comment := em_comment m |> <| created_by := em_created_by m |>
             <| creation_date := em_creation_date m |> <| private_torrent := em_private_torrent m |>
             <| metadata_received := true |> <| last_seen_time := now |>
             <| file_names := em_file_names m |> <| file_sizes := em_file_sizes m |>
             <| trackers := em_trackers m |> <| announce_list := em_trackers m |> in
  let t := match em_trackers m with [] => t | url :: _ => t <| announce_url := url |> end in
  t <| content_type := determineContentType (file_names t) |>.

(** The database part: in both branches of [if (db_success)] the torrent
    counts as fetched; without a connection it does not. *)
Definition save_metadata (hash_str : string) (t : DiscoveredTorrent) k w : crawler H * W :=
  if m_connected (m_mysql k) then
    let '(k, w) :=
      if m_metadata_database_mode k then
        let '(ok, w) := updateTorrentMetadata (m_mysql k) hash_str t w in
        (if ok then k <| m_metadata_db_processed ::= Z.succ |> else k, w)
      else (k, (storeTorrent (m_mysql k) t w).2) in
    (k <| m_metadata_fetched ::= Z.succ |>, w)
  else (k, w).

(** [remove_torrent] may throw, which is logged. *)
Definition drop_torrent (handle : H) k w : W :=
  match remove_torrent handle w with
  | (Returned _, w) => w
  | (Threw e, w) => (logException (m_mysql k) "DHTTorrentCrawler::handleMetadataReceived" "" e "" w).2
  end.

Definition store_received (indeterminate : Z) (handle : H) (ti : torrent_info) (hash_str : string) k w
    : crawler H * W :=
  let k := k <| m_metadata_manager ::= log_metadata_success |> in
  let '(d, w) := Downloader.handle_metadata_received hash_str (m_metadata_downloader k) w in
  let k := k <| m_metadata_downloader := log_success d |> in
  let k := on_pool (WorkerPool.handle_metadata_received hash_str) k in
  let m := extract_comprehensive_metadata ti hash_str in
  if m_metadata_only_mode k then
    let '(t1, w) := steady_now w in
    let '(t2, w) := steady_now w in
    let '(now, w) := steady_now w in
    let torrent := with_metadata (metadata_only_torrent indeterminate hash_str t1 t2) m now in
    let '(k, w) := save_metadata hash_str torrent k w in
    (k, drop_torrent handle k w)
  else match m_discovered_torrents k !! hash_str with
  | None => (k, w)
  | Some t =>
    let '(now, w) := steady_now w in
    let '(k, w) := save_metadata hash_str (with_metadata t m now) k w in
    (k, drop_torrent handle k w)
  end.

(** The handle may have become invalid since the alert was posted; what its
    methods then throw is logged. *)
Definition handleMetadataReceived (indeterminate : Z) (handle : H) k w : crawler H * W :=
  let logged e := (k, (logException (m_mysql k) "DHTTorrentCrawler::handleMetadataReceived" "" e "" w).2) in
  match torrent_file handle w with
  | Threw e => logged e
  | Returned None =>
    (k, (logError (m_mysql k) "DHTTorrentCrawler::handleMetadataReceived" "" (-1)
           "torrent_info is null" "" "WARNING" "" w).2)
  | Returned (Some ti) =>
    match handle_info_hash handle w with
    | Threw e => logged e
    | Returned info_hash => store_received indeterminate handle ti (binary_to_hex info_hash) k w
    end
  end.

(** ** Alerts *)

Definition process_alert (indeterminate : Z) (s : crawler H * W) (a : alert H) : crawler H * W :=
  let '(k, w) := s in
  match a with
  | dht_get_peers_reply_alert h ps => match ps with [] => (k, w) | _ => handlePeerReply h ps k w end
  | dht_announce_alert h => handleAnnounce h k w
  | dht_immutable_item_alert h => handleImmutableItem h k w
  | metadata_received_alert handle => handleMetadataReceived indeterminate handle k w
  | dht_bootstrap_alert | other_alert => (k, w)
  end.

Definition processAlerts (indeterminate : Z) k w : crawler H * W :=
  let '(alerts, w) := pop_alerts w in
  foldl (process_alert indeterminate) (k, w) alerts.

(** ** Requests for metadata *)

Definition requestMetadataForHash (hash : string) k w : crawler H * W :=
  let k := k <| m_metadata_manager ::= log_metadata_request |> in
  let '(ok, d, w) := request_metadata true hash 4 "MANUAL" (m_metadata_downloader k) w in
  let k := k <| m_metadata_downloader := d |> in
  let k := if ok then k
           else k <| m_metadata_manager ::= log_metadata_failure |>
                  <| m_metadata_downloader ::= log_failure |> in
  (k <| m_metadata_requested ::= ({[hash]} ∪.) |>, w).

Definition source_priority (src : string) : Z :=
  if decide (src = "DHT_PEERS") then 3 else if decide (src = "DHT_ANNOUNCE") then 2 else 1.

(** The loop over the discovered torrents, which stops after twenty
    requests. *)
Fixpoint request_loop (ts : list (string * DiscoveredTorrent)) (requested : nat) k w : crawler H * W :=
  match ts with
  | [] => (k, w)
  | (_, t) :: ts =>
    if 20 <=? requested then (k, w)
    else if negb (metadata_received t) && negb (bool_decide (info_hash t ∈ m_metadata_requested k)) then
      match m_metadata_worker_pool k with
      | None => (k, w)
      | Some p =>
        let '(ok, p, w) := queue_request (info_hash t) (source_priority (source t)) (source t) p w in
        let k := k <| m_metadata_worker_pool := Some p |> in
        let k := if ok then k else k <| m_metadata_manager ::= log_metadata_failure |> in
        let k := k <| m_metadata_requested ::= ({[info_hash t]} ∪.) |> in
        request_loop ts (if ok then S requested else requested) k w
      end
    else request_loop ts requested k w
  end.
Definition requestMetadataForDiscoveredTorrents k w : crawler H * W :=
  request_loop (map_iter (m_discovered_torrents k)) 0 k w.

(** ** BEP 51 *)

Section Bep51.
Context (dht_put_item : bep51_query → W → outcome unit * W).

Definition bep51_query_node (node_id : string) (s : BEP51DHTIndexer * W) : BEP51DHTIndexer * W :=
  let '(_, b, w) := query_sample_infohashes rand dht_put_item true node_id "" s.1 s.2 in (b, w).

(** Three queries to random node ids when no node is known, else up to ten. *)
Definition bep51_queries (b : BEP51DHTIndexer) w : BEP51DHTIndexer * W :=
  match get_known_nodes b with
  | [] =>
    foldl (λ s _, let '(id, w) := generate_random_id rand s.2 in bep51_query_node id (s.1, w)) (b, w)
      ["router.bittorrent.com"; "dht.transmissionbt.com"; "router.utorrent.com"]
  | known_nodes => foldl (λ s id, bep51_query_node id s) (b, w) (take 10 known_nodes)
  end.

Definition queryBEP51Infohashes k w : crawler H * W :=
  if negb (m_use_bep51_mode k) then (k, w)
  else
    let '(b, w) := bep51_queries (m_bep51_indexer k) w in
    let k := k <| m_bep51_indexer := b |> in
    foldl (λ s infohash, auto_queue (binary_to_hex infohash) 5 "BEP51" s.1 s.2) (k, w)
      (get_collected_infohashes b).
End Bep51.

(** ** Modes *)

Definition loadMetadataDatabaseBatch k w : crawler H * W :=
  let '(batch, w) := getTorrentsWithMissingMetadata (m_mysql k) 100 (m_metadata_db_offset k) w in
  match batch with
  | [] => (k <| m_shutdown_requested := true |>, w)
  | _ => (k <| m_metadata_hash_list ::= (λ l, l ++ batch) |>
            <| m_metadata_db_offset ::= (λ o, o + Z.of_nat (length batch))%Z |>, w)
  end.

Definition setupMetadataDatabaseMode k w : crawler H * W :=
  let k := k <| m_metadata_only_mode := true |> in
  let '(total_records, w) := getTotalTorrentsWithMissingMetadata (m_mysql k) w in
  let k := k <| m_metadata_db_total_records := total_records |> in
  if (total_records =? 0)%Z then (k <| m_shutdown_requested := true |>, w)
  else loadMetadataDatabaseBatch k w.

Definition setupMetadataOnlyMode (read_file : string → option string) k : crawler H :=
  k <| m_metadata_only_mode := true |>
    <| m_metadata_hash_list ::=
         (λ l, l ++ metadata_hash_list read_file (metadata_hashes (m_config (m_mysql k)))) |>.

(** The wait for the bootstrap alert, at most thirty rounds; the other alerts
    of a round are dropped. *)
Definition is_bootstrap (a : alert H) : bool := match a with dht_bootstrap_alert => true | _ => false end.
Fixpoint wait_for_bootstrap (rounds : nat) w : bool * W :=
  match rounds with
  | O => (false, w)
  | S rounds =>
    let '(alerts, w) := pop_alerts w in
    if existsb is_bootstrap alerts then (true, w) else wait_for_bootstrap rounds w
  end.

Definition initialize (read_file : string → option string) k w : crawler H * W :=
  let '(ok, c, w) := connect (m_mysql k) w in
  let k := k <| m_mysql := c |> in
  let w := if ok then w
           else (logError c "DHTTorrentCrawler::initialize" "" (-1) "MySQL connection failed" "" "WARNING"
                   "Running in test mode" w).2 in
  let '(_, w) := wait_for_bootstrap 30 w in
  let config := m_config c in
  let k := if decide (metadata_hashes config = "") then k else setupMetadataOnlyMode read_file k in
  if metadata_database_mode config then setupMetadataDatabaseMode k w else (k, w).

(** ** The loops of [startCrawling] *)

Definition keeps_crawling k : bool := m_running k && negb (m_shutdown_requested k).

Definition mark_timed_out k w (hash : string) : W := (markTorrentTimedOut (m_mysql k) hash w).2.

(** [for (hash : pool->get_timed_out_requests()) markTorrentTimedOut(hash)] *)
Definition mark_timeouts k w : crawler H * W :=
  match m_metadata_worker_pool k with
  | None => (k, w)
  | Some p =>
    let '(now, w) := steady_now w in
    let '(hashes, p) := get_timed_out_requests now p in
    (k <| m_metadata_worker_pool := Some p |>, foldl (mark_timed_out k) w hashes)
  end.

(** The refill of the metadata-database mode: the index of the first hash to
    request is [size() - 50] in [size_t]. *)
Definition refill k w : crawler H * W :=
  if m_metadata_database_mode k && (length (m_metadata_hash_list k) <? 50) then
    let '(k, w) := loadMetadataDatabaseBatch k w in
    let size := Z.of_nat (length (m_metadata_hash_list k)) in
    let i := size_t_sub size 50 in
    let hashes := if (i <? size)%Z then drop (Z.to_nat i) (m_metadata_hash_list k) else [] in
    foldl (λ s h, requestMetadataForHash h s.1 s.2) (k, w) hashes
  else (k, w).

Definition metadata_timeout_seconds : Z := 300.

(** Whether the loop ends after this iteration by itself. *)
Definition metadata_loop_done (elapsed_seconds : Z) k : bool :=
  (metadata_timeout_seconds <=? elapsed_seconds)%Z
  || if m_metadata_database_mode k
     then (m_metadata_db_total_records k <=? m_metadata_db_processed k)%Z
          || bool_decide (m_metadata_hash_list k = [])
     else (int_of_Z (Z.of_nat (length (m_metadata_hash_list k))) <=? m_metadata_fetched k)%Z.

(** The body of the metadata loop: [false] when it breaks. *)
Definition metadata_iteration (indeterminate start_time : Z) k w : bool * crawler H * W :=
  let '(k, w) := processAlerts indeterminate k w in
  let '(now, w) := steady_now w in
  let elapsed_seconds := duration_cast_seconds (now - start_time) in
  let '(k, w) := if m_metadata_database_mode k then mark_timeouts k w else (k, w) in
  let '(k, w) := refill k w in
  (negb (metadata_loop_done elapsed_seconds k), k, w).

(** [cleanup_timeouts] and the marking that follows it. *)
Definition cleanup_and_mark k w : crawler H * W :=
  let '(now, w) := steady_now w in mark_timeouts (on_pool (cleanup_timeouts now) k) w.

Definition every (n counter : Z) : bool := (counter mod n =? 0)%Z.

(** The body of the concurrent loop; an exception of [send_smart_queries]
    leaves [startCrawling]. *)
Definition concurrent_iteration (indeterminate : Z) (dht_put_item : bep51_query → W → outcome unit * W)
    (progress_counter : Z) k w : outcome unit * crawler H * W :=
  let '(k, w) := processAlerts indeterminate k w in
  let '(k, w) := if every 5 progress_counter then requestMetadataForDiscoveredTorrents k w else (k, w) in
  let '(k, w) := if every 30 progress_counter then queryBEP51Infohashes dht_put_item k w else (k, w) in
  let '(r, k, w) :=
    if every 20 progress_counter && m_use_smart_mode k then
      let '(r, s, w) := send_smart_queries rand (m_smart_crawler k) w in
      (r, k <| m_smart_crawler := s |>, w)
    else (Returned tt, k, w) in
  match r with
  | Threw e => (Threw e, k, w)
  | Returned _ =>
    let '(k, w) := if every 3 progress_counter then cleanup_and_mark k w else (k, w) in
    let k := if every 50 progress_counter
             then k <| m_metadata_downloader ::= adjust_concurrent_limit |> else k in
    (Returned tt, k, w)
  end.

(** The two queries of the sequential loop for a new target; an exception
    skips what follows it. *)
Definition sequential_query (random_hash : string) k w : crawler H * W :=
  let k := k <| k_queried_hashes ::= ({[random_hash]} ∪.) |> in
  match dht_get_peers random_hash w with
  | (Threw _, w) => (k, w)
  | (Returned _, w) =>
    match dht_get_item random_hash w with
    | (Threw _, w) => (k, w)
    | (Returned _, w) => (k <| m_total_queries ::= Z.add 2 |>, w)
    end
  end.

(** The body of the sequential loop for the random target [random_hash];
    [query_count] is not advanced for a target drawn before. *)
Definition sequential_iteration (indeterminate : Z) (random_hash : string) (query_count : Z) k w
    : Z * crawler H * W :=
  if decide (random_hash ∈ k_queried_hashes k) then (query_count, k, w)
  else
    let '(k, w) := sequential_query random_hash k w in
    let '(k, w) := processAlerts indeterminate k w in
    let '(k, w) := if every 10 query_count then requestMetadataForDiscoveredTorrents k w else (k, w) in
    let '(k, w) := if every 5 query_count then cleanup_and_mark k w else (k, w) in
    let k := if every 25 query_count
             then k <| m_metadata_downloader ::= adjust_concurrent_limit |> else k in
    ((query_count + 1)%Z, k, w).

(** The requests that precede the metadata loop. *)
Definition request_all_hashes k w : crawler H * W :=
  foldl (λ s h, requestMetadataForHash h s.1 s.2) (k, w) (m_metadata_hash_list k).

(** [stop], which the signal handler calls, and [gracefulShutdown]. *)
Definition stop k : crawler H := k <| m_shutdown_requested := true |> <| m_running := false |>.
Definition gracefulShutdown k : crawler H := k <| m_metadata_worker_pool := None |>.
Definition setConcurrentMode (enabled : bool) k : crawler H := k <| m_use_concurrent_mode := enabled |>.
Definition setBEP51Mode (enabled : bool) k : crawler H := k <| m_use_bep51_mode := enabled |>.

(** [signalHandler]: SIGINT, SIGTSTP and SIGTERM stop the crawler. *)
Definition signalHandler (signal : Z) (k : option (crawler H)) : option (crawler H) :=
  if (signal =? 2)%Z || (signal =? 20)%Z || (signal =? 15)%Z then stop <$> k else k.

End Crawler.

(** ** Runs of the crawler *)

Section Runs.
Context {W H : Type} `{Session W H} `{Alerts W H} `{Database W}.
Implicit Types (k : crawler H) (w : W).

(** The whole of a crawl: its start ([m_running], the requests of the metadata
    modes), the iterations of the three loops, its end (the pool's [shutdown]
    and release), with whatever the threads and the outside world do between
    them.  [ok] restricts the alerts of the run.  Every run of
    [startCrawling] consists of these steps ([Program.crawl_is_run]). *)
Inductive crawler_step (ok : alert H → Prop) : crawler H * W → crawler H * W → Prop :=
  | cs_concurrent x put n k w r k' w' :
      Forall ok (pop_alerts w).1 → concurrent_iteration x put n k w = (r, k', w') →
      crawler_step ok (k, w) (k', w')
  | cs_sequential x h n k w n' k' w' :
      Forall ok (pop_alerts (sequential_query h k w).2).1 → sequential_iteration x h n k w = (n', k', w') →
      crawler_step ok (k, w) (k', w')
  | cs_metadata x start k w b k' w' :
      Forall ok (pop_alerts w).1 → metadata_iteration x start k w = (b, k', w') →
      crawler_step ok (k, w) (k', w')
  | cs_pool k w p es p' w' :
      m_metadata_worker_pool k = Some p → Forall worker_event es →
      pool_run es (p, w) = Some (p', w') →
      crawler_step ok (k, w) (k <| m_metadata_worker_pool := Some p' |>, w')
  | cs_dht k w m : crawler_step ok (k, w) (k <| m_concurrent_dht := m |>, w)
  | cs_world k w w' : crawler_step ok (k, w) (k, w')
  | cs_stop k w : crawler_step ok (k, w) (stop k, w)
  | cs_running b k w : crawler_step ok (k, w) (k <| m_running := b |>, w)
  | cs_requests k w : crawler_step ok (k, w) (request_all_hashes k w)
  | cs_shutdown k w p p' :
      m_metadata_worker_pool k = Some p → shutdown_step p = Some p' →
      crawler_step ok (k, w) (k <| m_metadata_worker_pool := Some p' |>, w)
  | cs_release k w : crawler_step ok (k, w) (gracefulShutdown k, w).

(** Info-hashes in alerts are 20 bytes, as [lt::sha1_hash] is. *)
Definition alert_hash_ok (a : alert H) : Prop :=
  match a with
  | dht_get_peers_reply_alert h _ | dht_announce_alert h | dht_immutable_item_alert h =>
    String.length h = 20
  | _ => True
  end.
Definition not_metadata (a : alert H) : Prop :=
  match a with metadata_received_alert _ => False | _ => True end.

(** No request in the queue, in a worker's hands, or pending. *)
Record pool_idle (p : pool) : Prop := {
  id_queue : m_request_queue p = [];
  id_pending : m_pending_requests p = ∅;
  id_workers : Forall (λ s, in_flight s = 0%Z) (p_workers p);
  id_queued : p_total_queued p = 0%Z;
}.

Record crawler_inv k : Prop := {
  ci_discovered h t : m_discovered_torrents k !! h = Some t → info_hash t = h ∧ h ∈ m_metadata_requested k;
  ci_downloader : dl_inv (m_metadata_downloader k);
  ci_pool p : m_metadata_worker_pool k = Some p → pool_idle p;
  ci_observed i : i ∈ m_observations (m_passive_observer (m_smart_crawler k)) → hex40 (oi_infohash i);
}.

(** The active requests of the downloader that are kept. *)
Definition keeps_active k k' : Prop :=
  m_active_tracker (m_metadata_downloader k) ⊆ m_active_tracker (m_metadata_downloader k').

Lemma request_metadata_spec h p src (d : downloader H MetadataRequestQueue) w :
  dl_inv d →
  let '(b, d', w') := request_metadata true h p src d w in
  b = true ∧ dl_inv d' ∧ m_active_tracker d ⊆ m_active_tracker d'.
Proof.
  intros Hinv. unfold request_metadata. cbn [negb].
  destruct (has_request h (m_active_tracker d) || rq_contains h (dl_queue d)) eqn:Hact; [done|].
  destruct (steady_now w) as [now w1]. set (d1 := d <| dl_queue ::= _ |> <| m_total_queued ::= _ |>).
  assert (dl_inv d1) as Hinv1.
  { apply dl_inv_frame with (d := d <| dl_queue ::= rq_enqueue h p src now |>); [done..|].
    apply dl_inv_enqueue; [done|].
    apply orb_false_iff in Hact as [Hact _]. unfold has_request in Hact.
    by destruct (m_active_tracker d !! h). }
  destruct (process_queue_done d1 w1 Hinv1) as (n & Hd & Hp & _).
  destruct (process_queue d1 w1) as [d2 w2]. split_all; [done | done|].
  apply (pg_active_kept _ _ _ Hp).
Qed.

(** ** The invariant *)

(** An operation that leaves alone what the invariant mentions. *)
Lemma crawler_inv_frame k k' :
  m_discovered_torrents k' = m_discovered_torrents k → m_metadata_requested k ⊆ m_metadata_requested k' →
  m_metadata_downloader k' = m_metadata_downloader k →
  m_metadata_worker_pool k' = m_metadata_worker_pool k →
  m_smart_crawler k' = m_smart_crawler k →
  crawler_inv k → crawler_inv k' ∧ keeps_active k k'.
Proof.
  intros Hd Hr Hdl Hp Hs [Hdis Hdli Hpool Hobs]. split; [constructor|]; unfold keeps_active;
    rewrite ?Hd, ?Hdl, ?Hp, ?Hs; auto. intros h t [? ?]%Hdis. auto.
Qed.

Ltac solve_keeps := unfold keeps_active; simpl; (reflexivity || assumption).

Lemma keeps_active_refl k : keeps_active k k.
Proof. solve_keeps. Qed.
Lemma keeps_active_trans k1 k2 k3 : keeps_active k1 k2 → keeps_active k2 k3 → keeps_active k1 k3.
Proof. unfold keeps_active. by etrans. Qed.

Ltac chain_keeps := repeat (eapply keeps_active_trans; [eassumption|]); apply keeps_active_refl.

(** The end of the three handlers: the torrent is stored, then requested. *)
Lemma discover_inv t prio src k w :
  crawler_inv k →
  let '(k1, w1) := store_discovered t k w in
  let k' := (auto_queue (info_hash t) prio src k1 w1).1 in crawler_inv k' ∧ keeps_active k k'.
Proof.
  intros [Hdis Hdli Hpool Hobs]. unfold store_discovered, auto_queue. simpl.
  assert (∀ h t', <[info_hash t := t]> (m_discovered_torrents k) !! h = Some t' →
                  info_hash t' = h ∧ (h = info_hash t ∨ h ∈ m_metadata_requested k)) as Hins.
  { intros h t'. rewrite lookup_insert. case_decide; [by intros [= <-]; auto|].
    intros [? ?]%Hdis. auto. }
  case_decide as Hreq.
  - split; [constructor|solve_keeps]; simpl; try done. intros h t' [? [-> |]]%Hins; auto.
  - set (w1 := if m_connected (m_mysql k) then _ else _).
    pose proof (request_metadata_spec (info_hash t) prio src (m_metadata_downloader k) w1 Hdli) as Hr.
    destruct (request_metadata _ _ _ _ _ _) as [[b d] w2]. destruct Hr as (-> & Hd & Hact).
    split; [constructor|solve_keeps]; simpl; try done. intros h t' [? [-> |]]%Hins; set_solver.
Qed.

Lemma auto_queue_inv h prio src k w :
  crawler_inv k → let k' := (auto_queue h prio src k w).1 in crawler_inv k' ∧ keeps_active k k'.
Proof.
  intros Hk. unfold auto_queue. case_decide as Hreq; [split; [done|apply keeps_active_refl]|].
  destruct Hk as [Hdis Hdli Hpool Hobs].
  pose proof (request_metadata_spec h prio src (m_metadata_downloader k) w Hdli) as Hr.
  destruct (request_metadata _ _ _ _ _ _) as [[b d] w2]. destruct Hr as (-> & Hd & Hact).
  split; [constructor|solve_keeps]; simpl; try done. intros h' t' [? ?]%Hdis. set_solver.
Qed.

Lemma requestMetadataForHash_inv h k w :
  crawler_inv k → let k' := (requestMetadataForHash h k w).1 in crawler_inv k' ∧ keeps_active k k'.
Proof.
  intros [Hdis Hdli Hpool Hobs]. unfold requestMetadataForHash. simpl.
  pose proof (request_metadata_spec h 4 "MANUAL" (m_metadata_downloader k) w Hdli) as Hr.
  destruct (request_metadata _ _ _ _ _ _) as [[b d] w2]. destruct Hr as (-> & Hd & Hact).
  split; [constructor|solve_keeps]; simpl; try done. intros h' t' [? ?]%Hdis. set_solver.
Qed.

(** Folding operations that keep the invariant. *)
Lemma foldl_inv {A} (f : crawler H * W → A → crawler H * W) l k w :
  (∀ k w a, a ∈ l → crawler_inv k → crawler_inv (f (k, w) a).1 ∧ keeps_active k (f (k, w) a).1) →
  crawler_inv k → let k' := (foldl f (k, w) l).1 in crawler_inv k' ∧ keeps_active k k'.
Proof.
  intros Hf. revert k w. induction l as [|a l IH]; intros k w Hk; [split; [done|apply keeps_active_refl]|]. cbn [foldl].
  destruct (Hf k w a) as [Hk1 Ha1]; [set_solver | done|]. destruct (f (k, w) a) as [k1 w1].
  destruct (IH ltac:(intros; apply Hf; set_solver) k1 w1 Hk1) as [Hk2 Ha2].
  split; [done|]. by eapply keeps_active_trans.
Qed.

Lemma record_observation_hex i s :
  hex40 (oi_infohash i) → (∀ j, j ∈ m_observations s → hex40 (oi_infohash j)) →
  ∀ j, j ∈ m_observations (record_observation i s) → hex40 (oi_infohash j).
Proof.
  intros Hi Hs j. unfold record_observation.
  assert (∀ j, j ∈ m_observations s ++ [i] → hex40 (oi_infohash j)) as Hall by set_solver.
  repeat case_match; simpl; auto; intros Hj; apply Hall;
    destruct (m_observations s ++ [i]); simpl in *; set_solver.
Qed.

Lemma binary_to_hex_hex40 h : String.length h = 20 → hex40 (binary_to_hex h).
Proof. intros Hl. destruct (binary_to_hex_spec h) as (? & ? & _). split; [lia|done]. Qed.

Lemma handlePeerReply_inv h ps k w :
  String.length h = 20 → crawler_inv k →
  let k' := (handlePeerReply h ps k w).1 in crawler_inv k' ∧ keeps_active k k'.
Proof.
  intros Hh Hk. unfold handlePeerReply.
  destruct (steady_now w) as [t1 w1]. destruct (steady_now w1) as [t2 w2].
  set (t := fresh_torrent _ _ _ _ _ _). set (k1 := k <| m_peers_found ::= _ |>).
  assert (crawler_inv k1 ∧ keeps_active k k1) as [Hk1 Ha1] by (by apply crawler_inv_frame).
  set (s := if m_use_smart_mode k1 then _ else _).
  assert (crawler_inv s.1 ∧ keeps_active k s.1) as [Hk2 Ha2].
  { unfold s. destruct (m_use_smart_mode k1); [|done].
    unfold record_incoming_observation. destruct (steady_now w2) as [now w3].
    destruct Hk1 as [Hdis Hdli Hpool Hobs]. split; [constructor|]; try done. simpl.
    apply record_observation_hex; [by apply binary_to_hex_hex40 | done]. }
  destruct s as [k2 w3]. pose proof (discover_inv t 3 "DHT_PEERS" k2 w3 Hk2) as Hd.
  destruct (store_discovered t k2 w3) as [k3 w4]. destruct Hd as [? ?].
  split; [done|]. by eapply keeps_active_trans.
Qed.

Lemma handleAnnounce_inv h k w :
  crawler_inv k → let k' := (handleAnnounce h k w).1 in crawler_inv k' ∧ keeps_active k k'.
Proof.
  intros Hk. unfold handleAnnounce. destruct (steady_now w) as [t1 w1]. destruct (steady_now w1) as [t2 w2].
  set (t := fresh_torrent _ _ _ _ _ _). pose proof (discover_inv t 2 "DHT_ANNOUNCE" k w2 Hk) as Hd.
  by destruct (store_discovered t k w2).
Qed.

Lemma handleImmutableItem_inv h k w :
  crawler_inv k → let k' := (handleImmutableItem h k w).1 in crawler_inv k' ∧ keeps_active k k'.
Proof.
  intros Hk. unfold handleImmutableItem. destruct (steady_now w) as [t1 w1]. destruct (steady_now w1) as [t2 w2].
  set (t := fresh_torrent _ _ _ _ _ _). pose proof (discover_inv t 1 "DHT_ITEM" k w2 Hk) as Hd.
  by destruct (store_discovered t k w2).
Qed.

(** What [save_metadata] changes. *)
Lemma save_metadata_frame h t k w :
  let k' := (save_metadata h t k w).1 in
  m_discovered_torrents k' = m_discovered_torrents k ∧ m_metadata_requested k' = m_metadata_requested k
  ∧ m_metadata_downloader k' = m_metadata_downloader k
  ∧ m_metadata_worker_pool k' = m_metadata_worker_pool k
  ∧ m_smart_crawler k' = m_smart_crawler k ∧ m_metadata_hash_list k' = m_metadata_hash_list k
  ∧ m_metadata_fetched k' = (m_metadata_fetched k + if m_connected (m_mysql k) then 1 else 0)%Z.
Proof.
  unfold save_metadata. destruct (m_connected (m_mysql k)); [|simpl; by rewrite Z.add_0_r].
  destruct (m_metadata_database_mode k); [|done].
  destruct (updateTorrentMetadata _ _ _ _) as [[] w1]; done.
Qed.

Lemma received_dl_inv h (d : downloader H MetadataRequestQueue) w :
  dl_inv d → dl_inv (log_success (Downloader.handle_metadata_received h d w).1).
Proof.
  intros Hinv. unfold Downloader.handle_metadata_received.
  set (d1 := d <| m_active_tracker ::= _ |> <| m_success_count ::= _ |>).
  assert (dl_inv d1) as Hinv1.
  { apply dl_inv_frame with (d := d <| m_active_tracker ::= remove_request h |>); [done..|].
    by apply dl_inv_remove. }
  destruct (process_queue_done d1 w Hinv1) as (n & Hd & _).
  by apply dl_inv_frame with (d := (process_queue d1 w).1).
Qed.

Lemma idle_received h p : pool_idle p → WorkerPool.handle_metadata_received h p = p.
Proof.
  intros [_ Hp _ _]. unfold WorkerPool.handle_metadata_received. by rewrite Hp, lookup_empty.
Qed.

Lemma handleMetadataReceived_inv x handle k w :
  crawler_inv k → crawler_inv (handleMetadataReceived x handle k w).1.
Proof.
  intros Hk. unfold handleMetadataReceived. destruct (torrent_file handle w) as [[ti|]|]; [|done..].
  destruct (handle_info_hash handle w) as [hash|]; [|done]. unfold store_received.
  set (h := binary_to_hex _). set (k1 := k <| m_metadata_manager ::= _ |>). cbv zeta.
  pose proof (received_dl_inv h (m_metadata_downloader k1) w (ci_downloader _ Hk)) as Hdl.
  destruct (Downloader.handle_metadata_received h (m_metadata_downloader k1) w) as [d w1]. simpl in Hdl.
  set (k2 := on_pool _ _).
  assert (crawler_inv k2) as Hk2.
  { destruct Hk as [Hdis Hdli Hpool Hobs]. constructor; try done. simpl. intros p Hp.
    destruct (m_metadata_worker_pool k) as [p0|]; simplify_eq/=. rewrite idle_received; auto. }
  assert (∀ t w, crawler_inv (save_metadata h t k2 w).1) as Hsave.
  { intros t w'. destruct (save_metadata_frame h t k2 w') as (? & Hr & ? & ? & ? & _).
    apply (crawler_inv_frame k2); try done. by rewrite Hr. }
  destruct (m_metadata_only_mode k2).
  - destruct (steady_now w1) as [t1 w2]. destruct (steady_now w2) as [t2 w3].
    destruct (steady_now w3) as [now w4].
    specialize (Hsave (with_metadata (metadata_only_torrent x h t1 t2)
                         (extract_comprehensive_metadata ti h) now) w4).
    by destruct (save_metadata _ _ _ _).
  - destruct (m_discovered_torrents k2 !! h) as [t|]; [|done]. destruct (steady_now w1) as [now w2].
    specialize (Hsave (with_metadata t (extract_comprehensive_metadata ti h) now) w2).
    by destruct (save_metadata _ _ _ _).
Qed.

Lemma process_alert_inv x a k w :
  alert_hash_ok a → crawler_inv k →
  crawler_inv (process_alert x (k, w) a).1 ∧ (not_metadata a → keeps_active k (process_alert x (k, w) a).1).
Proof.
  intros Ha Hk. destruct a as [h ps|h|h|handle| |]; cbn [process_alert].
  - destruct ps; [split; [done | by intros; apply keeps_active_refl]|].
    destruct (handlePeerReply_inv h (p :: ps) k w); auto.
  - destruct (handleAnnounce_inv h k w); auto.
  - destruct (handleImmutableItem_inv h k w); auto.
  - split; [by apply handleMetadataReceived_inv | done].
  - split; [done | by intros; apply keeps_active_refl].
  - split; [done | by intros; apply keeps_active_refl].
Qed.

Lemma processAlerts_inv x k w :
  Forall alert_hash_ok (pop_alerts w).1 → crawler_inv k →
  let k' := (processAlerts x k w).1 in
  crawler_inv k' ∧ (Forall not_metadata (pop_alerts w).1 → keeps_active k k').
Proof.
  unfold processAlerts. destruct (pop_alerts w) as [alerts w1]. simpl. clear w. revert k w1.
  induction alerts as [|a alerts IH]; intros k w Hok Hk.
  { split; [done|]. intros _. apply keeps_active_refl. }
  apply Forall_cons in Hok as [Ha Hok]. cbn [foldl].
  destruct (process_alert_inv x a k w Ha Hk) as [Hk1 Hact1].
  destruct (process_alert x (k, w) a) as [k1 w1]. destruct (IH k1 w1 Hok Hk1) as [Hk2 Hact2].
  split; [done|]. intros [Hn Hns]%Forall_cons. eapply keeps_active_trans; eauto.
Qed.

(** ** The other operations *)

Lemma request_loop_idle ts n k w :
  (∀ h t, (h, t) ∈ ts → info_hash t ∈ m_metadata_requested k) → request_loop ts n k w = (k, w).
Proof.
  revert n. induction ts as [|[h t] ts IH]; intros n Hts; [done|]. cbn [request_loop].
  case_match; [done|]. rewrite bool_decide_eq_true_2 by (apply (Hts h t); set_solver).
  rewrite andb_false_r. apply IH. intros h' t' Hin. apply (Hts h' t'). set_solver.
Qed.

Lemma requests_idle k w : crawler_inv k → requestMetadataForDiscoveredTorrents k w = (k, w).
Proof.
  intros Hk. apply request_loop_idle. intros h t Hin%elem_of_map_iter.
  by destruct (ci_discovered _ Hk h t Hin) as [-> ?].
Qed.

Lemma bep51_inv put k w :
  crawler_inv k → let k' := (queryBEP51Infohashes put k w).1 in crawler_inv k' ∧ keeps_active k k'.
Proof.
  intros Hk. unfold queryBEP51Infohashes. destruct (m_use_bep51_mode k); cbn [negb];
    [|split; [done|apply keeps_active_refl]].
  destruct (bep51_queries put (m_bep51_indexer k) w) as [b w1].
  set (k1 := k <| m_bep51_indexer := b |>).
  assert (crawler_inv k1 ∧ keeps_active k k1) as [Hk1 Ha1] by (by apply crawler_inv_frame).
  destruct (foldl_inv (λ s ih, auto_queue (binary_to_hex ih) 5 "BEP51" s.1 s.2)
              (get_collected_infohashes b) k1 w1) as [Hk2 Ha2]; [|done|].
  { intros k' w' a _. apply auto_queue_inv. }
  split; [exact Hk2|]. eapply keeps_active_trans; [exact Ha1 | exact Ha2].
Qed.

Lemma smart_inv k w :
  crawler_inv k →
  let '(r, s, w') := send_smart_queries rand (m_smart_crawler k) w in
  r = Returned tt ∧ crawler_inv (k <| m_smart_crawler := s |>).
Proof.
  intros Hk. pose proof (send_smart_queries_ok rand (m_smart_crawler k) w) as Hs.
  destruct (send_smart_queries rand (m_smart_crawler k) w) as [[r s] w']. simpl in Hs.
  destruct Hs as [-> Hobs']; [intros; by eapply ci_observed|].
  destruct Hk as [Hdis Hdli Hpool Hobs]. split; [done|]. constructor; try done. simpl. by rewrite Hobs'.
Qed.

Lemma idle_timeouts now p :
  pool_idle p → (get_timed_out_requests now p).1 = [] ∧ pool_idle (get_timed_out_requests now p).2
                ∧ pool_idle (cleanup_timeouts now p).
Proof.
  intros [Hq Hp Hw Ht].
  assert ((get_timed_out_requests now p).1 = []) as Hnil.
  { unfold get_timed_out_requests. simpl. by rewrite Hp, map_iter_empty. }
  assert (pool_idle (get_timed_out_requests now p).2) as Hid.
  { constructor; try done. simpl. rewrite Hp. apply map_filter_empty. }
  split_all; [done..|]. rewrite cleanup_timeouts_spec.
  destruct (get_timed_out_requests now p) as [l p']. simpl in *. subst l. by destruct Hid.
Qed.

Lemma mark_timeouts_inv k w :
  crawler_inv k → let k' := (mark_timeouts k w).1 in crawler_inv k' ∧ keeps_active k k'.
Proof.
  intros Hk. unfold mark_timeouts. destruct (m_metadata_worker_pool k) as [p|] eqn:Hp;
    [|split; [done|apply keeps_active_refl]].
  destruct (steady_now w) as [now w1]. destruct (idle_timeouts now p (ci_pool _ Hk p Hp)) as (_ & Hid & _).
  destruct (get_timed_out_requests now p) as [l p'].
  destruct Hk as [Hdis Hdli Hpool Hobs]. split; [constructor|solve_keeps]; try done.
  simpl. intros ? [= <-]. done.
Qed.

Lemma cleanup_and_mark_inv k w :
  crawler_inv k → let k' := (cleanup_and_mark k w).1 in crawler_inv k' ∧ keeps_active k k'.
Proof.
  intros Hk. unfold cleanup_and_mark. destruct (steady_now w) as [now w1].
  assert (crawler_inv (on_pool (cleanup_timeouts now) k)) as Hk1.
  { destruct Hk as [Hdis Hdli Hpool Hobs]. constructor; try done. simpl. intros p Hp.
    destruct (m_metadata_worker_pool k) as [p0|]; simplify_eq/=. by apply idle_timeouts, Hpool. }
  destruct (mark_timeouts_inv _ w1 Hk1) as [Hk2 Ha2]. split; [done|].
  eapply keeps_active_trans; [|exact Ha2]. solve_keeps.
Qed.

Lemma adjust_inv k :
  crawler_inv k →
  let k' := k <| m_metadata_downloader ::= adjust_concurrent_limit |> in crawler_inv k' ∧ keeps_active k k'.
Proof.
  intros [Hdis Hdli Hpool Hobs]. destruct (adjust_frame (m_metadata_downloader k)) as (Hq & Ha & _).
  split; [constructor|]; try done; simpl.
  - by eapply dl_inv_frame.
  - unfold keeps_active. simpl. by rewrite Ha.
Qed.

Lemma refill_inv k w :
  crawler_inv k → let k' := (refill k w).1 in crawler_inv k' ∧ keeps_active k k'.
Proof.
  intros Hk. unfold refill. case_match; [|split; [done|apply keeps_active_refl]].
  assert (crawler_inv (loadMetadataDatabaseBatch k w).1 ∧ keeps_active k (loadMetadataDatabaseBatch k w).1)
    as [Hk1 Ha1].
  { unfold loadMetadataDatabaseBatch. destruct (getTorrentsWithMissingMetadata _ _ _ _) as [[|h l] w1];
      by apply crawler_inv_frame. }
  destruct (loadMetadataDatabaseBatch k w) as [k1 w1]. cbv zeta.
  set (l := if (_ <? _)%Z then _ else _).
  destruct (foldl_inv (λ s h, requestMetadataForHash h s.1 s.2) l k1 w1) as [Hk2 Ha2]; [|done|].
  { intros k' w' a _. apply requestMetadataForHash_inv. }
  split; [exact Hk2|]. eapply keeps_active_trans; [exact Ha1 | exact Ha2].
Qed.

Lemma idle_worker_step i p w st : pool_idle p → worker_step i (p, w) = Some st → pool_idle st.1.
Proof.
  intros [Hq Hp Hw Ht] Hst. apply bind_Some in Hst as (s & Hi & Hst). rewrite Hq in Hst.
  assert (in_flight s = 0%Z) as Hs by (by apply (Forall_lookup_1 _ _ _ _ Hw Hi)).
  destruct s; try done; repeat case_match; simplify_eq/=;
    (constructor; simpl; try done; apply Forall_insert; [done | by repeat case_match]).
Qed.

Lemma idle_worker_run es p w st :
  Forall worker_event es → pool_idle p → pool_run es (p, w) = Some st → pool_idle st.1.
Proof.
  revert p w. induction es as [|e es IH]; intros p w Hes Hid Hrun; [by simplify_eq/=|].
  apply Forall_cons in Hes as [[i ->] Hes]. apply bind_Some in Hrun as ([p1 w1] & Hs & Hrun).
  cbn [pool_step] in Hs. eapply IH; [done | exact (idle_worker_step i p w (p1, w1) Hid Hs) | done].
Qed.

Lemma idle_shutdown_step p p' : pool_idle p → shutdown_step p = Some p' → pool_idle p'.
Proof.
  intros [Hq Hp Hw Ht] Hst. unfold shutdown_step in Hst. repeat case_match; simplify_eq/=; constructor; try done.
  simpl. apply Forall_fmap. eapply Forall_impl; [exact Hw|]. by intros [].
Qed.

Lemma request_all_inv k w :
  crawler_inv k → let k' := (request_all_hashes k w).1 in crawler_inv k' ∧ keeps_active k k'.
Proof.
  intros Hk. unfold request_all_hashes. apply (foldl_inv (λ s h, requestMetadataForHash h s.1 s.2)); [|done].
  intros k' w' a _. apply requestMetadataForHash_inv.
Qed.

Lemma concurrent_iteration_inv x put n k w :
  Forall alert_hash_ok (pop_alerts w).1 → crawler_inv k →
  let '(r, k', w') := concurrent_iteration x put n k w in
  r = Returned tt ∧ crawler_inv k' ∧ (Forall not_metadata (pop_alerts w).1 → keeps_active k k').
Proof.
  intros Hok Hk. unfold concurrent_iteration.
  destruct (processAlerts_inv x k w Hok Hk) as [Hk1 Ha1].
  destruct (processAlerts x k w) as [k1 w1]. cbn [fst] in Hk1, Ha1.
  assert ((if every 5 n then requestMetadataForDiscoveredTorrents k1 w1 else (k1, w1)) = (k1, w1)) as ->.
  { case_match; [by apply requests_idle | done]. }
  set (s2 := if every 30 n then _ else _).
  assert (crawler_inv s2.1 ∧ keeps_active k1 s2.1) as [Hk2 Ha2].
  { unfold s2. case_match; [by apply bep51_inv | split; [done | apply keeps_active_refl]]. }
  destruct s2 as [k2 w2]. cbn [fst] in Hk2, Ha2. set (s3 := if _ && _ then _ else _).
  assert (s3.1.1 = Returned tt ∧ crawler_inv s3.1.2 ∧ keeps_active k2 s3.1.2) as (Hr & Hk3 & Ha3).
  { unfold s3. case_match; [|split_all; [done | done | apply keeps_active_refl]].
    pose proof (smart_inv k2 w2 Hk2) as Hs.
    destruct (send_smart_queries rand (m_smart_crawler k2) w2) as [[r s] w']. destruct Hs as [-> Hs].
    split_all; [done | done | solve_keeps]. }
  destruct s3 as [[r k3] w3]. cbn [fst snd] in Hr, Hk3, Ha3. rewrite Hr.
  set (s4 := if every 3 n then _ else _).
  assert (crawler_inv s4.1 ∧ keeps_active k3 s4.1) as [Hk4 Ha4].
  { unfold s4. case_match; [by apply cleanup_and_mark_inv | split; [done | apply keeps_active_refl]]. }
  destruct s4 as [k4 w4]. cbn [fst] in Hk4, Ha4. set (k5 := if every 50 n then _ else _).
  assert (crawler_inv k5 ∧ keeps_active k4 k5) as [Hk5 Ha5].
  { unfold k5. case_match; [by apply adjust_inv | split; [done | apply keeps_active_refl]]. }
  split_all; [done | done|]. intros Hn. specialize (Ha1 Hn). chain_keeps.
Qed.

Lemma sequential_iteration_inv x h n k w :
  Forall alert_hash_ok (pop_alerts (sequential_query h k w).2).1 → crawler_inv k →
  let '(_, k', w') := sequential_iteration x h n k w in
  crawler_inv k' ∧ (Forall not_metadata (pop_alerts (sequential_query h k w).2).1 → keeps_active k k').
Proof.
  intros Hok Hk. unfold sequential_iteration. case_decide; [by split; [|intros; apply keeps_active_refl]|].
  assert (crawler_inv (sequential_query h k w).1 ∧ keeps_active k (sequential_query h k w).1) as [Hk0 Ha0].
  { unfold sequential_query. repeat case_match; by apply crawler_inv_frame. }
  destruct (sequential_query h k w) as [k0 w0]. cbn [fst snd] in *.
  destruct (processAlerts_inv x k0 w0 Hok Hk0) as [Hk1 Ha1].
  destruct (processAlerts x k0 w0) as [k1 w1]. cbn [fst] in Hk1, Ha1.
  assert ((if every 10 n then requestMetadataForDiscoveredTorrents k1 w1 else (k1, w1)) = (k1, w1)) as ->.
  { case_match; [by apply requests_idle | done]. }
  set (s4 := if every 5 n then _ else _).
  assert (crawler_inv s4.1 ∧ keeps_active k1 s4.1) as [Hk4 Ha4].
  { unfold s4. case_match; [by apply cleanup_and_mark_inv | split; [done | apply keeps_active_refl]]. }
  destruct s4 as [k4 w4]. cbn [fst] in Hk4, Ha4. set (k5 := if every 25 n then _ else _).
  assert (crawler_inv k5 ∧ keeps_active k4 k5) as [Hk5 Ha5].
  { unfold k5. case_match; [by apply adjust_inv | split; [done | apply keeps_active_refl]]. }
  split_all; [done|]. intros Hn. specialize (Ha1 Hn). chain_keeps.
Qed.

Lemma metadata_iteration_inv x start k w :
  Forall alert_hash_ok (pop_alerts w).1 → crawler_inv k →
  let '(_, k', w') := metadata_iteration x start k w in
  crawler_inv k' ∧ (Forall not_metadata (pop_alerts w).1 → keeps_active k k').
Proof.
  intros Hok Hk. unfold metadata_iteration. destruct (processAlerts_inv x k w Hok Hk) as [Hk1 Ha1].
  destruct (processAlerts x k w) as [k1 w1]. cbn [fst] in Hk1, Ha1. destruct (steady_now w1) as [now w2].
  set (s2 := if m_metadata_database_mode k1 then _ else _).
  assert (crawler_inv s2.1 ∧ keeps_active k1 s2.1) as [Hk2 Ha2].
  { unfold s2. case_match; [by apply mark_timeouts_inv | split; [done | apply keeps_active_refl]]. }
  destruct s2 as [k2 w3]. cbn [fst] in Hk2, Ha2. destruct (refill_inv k2 w3 Hk2) as [Hk3 Ha3].
  destruct (refill k2 w3) as [k3 w4]. cbn [fst] in Hk3, Ha3.
  split; [done|]. intros Hn. specialize (Ha1 Hn). chain_keeps.
Qed.

Lemma crawler_step_inv (ok : alert H → Prop) s s' :
  (∀ a, ok a → alert_hash_ok a) → crawler_inv s.1 → crawler_step ok s s' →
  crawler_inv s'.1 ∧ ((∀ a, ok a → not_metadata a) → keeps_active s.1 s'.1).
Proof.
  intros Hok Hk Hst.
  assert (∀ l (P : alert H → Prop), (∀ a, ok a → P a) → Forall ok l → Forall P l) as Himp.
  { intros l P HP Hl. eapply Forall_impl; [exact Hl | exact HP]. }
  destruct Hst as [x put n k w r k' w' Ha Hit | x h n k w n' k' w' Ha Hit | x start k w b k' w' Ha Hit
                  | k w p es p' w' Hp Hes Hrun | k w m | k w w' | k w | b k w | k w | k w p p' Hp Hst | k w]; cbn [fst] in *.
  - pose proof (concurrent_iteration_inv x put n k w) as Hi. rewrite Hit in Hi. naive_solver.
  - pose proof (sequential_iteration_inv x h n k w) as Hi. rewrite Hit in Hi. naive_solver.
  - pose proof (metadata_iteration_inv x start k w) as Hi. rewrite Hit in Hi. naive_solver.
  - destruct Hk as [Hdis Hdli Hpool Hobs]. split; [constructor|intros; solve_keeps]; try done.
    simpl. intros ? [= <-]. by apply (idle_worker_run es p w (p', w')); [|apply Hpool|].
  - destruct (crawler_inv_frame k (k <| m_concurrent_dht := m |>)); auto.
  - split; [done|]. intros. apply keeps_active_refl.
  - destruct (crawler_inv_frame k (stop k)); auto.
  - destruct (crawler_inv_frame k (k <| m_running := b |>)); auto.
  - destruct (request_all_inv k w Hk). auto.
  - destruct Hk as [Hdis Hdli Hpool Hobs]. split; [constructor|intros; solve_keeps]; try done.
    simpl. intros ? [= <-]. by apply (idle_shutdown_step p); [apply Hpool|].
  - destruct Hk as [Hdis Hdli Hpool Hobs]. split; [constructor|intros; solve_keeps]; done.
Qed.

Lemma crawler_run_inv (ok : alert H → Prop) s s' :
  (∀ a, ok a → alert_hash_ok a) → crawler_inv s.1 → rtc (crawler_step ok) s s' →
  crawler_inv s'.1 ∧ ((∀ a, ok a → not_metadata a) → keeps_active s.1 s'.1).
Proof.
  intros Hok Hk Hrun. induction Hrun as [s|s1 s2 s3 Hst _ IH].
  - split; [done|]. intros. apply keeps_active_refl.
  - destruct (crawler_step_inv ok s1 s2 Hok Hk Hst) as [Hk2 Ha2]. destruct (IH Hk2) as [Hk3 Ha3].
    split; [done|]. intros Hn. eapply keeps_active_trans; auto.
Qed.

Lemma new_crawler_inv b config : crawler_inv (new_crawler b config).
Proof.
  constructor; simpl; try done.
  - split; [apply empty_queue_valid|]. by intros h [? ?].
  - intros p [= <-]. constructor; try done. by apply Forall_replicate.
  - set_solver.
Qed.

Lemma initialize_inv read_file k w : crawler_inv k → crawler_inv (initialize read_file k w).1.
Proof.
  intros Hk. unfold initialize. destruct (connect (m_mysql k) w) as [[ok c] w1].
  set (k1 := k <| m_mysql := c |>). destruct (wait_for_bootstrap 30 _) as [? w2].
  set (k2 := if decide _ then k1 else _).
  assert (crawler_inv k2) as Hk2 by (unfold k2; case_decide; by apply (crawler_inv_frame k)).
  case_match; [|done]. unfold setupMetadataDatabaseMode.
  destruct (getTotalTorrentsWithMissingMetadata _ _) as [n w3].
  case_match; [by apply (crawler_inv_frame k2)|].
  unfold loadMetadataDatabaseBatch. destruct (getTorrentsWithMissingMetadata _ _ _ _) as [[|h l] w4];
    by apply (crawler_inv_frame k2).
Qed.

(** A change of the outside world followed by an iteration. *)
Lemma world_then_iteration (ok : alert H → Prop) x put n k w w1 :
  Forall ok (pop_alerts w1).1 →
  rtc (crawler_step ok) (k, w)
    ((concurrent_iteration x put n k w1).1.2, (concurrent_iteration x put n k w1).2).
Proof.
  intros Hok. eapply rtc_l; [apply (cs_world ok k w w1)|]. apply rtc_once.
  eapply (cs_concurrent ok x put n k w1); [done|]. by rewrite <-!surjective_pairing.
Qed.

(** ** What the runs of the crawler show *)

Lemma reachable_inv (ok : alert H → Prop) read_file b config w k w' :
  (∀ a, ok a → alert_hash_ok a) →
  rtc (crawler_step ok) (initialize read_file (new_crawler b config) w) (k, w') → crawler_inv k.
Proof.
  intros Hok Hrun. by apply (crawler_run_inv ok _ (k, w') Hok
    (initialize_inv read_file (new_crawler b config) w (new_crawler_inv b config))).
Qed.

(** C10: The worker pool is never used: every handler that discovers a torrent
    hands it to the downloader and marks it as requested at once, so in every
    reachable state [requestMetadataForDiscoveredTorrents] finds nothing to
    do, and the pool has never been given a request. *)
Theorem worker_pool_unused (ok : alert H → Prop) read_file b config w k w' :
  (∀ a, ok a → alert_hash_ok a) →
  rtc (crawler_step ok) (initialize read_file (new_crawler b config) w) (k, w') →
  requestMetadataForDiscoveredTorrents k w' = (k, w')
  ∧ (∀ h t, m_discovered_torrents k !! h = Some t → info_hash t = h ∧ h ∈ m_metadata_requested k)
  ∧ ∀ p, m_metadata_worker_pool k = Some p →
         p_total_queued p = 0%Z ∧ m_request_queue p = [] ∧ m_pending_requests p = ∅.
Proof.
  intros Hok Hrun. pose proof (reachable_inv ok read_file b config w k w' Hok Hrun) as Hk.
  split_all; [by apply requests_idle | by apply Hk|]. intros p [? ? ? ?]%(ci_pool _ Hk). done.
Qed.

(** The slots of the downloader are never freed by time: in a run in
    which no metadata arrives, every active request stays active, however long
    the run and whatever the clock says. *)
Theorem downloader_slots_kept (ok quiet : alert H → Prop) read_file b config w k1 w1 k2 w2 :
  (∀ a, ok a → alert_hash_ok a) → (∀ a, quiet a → alert_hash_ok a ∧ not_metadata a) →
  rtc (crawler_step ok) (initialize read_file (new_crawler b config) w) (k1, w1) →
  rtc (crawler_step quiet) (k1, w1) (k2, w2) →
  m_active_tracker (m_metadata_downloader k1) ⊆ m_active_tracker (m_metadata_downloader k2).
Proof.
  intros Hok Hq Hrun1 Hrun2. pose proof (reachable_inv ok read_file b config w k1 w1 Hok Hrun1) as Hk.
  destruct (crawler_run_inv quiet (k1, w1) (k2, w2)) as [_ Ha]; [by intros; apply Hq | done | done|].
  apply Ha. intros a Ha'. by apply Hq.
Qed.

(** An iteration of the concurrent loop never ends with an exception: the
    smart crawler only ever observes well-formed hexadecimal hashes. *)
Theorem concurrent_iteration_returns (ok : alert H → Prop) read_file b config w k w' x put n :
  (∀ a, ok a → alert_hash_ok a) →
  rtc (crawler_step ok) (initialize read_file (new_crawler b config) w) (k, w') →
  Forall ok (pop_alerts w').1 →
  (concurrent_iteration x put n k w').1.1 = Returned tt.
Proof.
  intros Hok Hrun Ha. pose proof (reachable_inv ok read_file b config w k w' Hok Hrun) as Hk.
  pose proof (concurrent_iteration_inv x put n k w') as Hi.
  destruct (concurrent_iteration x put n k w') as [[r k'] w'']. apply Hi; [|done].
  eapply Forall_impl; [exact Ha | exact Hok].
Qed.

(** ** Received metadata *)

Lemma received_success_count h (d : downloader H MetadataRequestQueue) w :
  dl_inv d →
  m_success_count (log_success (Downloader.handle_metadata_received h d w).1) = (m_success_count d + 2)%Z.
Proof.
  intros Hinv. unfold Downloader.handle_metadata_received.
  set (d1 := d <| m_active_tracker ::= _ |> <| m_success_count ::= _ |>).
  assert (dl_inv d1) as Hinv1.
  { apply dl_inv_frame with (d := d <| m_active_tracker ::= remove_request h |>); [done..|].
    by apply dl_inv_remove. }
  destruct (process_queue_done d1 w Hinv1) as (n & _ & Hp & _).
  destruct (pg_frame _ _ _ Hp) as (_ & _ & Hs & _). simpl. rewrite Hs. simpl. lia.
Qed.

(** Received metadata counts twice as a success of the downloader; it
    counts as fetched exactly when the torrent is wanted (metadata-only mode,
    or a discovered torrent) and the database is connected, whether or not it
    could be stored, and never in the test mode without a database. *)
Theorem metadata_received_counts x handle ti hash k w :
  torrent_file handle w = Returned (Some ti) → handle_info_hash handle w = Returned hash →
  dl_inv (m_metadata_downloader k) →
  let hash_str := binary_to_hex hash in
  let wanted := m_metadata_only_mode k || bool_decide (is_Some (m_discovered_torrents k !! hash_str)) in
  let k' := (handleMetadataReceived x handle k w).1 in
  m_success_count (m_metadata_downloader k') = (m_success_count (m_metadata_downloader k) + 2)%Z
  ∧ m_metadata_fetched k'
    = (m_metadata_fetched k + if wanted && m_connected (m_mysql k) then 1 else 0)%Z
  ∧ m_discovered_torrents k' = m_discovered_torrents k.
Proof.
  intros Hti Hhash Hinv hash_str wanted k'. unfold k', handleMetadataReceived. rewrite Hti, Hhash. fold hash_str.
  unfold store_received.
  pose proof (received_success_count hash_str (m_metadata_downloader k) w Hinv) as Hs.
  simpl (m_metadata_downloader (k <| m_metadata_manager ::= _ |>)).
  destruct (Downloader.handle_metadata_received hash_str (m_metadata_downloader k) w) as [d w1].
  cbn [fst] in Hs. set (k2 := on_pool _ _).
  assert (m_metadata_fetched k2 = m_metadata_fetched k ∧ m_mysql k2 = m_mysql k
          ∧ m_discovered_torrents k2 = m_discovered_torrents k
          ∧ m_success_count (m_metadata_downloader k2) = (m_success_count (m_metadata_downloader k) + 2)%Z)
    as (Hf2 & Hm2 & Hd2 & Hs2) by done.
  unfold wanted. change (m_metadata_only_mode k) with (m_metadata_only_mode k2).
  rewrite <-Hd2, <-Hf2, <-Hm2. clearbody k2.
  assert (∀ t w, let k' := (save_metadata hash_str t k2 w).1 in
    m_success_count (m_metadata_downloader k') = m_success_count (m_metadata_downloader k2)
    ∧ m_metadata_fetched k' = (m_metadata_fetched k2 + if m_connected (m_mysql k2) then 1 else 0)%Z
    ∧ m_discovered_torrents k' = m_discovered_torrents k2) as Hsave.
  { intros t w'. cbv zeta. destruct (save_metadata_frame hash_str t k2 w') as (Hx & _ & Hd & _ & _ & _ & Hf).
    by rewrite Hd. }
  destruct (m_metadata_only_mode k2); cbn [orb andb].
  - destruct (steady_now w1) as [t1 w2]. destruct (steady_now w2) as [t2 w3].
    destruct (steady_now w3) as [now w4].
    specialize (Hsave (with_metadata (metadata_only_torrent x hash_str t1 t2)
                         (extract_comprehensive_metadata ti hash_str) now) w4).
    destruct (save_metadata _ _ _ _). cbn [fst] in *. naive_solver congruence.
  - destruct (m_discovered_torrents k2 !! hash_str) as [t|].
    + rewrite bool_decide_eq_true_2 by done. destruct (steady_now w1) as [now w2].
      specialize (Hsave (with_metadata t (extract_comprehensive_metadata ti hash_str) now) w2).
      destruct (save_metadata _ _ _ _). cbn [fst] in *. naive_solver congruence.
    + rewrite bool_decide_eq_false_2 by (by intros [? ?]). cbn [fst andb]. split_all; [done | lia | done].
Qed.

(** A torrent that is seen again is reset: whatever was known of it,
    after a peer reply the record in memory is a fresh one without metadata,
    and that record is what is written over the stored one. *)
Theorem rediscovery_resets h ps k w :
  ∃ t w1 prio src,
    let k' := (handlePeerReply h ps k w).1 in
    m_discovered_torrents k' !! binary_to_hex h = Some t
    ∧ info_hash t = binary_to_hex h ∧ name t = "Unknown Torrent" ∧ num_files t = 0%Z
    ∧ file_names t = [] ∧ metadata_received t = false
    ∧ (m_connected (m_mysql k) = true →
       ∃ k1, (handlePeerReply h ps k w).2
             = (auto_queue (binary_to_hex h) prio src k1 (storeTorrent (m_mysql k) t w1).2).2).
Proof.
  unfold handlePeerReply. destruct (steady_now w) as [t1 w1]. destruct (steady_now w1) as [t2 w2].
  set (t := fresh_torrent _ _ _ _ _ _). set (k1 := k <| m_peers_found ::= _ |>).
  set (s := if m_use_smart_mode k1 then _ else _).
  assert (m_mysql s.1 = m_mysql k) as Hm.
  { unfold s. destruct (m_use_smart_mode k1); [|done].
    by destruct (record_incoming_observation _ _ _ _ _ _). }
  destruct s as [k2 w3]. cbn [fst] in Hm. exists t, w3, 3%Z, "DHT_PEERS". unfold store_discovered. simpl.
  rewrite Hm. split_all; try done.
  - unfold auto_queue. case_decide; simpl; [by rewrite lookup_insert_eq|].
    destruct (request_metadata _ _ _ _ _ _) as [[[] d] w4]; simpl; by rewrite lookup_insert_eq.
  - intros Hc. rewrite Hc. eauto.
Qed.

(** ** The metadata-database mode *)

(** What the metadata loop reads of the mode. *)
Definition same_mode k k' : Prop :=
  m_metadata_hash_list k' = m_metadata_hash_list k
  ∧ m_metadata_database_mode k' = m_metadata_database_mode k
  ∧ m_metadata_db_offset k' = m_metadata_db_offset k.

Lemma same_mode_trans k1 k2 k3 : same_mode k1 k2 → same_mode k2 k3 → same_mode k1 k3.
Proof. unfold same_mode. intros (-> & -> & ->) (-> & -> & ->). done. Qed.

Lemma auto_queue_mode h prio src k w : same_mode k (auto_queue h prio src k w).1.
Proof.
  unfold auto_queue. case_decide; [done|].
  by destruct (request_metadata _ _ _ _ _ _) as [[[] d] w2].
Qed.

Lemma discover_mode t h prio src k w :
  let '(k1, w1) := store_discovered t k w in same_mode k (auto_queue h prio src k1 w1).1.
Proof. unfold store_discovered. simpl. eapply same_mode_trans; [|apply auto_queue_mode]. done. Qed.

Lemma process_alert_mode x a k w : same_mode k (process_alert x (k, w) a).1.
Proof.
  destruct a as [h ps|h|h|handle| |]; cbn [process_alert]; try done.
  - destruct ps as [|p ps]; [done|]. unfold handlePeerReply.
    destruct (steady_now w) as [t1 w1]. destruct (steady_now w1) as [t2 w2].
    set (t := fresh_torrent _ _ _ _ _ _). set (s := if m_use_smart_mode _ then _ else _).
    assert (same_mode k s.1) as Hs.
    { unfold s. case_match; [|done]. by destruct (record_incoming_observation _ _ _ _ _ _). }
    destruct s as [k2 w3]. pose proof (discover_mode t (binary_to_hex h) 3 "DHT_PEERS" k2 w3) as Hd.
    destruct (store_discovered t k2 w3) as [k3 w4]. by eapply same_mode_trans.
  - unfold handleAnnounce. destruct (steady_now w) as [t1 w1]. destruct (steady_now w1) as [t2 w2].
    apply discover_mode.
  - unfold handleImmutableItem. destruct (steady_now w) as [t1 w1]. destruct (steady_now w1) as [t2 w2].
    apply discover_mode.
  - unfold handleMetadataReceived. destruct (torrent_file handle w) as [[ti|]|]; [|done..].
    destruct (handle_info_hash handle w) as [hash|]; [|done]. unfold store_received.
    destruct (Downloader.handle_metadata_received _ _ _) as [d w1]. set (k2 := on_pool _ _).
    assert (∀ h t w, same_mode k (save_metadata h t k2 w).1) as Hsave.
    { intros h t w'. unfold save_metadata. repeat case_match; simplify_eq/=; done. }
    destruct (m_metadata_only_mode k2).
    + destruct (steady_now w1) as [t1 w2]. destruct (steady_now w2) as [t2 w3].
      destruct (steady_now w3) as [now w4]. set (h := binary_to_hex _).
      specialize (Hsave h (with_metadata (metadata_only_torrent x h t1 t2)
                             (extract_comprehensive_metadata ti h) now) w4).
      by destruct (save_metadata _ _ _ _).
    + set (h := binary_to_hex _). destruct (m_discovered_torrents k2 !! h) as [t|]; [|done].
      destruct (steady_now w1) as [now w2].
      specialize (Hsave h (with_metadata t (extract_comprehensive_metadata ti h) now) w2).
      by destruct (save_metadata _ _ _ _).
Qed.

Lemma processAlerts_mode x k w : same_mode k (processAlerts x k w).1.
Proof.
  unfold processAlerts. destruct (pop_alerts w) as [alerts w1]. clear w. revert k w1.
  induction alerts as [|a alerts IH]; intros k w; [done|]. cbn [foldl].
  pose proof (process_alert_mode x a k w) as Ha. destruct (process_alert x (k, w) a) as [k1 w1].
  eapply same_mode_trans; [exact Ha | apply IH].
Qed.

Lemma mark_timeouts_mode k w : same_mode k (mark_timeouts k w).1.
Proof.
  unfold mark_timeouts. destruct (m_metadata_worker_pool k); [|done].
  destruct (steady_now w). by destruct (get_timed_out_requests _ _).
Qed.

(** In the metadata-database mode no second batch is ever loaded once the
    first one has fifty hashes or more: the list of hashes never shrinks, so
    the refill condition stays false, and the remaining records of the
    database are never requested. *)
Theorem metadata_database_one_batch x start k w b k' w' :
  m_metadata_database_mode k = true → 50 ≤ length (m_metadata_hash_list k) →
  metadata_iteration x start k w = (b, k', w') →
  m_metadata_hash_list k' = m_metadata_hash_list k ∧ m_metadata_db_offset k' = m_metadata_db_offset k
  ∧ m_metadata_database_mode k' = true.
Proof.
  intros Hdb Hlen Hit. unfold metadata_iteration in Hit.
  pose proof (processAlerts_mode x k w) as Hm1. destruct (processAlerts x k w) as [k1 w1].
  cbn [fst] in Hm1. destruct (steady_now w1) as [now w2].
  pose proof (mark_timeouts_mode k1 w2) as Hm2.
  assert (m_metadata_database_mode k1 = true) as Hdb1 by (destruct Hm1 as (_ & -> & _); done).
  rewrite Hdb1 in Hit. destruct (mark_timeouts k1 w2) as [k2 w3]. cbn [fst] in Hm2.
  pose proof (same_mode_trans _ _ _ Hm1 Hm2) as (Hl & Hd & Ho).
  unfold refill in Hit. rewrite Hd, Hdb, Hl in Hit. cbn [andb] in Hit.
  assert (length (m_metadata_hash_list k) <? 50 = false) as Hlt by (by apply Nat.ltb_ge).
  rewrite Hlt in Hit. simplify_eq. rewrite Hd. done.
Qed.

(** In the metadata-database mode a database with fewer than fifty
    records is never processed: the first refill asks for the rows after the
    last one, gets none, and requests the shutdown; no hash is requested by
    it, the index [size() - 50] having wrapped around. *)
Theorem metadata_database_small_stops k w total w1 rows w2 :
  getTotalTorrentsWithMissingMetadata (m_mysql k) w = (total, w1) → total ≠ 0%Z →
  m_metadata_database_mode k = true → m_metadata_db_offset k = 0%Z → m_metadata_hash_list k = [] →
  getTorrentsWithMissingMetadata (m_mysql k) 100 0 w1 = (rows, w2) → 0 < length rows < 50 →
  let k1 := (setupMetadataDatabaseMode k w).1 in
  m_metadata_hash_list k1 = rows
  ∧ ∀ w3 w4, getTorrentsWithMissingMetadata (m_mysql k) 100 (Z.of_nat (length rows)) w3 = ([], w4) →
             refill k1 w3 = (k1 <| m_shutdown_requested := true |>, w4)
             ∧ keeps_crawling (refill k1 w3).1 = false.
Proof.
  intros Htot Hne Hdb Hoff Hnil Hrows Hlen k1.
  assert (k1 = k <| m_metadata_only_mode := true |> <| m_metadata_db_total_records := total |>
                 <| m_metadata_hash_list := rows |>
                 <| m_metadata_db_offset := Z.of_nat (length rows) |>) as Hk1.
  { unfold k1, setupMetadataDatabaseMode. simpl. rewrite Htot.
    apply Z.eqb_neq in Hne as ->. unfold loadMetadataDatabaseBatch. simpl. rewrite Hoff, Hrows.
    destruct rows as [|h rows]; [simpl in Hlen; lia|]. simpl. unfold set_field; simpl. by rewrite Hnil, Hoff. }
  clearbody k1. subst k1. split; [done|]. intros w3 w4 Hempty.
  assert (length rows <? 50 = true) as Hlt by (apply Nat.ltb_lt; lia).
  assert ((size_t_sub (Z.of_nat (length rows)) 50 <? Z.of_nat (length rows))%Z = false) as Hwrap.
  { apply Z.ltb_ge. unfold size_t_sub. rewrite <-(Z_mod_plus_full _ 1 (2 ^ 64)), Z.mod_small by lia. lia. }
  set (k1 := k <| m_metadata_only_mode := _ |> <| m_metadata_db_total_records := _ |>
               <| m_metadata_hash_list := _ |> <| m_metadata_db_offset := _ |>).
  assert (refill k1 w3 = (k1 <| m_shutdown_requested := true |>, w4)) as Hr.
  { unfold refill. change (m_metadata_database_mode k1) with (m_metadata_database_mode k).
    change (m_metadata_hash_list k1) with rows. rewrite Hdb, Hlt. cbn [andb].
    unfold loadMetadataDatabaseBatch. change (m_mysql k1) with (m_mysql k).
    change (m_metadata_db_offset k1) with (Z.of_nat (length rows)). rewrite Hempty. cbv zeta.
    change (m_metadata_hash_list (k1 <| m_shutdown_requested := true |>)) with rows. by rewrite Hwrap. }
  split; [exact Hr|]. rewrite Hr. unfold keeps_crawling. simpl. apply andb_false_r.
Qed.
End Runs.

(** ** A run on the simulated world

    The crawler starts without a bootstrap delay and receives a peer reply. *)

Definition sim_world : Sim.world := (Sim.initial 0) <| Sim.pending_alerts := [dht_bootstrap_alert] |>.
Definition sim_put (q : bep51_query) (w : Sim.world) : outcome unit * Sim.world := (Returned tt, w).
Definition sim_start : crawler string * Sim.world :=
  initialize (λ _, None) (new_crawler true default_MySQLConfig)
    sim_world.
Definition sim_binary : string := "01234567890123456789".
Definition sim_replied : Sim.world :=
  sim_start.2 <| Sim.pending_alerts := [dht_get_peers_reply_alert sim_binary [("10.0.0.1", 6881%Z)]] |>.
Definition sim_iteration : outcome unit * crawler string * Sim.world :=
  concurrent_iteration 0 sim_put 0 sim_start.1 sim_replied.
Definition sim_crawler : crawler string := sim_iteration.1.2.
Definition sim_after : Sim.world := sim_iteration.2.

Lemma sim_crawler_run : rtc (crawler_step alert_hash_ok) sim_start (sim_crawler, sim_after).
Proof.
  pose proof (world_then_iteration alert_hash_ok 0 sim_put 0 sim_start.1 sim_start.2 sim_replied) as Hrun.
  rewrite <-surjective_pairing in Hrun. unfold sim_crawler, sim_after, sim_iteration.
  apply Hrun. unfold sim_replied. by repeat constructor.
Qed.

Lemma sim_crawler_inv : crawler_inv sim_crawler.
Proof.
  apply (reachable_inv alert_hash_ok (λ _, None) true default_MySQLConfig sim_world sim_crawler sim_after);
    [done | exact sim_crawler_run].
Qed.

Lemma worker_pool_unused_witness :
  size (m_discovered_torrents sim_crawler) = 1
  ∧ requestMetadataForDiscoveredTorrents sim_crawler sim_after = (sim_crawler, sim_after).
Proof.
  split; [by vm_compute|].
  apply (worker_pool_unused alert_hash_ok (λ _, None) true default_MySQLConfig
           sim_world sim_crawler sim_after);
    [done | exact sim_crawler_run].
Defined.

Lemma downloader_slots_kept_witness :
  size (m_active_tracker (m_metadata_downloader sim_crawler)) = 1
  ∧ m_active_tracker (m_metadata_downloader sim_crawler)
    ⊆ m_active_tracker (m_metadata_downloader
        (concurrent_iteration 0 sim_put 3 sim_crawler (sim_after <| Sim.time := minutes 60 |>)).1.2).
Proof.
  split; [by vm_compute|].
  apply (downloader_slots_kept alert_hash_ok (λ a, alert_hash_ok a ∧ not_metadata a) (λ _, None) true
           default_MySQLConfig sim_world
           sim_crawler sim_after _
           (concurrent_iteration 0 sim_put 3 sim_crawler (sim_after <| Sim.time := minutes 60 |>)).2);
    [done | done | exact sim_crawler_run|].
  apply world_then_iteration. vm_compute. constructor.
Defined.

Lemma concurrent_iteration_returns_witness :
  (concurrent_iteration 0 sim_put 20 sim_crawler sim_after).1.1 = Returned tt.
Proof.
  apply (concurrent_iteration_returns alert_hash_ok (λ _, None) true default_MySQLConfig
           sim_world);
    [done | exact sim_crawler_run | vm_compute; constructor].
Defined.

Definition sim_info : torrent_info :=
  mk_torrent_info "film" 7 1 16384 "" "" 0 false "magnet:?" [] [mk_file_entry "film.mkv" 7 0 false false false false] [].
Definition sim_known : Sim.world := sim_after <| Sim.infos := {["h" := (sim_binary, sim_info)]} |>.

Lemma metadata_received_counts_witness :
  m_success_count (m_metadata_downloader (handleMetadataReceived 0 "h" sim_crawler sim_known).1) = 2%Z
  ∧ m_metadata_fetched (handleMetadataReceived 0 "h" sim_crawler sim_known).1 = 1%Z.
Proof.
  destruct (metadata_received_counts 0 "h" sim_info sim_binary sim_crawler sim_known) as (Hs & Hf & _).
  - by vm_compute.
  - by vm_compute.
  - exact (ci_downloader _ sim_crawler_inv).
  - rewrite Hs, Hf. split; vm_compute; reflexivity.
Defined.

Lemma rediscovery_resets_witness :
  ∃ t, m_discovered_torrents (handlePeerReply sim_binary [] sim_crawler sim_after).1
         !! binary_to_hex sim_binary = Some t ∧ metadata_received t = false.
Proof.
  destruct (rediscovery_resets sim_binary [] sim_crawler sim_after) as (t & w1 & prio & src & Ht & _ & _ & _ & _ & Hm & _).
  exists t. split; [exact Ht | exact Hm].
Defined.

Definition sim_batch : crawler string :=
  sim_crawler <| m_metadata_database_mode := true |> <| m_metadata_hash_list := replicate 60 sim_hash |>.

Lemma metadata_database_one_batch_witness :
  m_metadata_hash_list (metadata_iteration 0 0 sim_batch sim_after).1.2 = replicate 60 sim_hash.
Proof.
  destruct (metadata_database_one_batch 0 0 sim_batch sim_after
    (metadata_iteration 0 0 sim_batch sim_after).1.1 (metadata_iteration 0 0 sim_batch sim_after).1.2
    (metadata_iteration 0 0 sim_batch sim_after).2) as [Hl _].
  - by vm_compute.
  - vm_compute. lia.
  - by rewrite <-!surjective_pairing.
  - rewrite Hl. vm_compute. reflexivity.
Defined.

Definition sim_small : crawler string := sim_start.1 <| m_metadata_database_mode := true |>.
Definition sim_rows : Sim.world := sim_start.2 <| Sim.sql_rows := [[Some "1"]] |>.

Lemma metadata_database_small_stops_witness :
  keeps_crawling (refill (setupMetadataDatabaseMode sim_small sim_rows).1
                    (sim_rows <| Sim.sql_rows := [] |>)).1 = false.
Proof.
  destruct (metadata_database_small_stops sim_small sim_rows 1
    (getTotalTorrentsWithMissingMetadata (m_mysql sim_small) sim_rows).2 ["1"]
    (getTorrentsWithMissingMetadata (m_mysql sim_small) 100 0
       (getTotalTorrentsWithMissingMetadata (m_mysql sim_small) sim_rows).2).2) as [_ Hstop];
    [by vm_compute | done | by vm_compute | by vm_compute | by vm_compute | by vm_compute | simpl; lia|].
  destruct (Hstop (sim_rows <| Sim.sql_rows := [] |>)
    (getTorrentsWithMissingMetadata (m_mysql sim_small) 100 1 (sim_rows <| Sim.sql_rows := [] |>)).2)
    as [_ Hk]; [by vm_compute | exact Hk].
Defined.
