(* ===== verification/Traces.v ===== *)
(** * What the crawler does to the world

    One traversal of [DHTTorrentCrawler]: whatever relation between states of
    the world holds across every call the crawler makes, holds across each of
    its operations.  The class [Steps] says what a relation must satisfy; a
    query to the database counts as a step only when it is one of the
    statements of [Sql], sent over a connection in order, and an insertion of a
    peer only for peers that qualify.  The instances are the passing of time
    ([Program]) and the list of the statements sent ([Statements]). *)

From S2P Require Import Prelude World HashFormat RequestQueue Downloader Numeric SmartCrawler WorkerPool Sql Crawler.

Section Class.
Context {W H : Type} `{Session W H} `{Alerts W H} `{Database W}.

Definition alert_peers_ok (peer_ok : string → Prop) (a : alert H) : Prop :=
  match a with dht_get_peers_reply_alert _ ps => Forall (λ p, peer_ok (peer_str p)) ps | _ => True end.

Class Steps (R : relation W) (conn_ok : MySQLConnection → Prop) (peer_ok : string → Prop) := {
  steps_preorder :: PreOrder R;
  steps_now w : R w (steady_now w).2;
  steps_add p w : R w (add_torrent p w).2;
  steps_remove h w : R w (remove_torrent h w).2;
  steps_get_peers t w : R w (dht_get_peers t w).2;
  steps_get_item t w : R w (dht_get_item t w).2;
  steps_pop w : R w (pop_alerts (H := H) w).2;
  steps_alerts w : Forall (alert_peers_ok peer_ok) (pop_alerts w).1;
  steps_result w : R w (mysql_store_result w).2;
  steps_statement c ps w : conn_ok c → m_connected c = true → statement c ps → R w (run_query c ps w).2;
  steps_peer c t peer address port_str w : conn_ok c → m_connected c = true → peer_ok peer →
    split_peer peer = Some (address, port_str) → R w (run_query c (peer_pieces t address port_str) w).2;
}.
End Class.

Section Traces.
Context {W H : Type} `{Session W H} `{Alerts W H} `{Database W}.
Context (R : relation W) (conn_ok : MySQLConnection → Prop) (peer_ok : string → Prop) `{!Steps R conn_ok peer_ok}.
Implicit Types (k : crawler H) (w : W) (c : MySQLConnection).

(** A relation on worlds and one on crawlers with their world: the crawler
    keeps its connection in order, and the peers of its torrents qualify. *)
Record good k : Prop := {
  good_connection : conn_ok (m_mysql k);
  good_peers h t : m_discovered_torrents k !! h = Some t → Forall peer_ok (peers t);
}.
Definition goes : relation (crawler H * W) := λ s s', good s.1 → good s'.1 ∧ R s.2 s'.2.
#[export] Instance goes_preorder : PreOrder goes.
Proof.
  split; [intros s Hs; split; [done|reflexivity]|]. intros s1 s2 s3 H12 H23 [Hg2 HR12]%H12.
  apply H23 in Hg2 as [Hg3 HR23]. split; [done|]. by etrans.
Qed.

Lemma good_frame k k' : m_mysql k' = m_mysql k → m_discovered_torrents k' = m_discovered_torrents k → good k → good k'.
Proof. intros Hm Ht [Hc Hp]. split; rewrite ?Hm, ?Ht; auto. Qed.
Lemma goes_frame k k' w w' :
  m_mysql k' = m_mysql k → m_discovered_torrents k' = m_discovered_torrents k → R w w' → goes (k, w) (k', w').
Proof. intros Hm Ht HR Hg. split; [by apply (good_frame k)|done]. Qed.

Lemma R_foldl {A} (f : W → A → W) l w : (∀ x w, x ∈ l → R w (f w x)) → R w (foldl f w l).
Proof.
  revert w. induction l as [|x l IH]; intros w Hf; simpl; [reflexivity|].
  etrans; [apply Hf; by left|]. apply IH. intros y w' Hy. apply Hf. by right.
Qed.
Lemma R_foldl_pair {S A} (f : S * W → A → S * W) l st : (∀ x st, R st.2 (f st x).2) → R st.2 (foldl f st l).2.
Proof. intros Hf. revert st. induction l as [|x l IH]; intros st; simpl; [reflexivity|]. by etrans; [apply Hf|]. Qed.
Lemma goes_foldl {A} (f : crawler H * W → A → crawler H * W) l s :
  (∀ x s, x ∈ l → goes s (f s x)) → goes s (foldl f s l).
Proof.
  revert s. induction l as [|x l IH]; intros s Hf; simpl; [reflexivity|].
  etrans; [apply Hf; by left|]. apply IH. intros y s' Hy. apply Hf. by right.
Qed.

(** ** The database *)

Lemma R_log_error c f g n e s v a w : conn_ok c → R w (logError c f g n e s v a w).2.
Proof.
  intros Hc. unfold logError. destruct (m_connected c) eqn:Hcon; [|reflexivity]. cbn [negb].
  pose proof (steps_statement c (log_pieces f g n e s v a) w Hc Hcon ltac:(constructor)) as Hq.
  by destruct (run_query c _ w) as [[[]|] w'].
Qed.
Lemma R_log_exception c f g what a w : conn_ok c → R w (logException c f g what a w).2.
Proof. apply R_log_error. Qed.

(** The pattern of the statements: the error branches log, and the other one
    goes on. *)
Ltac statement_sent Hc :=
  match goal with
  | |- context [negb (m_connected ?c)] =>
    let Hcon := fresh "Hcon" in destruct (m_connected c) eqn:Hcon; cbn [negb]; [|by apply R_log_error]
  end;
  match goal with
  | Hcon : m_connected ?c = true |- context [run_query ?c ?ps ?w] =>
    let Hq := fresh in pose proof (steps_statement c ps w Hc Hcon ltac:(constructor)) as Hq;
    destruct (run_query c ps w) as [[[]|] ?]; cbn [snd] in *;
    [etrans; [exact Hq|by apply R_log_error]|etrans; [exact Hq|]]
  end.

Lemma R_store_torrent c t w : conn_ok c → Forall peer_ok (peers t) → R w (storeTorrent c t w).2.
Proof.
  intros Hc Hp. unfold storeTorrent. statement_sent Hc. apply R_foldl. intros peer w' Hin. unfold store_peer.
  destruct (split_peer peer) as [[]|] eqn:Hsplit; [|reflexivity]. rewrite Forall_forall in Hp.
  eapply steps_peer; eauto.
Qed.
Lemma R_mark_timed_out c hash w : conn_ok c → R w (markTorrentTimedOut c hash w).2.
Proof. intros Hc. unfold markTorrentTimedOut. statement_sent Hc. reflexivity. Qed.
Lemma R_update_metadata c hash t w : conn_ok c → R w (updateTorrentMetadata c hash t w).2.
Proof. intros Hc. unfold updateTorrentMetadata. statement_sent Hc. reflexivity. Qed.
Lemma R_missing c limit offset w : conn_ok c → R w (getTorrentsWithMissingMetadata c limit offset w).2.
Proof.
  intros Hc. unfold getTorrentsWithMissingMetadata. statement_sent Hc. pose proof (steps_result w0) as Hr.
  destruct (mysql_store_result w0) as [[errno|rows] w']; simpl in *; [|done].
  etrans; [exact Hr|by apply R_log_error].
Qed.
Lemma R_total_missing c w : conn_ok c → R w (getTotalTorrentsWithMissingMetadata c w).2.
Proof.
  intros Hc. unfold getTotalTorrentsWithMissingMetadata. statement_sent Hc. pose proof (steps_result w0) as Hr.
  destruct (mysql_store_result w0) as [[errno|rows] w']; simpl in *; [etrans; [exact Hr|by apply R_log_error]|].
  destruct rows as [|[|[s|] ?] ?]; try done. destruct (stoi 10 s); [done|]. etrans; [exact Hr|by apply R_log_exception].
Qed.

(** ** The downloader *)

Implicit Type (d : downloader H MetadataRequestQueue).

Lemma R_single hash prio src d w : R w (process_single_request hash prio src d w).2.
Proof.
  unfold process_single_request. case_decide; [reflexivity|]. destruct (parse_magnet_uri _) as [params|]; [|reflexivity].
  pose proof (steps_add (configure_params params) w) as Ha. destruct (add_torrent _ w) as [[handle|e] w1]; [|done].
  destruct (is_valid handle w1); [|done]. pose proof (steps_now w1) as Hn. destruct (steady_now w1) as [now w2].
  by etrans.
Qed.

Lemma R_queue_loop fuel n d w : ∀ m d' w', process_queue_loop fuel n d w = Some (m, d', w') → R w w'.
Proof.
  revert n d w. induction fuel as [|fuel IH]; intros n d w m d' w'; cbn [process_queue_loop];
    (destruct (process_queue_continues d n); [|intros [= _ _ <-]; reflexivity]); [done|].
  destruct (rq_dequeue (dl_queue d)) as [[[[hash prio] src]|] q]; [|intros [= _ _ <-]; reflexivity].
  pose proof (R_single hash prio src (d <| dl_queue := q |>) w) as Hs.
  destruct (process_single_request _ _ _ _ w) as [[[] d1] w1]; cbn [snd] in Hs; intros Hloop.
  - etrans; [exact Hs|]. by eapply IH.
  - unfold retry_or_drop in Hloop. destruct (1 <? prio)%Z.
    + pose proof (steps_now w1) as Hn. destruct (steady_now w1) as [now w2]. etrans; [exact Hs|]. etrans; [exact Hn|].
      by eapply IH.
    + etrans; [exact Hs|]. by eapply IH.
Qed.

Lemma R_process_queue d w : R w (process_queue d w).2.
Proof.
  unfold process_queue. destruct (process_queue_loop _ 0 d w) as [[[n d'] w']|] eqn:Hloop; [|reflexivity].
  by eapply R_queue_loop.
Qed.

Lemma R_request b hash prio src d w : R w (request_metadata b hash prio src d w).2.
Proof.
  unfold request_metadata. destruct (negb b); [reflexivity|]. destruct (_ || _); [reflexivity|].
  pose proof (steps_now w) as Hn. destruct (steady_now w) as [now w1]. set (d1 := d <| dl_queue ::= _ |> <| m_total_queued ::= _ |>).
  pose proof (R_process_queue d1 w1) as Hq. destruct (process_queue d1 w1) as [d2 w2]. by etrans.
Qed.

(** ** The handlers *)

Lemma goes_store_discovered t k w : Forall peer_ok (peers t) → goes (k, w) (store_discovered t k w).
Proof.
  intros Hp [Hc Ht]. unfold store_discovered. split; [split; simpl; [done|]|].
  - intros h t' [[_ <-]|[_ ?%Ht]]%lookup_insert_Some; done.
  - simpl. destruct (m_connected _); [by apply R_store_torrent|reflexivity].
Qed.

Lemma goes_auto_queue hash prio src k w : goes (k, w) (auto_queue hash prio src k w).
Proof.
  unfold auto_queue. case_decide; [reflexivity|]. pose proof (R_request true hash prio src (m_metadata_downloader k) w) as Hr.
  destruct (request_metadata _ _ _ _ _ w) as [[[] d] w1]; by apply goes_frame.
Qed.

(** The end of the three handlers. *)
Lemma goes_discover t hash prio src k w : Forall peer_ok (peers t) →
  goes (k, w) (let '(k, w) := store_discovered t k w in auto_queue hash prio src k w).
Proof.
  intros Hp. pose proof (goes_store_discovered t k w Hp) as Hs. destruct (store_discovered t k w) as [k1 w1].
  etrans; [exact Hs|apply goes_auto_queue].
Qed.

(** A reading of the clock in front of the rest. *)
Ltac clock_read := match goal with
  | |- goes (?k, ?w) _ => let Hn := fresh in let w' := fresh "w" in pose proof (steps_now w) as Hn; destruct (steady_now w) as [? w']; cbn [snd] in Hn;
      transitivity (k, w'); [by apply goes_frame|]; clear Hn
  end.

Lemma goes_peer_reply hash ps k w : Forall (λ p, peer_ok (peer_str p)) ps → goes (k, w) (handlePeerReply hash ps k w).
Proof.
  intros Hps. unfold handlePeerReply. clock_read. clock_read.
  set (t := fresh_torrent _ _ _ _ _ _). assert (Forall peer_ok (peers t)) as Hp by (by apply Forall_fmap).
  cbv zeta.
  match goal with |- context [if m_use_smart_mode ?k' then _ else _] => destruct (m_use_smart_mode k') end.
  - unfold record_incoming_observation. clock_read. cbn beta iota zeta. refine (transitivity _ (goes_discover _ _ _ _ _ _ Hp)).
    by apply goes_frame.
  - refine (transitivity _ (goes_discover _ _ _ _ _ _ Hp)). by apply goes_frame.
Qed.
Lemma goes_announce hash k w : goes (k, w) (handleAnnounce hash k w).
Proof. unfold handleAnnounce. clock_read. clock_read. apply goes_discover. constructor. Qed.
Lemma goes_item hash k w : goes (k, w) (handleImmutableItem hash k w).
Proof. unfold handleImmutableItem. clock_read. clock_read. apply goes_discover. constructor. Qed.

Lemma peers_with_metadata t m now : peers (with_metadata t m now) = peers t.
Proof. unfold with_metadata. by destruct (em_trackers m). Qed.

Lemma goes_save hash t k w : Forall peer_ok (peers t) → goes (k, w) (save_metadata hash t k w).
Proof.
  intros Hp Hk. unfold save_metadata. destruct (m_connected _); [|split; [done|reflexivity]].
  destruct (m_metadata_database_mode k).
  - pose proof (R_update_metadata (m_mysql k) hash t w (good_connection k Hk)) as Hu.
    destruct (updateTorrentMetadata _ _ _ w) as [[] w1]; (split; [by apply (good_frame k)|done]).
  - split; [by apply (good_frame k)|]. apply R_store_torrent; [by apply good_connection|done].
Qed.

Lemma R_drop handle k w : conn_ok (m_mysql k) → R w (drop_torrent handle k w).
Proof.
  intros Hc. unfold drop_torrent. pose proof (steps_remove handle w) as Hr. destruct (remove_torrent handle w) as [[|e] w1]; [exact Hr|].
  etrans; [exact Hr|by apply R_log_exception].
Qed.

Lemma goes_save_drop handle hash t k w : Forall peer_ok (peers t) →
  goes (k, w) (let '(k, w) := save_metadata hash t k w in (k, drop_torrent handle k w)).
Proof.
  intros Hp. pose proof (goes_save hash t k w Hp) as Hs. destruct (save_metadata hash t k w) as [k1 w1].
  etrans; [exact Hs|]. intros Hk. split; [done|]. apply R_drop, Hk.
Qed.

Lemma goes_received x handle k w : goes (k, w) (handleMetadataReceived x handle k w).
Proof.
  unfold handleMetadataReceived. cbv zeta. destruct (torrent_file handle w) as [[ti|]|e];
    [|intros Hk; split; [done|]; apply R_log_error, Hk|intros Hk; split; [done|]; apply R_log_exception, Hk].
  destruct (handle_info_hash handle w) as [info_hash|e]; [|intros Hk; split; [done|]; apply R_log_exception, Hk].
  unfold store_received. cbv zeta. set (hash := binary_to_hex info_hash). set (k1 := k <| m_metadata_manager ::= _ |>).
  assert (Hd : R w (Downloader.handle_metadata_received hash (m_metadata_downloader k1) w).2) by apply R_process_queue.
  destruct (Downloader.handle_metadata_received hash _ w) as [d1 w1]. cbn [snd] in Hd.
  set (k2 := on_pool _ (_ <| m_metadata_downloader := _ |>)). transitivity (k2, w1); [by apply goes_frame|].
  match goal with |- context [if ?b then _ else _] => destruct b end.
  - do 3 clock_read. apply goes_save_drop. rewrite peers_with_metadata. constructor.
  - destruct (m_discovered_torrents _ !! hash) as [t|] eqn:Ht; [|by apply goes_frame].
    clock_read. intros Hk. refine (goes_save_drop _ _ _ k2 _ _ Hk).
    rewrite peers_with_metadata. by eapply (good_peers _ Hk).
Qed.

Lemma goes_alert x s a : alert_peers_ok peer_ok a → goes s (process_alert x s a).
Proof.
  destruct s as [k w]. intros Ha. destruct a as [h ps|h|h|handle| |]; simpl; try reflexivity.
  - destruct ps as [|p ps]; [reflexivity|]. by apply goes_peer_reply.
  - apply goes_announce.
  - apply goes_item.
  - apply goes_received.
Qed.

Lemma goes_alerts x k w : goes (k, w) (processAlerts x k w).
Proof.
  unfold processAlerts. pose proof (steps_pop w) as Hp. pose proof (steps_alerts w) as Hok.
  destruct (pop_alerts w) as [alerts w1]. etrans; [by apply (goes_frame k k w w1)|].
  apply goes_foldl. intros a s Hin. apply goes_alert. rewrite Forall_forall in Hok. by apply Hok.
Qed.

(** ** The three modes *)

Lemma goes_mark k w : goes (k, w) (mark_timeouts k w).
Proof.
  unfold mark_timeouts. destruct (m_metadata_worker_pool k) as [p|]; [|reflexivity]. clock_read.
  destruct (get_timed_out_requests _ p) as [hashes p']. intros Hk. split; [by apply (good_frame k)|].
  apply R_foldl. intros hash w' _. apply R_mark_timed_out, Hk.
Qed.

Lemma goes_load_batch k w : goes (k, w) (loadMetadataDatabaseBatch k w).
Proof.
  intros Hk. unfold loadMetadataDatabaseBatch.
  pose proof (R_missing (m_mysql k) 100 (m_metadata_db_offset k) w (good_connection k Hk)) as Hm.
  destruct (getTorrentsWithMissingMetadata _ _ _ w) as [[|hash batch] w1]; (split; [by apply (good_frame k)|done]).
Qed.

Lemma goes_request_hash hash k w : goes (k, w) (requestMetadataForHash hash k w).
Proof.
  unfold requestMetadataForHash. cbv zeta. set (k1 := k <| m_metadata_manager ::= _ |>).
  pose proof (R_request true hash 4 "MANUAL" (m_metadata_downloader k1) w) as Hr.
  destruct (request_metadata _ _ _ _ _ w) as [[[] d] w1]; by apply goes_frame.
Qed.
Lemma goes_request_hashes hashes s : goes s (foldl (λ s h, requestMetadataForHash h s.1 s.2) s hashes).
Proof. apply goes_foldl. intros h [k w] _. apply goes_request_hash. Qed.

Lemma goes_refill k w : goes (k, w) (refill k w).
Proof.
  unfold refill. destruct (_ && _); [|reflexivity]. pose proof (goes_load_batch k w) as Hl.
  destruct (loadMetadataDatabaseBatch k w) as [k1 w1]. etrans; [exact Hl|]. apply goes_request_hashes.
Qed.

(** An iteration of the metadata loop, up to the reading of the clock and
    after it. *)
Lemma goes_metadata_iteration x start k w :
  let '(_, k', w') := metadata_iteration x start k w in goes (k, w) (k', w').
Proof.
  unfold metadata_iteration. pose proof (goes_alerts x k w) as Ha. destruct (processAlerts x k w) as [k1 w1].
  pose proof (steps_now w1) as Hn. destruct (steady_now w1) as [now w2]. cbn [snd] in Hn.
  set (s2 := if m_metadata_database_mode k1 then _ else _).
  assert (goes (k1, w2) s2) as Hs2 by (unfold s2; destruct (m_metadata_database_mode k1); [apply goes_mark|reflexivity]).
  destruct s2 as [k2 w3]. pose proof (goes_refill k2 w3) as Hr. destruct (refill k2 w3) as [k3 w4].
  transitivity (k1, w1); [exact Ha|]. transitivity (k1, w2); [by apply goes_frame|]. by etrans.
Qed.

Lemma goes_cleanup_and_mark k w : goes (k, w) (cleanup_and_mark k w).
Proof.
  unfold cleanup_and_mark. clock_read. etrans; [|apply goes_mark]. by apply goes_frame.
Qed.

Lemma goes_request_loop ts n k w : goes (k, w) (request_loop ts n k w).
Proof.
  revert n k w. induction ts as [|[h t] ts IH]; intros n k w; cbn [request_loop]; [reflexivity|].
  destruct (20 <=? n); [reflexivity|]. destruct (_ && _); [|apply IH].
  destruct (m_metadata_worker_pool k) as [p|]; [|reflexivity]. unfold queue_request.
  destruct (p_shutdown p); [etrans; [|apply IH]; by apply goes_frame|].
  destruct (m_pending_requests p !! _); [etrans; [|apply IH]; by apply goes_frame|].
  clock_read. etrans; [|apply IH]. by apply goes_frame.
Qed.
Lemma goes_request_discovered k w : goes (k, w) (requestMetadataForDiscoveredTorrents k w).
Proof. apply goes_request_loop. Qed.

Lemma goes_sequential_query hash k w : goes (k, w) (sequential_query hash k w).
Proof.
  unfold sequential_query. set (k1 := k <| k_queried_hashes ::= _ |>).
  pose proof (steps_get_peers hash w) as Hp. destruct (dht_get_peers hash w) as [[[]|e] w1]; [|by apply goes_frame].
  pose proof (steps_get_item hash w1) as Hi. destruct (dht_get_item hash w1) as [[[]|e] w2];
    (apply goes_frame; [done|done|by etrans]).
Qed.

Lemma goes_sequential_iteration x hash n k w :
  let '(_, k', w') := sequential_iteration x hash n k w in goes (k, w) (k', w').
Proof.
  unfold sequential_iteration. case_decide; [reflexivity|]. pose proof (goes_sequential_query hash k w) as H1'.
  destruct (sequential_query hash k w) as [k1 w1]. pose proof (goes_alerts x k1 w1) as H2'.
  destruct (processAlerts x k1 w1) as [k2 w2]. set (s3 := if every 10 n then _ else _).
  assert (goes (k2, w2) s3) as H3' by (unfold s3; destruct (every 10 n); [apply goes_request_discovered|reflexivity]).
  destruct s3 as [k3 w3]. set (s4 := if every 5 n then _ else _).
  assert (goes (k3, w3) s4) as H4' by (unfold s4; destruct (every 5 n); [apply goes_cleanup_and_mark|reflexivity]).
  destruct s4 as [k4 w4]. etrans; [exact H1'|]. etrans; [exact H2'|]. etrans; [exact H3'|]. etrans; [exact H4'|].
  destruct (every 25 n); by apply goes_frame.
Qed.

(** ** The threads of the worker pool *)

Lemma R_worker_step i p w p' w' : worker_step i (p, w) = Some (p', w') → R w w'.
Proof.
  unfold worker_step. intros Hst. apply bind_Some in Hst as (s & _ & Hst).
  destruct s as [| | | |request|request|request|request|]; try (repeat case_match; simplify_eq; reflexivity).
  - unfold add_to_session in Hst. case_decide; [by simplify_eq|].
    destruct (parse_magnet_uri _) as [params|]; [|by simplify_eq].
    pose proof (steps_add (pool_configure_params params) w) as Ha. destruct (add_torrent _ w) as [[handle|e] w1];
      [destruct (is_valid handle w1)|]; by simplify_eq.
  - pose proof (steps_now w) as Hn. destruct (steady_now w) as [now w1]. by simplify_eq.
Qed.

Lemma R_workers es p w p' w' : pool_run (EWorker <$> es) (p, w) = Some (p', w') → R w w'.
Proof.
  revert p w. induction es as [|i es IH]; intros p w; cbn [fmap list_fmap pool_run]; [by intros [= _ <-]|].
  intros ([p1 w1] & Hst & Hrun)%bind_Some. etrans; [by eapply R_worker_step|]. by eapply IH.
Qed.

(** ** The concurrent mode draws random numbers and puts items *)

Section Concurrent.
Context (dht_put_item : bep51_query → W → outcome unit * W).
Context (Hrand : ∀ w, R w (rand w).2) (Hput : ∀ q w, R w (dht_put_item q w).2).

Lemma R_random_bytes n w : R w (random_bytes rand n w).2.
Proof.
  revert w. induction n as [|n IH]; intros w; cbn [random_bytes]; [reflexivity|].
  pose proof (Hrand w) as Hr. destruct (rand w) as [v w1]. pose proof (IH w1) as Hrest.
  destruct (random_bytes rand n w1) as [rest w2]. by etrans.
Qed.

Lemma R_bep51_node id s : R s.2 (bep51_query_node dht_put_item id s).2.
Proof.
  unfold bep51_query_node, query_sample_infohashes. destruct s as [b w]. cbn [negb fst snd].
  destruct (generate_transaction_id b) as [tid b1]. rewrite decide_True by done. unfold generate_random_id.
  pose proof (R_random_bytes 20 w) as Hb. destruct (random_bytes rand 20 w) as [bytes w1]. cbn [snd] in Hb.
  pose proof (Hput (mk_bep51_query "q" "sample_infohashes" tid id (of_chars bytes)) w1) as Hq.
  destruct (dht_put_item _ w1) as [[] w2]; by etrans.
Qed.

Lemma R_bep51 b w : R w (bep51_queries dht_put_item b w).2.
Proof.
  unfold bep51_queries. destruct (get_known_nodes b) as [|node nodes].
  - match goal with |- R w (foldl ?f ?s ?l).2 => apply (R_foldl_pair f l s) end. intros x [b' w']. cbn [fst snd].
    unfold generate_random_id. pose proof (R_random_bytes 20 w') as Hb. destruct (random_bytes rand 20 w') as [bytes w1].
    etrans; [exact Hb|]. apply (R_bep51_node (of_chars bytes) (b', w1)).
  - match goal with |- R w (foldl ?f ?s ?l).2 => apply (R_foldl_pair f l s) end. intros id st. apply R_bep51_node.
Qed.

Lemma goes_bep51 k w : goes (k, w) (queryBEP51Infohashes dht_put_item k w).
Proof.
  unfold queryBEP51Infohashes. destruct (negb _); [reflexivity|]. pose proof (R_bep51 (m_bep51_indexer k) w) as Hb.
  destruct (bep51_queries dht_put_item (m_bep51_indexer k) w) as [b w1]. set (k1 := k <| m_bep51_indexer := b |>).
  transitivity (k1, w1); [by apply goes_frame|]. apply goes_foldl. intros h [k' w'] _. apply goes_auto_queue.
Qed.

Lemma R_send_query target type r w : R w (send_query target type r w).2.
Proof.
  unfold send_query. pose proof (steps_now w) as Hn. destruct (steady_now w) as [now w1]. cbn [snd] in Hn.
  do 2 (match goal with |- R w (if ?b then _ else _).2 => destruct b; [exact Hn|] end).
  assert (R w1 (issue_query target type w1).2) as Hi.
  { unfold issue_query. do 2 (case_decide; [apply steps_get_peers || apply steps_get_item|]). reflexivity. }
  destruct (issue_query target type w1) as [[] w2]; by etrans.
Qed.

Lemma R_priority_queries hashes r w : R w (query_priority_hashes hashes r w).2.
Proof.
  revert r w. induction hashes as [|h hashes IH]; intros r w; cbn [query_priority_hashes]; [reflexivity|].
  destruct (_ =? 40); [|apply IH]. destruct (hex_to_target h) as [target|]; [|reflexivity].
  pose proof (R_send_query target "get_peers" r w) as Hs. destruct (send_query target "get_peers" r w) as [[ok r'] w1].
  etrans; [exact Hs|apply IH].
Qed.

Lemma R_random_queries n r w : R w (send_random_queries rand n r w).2.
Proof.
  revert r w. induction n as [|n IH]; intros r w; cbn [send_random_queries]; [reflexivity|].
  pose proof (R_random_bytes 20 w) as Hb. destruct (random_bytes rand 20 w) as [bytes w1]. etrans; [exact Hb|]. cbn [snd].
  pose proof (R_send_query (of_chars bytes) "get_peers" r w1) as Hs.
  destruct (send_query (of_chars bytes) "get_peers" r w1) as [[ok r'] w2]. etrans; [exact Hs|apply IH].
Qed.

Lemma R_smart_queries s w : R w (send_smart_queries rand s w).2.
Proof.
  unfold send_smart_queries. pose proof (steps_now w) as Hn. destruct (steady_now w) as [now w1]. etrans; [exact Hn|].
  cbn [snd]. set (hashes := get_priority_infohashes now s). pose proof (R_priority_queries hashes (m_rate_limiter s) w1) as Hq.
  destruct (query_priority_hashes hashes _ w1) as [[[[]|e] r] w2]; [|exact Hq]. etrans; [exact Hq|]. cbn [snd].
  destruct hashes; [|reflexivity]. pose proof (R_random_queries 3 r w2) as Hr. by destruct (send_random_queries rand 3 r w2).
Qed.

Lemma goes_concurrent_iteration x n k w :
  let '(_, k', w') := concurrent_iteration x dht_put_item n k w in goes (k, w) (k', w').
Proof.
  unfold concurrent_iteration. pose proof (goes_alerts x k w) as H1'. destruct (processAlerts x k w) as [k1 w1].
  set (s2 := if every 5 n then _ else _).
  assert (goes (k1, w1) s2) as H2' by (unfold s2; destruct (every 5 n); [apply goes_request_discovered|reflexivity]).
  destruct s2 as [k2 w2]. set (s3 := if every 30 n then _ else _).
  assert (goes (k2, w2) s3) as H3' by (unfold s3; destruct (every 30 n); [apply goes_bep51|reflexivity]).
  destruct s3 as [k3 w3]. set (s4 := if _ && _ then _ else _).
  assert (goes (k3, w3) (s4.1.2, s4.2)) as H4'.
  { unfold s4. destruct (_ && _); [|reflexivity]. pose proof (R_smart_queries (m_smart_crawler k3) w3) as Hs.
    destruct (send_smart_queries rand _ w3) as [[r s] w4]. by apply goes_frame. }
  destruct s4 as [[[[]|e] k4] w4]; cbn [fst snd] in H4'; [|by do 3 (etrans; [eassumption|])].
  set (s5 := if every 3 n then _ else _).
  assert (goes (k4, w4) s5) as H5' by (unfold s5; destruct (every 3 n); [apply goes_cleanup_and_mark|reflexivity]).
  destruct s5 as [k5 w5]. do 4 (etrans; [eassumption|]). etrans; [exact H5'|]. destruct (every 50 n); by apply goes_frame.
Qed.
End Concurrent.
End Traces.
