(* ===== verification/Program.v ===== *)
(** * The program

    Models the rest of [src/src/dht_crawler.cpp]: [startCrawling] with its
    three loops, and [main] from the command line to the exit status.  What
    happens between two iterations (the other threads, signals, time) is an
    argument, [between], of the loops: a change of the crawler and the world
    before each of their tests, and between the steps of [gracefulShutdown].  A
    run of the program is a run of [crawler_step].  The loops take fuel; [None] is a run that has
    not ended.  [sleep_for], [dht_put_item] and the random targets are
    parameters. *)

From S2P Require Import Prelude World HashFormat RequestQueue Downloader Numeric SmartCrawler WorkerPool ConcurrentDht Sql Cli Crawler Traces.

Class ProgramWorld (W : Type) := {
  (** [std::this_thread::sleep_for], in milliseconds *)
  sleep_for : Z → W → W;
  dht_put : bep51_query → W → outcome unit * W;
  (** twenty random bytes *)
  random_target : W → string * W;
}.

(** How the process ends: by [return] from [main], or by an exception that
    leaves it. *)
Inductive exit_status := Exit (code : Z) | Terminated (what : string).

(** ** Log lines *)

(** The messages the logging callback shows in the metadata-log mode. *)
Definition metadata_words : list string :=
  ["Metadata"; "metadata"; "METADATA"; "[MetadataManager]"; "[MetadataDownloader]"; "MetadataWorkerPool"; "*** METADATA";
   "Metadata request"; "Metadata success"; "Metadata failure"; "Metadata timeout"; "Queued metadata"; "Metadata received";
   "Extracted comprehensive metadata"; "Cleaned up timed out request"].
Definition mentions (message word : string) : bool := contains_text (chars word) (chars message).
Definition is_metadata_log (message : string) : bool :=
  existsb (mentions message) metadata_words || mentions message "Worker" && mentions message "metadata".
(** The line printed for a message. *)
Definition log_line (metadata_log_mode debug_mode : bool) (message : string) : option string :=
  if metadata_log_mode then if is_metadata_log message then Some ("[METADATA_LOG] " +:+ message) else None
  else if debug_mode then Some ("[DEBUG] " +:+ message) else None.

Section Program.
Context {W H : Type} `{Session W H} `{Alerts W H} `{Database W} `{ProgramWorld W}.
Implicit Types (k : crawler H) (w : W).
Context (indeterminate : Z) (between : nat → crawler H * W → crawler H * W).

(** ** [startCrawling] *)

Fixpoint metadata_loop (fuel i : nat) (start_time : Z) k w : option (crawler H * W) :=
  match fuel with
  | O => None
  | S fuel =>
    let '(k, w) := between i (k, w) in
    if negb (keeps_crawling k) then Some (k, w)
    else
      let '(continue, k, w) := metadata_iteration indeterminate start_time k w in
      if continue then metadata_loop fuel (S i) start_time k (sleep_for 100 w) else Some (k, w)
  end.

(** [m_running && !m_shutdown_requested && (max_queries < 0 || sent < max_queries)] *)
Definition crawls_on (max_queries sent : Z) k : bool :=
  keeps_crawling k && ((max_queries <? 0) || (sent <? max_queries))%Z.

Fixpoint concurrent_loop (fuel i : nat) (max_queries : Z) k w : option (outcome unit * crawler H * W) :=
  match fuel with
  | O => None
  | S fuel =>
    let '(k, w) := between i (k, w) in
    if negb (crawls_on max_queries (m_total_queries_sent (m_concurrent_dht k)) k) then Some (Returned tt, k, w)
    else
      match concurrent_iteration indeterminate dht_put (Z.of_nat i) k w with
      | (Threw what, k, w) => Some (Threw what, k, w)
      | (Returned _, k, w) => concurrent_loop fuel (S i) max_queries k (sleep_for 50 w)
      end
  end.

(** A target drawn before is skipped, without the delay. *)
Fixpoint sequential_loop (fuel i : nat) (max_queries query_count : Z) k w : option (crawler H * W) :=
  match fuel with
  | O => None
  | S fuel =>
    let '(k, w) := between i (k, w) in
    if negb (crawls_on max_queries query_count k) then Some (k, w)
    else
      let '(hash, w) := random_target w in
      let drawn_before := bool_decide (hash ∈ k_queried_hashes k) in
      let '(query_count, k, w) := sequential_iteration indeterminate hash query_count k w in
      sequential_loop fuel (S i) max_queries query_count k (if drawn_before then w else sleep_for 100 w)
  end.

(** [m_concurrent_dht->stop()] returns when its workers have ended, which
    [between] lets them. *)
Definition stop_dht (i : nat) k w : option (crawler H * W) :=
  let '(k, w) := between i (k <| m_concurrent_dht ::= request_stop |>, w) in
  m ← join_workers (m_concurrent_dht k); Some (k <| m_concurrent_dht := m |>, w).

(** [gracefulShutdown]: for the statistics, [get_queue_size] takes the mutex of
    the queue, which no worker may be holding then; the pool's [shutdown] sets
    its flag, notifies its workers and joins them, and the pool is released.
    [get_stats] and [get_active_requests] wait for nobody: no thread is inside
    the critical section of the pending requests between two transitions. *)
Definition graceful_shutdown (i : nat) k w : option (crawler H * W) :=
  match m_metadata_worker_pool k with
  | None => Some (k, w)
  | Some _ =>
    let '(k, w) := between i (k, w) in
    p ← m_metadata_worker_pool k;
    if negb (queue_mutex_free p) then None
    else
      let '(k, w) := between (1 + i) (k, w) in
      p ← m_metadata_worker_pool k;
      if p_shutdown p then Some (gracefulShutdown k, w)
      else
        p ← shutdown_step p;
        let '(k, w) := between (2 + i) (k <| m_metadata_worker_pool := Some p |>, w) in
        p ← m_metadata_worker_pool k ≫= shutdown_step;
        let '(k, w) := between (3 + i) (k <| m_metadata_worker_pool := Some p |>, w) in
        p ← m_metadata_worker_pool k ≫= shutdown_step;
        Some (gracefulShutdown (k <| m_metadata_worker_pool := Some p |>), w)
  end.

Definition startCrawling (fuel : nat) (max_queries : Z) k w : option (outcome unit * crawler H * W) :=
  let k := k <| m_running := true |> in
  if m_metadata_only_mode k then
    let '(k, w) := request_all_hashes k w in
    let '(start_time, w) := steady_now w in
    '(k, w) ← metadata_loop fuel 0 start_time k w;
    '(k, w) ← graceful_shutdown fuel k w; Some (Returned tt, k, w)
  else
    let '(_, w) := steady_now w in
    if m_use_concurrent_mode k then
      r ← concurrent_loop fuel 0 max_queries (k <| m_concurrent_dht ::= ConcurrentDht.start |>) w;
      match r with
      | (Threw what, k, w) => Some (Threw what, k, w)
      | (Returned _, k, w) =>
        '(k, w) ← stop_dht fuel k w; Some (Returned tt, k <| m_running := false |>, w)
      end
    else
      '(k, w) ← sequential_loop fuel 0 max_queries 0 k w; Some (Returned tt, k <| m_running := false |>, w).

(** ** [main] *)

(** The connection the handler of [main] opens to log the exception. *)
Definition fallback_config : MySQLConfig :=
  default_MySQLConfig <| server := "192.168.10.100" |> <| user := "keynetworks" |> <| password := "K3yn3tw0rk5" |>
    <| database := "Torrents" |>.
Definition log_in_main (mysql_init : bool) (what : string) w : W :=
  let '(ok, c, w) := Sql.connect (new_MySQLConnection mysql_init fallback_config) w in
  if ok then (logException c "main" "" what "" w).2 else w.

(** The exit status, and the crawler when [main] returns normally.
    [initialize] always returns true; the usage text is in [Usage], the
    other output in [Summaries]. *)
Definition run_program (fuel : nat) (mysql_init : bool) (read_file : string → option string) (args : list string) w
    : option (exit_status * option (crawler H) * W) :=
  match parse_command_line args with
  | ShowUsage _ => Some (Exit 0, None, w)
  | BadWorkers | UnknownArgument _ => Some (Exit 1, None, w)
  | Uncaught what => Some (Terminated what, None, w)
  | Run config max_queries =>
    let '(k, w) := initialize read_file (new_crawler mysql_init config) w in
    r ← startCrawling fuel max_queries k w;
    match r with
    | (Returned _, k, w) => '(k, w) ← graceful_shutdown (4 + fuel) k w; Some (Exit 0, Some k, w)
    | (Threw what, k, w) => Some (Exit 1, None, log_in_main mysql_init what w)
    end
  end.
End Program.

(** ** Time passes *)

(** Besides the laws of the clock ([MonotoneClock]): the other calls do not
    turn it back, and [sleep_for] blocks for at least its argument. *)
Class TimePasses (W H : Type) `{MonotoneClock W H} `{!Alerts W H} `{!Database W} `{!ProgramWorld W} := {
  pop_alerts_mono w : (reading w ≤ reading (pop_alerts (H := H) w).2)%Z;
  mysql_query_mono q w : (reading w ≤ reading (mysql_query q w).2)%Z;
  mysql_store_result_mono w : (reading w ≤ reading (mysql_store_result w).2)%Z;
  sleep_law ms w : (0 ≤ ms)%Z → (reading w + milliseconds ms ≤ reading (sleep_for ms w))%Z;
}.

Section Later.
Context {W H : Type} `{MonotoneClock W H} `{!Alerts W H} `{!Database W} `{!ProgramWorld W} `{!TimePasses W H}.
Implicit Types (k : crawler H) (w : W).

Definition later : relation W := λ w w', (reading w ≤ reading w')%Z.
#[export] Instance later_preorder : PreOrder later.
Proof. split; intros ?; unfold later; lia. Qed.

Lemma later_now w : later w (steady_now w).2.
Proof. destruct (steady_now_mono w) as [Hle Heq]. unfold later. lia. Qed.

(** The passing of time is a relation that every call keeps ([Traces]). *)
#[export] Instance later_steps : Steps later (λ _, True) (λ _, True).
Proof.
  split; intros; [apply later_preorder|apply later_now|apply add_torrent_mono|apply remove_torrent_mono|apply dht_get_peers_mono|
    apply dht_get_item_mono|apply pop_alerts_mono| |apply mysql_store_result_mono|apply mysql_query_mono|apply mysql_query_mono].
  apply Forall_forall. intros [h ps| | | | |] _; [by apply Forall_true|done..].
Qed.
Lemma later_goes (s s' : crawler H * W) : goes later (λ _, True) (λ _, True) s s' → later s.2 s'.2.
Proof. intros Hgoes. apply Hgoes. split; [done|]. intros h t _. by apply Forall_true. Qed.

Lemma later_alerts x k w : later w (processAlerts x k w).2.
Proof. exact (later_goes _ _ (goes_alerts later (λ _, True) (λ _, True) x k w)). Qed.

(** An iteration that does not break has read a time within the limit. *)
Lemma metadata_iteration_time x start k w :
  let '(continue, _, w') := metadata_iteration x start k w in
  later w w' ∧ (continue = true → (reading w - start < seconds metadata_timeout_seconds)%Z).
Proof.
  unfold metadata_iteration. pose proof (later_alerts x k w) as Ha. destruct (processAlerts x k w) as [k1 w1]. simpl in Ha.
  destruct (steady_now_mono w1) as [Hnow Hread]. destruct (steady_now w1) as [now w2]. simpl in Hnow, Hread.
  set (s2 := if m_metadata_database_mode k1 then _ else _).
  assert (later w2 s2.2) as Hs2.
  { apply (later_goes (k1, w2)). unfold s2. destruct (m_metadata_database_mode k1); [apply (goes_mark later (λ _, True) (λ _, True))|reflexivity]. }
  destruct s2 as [k2 w3]. pose proof (later_goes _ _ (goes_refill later (λ _, True) (λ _, True) k2 w3)) as Hr. destruct (refill k2 w3) as [k3 w4]. simpl in *.
  unfold later in *. split; [lia|]. intros [Hel _]%negb_true_iff%orb_false_iff.
  unfold duration_cast_seconds, metadata_timeout_seconds in *. rewrite Z.leb_gt in Hel.
  unfold seconds. destruct (Z.lt_ge_cases (now - start) (300 * nanoseconds_per_second)); [lia|].
  assert (300 ≤ (now - start) ÷ nanoseconds_per_second)%Z; [|lia].
  apply Z.quot_le_lower_bound; unfold nanoseconds_per_second in *; lia.
Qed.
End Later.


(** ** The loops end *)

Section Ends.
Context {W H : Type} `{MonotoneClock W H} `{!Alerts W H} `{!Database W} `{!ProgramWorld W}.
Context (x : Z) (between : nat → crawler H * W → crawler H * W).
Implicit Types (k : crawler H) (w : W).






Lemma metadata_loop_from `{!TimePasses W H} fuel i start k w :
  (∀ i s, later s.2 (between i s).2) → i ≤ 3000 → 3000 < i + fuel →
  (start + milliseconds (100 * Z.of_nat i) ≤ reading w)%Z → is_Some (metadata_loop x between fuel i start k w).
Proof.
  intros Hbetween. revert i k w. induction fuel as [|fuel IH]; intros i k w Hi Hfuel Hw; [lia|]. cbn [metadata_loop].
  pose proof (Hbetween i (k, w)) as Hb. destruct (between i (k, w)) as [k1 w1]. simpl in Hb.
  destruct (negb (keeps_crawling k1)); [by eexists|]. pose proof (metadata_iteration_time x start k1 w1) as Hit.
  destruct (metadata_iteration x start k1 w1) as [[[] k2] w2]; [|by eexists]. destruct Hit as [Hl Hlimit].
  specialize (Hlimit eq_refl). pose proof (sleep_law 100 w2 ltac:(lia)) as Hsleep.
  unfold later, milliseconds, seconds, metadata_timeout_seconds, nanoseconds_per_ms, nanoseconds_per_second in *.
  apply IH; lia.
Qed.

(** C15: The wait of the metadata modes ends after five minutes, whatever the
    session, the database, the other threads and signals do meanwhile: as
    every iteration sleeps for a tenth of a second, the loop has ended when it
    has tested its condition 3001 times. *)
Theorem metadata_wait_ends `{!TimePasses W H} k w :
  (∀ i s, later s.2 (between i s).2) →
  let '(k, w) := request_all_hashes (k <| m_running := true |>) w in
  let '(start_time, w) := steady_now w in
  is_Some (metadata_loop x between 3001 0 start_time k w).
Proof.
  intros Hbetween. destruct (request_all_hashes _ w) as [k1 w1]. destruct (steady_now_mono w1) as [_ Hread].
  destruct (steady_now w1) as [start w2]. apply metadata_loop_from; [done|lia|lia|]. simpl in Hread.
  rewrite Hread. unfold milliseconds. lia.
Qed.

Lemma crawls_on_stopped max_queries sent k : m_shutdown_requested k = true → crawls_on max_queries sent k = false.
Proof. intros Hs. unfold crawls_on, keeps_crawling. by rewrite Hs, andb_false_r. Qed.

Lemma metadata_loop_stopped fuel i j start k w : (∀ s, m_shutdown_requested (between j s).1 = true) →
  i ≤ j → j < i + fuel → is_Some (metadata_loop x between fuel i start k w).
Proof.
  intros Hstop. revert i k w. induction fuel as [|fuel IH]; intros i k w Hij Hfuel; [lia|]. cbn [metadata_loop].
  pose proof (Hstop (k, w)) as Hs. destruct (decide (i = j)) as [->|Hne].
  - destruct (between j (k, w)) as [k1 w1]. unfold keeps_crawling. simpl in Hs. rewrite Hs, andb_false_r. by eexists.
  - destruct (between i (k, w)) as [k1 w1]. destruct (negb _); [by eexists|].
    destruct (metadata_iteration x start k1 w1) as [[[] k2] w2]; [|by eexists]. apply IH; lia.
Qed.

Lemma concurrent_loop_stopped fuel i j max_queries k w : (∀ s, m_shutdown_requested (between j s).1 = true) →
  i ≤ j → j < i + fuel → is_Some (concurrent_loop x between fuel i max_queries k w).
Proof.
  intros Hstop. revert i k w. induction fuel as [|fuel IH]; intros i k w Hij Hfuel; [lia|]. cbn [concurrent_loop].
  pose proof (Hstop (k, w)) as Hs. destruct (decide (i = j)) as [->|Hne].
  - destruct (between j (k, w)) as [k1 w1]. rewrite crawls_on_stopped by done. by eexists.
  - destruct (between i (k, w)) as [k1 w1]. destruct (negb _); [by eexists|].
    destruct (concurrent_iteration _ _ _ k1 w1) as [[[] k2] w2]; [|by eexists]. apply IH; lia.
Qed.

Lemma sequential_loop_stopped fuel i j max_queries count k w : (∀ s, m_shutdown_requested (between j s).1 = true) →
  i ≤ j → j < i + fuel → is_Some (sequential_loop x between fuel i max_queries count k w).
Proof.
  intros Hstop. revert i count k w. induction fuel as [|fuel IH]; intros i count k w Hij Hfuel; [lia|]. cbn [sequential_loop].
  pose proof (Hstop (k, w)) as Hs. destruct (decide (i = j)) as [->|Hne].
  - destruct (between j (k, w)) as [k1 w1]. rewrite crawls_on_stopped by done. by eexists.
  - destruct (between i (k, w)) as [k1 w1]. destruct (negb _); [by eexists|]. destruct (random_target w1) as [hash w2].
    destruct (sequential_iteration x hash count k1 w2) as [[count' k2] w3]. apply IH; lia.
Qed.

Lemma stopped_at_once fuel start max_queries count k w : m_shutdown_requested (between 0 (k, w)).1 = true →
  metadata_loop x between (S fuel) 0 start k w = Some (between 0 (k, w))
  ∧ concurrent_loop x between (S fuel) 0 max_queries k w = Some (Returned tt, (between 0 (k, w)).1, (between 0 (k, w)).2)
  ∧ sequential_loop x between (S fuel) 0 max_queries count k w = Some (between 0 (k, w)).
Proof.
  intros Hstop. cbn [metadata_loop concurrent_loop sequential_loop].
  destruct (between 0 (k, w)) as [k1 w1]. rewrite !crawls_on_stopped by done. unfold keeps_crawling.
  simpl in *. by rewrite Hstop, andb_false_r.
Qed.

Lemma requests_keep_flag k w : m_shutdown_requested (request_all_hashes k w).1 = m_shutdown_requested k.
Proof.
  unfold request_all_hashes. generalize (m_metadata_hash_list k) as l. intros l. revert k w.
  induction l as [|h l IH]; intros k w; [done|]. cbn [foldl fst snd].
  assert (m_shutdown_requested (requestMetadataForHash h k w).1 = m_shutdown_requested k) as Hone.
  { unfold requestMetadataForHash. cbv zeta. by destruct (request_metadata _ _ _ _ _ w) as [[[] d] w1]. }
  destruct (requestMetadataForHash h k w) as [k1 w1]. by rewrite IH.
Qed.

(** A crawl without an iteration: what precedes the loop, one test of its
    condition, and what follows it. *)
Definition crawl_without_iteration (fuel : nat) k w : option (outcome unit * crawler H * W) :=
  let k := k <| m_running := true |> in
  if m_metadata_only_mode k then
    let '(k, w) := request_all_hashes k w in
    let '(k, w) := between 0 (k, (steady_now w).2) in
    '(k, w) ← graceful_shutdown between fuel k w; Some (Returned tt, k, w)
  else if m_use_concurrent_mode k then
    let '(k, w) := between 0 (k <| m_concurrent_dht ::= ConcurrentDht.start |>, (steady_now w).2) in
    '(k, w) ← stop_dht between fuel k w; Some (Returned tt, k <| m_running := false |>, w)
  else
    let '(k, w) := between 0 (k, (steady_now w).2) in Some (Returned tt, k <| m_running := false |>, w).

(** C16: A request to shut down that has arrived by the [j]-th test of a loop
    ends the loop there, in each of the three modes.  One that has arrived
    before [startCrawling], during the bootstrap, is not lost although
    [startCrawling] sets [m_running]: whatever the other threads do short of
    withdrawing it, [startCrawling] begins no iteration of its loop. *)
Theorem shutdown_ends_loops j start max_queries count k w :
  ((∀ s, m_shutdown_requested (between j s).1 = true) →
   is_Some (metadata_loop x between (S j) 0 start k w)
   ∧ is_Some (concurrent_loop x between (S j) 0 max_queries k w)
   ∧ is_Some (sequential_loop x between (S j) 0 max_queries count k w))
  ∧ (m_shutdown_requested k = true →
     (∀ s, m_shutdown_requested s.1 = true → m_shutdown_requested (between 0 s).1 = true) →
     ∀ fuel, startCrawling x between (S fuel) max_queries k w = crawl_without_iteration (S fuel) k w).
Proof.
  split; [intros Hstop; split_all|intros Hstop Hkept fuel].
  - apply (metadata_loop_stopped (S j) 0 j); done || lia.
  - apply (concurrent_loop_stopped (S j) 0 j); done || lia.
  - apply (sequential_loop_stopped (S j) 0 j); done || lia.
  - unfold startCrawling, crawl_without_iteration. cbv zeta. set (k0 := k <| m_running := true |>).
    assert (m_shutdown_requested k0 = true) as Hk0 by done. clearbody k0. destruct (m_metadata_only_mode k0).
    + pose proof (requests_keep_flag k0 w) as Hk1. rewrite Hk0 in Hk1. destruct (request_all_hashes k0 w) as [k1 w1].
      destruct (steady_now w1) as [now w2]. destruct (stopped_at_once fuel now 0 0 k1 w2) as (-> & _ & _); [by apply Hkept|].
      cbn [snd mbind option_bind]. by destruct (between 0 (k1, w2)).
    + destruct (steady_now w) as [now w2]. cbn [snd]. destruct (m_use_concurrent_mode k0).
      * set (k1 := k0 <| m_concurrent_dht ::= _ |>). destruct (stopped_at_once fuel now max_queries 0 k1 w2) as (_ & -> & _); [by apply Hkept|].
        cbn [mbind option_bind]. by destruct (between 0 (k1, w2)).
      * destruct (stopped_at_once fuel now max_queries 0 k0 w2) as (_ & _ & ->); [by apply Hkept|].
        cbn [mbind option_bind]. by destruct (between 0 (k0, w2)).
Qed.

(** ** The exit status *)

Lemma concurrent_loop_returns fuel i max_queries k w : (∀ w, Forall alert_hash_ok (pop_alerts (H := H) w).1) →
  (∀ i s, crawler_inv s.1 → crawler_inv (between i s).1) → crawler_inv k →
  ∀ r k' w', concurrent_loop x between fuel i max_queries k w = Some (r, k', w') → r = Returned tt.
Proof.
  intros Hhash Hbetween. revert i k w. induction fuel as [|fuel IH]; intros i k w Hk r k' w'; [done|]. cbn [concurrent_loop].
  pose proof (Hbetween i (k, w) Hk) as Hk1. destruct (between i (k, w)) as [k1 w1]. simpl in Hk1.
  destruct (negb _); [intros [= <- _ _]; done|].
  pose proof (concurrent_iteration_inv x dht_put (Z.of_nat i) k1 w1 (Hhash w1) Hk1) as Hit.
  destruct (concurrent_iteration _ _ _ k1 w1) as [[r1 k2] w2]. destruct Hit as (-> & Hk2 & _). by apply IH.
Qed.

(** C18: When the process ends, its exit status is decided by the command line:
    0 for the usage text and after every crawl, 1 for a number of workers out
    of range or an unknown argument, and an exception of [std::stoi] leaves
    [main].  No crawl ends with an error, whatever the session and the
    database answer: the exception handler of [main] is never reached. *)
Theorem exit_status_of_command_line fuel mysql_init read_file args w e (left : option (crawler H)) w' :
  (∀ w, Forall alert_hash_ok (pop_alerts (H := H) w).1) →
  (∀ i s, crawler_inv s.1 → crawler_inv (between i s).1) →
  run_program x between fuel mysql_init read_file args w = Some (e, left, w') →
  e = match parse_command_line args with
      | ShowUsage _ | Run _ _ => Exit 0
      | BadWorkers | UnknownArgument _ => Exit 1
      | Uncaught what => Terminated what
      end.
Proof.
  intros Hhash Hbetween. unfold run_program. destruct (parse_command_line args) as [|what| |what|config max_queries];
    [intros [= <- _ _]; done..|].
  pose proof (initialize_inv read_file (new_crawler mysql_init config) w (new_crawler_inv mysql_init config)) as Hk0.
  destruct (initialize read_file (new_crawler mysql_init config) w) as [k0 w0]. simpl in Hk0.
  intros ([[r k1] w1] & Hstart & Hend)%bind_Some. assert (r = Returned tt) as ->.
  { clear Hend. unfold startCrawling in Hstart. destruct (m_metadata_only_mode _).
    - destruct (request_all_hashes _ w0) as [k2 w2]. destruct (steady_now w2) as [start w3].
      apply bind_Some in Hstart as ([k3 w4] & _ & ([k4 w5] & _ & [= <- _ _])%bind_Some). done.
    - destruct (steady_now w0) as [start w2]. destruct (m_use_concurrent_mode _).
      + apply bind_Some in Hstart as ([[r2 k2] w3] & Hloop & Hstart).
        apply concurrent_loop_returns in Hloop; [|done|done|by apply (crawler_inv_frame k0)]. subst r2.
        apply bind_Some in Hstart as ([k3 w4] & _ & [= <- _ _]). done.
      + apply bind_Some in Hstart as ([k2 w3] & _ & [= <- _ _]). done. }
  apply bind_Some in Hend as ([k2 w2] & _ & [= <- _ _]). done.
Qed.
End Ends.

(** ** Witnesses

    On the simulated world, where a pause moves the clock. *)

#[export] Instance sim_program : ProgramWorld Sim.world := {|
  sleep_for ms w := w <| Sim.time ::= Z.add (milliseconds ms) |>;
  dht_put _ w := (Returned tt, w);
  random_target w := (pad_zeros 20 (to_string (Sim.time w)), w <| Sim.time ::= Z.succ |>);
|}.
#[export] Instance sim_time : TimePasses Sim.world string.
Proof.
  split; intros; simpl; try lia.
  case_match; simpl; lia.
Qed.

(** Nothing happens between the iterations, but that the pool's workers end
    when they are told to. *)
Definition workers_end (_ : nat) (s : crawler string * Sim.world) : crawler string * Sim.world :=
  match m_metadata_worker_pool s.1 with
  | Some p =>
    if p_shutdown p then
      match pool_run (EWorker <$> seq 0 10) (p, s.2) with
      | Some (p, w) => (s.1 <| m_metadata_worker_pool := Some p |>, w)
      | None => s
      end
    else s
  | None => s
  end.
Definition metadata_crawler : crawler string * Sim.world :=
  initialize (λ _, None) (new_crawler true (default_MySQLConfig <| metadata_hashes := "0123456789abcdef0123456789abcdef01234567" |>))
    (Sim.initial 0).

Lemma metadata_wait_ends_witness :
  m_metadata_hash_list metadata_crawler.1 = ["0123456789abcdef0123456789abcdef01234567"]
  ∧ let '(k, w) := request_all_hashes (metadata_crawler.1 <| m_running := true |>) metadata_crawler.2 in
    let '(start_time, w) := steady_now w in
    is_Some (metadata_loop 0 (λ _ s, s) 3001 0 start_time k w).
Proof.
  split; [vm_compute; reflexivity|].
  apply (metadata_wait_ends 0 (λ _ s, s) metadata_crawler.1 metadata_crawler.2). intros _ s. reflexivity.
Defined.

(** Ctrl-C before the fourth test; and before the crawl. *)
Definition interrupted (i : nat) (s : crawler string * Sim.world) : crawler string * Sim.world :=
  (if 3 <=? i then default s.1 (signalHandler 2 (Some s.1)) else s.1, s.2).

Lemma shutdown_ends_loops_witness :
  let '(k, w) := metadata_crawler in
  is_Some (metadata_loop 0 interrupted 4 0 0 (k <| m_running := true |>) w)
  ∧ metadata_loop 0 interrupted 3 0 0 (k <| m_running := true |>) w = None
  ∧ startCrawling 0 workers_end 1 0 (stop k) w = crawl_without_iteration workers_end 1 (stop k) w
  ∧ is_Some (crawl_without_iteration workers_end 1 (stop k) w).
Proof.
  destruct metadata_crawler as [k w] eqn:Hk.
  assert (Hstop : ∀ s, m_shutdown_requested (interrupted 3 s).1 = true) by (intros s; reflexivity).
  split; [by destruct (proj1 (shutdown_ends_loops 0 interrupted 3 0 0 0 (k <| m_running := true |>) w) Hstop)|].
  split; [vm_compute in Hk; injection Hk as <- <-; vm_compute; reflexivity|]. split.
  - apply (proj2 (shutdown_ends_loops 0 workers_end 0 0 0 0 (stop k) w)); [reflexivity|].
    intros [k1 w1] Hk1. unfold workers_end. repeat case_match; done.
  - vm_compute in Hk. injection Hk as <- <-. vm_compute. eexists. reflexivity.
Defined.

(** A session that reports nothing. *)
Definition quiet_alerts : Alerts Sim.world string := {|
  pop_alerts w := ([], w);
  torrent_file _ _ := Returned None;
  handle_info_hash _ _ := Returned "";
  rand w := (Sim.time w, w <| Sim.time ::= Z.succ |>);
|}.

Lemma workers_end_inv i s : crawler_inv s.1 → crawler_inv (workers_end i s).1.
Proof.
  destruct s as [k w]. unfold workers_end. cbn [fst snd]. intros Hk. destruct (m_metadata_worker_pool k) as [p|] eqn:Hp; [|done].
  destruct (p_shutdown p); [|done]. destruct (pool_run (EWorker <$> seq 0 10) (p, w)) as [[p' w']|] eqn:Hrun; [|done].
  pose proof (ci_pool _ Hk p Hp) as Hidle. destruct Hk as [Hdis Hdl Hpool Hobs]. constructor; try done. simpl.
  intros ? [= <-]. apply (idle_worker_run (EWorker <$> seq 0 10) p w (p', w')); [|done|done].
  apply Forall_fmap, Forall_forall. intros j _. by exists j.
Qed.


Local Abbreviation quiet_run := (@run_program _ _ Sim.sim_session quiet_alerts Sim.sim_database sim_program 0%Z workers_end 5 true
  (λ _, None) ["--sequential"; "--queries"; "2"] (Sim.initial 0)).



Lemma exit_status_of_command_line_witness :
  ∃ left w',
    @run_program _ _ Sim.sim_session quiet_alerts Sim.sim_database sim_program 0 workers_end 5 true (λ _, None)
      ["--sequential"; "--queries"; "2"] (Sim.initial 0) = Some (Exit 0, left, w').
Proof.
  destruct (@run_program _ _ Sim.sim_session quiet_alerts Sim.sim_database sim_program 0 workers_end 5 true (λ _, None)
    ["--sequential"; "--queries"; "2"] (Sim.initial 0)) as [[[e left] w']|] eqn:Hrun.
  - exists left, w'.
    rewrite (@exit_status_of_command_line _ _ _ quiet_alerts _ sim_program 0 workers_end 5 true (λ _, None)
      ["--sequential"; "--queries"; "2"] (Sim.initial 0) e left w' (λ w, List.Forall_nil _) workers_end_inv Hrun).
    reflexivity.
  - vm_compute in Hrun. discriminate Hrun.
Defined.
