(* ===== verification/RoutingTable.v ===== *)
(** * The routing table

    Models [RoutingTableManager] of [src/src/routing_table_manager.cpp] and
    [src/src/routing_table_manager.hpp]: XOR distances, the node registry and
    the buckets, their splitting and merging, the quality of a node, expiry,
    and the monitor thread's pass over the buckets.

    A [std::shared_ptr<DHTNode>] is a location ([loc]) of a store of nodes:
    the registry and the buckets hold locations, so that a change made
    through one is seen through the other, and [std::remove] and [std::find]
    compare locations.  A bucket is reached through the map of buckets alone
    and is kept there by value.  Every operation holds the mutex of the
    buckets while it runs and is one step here; [now] is the system clock,
    read as often and in the order in which the code reads it.  The
    [metadata] maps of nodes and buckets, which nothing reads, and the
    members of the statistics nothing writes are left out. *)

From S2P Require Import Prelude Numeric.

(** ** Data *)

Inductive NodeStatus := GOOD | UNKNOWN | BAD | QUESTIONABLE | EVICTED.
Inductive BucketStatus := ACTIVE | INACTIVE | FULL | SPLIT | MERGED.

#[export] Instance NodeStatus_eq_dec : EqDecision NodeStatus.
Proof. solve_decision. Defined.
#[export] Instance BucketStatus_eq_dec : EqDecision BucketStatus.
Proof. solve_decision. Defined.

(** Durations are in milliseconds. *)
Record RoutingConfig := mk_RoutingConfig {
  max_routing_table_size : Z;
  max_bucket_size : Z;
  min_bucket_size : Z;
  node_timeout : Z;
  ping_interval : Z;
  enable_bucket_splitting : bool;
  enable_bucket_merging : bool;
  enable_node_eviction : bool;
  enable_quality_assessment : bool;
  good_threshold : double;
  bad_threshold : double;
  max_eviction_attempts : Z;
  eviction_delay : Z;
}.
#[export] Instance eta_RoutingConfig : Eta RoutingConfig :=
  λ r, mk_RoutingConfig (max_routing_table_size r) (max_bucket_size r) (min_bucket_size r)
         (node_timeout r) (ping_interval r) (enable_bucket_splitting r) (enable_bucket_merging r)
         (enable_node_eviction r) (enable_quality_assessment r) (good_threshold r)
         (bad_threshold r) (max_eviction_attempts r) (eviction_delay r).

Definition default_RoutingConfig : RoutingConfig :=
  mk_RoutingConfig 8000 8 4 300000 300000 true true true true (double_lit 8 10) (double_lit 3 10) 3 1000.

Abbreviation loc := positive.

Record DHTNode := mk_DHTNode {
  node_id : string;
  ip_address : string;
  port : Z;
  n_status : NodeStatus;
  last_seen : Z;
  last_ping : Z;
  last_response : Z;
  distance : string;
  n_bucket_index : Z;
  n_bucket_distance : Z;
  quality_score : double;
  ping_attempts : Z;
  successful_pings : Z;
  failed_pings : Z;
  n_avg_response_time : Z;
  min_response_time : Z;
  max_response_time : Z;
  total_queries : Z;
  successful_queries : Z;
  failed_queries : Z;
  timeout_queries : Z;
  is_evictable : bool;
  eviction_time : Z;
  eviction_attempts : Z;
}.
#[export] Instance eta_DHTNode : Eta DHTNode :=
  λ r, mk_DHTNode (node_id r) (ip_address r) (port r) (n_status r) (last_seen r) (last_ping r)
         (last_response r) (distance r) (n_bucket_index r) (n_bucket_distance r)
         (quality_score r) (ping_attempts r) (successful_pings r) (failed_pings r)
         (n_avg_response_time r) (min_response_time r) (max_response_time r) (total_queries r)
         (successful_queries r) (failed_queries r) (timeout_queries r) (is_evictable r)
         (eviction_time r) (eviction_attempts r).

Record RoutingBucket := mk_RoutingBucket {
  b_bucket_index : Z;
  b_bucket_distance : Z;
  b_status : BucketStatus;
  nodes : list loc;
  last_updated : Z;
  last_split : Z;
  last_merge : Z;
  total_nodes_added : Z;
  total_nodes_removed : Z;
  total_nodes_evicted : Z;
  b_avg_quality_score : double;
  b_avg_response_time : Z;
}.
#[export] Instance eta_RoutingBucket : Eta RoutingBucket :=
  λ r, mk_RoutingBucket (b_bucket_index r) (b_bucket_distance r) (b_status r) (nodes r)
         (last_updated r) (last_split r) (last_merge r) (total_nodes_added r)
         (total_nodes_removed r) (total_nodes_evicted r) (b_avg_quality_score r) (b_avg_response_time r).

Record RoutingTableStatistics := mk_RoutingTableStatistics {
  st_total_nodes : Z;
  st_good_nodes : Z;
  st_unknown_nodes : Z;
  st_bad_nodes : Z;
  st_questionable_nodes : Z;
  st_evicted_nodes : Z;
  st_total_buckets : Z;
  st_active_buckets : Z;
  st_full_buckets : Z;
  st_split_buckets : Z;
  st_merged_buckets : Z;
  st_avg_quality_score : double;
  st_avg_response_time : Z;
  st_last_update : Z;
}.
#[export] Instance eta_RoutingTableStatistics : Eta RoutingTableStatistics :=
  λ r, mk_RoutingTableStatistics (st_total_nodes r) (st_good_nodes r) (st_unknown_nodes r)
         (st_bad_nodes r) (st_questionable_nodes r) (st_evicted_nodes r) (st_total_buckets r)
         (st_active_buckets r) (st_full_buckets r) (st_split_buckets r) (st_merged_buckets r)
         (st_avg_quality_score r) (st_avg_response_time r) (st_last_update r).

Definition empty_statistics : RoutingTableStatistics :=
  mk_RoutingTableStatistics 0 0 0 0 0 0 0 0 0 0 0 (double_of_int 0) 0 0.

(** [node_store] and [next_loc] are the heap the shared pointers live in. *)
Record routing_table := mk_routing_table {
  config_ : RoutingConfig;
  our_node_id_ : string;
  routing_buckets_ : gmap Z RoutingBucket;
  node_registry_ : gmap string loc;
  stats_ : RoutingTableStatistics;
  node_store : gmap loc DHTNode;
  next_loc : loc;
}.
#[export] Instance eta_routing_table : Eta routing_table :=
  λ r, mk_routing_table (config_ r) (our_node_id_ r) (routing_buckets_ r) (node_registry_ r)
         (stats_ r) (node_store r) (next_loc r).

(** ** Distances *)

Definition xor_char (a b : ascii) : ascii := byte_of (Z.lxor (byte_val a) (byte_val b)).

Definition calculateXORDistance (node_id1 node_id2 : string) : string :=
  if String.length node_id1 =? String.length node_id2
  then of_chars (zip_with xor_char (chars node_id1) (chars node_id2))
  else "".

(** [__builtin_clz] of a non-zero [unsigned int]. *)
Definition builtin_clz (x : Z) : Z := (31 - Z.log2 x)%Z.

(** The first non-zero byte, from byte [i] on. *)
Fixpoint first_nonzero (i : Z) (d : list ascii) : option (Z * Z) :=
  match d with
  | [] => None
  | c :: d => if (byte_val c =? 0)%Z then first_nonzero (i + 1) d else Some (i, byte_val c)
  end.

Definition calculateBucketIndex (our_node_id node_id : string) : Z :=
  match chars (calculateXORDistance our_node_id node_id) with
  | [] => -1
  | d =>
    match first_nonzero 0 d with
    | Some (i, c) => int_of_Z (i * 8 + builtin_clz c)
    | None => 0
    end
  end.

(** The shift of an [int] keeps the low 32 bits. *)
Definition calculateBucketDistance (our_node_id node_id : string) : Z :=
  match chars (calculateXORDistance our_node_id node_id) with
  | [] => -1
  | d => foldl (λ dist c, int_of_Z (Z.lor (Z.shiftl dist 8) (byte_val c))) 0%Z d
  end.

(** [char] is signed on the platforms the program is built for. *)
Definition signed_char (c : ascii) : Z :=
  if (byte_val c <? 128)%Z then byte_val c else (byte_val c - 256)%Z.

Fixpoint distance_lt (d1 d2 : list ascii) : bool :=
  match d1, d2 with
  | a :: d1, b :: d2 =>
    if (signed_char a <? signed_char b)%Z then true
    else if (signed_char b <? signed_char a)%Z then false
    else distance_lt d1 d2
  | _, _ => false
  end.

Definition isNodeCloser (our_node_id node_id1 node_id2 : string) : bool :=
  let distance1 := calculateXORDistance our_node_id node_id1 in
  let distance2 := calculateXORDistance our_node_id node_id2 in
  if decide (distance1 = "") then false
  else if decide (distance2 = "") then false
  else distance_lt (chars distance1) (chars distance2).

(** ** Validation *)

Definition isValidNodeId (node_id : string) : bool := String.length node_id =? 20.

Definition isValidIPAddress (ip_address : string) : bool :=
  negb (bool_decide (ip_address = "")) && bool_decide (is_Some (find_char "." (chars ip_address))).

Definition isValidPort (port : Z) : bool := (0 <? port)%Z && (port <=? 65535)%Z.

(** ** Buckets *)

Section Operations.
Context {W : Type} (now : W → Z * W).
Implicit Types (rt : routing_table) (l : loc) (w : W).

Definition createBucket (bucket_index bucket_distance : Z) rt w : routing_table * W :=
  let '(t1, w) := now w in
  let '(t2, w) := now w in
  let '(t3, w) := now w in
  let bucket := mk_RoutingBucket bucket_index bucket_distance ACTIVE [] t1 t2 t3 0 0 0 (double_of_int 0) 0 in
  (rt <| routing_buckets_ ::= <[bucket_index := bucket]> |>, w).

Definition destroyBucket (bucket_index : Z) rt : routing_table :=
  rt <| routing_buckets_ ::= delete bucket_index |>.

Definition initializeRoutingBuckets rt w : routing_table * W :=
  foldl (λ s i, createBucket i i s.1 s.2) (rt, w) [0; 1; 2; 3; 4; 5; 6; 7]%Z.

(** The constructor; the monitor thread is [monitorRoutingTable] and the
    operations after it. *)
Definition new_routing_table (our_node_id : string) (config : RoutingConfig) w : routing_table * W :=
  initializeRoutingBuckets (mk_routing_table config our_node_id ∅ ∅ empty_statistics ∅ 1%positive) w.

Definition alter_node l (f : DHTNode → DHTNode) rt : routing_table :=
  rt <| node_store ::= alter f l |>.

Definition alter_bucket (k : Z) (f : RoutingBucket → RoutingBucket) rt : routing_table :=
  rt <| routing_buckets_ ::= alter f k |>.

(** [nodes.erase(std::remove(nodes.begin(), nodes.end(), node), nodes.end())]
    in the bucket of [node], if there is one. *)
Definition remove_from_bucket l (node : DHTNode) rt : routing_table :=
  if (0 <=? n_bucket_index node)%Z
  then alter_bucket (n_bucket_index node) (λ b, b <| nodes ::= filter (λ l', l' ≠ l) |>) rt
  else rt.

Definition shouldSplitBucket (config : RoutingConfig) (bucket : RoutingBucket) : bool :=
  (max_bucket_size config <=? Z.of_nat (length (nodes bucket)))%Z && enable_bucket_splitting config.

Definition shouldMergeBucket (config : RoutingConfig) (bucket : RoutingBucket) : bool :=
  (Z.of_nat (length (nodes bucket)) <? min_bucket_size config)%Z && enable_bucket_merging config.

(** Whether the node at [l] has the bucket index [index]. *)
Definition node_has_index rt (index : Z) l : bool :=
  match node_store rt !! l with Some n => (n_bucket_index n =? index)%Z | None => false end.

(** [splitBucket] of the bucket the map holds at [k]. *)
Definition splitBucket (k : Z) rt w : routing_table * W :=
  match routing_buckets_ rt !! k with
  | None => (rt, w)
  | Some bucket =>
    if negb (shouldSplitBucket (config_ rt) bucket) then (rt, w)
    else
      let new_bucket_index := (b_bucket_index bucket + 1)%Z in
      let '(rt, w) := createBucket new_bucket_index new_bucket_index rt w in
      let moved := filter (λ l, node_has_index rt new_bucket_index l = true) (nodes bucket) in
      let kept := filter (λ l, node_has_index rt new_bucket_index l = false) (nodes bucket) in
      let rt := alter_bucket new_bucket_index (λ b, b <| nodes ::= (λ ns, ns ++ moved) |>) rt in
      let '(t, w) := now w in
      (alter_bucket k (λ b, b <| nodes := kept |> <| b_status := SPLIT |> <| last_split := t |>) rt, w)
  end.

(** [mergeBucket] of the bucket the map holds at [k]; the boolean tells
    whether the map's entry [k] has been erased. *)
Definition mergeBucket (k : Z) rt w : bool * routing_table * W :=
  match routing_buckets_ rt !! k with
  | None => (false, rt, w)
  | Some bucket =>
    if negb (shouldMergeBucket (config_ rt) bucket) then (false, rt, w)
    else
      let parent_bucket_index := (b_bucket_index bucket - 1)%Z in
      match routing_buckets_ rt !! parent_bucket_index with
      | None => (false, rt, w)
      | Some _ =>
        let rt := alter_bucket parent_bucket_index
                    (λ b, b <| nodes ::= (λ ns, ns ++ nodes bucket) |>) rt in
        let rt := foldl (λ rt l, alter_node l (λ n, n <| n_bucket_index := parent_bucket_index |>) rt)
                    rt (nodes bucket) in
        let rt := destroyBucket (b_bucket_index bucket) rt in
        let '(t, w) := now w in
        (bool_decide (b_bucket_index bucket = k),
         alter_bucket parent_bucket_index (λ b, b <| b_status := MERGED |> <| last_merge := t |>) rt, w)
      end
  end.

Definition forceBucketSplit (bucket_index : Z) rt w : bool * routing_table * W :=
  match routing_buckets_ rt !! bucket_index with
  | Some _ => let '(rt, w) := splitBucket bucket_index rt w in (true, rt, w)
  | None => (false, rt, w)
  end.

Definition forceBucketMerge (bucket_index : Z) rt w : bool * routing_table * W :=
  match routing_buckets_ rt !! bucket_index with
  | Some _ => let '(_, rt, w) := mergeBucket bucket_index rt w in (true, rt, w)
  | None => (false, rt, w)
  end.

(** ** Nodes *)

Definition determineNodeStatus (config : RoutingConfig) (node : DHTNode) : NodeStatus :=
  if double_le (good_threshold config) (quality_score node) then GOOD
  else if double_le (quality_score node) (bad_threshold config) then BAD
  else UNKNOWN.

Definition updateNodeQuality (config : RoutingConfig) (success : bool) (response_time : Z)
    (node : DHTNode) : DHTNode :=
  let node :=
    if success
    then node <| successful_pings ::= Z.succ |> <| n_avg_response_time := response_time |>
              <| min_response_time ::= (λ t, Z.min t response_time) |>
              <| max_response_time ::= (λ t, Z.max t response_time) |>
    else node <| failed_pings ::= Z.succ |> in
  let node := node <| ping_attempts ::= Z.succ |> in
  let node :=
    if (0 <? ping_attempts node)%Z
    then node <| quality_score := double_div (double_of_int (successful_pings node))
                                    (double_of_int (ping_attempts node)) |>
    else node in
  node <| n_status := determineNodeStatus config node |>.

Definition addNode (node_id ip_address : string) (port : Z) rt w : bool * routing_table * W :=
  if negb (isValidNodeId node_id) || negb (isValidIPAddress ip_address) || negb (isValidPort port)
  then (false, rt, w)
  else match node_registry_ rt !! node_id with
  | Some _ => (false, rt, w)
  | None =>
    let '(seen, w) := now w in
    let '(eviction, w) := now w in
    let index := calculateBucketIndex (our_node_id_ rt) node_id in
    let node := mk_DHTNode node_id ip_address port UNKNOWN seen seen seen
                  (calculateXORDistance (our_node_id_ rt) node_id) index
                  (calculateBucketDistance (our_node_id_ rt) node_id)
                  (double_lit 1 2) 0 0 0 0 0 0 0 0 0 0 true eviction 0 in
    let l := next_loc rt in
    let rt := rt <| node_store ::= <[l := node]> |> <| next_loc ::= Pos.succ |>
                 <| node_registry_ ::= <[node_id := l]> |> in
    if (0 <=? index)%Z then
      match routing_buckets_ rt !! index with
      | Some _ =>
        let '(updated, w) := now w in
        (true, alter_bucket index
                 (λ b, b <| nodes ::= (λ ns, ns ++ [l]) |> <| last_updated := updated |>) rt, w)
      | None => (true, rt, w)
      end
    else (true, rt, w)
  end.

Definition addNodeWithQuality (node_id ip_address : string) (port : Z) (score : double)
    (response_time : Z) rt w : bool * routing_table * W :=
  match addNode node_id ip_address port rt w with
  | (false, rt, w) => (false, rt, w)
  | (true, rt, w) =>
    match node_registry_ rt !! node_id with
    | Some l =>
      (true, alter_node l (λ n,
         updateNodeQuality (config_ rt) true response_time
           (n <| quality_score := score |> <| n_avg_response_time := response_time |>
              <| min_response_time := response_time |> <| max_response_time := response_time |>)) rt, w)
    | None => (true, rt, w)
    end
  end.

Definition removeNode (node_id : string) rt : bool * routing_table :=
  match node_registry_ rt !! node_id with
  | None => (false, rt)
  | Some l =>
    let rt := match node_store rt !! l with
              | Some node => remove_from_bucket l node rt
              | None => rt
              end in
    (true, rt <| node_registry_ ::= delete node_id |>)
  end.

Definition updateNode (node_id : string) (success : bool) (response_time : Z) rt w
    : bool * routing_table * W :=
  match node_registry_ rt !! node_id with
  | None => (false, rt, w)
  | Some l =>
    let '(seen, w) := now w in
    (true, alter_node l (λ n,
       let n := n <| last_seen := seen |> in
       let n := if success then n <| last_response := seen |> <| successful_queries ::= Z.succ |>
                else n <| failed_queries ::= Z.succ |> in
       updateNodeQuality (config_ rt) success response_time (n <| total_queries ::= Z.succ |>)) rt, w)
  end.

Definition updateNodeStatus (node_id : string) (status : NodeStatus) rt : bool * routing_table :=
  match node_registry_ rt !! node_id with
  | None => (false, rt)
  | Some l => (true, alter_node l (λ n, n <| n_status := status |>) rt)
  end.

Definition evictNode l rt w : routing_table * W :=
  let '(t, w) := now w in
  let rt := alter_node l (λ n, n <| n_status := EVICTED |> <| eviction_time := t |>
                                <| eviction_attempts ::= Z.succ |>) rt in
  match node_store rt !! l with
  | Some node => ((remove_from_bucket l node rt) <| node_registry_ ::= delete (node_id node) |>, w)
  | None => (rt, w)
  end.

Definition forceNodeEviction (node_id : string) rt w : bool * routing_table * W :=
  match node_registry_ rt !! node_id with
  | Some l => let '(rt, w) := evictNode l rt w in (true, rt, w)
  | None => (false, rt, w)
  end.

(** [std::min_element] by [last_seen]: the first of the least. *)
Fixpoint oldest rt (best : loc) (best_seen : Z) (ls : list loc) : loc :=
  match ls with
  | [] => best
  | l :: ls =>
    match node_store rt !! l with
    | Some n => if (last_seen n <? best_seen)%Z then oldest rt l (last_seen n) ls else oldest rt best best_seen ls
    | None => oldest rt best best_seen ls
    end
  end.

Definition evictable_bad rt l : bool :=
  match node_store rt !! l with
  | Some n => is_evictable n && bool_decide (n_status n = BAD)
  | None => false
  end.

(** [None] is [nullptr]. *)
Definition findEvictableNode rt (bucket : RoutingBucket) : option loc :=
  match filter (λ l, evictable_bad rt l = true) (nodes bucket) with
  | l :: _ => Some l
  | [] =>
    match nodes bucket with
    | [] => None
    | l :: ls =>
      Some (match node_store rt !! l with Some n => oldest rt l (last_seen n) ls | None => l end)
    end
  end.

(** [redistributeNodes] of the bucket the map holds at [k]. *)
Definition redistributeNodes (k : Z) rt : routing_table :=
  match routing_buckets_ rt !! k with
  | None => rt
  | Some bucket =>
    let misplaced := filter (λ l, node_has_index rt (b_bucket_index bucket) l = false) (nodes bucket) in
    let kept := filter (λ l, node_has_index rt (b_bucket_index bucket) l = true) (nodes bucket) in
    let rt := foldl (λ rt l,
                match node_store rt !! l with
                | Some n => alter_bucket (n_bucket_index n) (λ b, b <| nodes ::= (λ ns, ns ++ [l]) |>) rt
                | None => rt
                end) rt misplaced in
    alter_bucket k (λ b, b <| nodes := kept |>) rt
  end.

(** ** Expiry *)

Definition isNodeExpired rt l w : bool * W :=
  let '(t, w) := now w in
  (match node_store rt !! l with
   | Some n => (milliseconds (node_timeout (config_ rt)) <? t - last_seen n)%Z
   | None => false
   end, w).

Fixpoint erase_expired rt (ls : list loc) w : list loc * W :=
  match ls with
  | [] => ([], w)
  | l :: ls =>
    let '(expired, w) := isNodeExpired rt l w in
    let '(rest, w) := erase_expired rt ls w in
    (if expired then rest else l :: rest, w)
  end.

(** The buckets are cleaned; the registry is not touched. *)
Definition cleanupExpiredNodes rt w : routing_table * W :=
  let '(_, w) := now w in
  foldl (λ s p,
    let '(rt, w) := s in
    let '(ns, w) := erase_expired rt (nodes p.2) w in
    (alter_bucket p.1 (λ b, b <| nodes := ns |>) rt, w))
    (rt, w) (int_map_iter (routing_buckets_ rt)).

(** The registry is cleaned; the buckets are not touched. *)
Definition clearExpiredNodes rt w : Z * routing_table * W :=
  let '(_, w) := now w in
  foldl (λ s p,
    let '(count, rt, w) := s in
    let '(expired, w) := isNodeExpired rt p.2 w in
    if expired then ((count + 1)%Z, rt <| node_registry_ ::= delete p.1 |>, w) else (count, rt, w))
    (0%Z, rt, w) (map_iter (node_registry_ rt)).
Definition forceCleanup rt w : routing_table * W := let '(_, rt, w) := clearExpiredNodes rt w in (rt, w).

Definition clearRoutingTable rt w : routing_table * W :=
  initializeRoutingBuckets (rt <| node_registry_ := ∅ |> <| routing_buckets_ := ∅ |>) w.

(** Bad nodes leave the registry; the buckets keep them. *)
Definition optimize_status (config : RoutingConfig) (b : RoutingBucket) : RoutingBucket :=
  b <| b_status :=
    if (max_bucket_size config <=? Z.of_nat (length (nodes b)))%Z then FULL
    else if (Z.of_nat (length (nodes b)) <? min_bucket_size config)%Z then INACTIVE
    else ACTIVE |>.

Definition has_status rt (status : NodeStatus) l : bool :=
  match node_store rt !! l with Some n => bool_decide (n_status n = status) | None => false end.

Definition optimizeRoutingTable rt : routing_table :=
  rt <| node_registry_ := filter (λ p, has_status rt BAD p.2 = false) (node_registry_ rt) |>
     <| routing_buckets_ := optimize_status (config_ rt) <$> routing_buckets_ rt |>.

(** ** Queries *)

Definition registered rt : list loc := (map_iter (node_registry_ rt)).*2.

Definition getNode rt (id : string) : option loc := node_registry_ rt !! id.
Definition hasNode rt (id : string) : bool := bool_decide (is_Some (node_registry_ rt !! id)).
Definition isNodeGood rt (id : string) : bool :=
  match node_registry_ rt !! id with Some l => has_status rt GOOD l | None => false end.
Definition isNodeBad rt (id : string) : bool :=
  match node_registry_ rt !! id with Some l => has_status rt BAD l | None => false end.

Definition registered_node rt (id : string) : option DHTNode :=
  l ← node_registry_ rt !! id; node_store rt !! l.
Definition getNodeStatus rt (id : string) : NodeStatus :=
  match registered_node rt id with Some n => n_status n | None => UNKNOWN end.
Definition getNodeQualityScore rt (id : string) : double :=
  match registered_node rt id with Some n => quality_score n | None => double_of_int 0 end.
Definition getNodeDistance rt (id : string) : string :=
  match registered_node rt id with Some n => distance n | None => "" end.

Definition getNodesByStatus rt (status : NodeStatus) : list loc :=
  filter (λ l, has_status rt status l = true) (registered rt).
(** The count is ignored. *)
Definition getGoodNodes rt (count : Z) : list loc := getNodesByStatus rt GOOD.
Definition getNodesInBucket rt (bucket_index : Z) : list loc :=
  match routing_buckets_ rt !! bucket_index with Some b => nodes b | None => [] end.

Definition id_of rt l : string := match node_store rt !! l with Some n => node_id n | None => "" end.

(** The comparator of [getClosestNodes]; the target takes no part in it. *)
Definition closer rt (a b : loc) : bool := isNodeCloser (our_node_id_ rt) (id_of rt a) (id_of rt b).
Definition not_after rt (a b : loc) : Prop := closer rt b a = false.
#[export] Instance not_after_dec rt : RelDecision (not_after rt).
Proof. intros a b. unfold not_after. apply _. Defined.

(** [all_nodes.resize(count)] when [0 < count < size] *)
Definition resize_to (count : Z) (ls : list loc) : list loc :=
  if (0 <? count)%Z && (count <? Z.of_nat (length ls))%Z then take (Z.to_nat count) ls else ls.

Definition getClosestNodes rt (target_id : string) (count : Z) : list loc :=
  resize_to count (merge_sort (not_after rt) (registered rt)).

(** [shuffle] is [std::random_shuffle]. *)
Definition getRandomNodes (shuffle : list loc → list loc) rt (count : Z) : list loc :=
  resize_to count (shuffle (registered rt)).

Definition getNodesNeedingPing rt w : list string * W :=
  let '(t, w) := now w in
  (omap (λ p, match node_store rt !! p.2 with
              | Some n => if (milliseconds (ping_interval (config_ rt)) <? t - last_ping n)%Z
                          then Some p.1 else None
              | None => None
              end) (map_iter (node_registry_ rt)), w).

Definition getRoutingTableSize rt : Z := Z.of_nat (size (node_registry_ rt)).
Definition getBucketCount rt : Z := Z.of_nat (size (routing_buckets_ rt)).
Definition getBucket rt (bucket_index : Z) : option RoutingBucket := routing_buckets_ rt !! bucket_index.

Definition getNodeStatisticsByIP rt : gmap string Z :=
  foldl (λ stats l, match node_store rt !! l with
                    | Some n => <[ip_address n := (default 0 (stats !! ip_address n) + 1)%Z]> stats
                    | None => stats
                    end) ∅ (registered rt).

(** Total, active, good and bad nodes of every bucket; the active ones are
    never counted. *)
Definition getBucketStatistics rt : gmap Z (Z * Z * Z * Z) :=
  (λ b, (Z.of_nat (length (nodes b)), 0%Z,
         Z.of_nat (length (filter (λ l, has_status rt GOOD l = true) (nodes b))),
         Z.of_nat (length (filter (λ l, has_status rt BAD l = true) (nodes b))))) <$> routing_buckets_ rt.

(** ** Statistics *)

Definition bucket_nodes rt (b : RoutingBucket) : list DHTNode := omap (λ l, node_store rt !! l) (nodes b).

(** The nodes the statistics see: those of the buckets, in map order. *)
Definition bucketed_nodes rt : list DHTNode :=
  mjoin ((λ p, bucket_nodes rt p.2) <$> int_map_iter (routing_buckets_ rt)).

Definition count_nodes (status : NodeStatus) (ns : list DHTNode) : Z :=
  Z.of_nat (length (filter (λ n, n_status n = status) ns)).
Definition count_buckets rt (p : RoutingBucket → bool) : Z :=
  Z.of_nat (length (filter (λ kb, p kb.2 = true) (int_map_iter (routing_buckets_ rt)))).

(** The averages keep their old values when there is nothing to average. *)
Definition updateStatistics rt w : routing_table * W :=
  let ns := bucketed_nodes rt in
  let total := Z.of_nat (length ns) in
  let quality := foldl (λ acc n, double_add acc (quality_score n)) (double_of_int 0) ns in
  let timed := filter (λ n, (0 < n_avg_response_time n)%Z) ns in
  let '(t, w) := now w in
  (rt <| stats_ ::= (λ st, mk_RoutingTableStatistics total
      (count_nodes GOOD ns) (count_nodes UNKNOWN ns) (count_nodes BAD ns)
      (count_nodes QUESTIONABLE ns) (count_nodes EVICTED ns)
      (count_buckets rt (λ _, true))
      (count_buckets rt (λ b, bool_decide (b_status b = ACTIVE)))
      (count_buckets rt (λ b, (max_bucket_size (config_ rt) <=? Z.of_nat (length (nodes b)))%Z))
      (count_buckets rt (λ b, bool_decide (b_status b = SPLIT)))
      (count_buckets rt (λ b, bool_decide (b_status b = MERGED)))
      (if (0 <? total)%Z then double_div quality (double_of_int total) else st_avg_quality_score st)
      (if bool_decide (timed = []) then st_avg_response_time st
       else Z.quot (sumZ n_avg_response_time timed) (Z.of_nat (length timed)))
      t) |>, w).

Definition resetStatistics rt : routing_table := rt <| stats_ := empty_statistics |>.
Definition updateConfig (config : RoutingConfig) rt : routing_table := rt <| config_ := config |>.
Definition setMaxRoutingTableSize (max_size : Z) rt : routing_table :=
  rt <| config_ ::= (λ c, c <| max_routing_table_size := max_size |>) |>.

Definition getRoutingEfficiency rt : double :=
  if (st_total_nodes (stats_ rt) =? 0)%Z then double_of_int 0
  else double_div (double_of_int (st_good_nodes (stats_ rt))) (double_of_int (st_total_nodes (stats_ rt))).

Definition getNodeUtilization rt : double :=
  if (max_routing_table_size (config_ rt) =? 0)%Z then double_of_int 0
  else double_div (double_of_int (st_total_nodes (stats_ rt)))
         (double_of_int (max_routing_table_size (config_ rt))).

Definition getRoutingTableRecommendations rt : list string :=
  (if double_lt (double_of_int (getRoutingTableSize rt))
        (double_mul (double_of_int (max_routing_table_size (config_ rt))) (double_lit 1 2))
   then ["Consider adding more bootstrap nodes to increase routing table size"] else [])
  ++ (if double_lt (getRoutingEfficiency rt) (double_lit 7 10)
      then ["Routing efficiency is low, consider improving node quality assessment"] else [])
  ++ (if double_lt (double_lit 9 10) (getNodeUtilization rt)
      then ["Routing table is nearly full, consider increasing max size or improving eviction"] else []).

(** ** Integrity and repair *)

(** Every registered node whose bucket exists is in it. *)
Definition node_in_place rt l : bool :=
  match node_store rt !! l with
  | Some n =>
    if (0 <=? n_bucket_index n)%Z then
      match routing_buckets_ rt !! n_bucket_index n with
      | Some b => bool_decide (l ∈ nodes b)
      | None => true
      end
    else true
  | None => true
  end.

Definition validateRoutingTableIntegrity rt : bool := forallb (node_in_place rt) (registered rt).

Definition getRoutingTableIssues rt : list string :=
  (if negb (validateRoutingTableIntegrity rt) then ["Routing table integrity check failed"] else [])
  ++ (if double_lt (getRoutingEfficiency rt) (double_lit 1 2) then ["Low routing efficiency"] else [])
  ++ (if double_lt (double_lit 95 100) (getNodeUtilization rt) then ["Routing table nearly full"] else []).

Definition repairRoutingTable rt w : Z * routing_table * W :=
  let '(repaired, rt, w) :=
    if negb (validateRoutingTableIntegrity rt)
    then let '(rt, w) := clearRoutingTable rt w in (1%Z, rt, w)
    else (0%Z, rt, w) in
  if double_lt (getRoutingEfficiency rt) (double_lit 1 2)
  then let '(cleared, rt, w) := clearExpiredNodes rt w in ((repaired + cleared)%Z, rt, w)
  else (repaired, rt, w).

(** ** The monitor's pass over the buckets

    The loop [for (auto& pair : routing_buckets_)] keeps an iterator to the
    current entry while [splitBucket] inserts entries (which leaves it valid)
    and [mergeBucket] may erase the current one: its increment is then
    undefined behaviour. *)

Inductive monitor_result :=
  | Finished (rt : routing_table) (w : W)
  | Undefined
  | OutOfFuel.

Fixpoint monitor_from (fuel : nat) (k : Z) rt w : monitor_result :=
  match fuel with
  | O => OutOfFuel
  | S fuel =>
    match routing_buckets_ rt !! k with
    | None => Undefined
    | Some bucket =>
      let '(erased, rt, w) :=
        if shouldSplitBucket (config_ rt) bucket
        then let '(rt, w) := splitBucket k rt w in (false, rt, w)
        else if shouldMergeBucket (config_ rt) bucket then mergeBucket k rt w
        else (false, rt, w) in
      if erased : bool then Undefined
      else match next_key k (routing_buckets_ rt) with
      | Some k' => monitor_from fuel k' rt w
      | None => Finished rt w
      end
    end
  end.

Definition monitorRoutingTable (fuel : nat) rt w : monitor_result :=
  match head ((int_map_iter (routing_buckets_ rt)).*1) with
  | Some k => monitor_from fuel k rt w
  | None => Finished rt w
  end.

(** One round of [routingMonitorLoop] that is not stopped. *)
Definition monitor_round (fuel : nat) rt w : monitor_result :=
  match monitorRoutingTable fuel rt w with
  | Finished rt w =>
    let '(rt, w) := cleanupExpiredNodes rt w in
    let '(rt, w) := updateStatistics rt w in
    Finished rt w
  | r => r
  end.

(** ** Runs: the public operations that change the table, in any order *)

Inductive table_op :=
  | OpAdd (id ip : string) (port : Z)
  | OpAddWithQuality (id ip : string) (port : Z) (score : double) (response_time : Z)
  | OpRemove (id : string)
  | OpUpdate (id : string) (success : bool) (response_time : Z)
  | OpStatus (id : string) (status : NodeStatus)
  | OpSplit (bucket_index : Z)
  | OpMerge (bucket_index : Z)
  | OpEvict (id : string)
  | OpCleanup
  | OpClearExpired
  | OpClear
  | OpOptimize
  | OpRepair
  | OpStatistics
  | OpResetStatistics
  | OpConfig (config : RoutingConfig)
  | OpMaxSize (max_size : Z).

Definition run_op (op : table_op) rt w : routing_table * W :=
  match op with
  | OpAdd id ip port => let '(_, rt, w) := addNode id ip port rt w in (rt, w)
  | OpAddWithQuality id ip port score t => let '(_, rt, w) := addNodeWithQuality id ip port score t rt w in (rt, w)
  | OpRemove id => ((removeNode id rt).2, w)
  | OpUpdate id success t => let '(_, rt, w) := updateNode id success t rt w in (rt, w)
  | OpStatus id status => ((updateNodeStatus id status rt).2, w)
  | OpSplit k => let '(_, rt, w) := forceBucketSplit k rt w in (rt, w)
  | OpMerge k => let '(_, rt, w) := forceBucketMerge k rt w in (rt, w)
  | OpEvict id => let '(_, rt, w) := forceNodeEviction id rt w in (rt, w)
  | OpCleanup => cleanupExpiredNodes rt w
  | OpClearExpired => let '(_, rt, w) := clearExpiredNodes rt w in (rt, w)
  | OpClear => clearRoutingTable rt w
  | OpOptimize => (optimizeRoutingTable rt, w)
  | OpRepair => let '(_, rt, w) := repairRoutingTable rt w in (rt, w)
  | OpStatistics => updateStatistics rt w
  | OpResetStatistics => (resetStatistics rt, w)
  | OpConfig config => (updateConfig config rt, w)
  | OpMaxSize max_size => (setMaxRoutingTableSize max_size rt, w)
  end.

Definition run_ops (ops : list table_op) (s : routing_table * W) : routing_table * W :=
  foldl (λ s op, run_op op s.1 s.2) s ops.
End Operations.
