(* ===== verification/RoutingFacts.v ===== *)
(** * Correctness of the routing table

    Theorems about [RoutingTable]: the well-formedness of the table and its
    preservation by every operation, the order of the closest nodes, what
    adding and removing do, and why the buckets stay empty. *)

From S2P Require Import Prelude Numeric RoutingTable.

(** ** XOR distances *)

Lemma length_xor (a b : string) :
  String.length a = String.length b → String.length (calculateXORDistance a b) = String.length a.
Proof.
  intros Hl. unfold calculateXORDistance. rewrite <-Hl, Nat.eqb_refl, length_of_chars.
  rewrite length_zip_with, !length_chars. lia.
Qed.

Lemma byte_val_xor a b : byte_val (xor_char a b) = Z.lxor (byte_val a) (byte_val b).
Proof.
  unfold xor_char. apply byte_val_of.
  pose proof (byte_val_bound a). pose proof (byte_val_bound b).
  split; [apply Z.lxor_nonneg; lia|]. destruct (decide (Z.lxor (byte_val a) (byte_val b) = 0%Z)) as [->|Hne]; [done|].
  apply (Z.log2_lt_pow2 _ 8); [assert (0 ≤ Z.lxor (byte_val a) (byte_val b))%Z by (apply Z.lxor_nonneg; lia); lia|].
  eapply Z.le_lt_trans; [apply Z.log2_lxor; lia|].
  assert (∀ x, (0 ≤ x < 256)%Z → (Z.log2 x < 8)%Z) as Hlog.
  { intros x Hx. destruct (decide (x = 0%Z)) as [->|]; [done|]. apply Z.log2_lt_pow2; lia. }
  apply Z.max_lub_lt; apply Hlog; lia.
Qed.

Lemma byte_val_inj a b : byte_val a = byte_val b → a = b.
Proof. intros H. by rewrite <-(byte_of_val a), H, byte_of_val. Qed.

Lemma xor_char_inj a b c : xor_char a b = xor_char a c → b = c.
Proof.
  intros H%(f_equal byte_val). rewrite !byte_val_xor in H. apply byte_val_inj.
  apply (f_equal (Z.lxor (byte_val a))) in H.
  by rewrite <-!Z.lxor_assoc, !Z.lxor_nilpotent, !Z.lxor_0_l in H.
Qed.

Lemma zip_xor_inj l1 l2 l3 :
  length l1 = length l2 → length l1 = length l3 →
  zip_with xor_char l1 l2 = zip_with xor_char l1 l3 → l2 = l3.
Proof.
  revert l2 l3. induction l1 as [|a l1 IH]; intros [|b l2] [|c l3]; simpl; intros; simplify_eq; [done|].
  f_equal; [by eapply xor_char_inj | by apply IH].
Qed.

(** Distances from one identifier tell identifiers apart. *)
Lemma xor_distance_inj o a b :
  String.length o = String.length a → String.length o = String.length b →
  calculateXORDistance o a = calculateXORDistance o b → a = b.
Proof.
  intros Ha Hb. unfold calculateXORDistance. rewrite <-Ha, <-Hb, Nat.eqb_refl.
  intros H%of_chars_inj. apply chars_inj. eapply zip_xor_inj; [| |done]; by rewrite !length_chars.
Qed.

Lemma first_nonzero_None i l : first_nonzero i l = None → Forall (λ c, byte_val c = 0%Z) l.
Proof.
  revert i. induction l as [|c l IH]; simpl; intros i; [constructor|].
  destruct (Z.eqb_spec (byte_val c) 0); [|done]. intros. constructor; [done | by eapply IH].
Qed.

Lemma first_nonzero_Some i l j c :
  first_nonzero i l = Some (j, c) → (i ≤ j < i + Z.of_nat (length l))%Z ∧ (0 < c < 256)%Z.
Proof.
  revert i. induction l as [|d l IH]; simpl; intros i; [done|].
  destruct (Z.eqb_spec (byte_val d) 0).
  - intros [? ?]%IH. split; lia.
  - intros [= <- <-]. pose proof (byte_val_bound d). lia.
Qed.

Lemma zip_xor_zero l1 l2 :
  length l1 = length l2 → Forall (λ c, byte_val c = 0%Z) (zip_with xor_char l1 l2) → l1 = l2.
Proof.
  revert l2. induction l1 as [|a l1 IH]; intros [|b l2]; simpl; intros; simplify_eq; [done|].
  inversion_clear H0 as [|?? Hz Hr]. rewrite byte_val_xor in Hz. apply Z.lxor_eq in Hz.
  f_equal; [by apply byte_val_inj | by apply IH].
Qed.

(** The leading zeros are counted in a word of 32 bits, where the byte has
    only eight: every other identifier gets an index of at least 24. *)
Lemma bucket_index_large o id :
  String.length id = 20 → id ≠ o →
  calculateBucketIndex o id = (-1)%Z ∨ (24 ≤ calculateBucketIndex o id)%Z.
Proof.
  intros Hid Hne. unfold calculateBucketIndex, calculateXORDistance.
  destruct (Nat.eqb_spec (String.length o) (String.length id)) as [Hl|]; [|by left].
  rewrite chars_of_chars.
  destruct (zip_with xor_char (chars o) (chars id)) as [|c0 d] eqn:Hz; [by left|]. right.
  destruct (first_nonzero 0 (c0 :: d)) as [[j c]|] eqn:Hf.
  - apply first_nonzero_Some in Hf as [Hj Hc].
    assert (length (c0 :: d) = 20) as Hlen.
    { rewrite <-Hz, length_zip_with, !length_chars. lia. }
    rewrite Hlen in Hj. unfold builtin_clz.
    assert (0 ≤ Z.log2 c < 8)%Z.
    { split; [apply Z.log2_nonneg|]. apply Z.log2_lt_pow2; lia. }
    rewrite int_of_Z_small by lia. lia.
  - apply first_nonzero_None in Hf. rewrite <-Hz in Hf.
    destruct Hne. apply chars_inj. symmetry. apply zip_xor_zero; [|done]. by rewrite !length_chars.
Qed.

(** ** Well-formedness *)

(** What holds of every node in the store of a table with identifier [o]. *)
Definition valid_node (o : string) (n : DHTNode) : Prop :=
  isValidNodeId (node_id n) = true ∧ isValidIPAddress (ip_address n) = true ∧ isValidPort (port n) = true
  ∧ distance n = calculateXORDistance o (node_id n)
  ∧ (0 ≤ successful_pings n)%Z ∧ (0 ≤ failed_pings n)%Z
  ∧ ping_attempts n = (successful_pings n + failed_pings n)%Z.

(** What holds of the bucket at index [k]: it knows its index, holds no node
    twice, and all its nodes belong to it. *)
Definition bucket_ok (store : gmap loc DHTNode) (k : Z) (b : RoutingBucket) : Prop :=
  b_bucket_index b = k ∧ NoDup (nodes b)
  ∧ ∀ l, l ∈ nodes b → ∃ n, store !! l = Some n ∧ n_bucket_index n = k.

Record table_wf (rt : routing_table) : Prop := {
  wf_store : ∀ l n, node_store rt !! l = Some n → (l < next_loc rt)%positive ∧ valid_node (our_node_id_ rt) n;
  wf_registry : ∀ id l, node_registry_ rt !! id = Some l → ∃ n, node_store rt !! l = Some n ∧ node_id n = id;
  wf_buckets : ∀ k b, routing_buckets_ rt !! k = Some b → bucket_ok (node_store rt) k b;
}.

(** A change of a node that keeps what the rest of the table relies on. *)
Definition node_kept (o : string) (n n' : DHTNode) : Prop :=
  valid_node o n' ∧ node_id n' = node_id n ∧ n_bucket_index n' = n_bucket_index n.

Lemma bucket_ok_same (st st' : gmap loc DHTNode) k b :
  (∀ l n, st !! l = Some n → ∃ n', st' !! l = Some n' ∧ n_bucket_index n' = n_bucket_index n) →
  bucket_ok st k b → bucket_ok st' k b.
Proof.
  intros Hst (Hi & Hnd & Hl). split; [done|]. split; [done|].
  intros l (n & Hn & <-)%Hl. by apply Hst.
Qed.

Lemma alter_node_wf l f rt :
  (∀ n, node_store rt !! l = Some n → valid_node (our_node_id_ rt) n → node_kept (our_node_id_ rt) n (f n)) →
  table_wf rt → table_wf (alter_node l f rt).
Proof.
  intros Hf [Hs Hr Hb].
  assert (∀ l' n, node_store rt !! l' = Some n →
    ∃ n', alter f l (node_store rt) !! l' = Some n' ∧ node_id n' = node_id n ∧ n_bucket_index n' = n_bucket_index n) as Hkeep.
  { intros l' n Hn. rewrite lookup_alter. case_decide; subst; rewrite Hn; simpl; [|by eauto].
    destruct (Hf n Hn (proj2 (Hs _ _ Hn))) as (_ & ? & ?). eauto. }
  split; simpl.
  - intros l' n'. rewrite lookup_alter. case_decide; subst; [|apply Hs].
    intros (n & Hn & ->)%fmap_Some. destruct (Hs _ _ Hn) as [? Hv]. split; [done|]. by apply Hf.
  - intros id l' (n & Hn & <-)%Hr. destruct (Hkeep _ _ Hn) as (n' & ? & ? & _). eauto.
  - intros k b Hk%Hb. eapply bucket_ok_same; [|done].
    intros l' n Hn. destruct (Hkeep _ _ Hn) as (n' & ? & _ & ?). eauto.
Qed.

Lemma alter_bucket_wf k f rt :
  (∀ b, routing_buckets_ rt !! k = Some b → bucket_ok (node_store rt) k b → bucket_ok (node_store rt) k (f b)) →
  table_wf rt → table_wf (alter_bucket k f rt).
Proof.
  intros Hf [Hs Hr Hb]. split; simpl; [done..|]. intros k' b'. rewrite lookup_alter.
  case_decide; subst; [|apply Hb]. intros (b & Hk & ->)%fmap_Some. apply Hf; [done | by apply Hb].
Qed.

Lemma registry_wf g rt :
  (∀ id l, g !! id = Some l → node_registry_ rt !! id = Some l) →
  table_wf rt → table_wf (rt <| node_registry_ := g |>).
Proof. intros Hg [Hs Hr Hb]. split; simpl; [done| |done]. intros id l H%Hg. by apply Hr. Qed.

Lemma bucket_ok_sublist st k b ns :
  sublist ns (nodes b) → bucket_ok st k b → bucket_ok st k (b <| nodes := ns |>).
Proof.
  intros Hsub (Hi & Hnd & Hl). split_and!; simpl; [done|by eapply sublist_NoDup|].
  intros l Hin. apply Hl. eapply elem_of_submseteq; [done|]. by apply sublist_submseteq.
Qed.

Lemma remove_from_bucket_wf l n rt : table_wf rt → table_wf (remove_from_bucket l n rt).
Proof.
  intros Hwf. unfold remove_from_bucket. case_match; [|done].
  apply alter_bucket_wf; [|done]. intros b _ Hb. apply (bucket_ok_sublist _ _ b); [apply sublist_filter | done].
Qed.

Section Wf.
Context {W : Type} (now : W → Z * W).
Implicit Types (w : W).

Lemma createBucket_wf k d rt w : table_wf rt → table_wf (createBucket now k d rt w).1.
Proof.
  intros [Hs Hr Hb]. unfold createBucket. do 3 destruct (now _) as [? ?]. split; simpl; [done..|].
  intros k' b. rewrite lookup_insert. case_decide; simplify_eq; [|apply Hb].
  intros [= <-]. split_and!; simpl; [done | constructor | by intros ? ?%elem_of_nil].
Qed.

Lemma initialize_wf rt w : table_wf rt → table_wf (initializeRoutingBuckets now rt w).1.
Proof.
  unfold initializeRoutingBuckets. generalize [0; 1; 2; 3; 4; 5; 6; 7]%Z as ks.
  intros ks. revert rt w. induction ks as [|k ks IH]; intros rt w Hwf; [done|].
  simpl. destruct (createBucket now k k rt w) as [rt' w'] eqn:E. apply IH.
  change rt' with (rt', w').1. rewrite <-E. by apply createBucket_wf.
Qed.

Lemma new_routing_table_wf o c w : table_wf (new_routing_table now o c w).1.
Proof. apply initialize_wf. split; simpl; intros *; by rewrite lookup_empty. Qed.

Lemma updateNodeQuality_kept o c success t n :
  valid_node o n → node_kept o n (updateNodeQuality c success t n).
Proof.
  intros (?&?&?&?&?&?&?). unfold updateNodeQuality, node_kept, valid_node.
  destruct success; simpl; case_match; simpl; split_all; try done; lia.
Qed.

Lemma addNode_wf id ip p rt w : table_wf rt → table_wf (addNode now id ip p rt w).1.2.
Proof.
  intros Hwf. unfold addNode. destruct (negb _ || _ || _) eqn:Hv; [done|].
  apply orb_false_iff in Hv as [[Hv1 Hv2]%orb_false_iff Hv3]. apply negb_false_iff in Hv1, Hv2, Hv3.
  case_match; [done|]. destruct (now w) as [seen w1]. destruct (now w1) as [ev w2].
  set (n := mk_DHTNode _ _ _ _ _ _ _ _ _ _ _ _ _ _ _ _ _ _ _ _ _ _ _ _).
  set (rt' := rt <| node_store ::= _ |> <| next_loc ::= _ |> <| node_registry_ ::= _ |>).
  assert (node_store rt !! next_loc rt = None) as Hfresh.
  { destruct (node_store rt !! next_loc rt) as [m|] eqn:Hm; [|done].
    apply (wf_store _ Hwf) in Hm as [Hlt _]. lia. }
  assert (table_wf rt') as Hwf'.
  { destruct Hwf as [Hs Hr Hb]. split; simpl.
    - intros l m. rewrite lookup_insert. case_decide; subst.
      + intros [= <-]. split; [lia|]. by split_all.
      + intros [? ?]%Hs. split; [lia | done].
    - intros id' l. rewrite lookup_insert. case_decide; subst.
      + intros [= <-]. exists n. by rewrite lookup_insert_eq.
      + intros (m & Hm & <-)%Hr. exists m. rewrite lookup_insert_ne; [done|]. intros <-. congruence.
    - intros k b Hk%Hb. eapply bucket_ok_same; [|done].
      intros l m Hm. exists m. rewrite lookup_insert_ne; [done|]. intros <-. congruence. }
  case_match; [|done]. destruct (routing_buckets_ rt' !! _) as [b0|]; [|done].
  destruct (now w2) as [up w3]. apply alter_bucket_wf; [|done].
  intros b Hk (Hi & Hnd & Hl). split_and!; simpl; [done| |].
  - apply NoDup_app. split_all; [done| |by apply NoDup_singleton].
    intros l Hin ->%list_elem_of_singleton.
    destruct (wf_buckets _ Hwf _ _ Hk) as (_ & _ & Hold).
    destruct (Hold _ Hin) as (m & Hm & _). congruence.
  - intros l [Hin| ->%list_elem_of_singleton]%elem_of_app; [by apply Hl|].
    exists n. split; [apply lookup_insert_eq | done].
Qed.

(** Every node already stored stays; the fields of the table a lookup needs
    are named. *)
Lemma addNodeWithQuality_wf id ip p q t rt w :
  table_wf rt → table_wf (addNodeWithQuality now id ip p q t rt w).1.2.
Proof.
  intros Hwf. unfold addNodeWithQuality. pose proof (addNode_wf id ip p rt w Hwf) as Hwf'.
  destruct (addNode now id ip p rt w) as [[[] rt'] w']; simpl in *; [|done].
  case_match; [|done]. simpl. apply alter_node_wf; [|done]. intros n _ Hn.
  destruct (updateNodeQuality_kept (our_node_id_ rt') (config_ rt') true t
    (n <| quality_score := q |> <| n_avg_response_time := t |>
       <| min_response_time := t |> <| max_response_time := t |>)) as (?&?&?); [done|]. by split_all.
Qed.

Lemma removeNode_wf id rt : table_wf rt → table_wf (removeNode id rt).2.
Proof.
  intros Hwf. unfold removeNode. case_match; [|done]. simpl.
  assert (∀ rt', table_wf rt' → table_wf (rt' <| node_registry_ ::= delete id |>)) as Hdel.
  { intros rt' Hwf'. apply (registry_wf (delete id (node_registry_ rt'))); [|done].
    intros id' l'. by intros [_ ?]%lookup_delete_Some. }
  apply Hdel. case_match; [by apply remove_from_bucket_wf | done].
Qed.

Lemma updateNode_wf id success t rt w : table_wf rt → table_wf (updateNode now id success t rt w).1.2.
Proof.
  intros Hwf. unfold updateNode. case_match; [|done]. destruct (now w) as [seen w']. simpl.
  apply alter_node_wf; [|done]. intros n _ Hn.
  destruct success;
    match goal with |- node_kept ?o n (updateNodeQuality ?c ?b t ?m) =>
      destruct (updateNodeQuality_kept o c b t m) as (?&?&?); [done | by split_and!] end.
Qed.

Lemma updateNodeStatus_wf id st rt : table_wf rt → table_wf (updateNodeStatus id st rt).2.
Proof.
  intros Hwf. unfold updateNodeStatus. case_match; [|done]. by apply alter_node_wf; [intros n _ Hn|].
Qed.

Lemma evictNode_wf l rt w : table_wf rt → table_wf (evictNode now l rt w).1.
Proof.
  intros Hwf. unfold evictNode. destruct (now w) as [t w'].
  set (rt' := alter_node l _ rt).
  assert (table_wf rt') as Hwf' by (by apply alter_node_wf; [intros n _ Hn|]).
  case_match; [|done]. simpl.
  apply (registry_wf (delete _ (node_registry_ (remove_from_bucket l _ rt')))); [|by apply remove_from_bucket_wf].
  intros id' l'. by intros [_ ?]%lookup_delete_Some.
Qed.

Lemma forceNodeEviction_wf id rt w : table_wf rt → table_wf (forceNodeEviction now id rt w).1.2.
Proof.
  intros Hwf. unfold forceNodeEviction. case_match; [|done].
  pose proof (evictNode_wf p rt w Hwf). by destruct (evictNode now p rt w).
Qed.

(** Nothing moves in a split: the nodes of a bucket all have its own index. *)
Lemma split_moves_none rt k b :
  table_wf rt → routing_buckets_ rt !! k = Some b →
  filter (λ l, node_has_index rt (b_bucket_index b + 1) l = true) (nodes b) = []
  ∧ filter (λ l, node_has_index rt (b_bucket_index b + 1) l = false) (nodes b) = nodes b.
Proof.
  intros Hwf (Hi & _ & Hl)%(wf_buckets _ Hwf).
  assert (∀ l, l ∈ nodes b → node_has_index rt (b_bucket_index b + 1) l = false) as Hno.
  { intros l (n & Hn & Hk)%Hl. unfold node_has_index. rewrite Hn. apply Z.eqb_neq. lia. }
  split.
  - apply filter_keeps_none. intros l Hin. by rewrite Hno.
  - by apply filter_keeps_all.
Qed.

Lemma splitBucket_full rt k b w :
  table_wf rt → routing_buckets_ rt !! k = Some b → shouldSplitBucket (config_ rt) b = true →
  ∃ nb t, nodes nb = [] ∧ b_bucket_index nb = (k + 1)%Z
    ∧ (splitBucket now k rt w).1
      = rt <| routing_buckets_ := <[k := b <| b_status := SPLIT |> <| last_split := t |>]>
                                   (<[(k + 1)%Z := nb]> (routing_buckets_ rt)) |>.
Proof.
  intros Hwf Hk Hs. destruct (split_moves_none _ _ _ Hwf Hk) as [Hm Hkept].
  destruct (wf_buckets _ Hwf _ _ Hk) as (Hi & _ & _).
  unfold splitBucket, createBucket. rewrite Hk, Hs. simpl.
  destruct (now w) as [t1 w1], (now w1) as [t2 w2], (now w2) as [t3 w3]. simpl.
  destruct (now w3) as [t w4]. simpl. rewrite Hi in *.
  exists (mk_RoutingBucket (k + 1) (k + 1) ACTIVE [] t1 t2 t3 0 0 0 (double_of_int 0) 0), t.
  split_and!; [done..|]. unfold alter_bucket. unfold node_has_index in *. simpl.
  rewrite Hm, Hkept. unfold set_field; simpl. f_equal.
  apply map_eq. intros j. rewrite !lookup_alter, !lookup_insert.
  repeat case_decide; subst; try lia; try done. by rewrite Hk; destruct b.
Qed.

Lemma splitBucket_wf k rt w : table_wf rt → table_wf (splitBucket now k rt w).1.
Proof.
  intros Hwf. destruct (routing_buckets_ rt !! k) as [b|] eqn:Hk; [|unfold splitBucket; by rewrite Hk].
  destruct (shouldSplitBucket (config_ rt) b) eqn:Hs; [|unfold splitBucket; by rewrite Hk, Hs].
  destruct (splitBucket_full _ _ _ w Hwf Hk Hs) as (nb & t & Hnb & Hi & ->).
  destruct Hwf as [Hst Hr Hb]. split; simpl; [done..|]. intros j b'. rewrite !lookup_insert.
  repeat case_decide; subst; [| |apply Hb].
  - intros [= <-]. exact (Hb _ _ Hk).
  - intros [= <-]. split_and!; [done | rewrite Hnb; constructor | rewrite Hnb; by intros ? ?%elem_of_nil].
Qed.

Lemma forceBucketSplit_wf k rt w : table_wf rt → table_wf (forceBucketSplit now k rt w).1.2.
Proof.
  intros Hwf. unfold forceBucketSplit. case_match; [|done].
  pose proof (splitBucket_wf k rt w Hwf). by destruct (splitBucket now k rt w).
Qed.

(** What a merge does to the node at [l]. *)
Definition reindexed (p : Z) (ls : list loc) (l : loc) (n : DHTNode) : DHTNode :=
  if decide (l ∈ ls) then n <| n_bucket_index := p |> else n.

Lemma reindexed_in p ls l n : l ∈ ls → reindexed p ls l n = n <| n_bucket_index := p |>.
Proof. intros. unfold reindexed. by rewrite decide_True. Qed.
Lemma reindexed_out p ls l n : l ∉ ls → reindexed p ls l n = n.
Proof. intros. unfold reindexed. by rewrite decide_False. Qed.
Lemma reindexed_id p ls l n : node_id (reindexed p ls l n) = node_id n.
Proof. unfold reindexed. by case_decide. Qed.
Lemma reindexed_valid o p ls l n : valid_node o n → valid_node o (reindexed p ls l n).
Proof. unfold reindexed. by case_decide. Qed.
Lemma reindexed_cons p l0 ls l n :
  reindexed p (l0 :: ls) l n
  = reindexed p ls l (if decide (l0 = l) then n <| n_bucket_index := p |> else n).
Proof. unfold reindexed. repeat case_decide; subst; set_solver. Qed.
#[local] Arguments reindexed : simpl never.

Lemma reindex_fold (p : Z) ls rt :
  let rt' := foldl (λ rt l, alter_node l (λ n, n <| n_bucket_index := p |>) rt) rt ls in
  rt' = rt <| node_store := node_store rt' |>
  ∧ ∀ l, node_store rt' !! l = reindexed p ls l <$> node_store rt !! l.
Proof.
  cbv zeta. revert rt. induction ls as [|l0 ls IH]; intros rt.
  - split; [by destruct rt|]. intros l. simpl. destruct (node_store rt !! l) as [n|]; simpl; [|done].
    by rewrite reindexed_out by apply not_elem_of_nil.
  - simpl foldl. destruct (IH (alter_node l0 (λ n, n <| n_bucket_index := p |>) rt)) as [Heq Hl].
    split; [by rewrite Heq at 1|]. intros l. rewrite Hl. unfold alter_node; simpl.
    rewrite lookup_alter. case_decide as Hl0; [rewrite Hl0|]; destruct (node_store rt !! l) as [n|]; simpl; try done;
      rewrite reindexed_cons; by case_decide.
Qed.

(** A merge moves the nodes of bucket [k] to bucket [k - 1] and erases [k]. *)
Lemma mergeBucket_merged rt k b pb w :
  table_wf rt → routing_buckets_ rt !! k = Some b → shouldMergeBucket (config_ rt) b = true →
  routing_buckets_ rt !! (k - 1)%Z = Some pb →
  ∃ t w' store, mergeBucket now k rt w
    = (true, rt <| node_store := store |>
               <| routing_buckets_ := <[(k - 1)%Z := pb <| nodes ::= (λ ns, ns ++ nodes b) |>
                                                     <| b_status := MERGED |> <| last_merge := t |>]>
                                       (delete k (routing_buckets_ rt)) |>, w')
    ∧ ∀ l, store !! l = reindexed (k - 1) (nodes b) l <$> node_store rt !! l.
Proof.
  intros Hwf Hk Hm Hp. destruct (wf_buckets _ Hwf _ _ Hk) as (Hi & _ & _).
  unfold mergeBucket. rewrite Hk, Hm, Hi, Hp. simpl.
  set (rt0 := alter_bucket _ _ rt).
  destruct (reindex_fold (k - 1) (nodes b) rt0) as [Heq Hl].
  set (rt1 := foldl _ rt0 _) in *. destruct (now w) as [t w'].
  exists t, w', (node_store rt1). split; [|done]. f_equal. f_equal; [by rewrite bool_decide_eq_true_2|].
  rewrite Heq. unfold destroyBucket, alter_bucket, set_field; simpl. f_equal.
  apply map_eq. intros j. rewrite !lookup_alter, !lookup_insert, !lookup_delete, !lookup_alter.
  repeat case_decide; subst; try lia; try done. by rewrite Hp; destruct pb.
Qed.

Lemma mergeBucket_wf k rt w : table_wf rt → table_wf (mergeBucket now k rt w).1.2.
Proof.
  intros Hwf. destruct (routing_buckets_ rt !! k) as [b|] eqn:Hk; [|unfold mergeBucket; by rewrite Hk].
  destruct (shouldMergeBucket (config_ rt) b) eqn:Hm; [|unfold mergeBucket; by rewrite Hk, Hm].
  destruct (wf_buckets _ Hwf _ _ Hk) as (Hi & Hnd & Hin).
  destruct (routing_buckets_ rt !! (k - 1)%Z) as [pb|] eqn:Hp;
    [|unfold mergeBucket; by rewrite Hk, Hm, Hi, Hp].
  destruct (mergeBucket_merged _ _ _ _ w Hwf Hk Hm Hp) as (t & w' & store & -> & Hst).
  destruct Hwf as [Hs Hr Hb]. destruct (Hb _ _ Hp) as (Hpi & Hpnd & Hpin). split; simpl.
  - intros l n. rewrite Hst. intros (m & Hl & ->)%fmap_Some. destruct (Hs _ _ Hl).
    split; [done | by apply reindexed_valid].
  - intros id l (n & Hl & <-)%Hr. rewrite Hst, Hl. simpl. eexists. split; [done | apply reindexed_id].
  - intros j b'. rewrite lookup_insert, lookup_delete. repeat case_decide; subst; [|done|].
    + intros [= <-]. split_and!; simpl; [done| |].
      * apply NoDup_app. split_and!; [done| |done].
        intros l (n & Hn & ?)%Hpin (n' & Hn' & ?)%Hin. simplify_eq. lia.
      * intros l [Hl|Hl]%elem_of_app.
        -- destruct (Hpin _ Hl) as (n & Hn & ?). rewrite Hst, Hn. simpl. eexists. split; [done|].
           unfold reindexed. by case_decide.
        -- destruct (Hin _ Hl) as (n & Hn & ?). rewrite Hst, Hn. simpl. eexists. split; [done|].
           by rewrite reindexed_in.
    + intros (Hji & Hjnd & Hjin)%Hb. split_and!; [done..|].
      intros l (n & Hn & Hnj)%Hjin. rewrite Hst, Hn. simpl. eexists. split; [done|].
      rewrite reindexed_out; [done|]. intros (n' & Hn' & ?)%Hin. simplify_eq. congruence.
Qed.

Lemma forceBucketMerge_wf k rt w : table_wf rt → table_wf (forceBucketMerge now k rt w).1.2.
Proof.
  intros Hwf. unfold forceBucketMerge. case_match; [|done].
  pose proof (mergeBucket_wf k rt w Hwf). by destruct (mergeBucket now k rt w) as [[? ?] ?].
Qed.

Lemma erase_expired_sublist rt ls w : sublist (erase_expired now rt ls w).1 ls.
Proof.
  revert w. induction ls as [|l ls IH]; intros w; simpl; [done|].
  destruct (isNodeExpired now rt l w) as [e w1]. specialize (IH w1).
  destruct (erase_expired now rt ls w1) as [rest w2]. simpl in *.
  destruct e; [by apply sublist_cons | by apply sublist_skip].
Qed.

(** A fold over the entries of the map of buckets in which entry [k] is
    replaced by one that keeps a part of its nodes. *)
Lemma bucket_cleanup_fold ps rt w :
  NoDup ps.*1 → (∀ p, p ∈ ps → routing_buckets_ rt !! p.1 = Some p.2) →
  let s := foldl (λ s p,
    let '(rt, w) := s in
    let '(ns, w) := erase_expired now rt (nodes p.2) w in
    (alter_bucket p.1 (λ b, b <| nodes := ns |>) rt, w)) (rt, w) ps in
  s.1 = rt <| routing_buckets_ := routing_buckets_ s.1 |>
  ∧ (∀ k, routing_buckets_ s.1 !! k = None ↔ routing_buckets_ rt !! k = None)
  ∧ ∀ k b', routing_buckets_ s.1 !! k = Some b' →
      ∃ b ns, routing_buckets_ rt !! k = Some b ∧ sublist ns (nodes b) ∧ b' = b <| nodes := ns |>.
Proof.
  cbv zeta. revert rt w. induction ps as [|[k0 b0] ps IH]; intros rt w Hnd Hps.
  { simpl. split_all; [by destruct rt | done |]. intros k b' Hk. exists b', (nodes b').
    split_all; [done..|by destruct b']. }
  simpl foldl. pose proof (erase_expired_sublist rt (nodes b0) w) as Hsub.
  destruct (erase_expired now rt (nodes b0) w) as [ns w1]. simpl in Hsub.
  rewrite fmap_cons, NoDup_cons in Hnd. destruct Hnd as [Hk0 Hnd].
  set (rt1 := alter_bucket k0 (λ b, b <| nodes := ns |>) rt).
  assert (routing_buckets_ rt !! k0 = Some b0) as Hb0 by (apply (Hps (k0, b0)); by left).
  assert (routing_buckets_ rt1 !! k0 = Some (b0 <| nodes := ns |>)) as Heq0.
  { simpl. by rewrite lookup_alter_eq, Hb0. }
  assert (∀ k, k0 ≠ k → routing_buckets_ rt1 !! k = routing_buckets_ rt !! k) as Hne0.
  { intros k Hk. simpl. by rewrite lookup_alter_ne. }
  destruct (IH rt1 w1 Hnd) as (Heq & Hnone & Hsome).
  { intros [k b] Hin. rewrite Hne0; [apply Hps; by right|].
    simpl. intros <-. apply Hk0, list_elem_of_fmap. by exists (k0, b). }
  split_all.
  - rewrite Heq at 1. done.
  - intros k. rewrite Hnone. destruct (decide (k0 = k)) as [<-|]; [by rewrite Heq0, Hb0 | by rewrite Hne0].
  - intros k b' (b & ns' & Hb & Hs & ->)%Hsome. destruct (decide (k0 = k)) as [<-|].
    + rewrite Heq0 in Hb. injection Hb as <-. exists b0, ns'. split_all; [done | by etrans | done].
    + rewrite Hne0 in Hb by done. by exists b, ns'.
Qed.

Lemma cleanup_buckets rt w :
  let rt' := (cleanupExpiredNodes now rt w).1 in
  rt' = rt <| routing_buckets_ := routing_buckets_ rt' |>
  ∧ (∀ k, routing_buckets_ rt' !! k = None ↔ routing_buckets_ rt !! k = None)
  ∧ ∀ k b', routing_buckets_ rt' !! k = Some b' →
      ∃ b ns, routing_buckets_ rt !! k = Some b ∧ sublist ns (nodes b) ∧ b' = b <| nodes := ns |>.
Proof.
  unfold cleanupExpiredNodes. destruct (now w) as [t w1]. apply bucket_cleanup_fold.
  - rewrite int_map_iter_perm. apply NoDup_fst_map_to_list.
  - intros [k b]. apply elem_of_int_map_iter.
Qed.

Lemma cleanupExpiredNodes_wf rt w : table_wf rt → table_wf (cleanupExpiredNodes now rt w).1.
Proof.
  intros Hwf. destruct (cleanup_buckets rt w) as (-> & _ & Hb).
  split; simpl; [apply Hwf.. |]. intros k b' (b & ns & Hk & Hs & ->)%Hb.
  apply bucket_ok_sublist; [done | by apply (wf_buckets _ Hwf)].
Qed.

(** Clearing expired nodes changes the registry only, and only removes. *)
Lemma clear_expired_fold ps c rt w :
  let s := foldl (λ s p,
    let '(count, rt, w) := s in
    let '(expired, w) := isNodeExpired now rt p.2 w in
    if expired : bool then ((count + 1)%Z, rt <| node_registry_ ::= delete p.1 |>, w)
    else (count, rt, w)) (c, rt, w) (ps : list (string * loc)) in
  s.1.2 = rt <| node_registry_ := node_registry_ s.1.2 |>
  ∧ ∀ id l, node_registry_ s.1.2 !! id = Some l → node_registry_ rt !! id = Some l.
Proof.
  cbv zeta. revert c rt w. induction ps as [|p ps IH]; intros c rt w; [by destruct rt|].
  simpl foldl. destruct (isNodeExpired now rt p.2 w) as [[] w1]; [|apply IH].
  destruct (IH (c + 1)%Z (rt <| node_registry_ ::= delete p.1 |>) w1) as [Heq Hsub].
  split; [by rewrite Heq at 1|]. intros id l Hl%Hsub. simpl in Hl.
  by apply lookup_delete_Some in Hl as [_ ?].
Qed.

Lemma clearExpired_registry rt w :
  let rt' := (clearExpiredNodes now rt w).1.2 in
  rt' = rt <| node_registry_ := node_registry_ rt' |>
  ∧ ∀ id l, node_registry_ rt' !! id = Some l → node_registry_ rt !! id = Some l.
Proof. unfold clearExpiredNodes. destruct (now w) as [t w1]. apply clear_expired_fold. Qed.

Lemma clearExpiredNodes_wf rt w : table_wf rt → table_wf (clearExpiredNodes now rt w).1.2.
Proof.
  intros Hwf. destruct (clearExpired_registry rt w) as [-> Hsub]. by apply registry_wf.
Qed.

Lemma clearRoutingTable_wf rt w : table_wf rt → table_wf (clearRoutingTable now rt w).1.
Proof.
  intros [Hs Hr Hb]. apply initialize_wf. split; simpl; [done|..]; intros *; by rewrite lookup_empty.
Qed.

Lemma optimizeRoutingTable_wf rt : table_wf rt → table_wf (optimizeRoutingTable rt).
Proof.
  intros [Hs Hr Hb]. split; simpl; [done|..].
  - intros id l [Hl _]%map_lookup_filter_Some. by apply Hr.
  - intros k b. rewrite lookup_fmap. intros (b1 & Hb1 & ->)%fmap_Some. exact (Hb _ _ Hb1).
Qed.

Lemma repairRoutingTable_wf rt w : table_wf rt → table_wf (repairRoutingTable now rt w).1.2.
Proof.
  intros Hwf. unfold repairRoutingTable.
  assert (∀ c rt w, table_wf rt → table_wf
    (if double_lt (getRoutingEfficiency rt) (double_lit 1 2)
     then let '(cleared, rt, w) := clearExpiredNodes now rt w in ((c + cleared)%Z, rt, w)
     else (c, rt, w)).1.2) as Hclear.
  { intros c rt1 w1 H1. case_match; [|done]. pose proof (clearExpiredNodes_wf rt1 w1 H1).
    by destruct (clearExpiredNodes now rt1 w1) as [[? ?] ?]. }
  destruct (negb _); [|by apply Hclear].
  pose proof (clearRoutingTable_wf rt w Hwf). destruct (clearRoutingTable now rt w). by apply Hclear.
Qed.

Lemma updateStatistics_wf rt w : table_wf rt → table_wf (updateStatistics now rt w).1.
Proof. intros [Hs Hr Hb]. unfold updateStatistics. destruct (now w). by split. Qed.

Lemma run_op_wf op rt w : table_wf rt → table_wf (run_op now op rt w).1.
Proof.
  intros Hwf. destruct op; simpl.
  1: pose proof (addNode_wf id ip port rt w Hwf).
  2: pose proof (addNodeWithQuality_wf id ip port score response_time rt w Hwf).
  3: by apply removeNode_wf.
  3: pose proof (updateNode_wf id success response_time rt w Hwf).
  4: by apply updateNodeStatus_wf.
  4: pose proof (forceBucketSplit_wf bucket_index rt w Hwf).
  5: pose proof (forceBucketMerge_wf bucket_index rt w Hwf).
  6: pose proof (forceNodeEviction_wf id rt w Hwf).
  7: by apply cleanupExpiredNodes_wf.
  7: pose proof (clearExpiredNodes_wf rt w Hwf).
  8: by apply clearRoutingTable_wf.
  8: by apply optimizeRoutingTable_wf.
  8: pose proof (repairRoutingTable_wf rt w Hwf).
  9: by apply updateStatistics_wf.
  9-11: by destruct Hwf.
  all: by repeat case_match; simplify_eq/=.
Qed.

Lemma run_ops_wf ops s : table_wf s.1 → table_wf (run_ops now ops s).1.
Proof.
  revert s. induction ops as [|op ops IH]; intros [rt w] Hwf; [done|].
  simpl. apply IH. by apply run_op_wf.
Qed.
End Wf.

(** ** Properties of the table *)

Section Properties.
Context {W : Type} (now : W → Z * W).
Implicit Types (w : W).

Lemma monitor_from_wf fuel k rt w rt' w' :
  table_wf rt → monitor_from now fuel k rt w = Finished rt' w' → table_wf rt'.
Proof.
  revert k rt w. induction fuel as [|fuel IH]; intros k rt w Hwf; [done|]. simpl.
  destruct (routing_buckets_ rt !! k) as [b|]; [|done].
  destruct (shouldSplitBucket (config_ rt) b).
  { pose proof (splitBucket_wf now k rt w Hwf). destruct (splitBucket now k rt w) as [rt1 w1].
    simpl in *. case_match; [by apply IH | congruence]. }
  destruct (shouldMergeBucket (config_ rt) b).
  { pose proof (mergeBucket_wf now k rt w Hwf). destruct (mergeBucket now k rt w) as [[[] rt1] w1]; [done|].
    simpl in *. case_match; [by apply IH | congruence]. }
  case_match; [by apply IH | congruence].
Qed.

Lemma monitor_tail_wf rt w rt' w' :
  table_wf rt →
  (let '(rt, w) := cleanupExpiredNodes now rt w in
   let '(rt, w) := updateStatistics now rt w in Finished rt w) = Finished rt' w' → table_wf rt'.
Proof.
  intros Hwf%(cleanupExpiredNodes_wf now _ w). destruct (cleanupExpiredNodes now rt w) as [rt3 w3]. simpl in Hwf.
  apply (updateStatistics_wf now _ w3) in Hwf. destruct (updateStatistics now rt3 w3). by intros [= <- <-].
Qed.

(** C21: In every reachable state the table is well formed: the registry maps
    an identifier to a stored node with that identifier, whose identifier,
    address and port are valid, whose distance is the XOR distance from our
    identifier and whose ping counters add up; every bucket is filed under its
    own index, holds no node twice, and holds only nodes with that index.  A
    round of the monitor that finishes keeps it so. *)
Theorem routing_table_well_formed o config w ops :
  table_wf (run_ops now ops (new_routing_table now o config w)).1
  ∧ ∀ fuel rt' w',
      let s := run_ops now ops (new_routing_table now o config w) in
      monitor_round now fuel s.1 s.2 = Finished rt' w' → table_wf rt'.
Proof.
  assert (table_wf (run_ops now ops (new_routing_table now o config w)).1) as Hwf.
  { apply run_ops_wf, new_routing_table_wf. }
  split; [done|]. intros fuel rt' w'. cbv zeta. destruct (run_ops now ops _) as [rt w1]. simpl in *.
  unfold monitor_round, monitorRoutingTable. destruct (head _) as [k|]; [|by apply monitor_tail_wf].
  destruct (monitor_from now fuel k rt w1) as [rt2 w2| |] eqn:Hm; [|done..].
  apply monitor_tail_wf. by eapply monitor_from_wf.
Qed.

(** *** The closest nodes *)

Lemma distance_lt_irrefl d : distance_lt d d = false.
Proof. induction d as [|a d IH]; simpl; [done|]. by rewrite !Z.ltb_irrefl, IH. Qed.

Lemma distance_lt_asym d1 d2 : distance_lt d1 d2 = true → distance_lt d2 d1 = false.
Proof.
  revert d2. induction d1 as [|a d1 IH]; intros [|b d2]; simpl; try done.
  destruct (Z.ltb_spec (signed_char a) (signed_char b)), (Z.ltb_spec (signed_char b) (signed_char a));
    try done; try lia. apply IH.
Qed.

Lemma distance_lt_trans d1 d2 d3 :
  distance_lt d1 d2 = true → distance_lt d2 d3 = true → distance_lt d1 d3 = true.
Proof.
  revert d2 d3. induction d1 as [|a d1 IH]; intros [|b d2] [|c d3]; simpl; try done.
  destruct (Z.ltb_spec (signed_char a) (signed_char b)), (Z.ltb_spec (signed_char b) (signed_char a)),
    (Z.ltb_spec (signed_char b) (signed_char c)), (Z.ltb_spec (signed_char c) (signed_char b)),
    (Z.ltb_spec (signed_char a) (signed_char c)), (Z.ltb_spec (signed_char c) (signed_char a));
    try done; try lia. by apply IH.
Qed.

Lemma signed_char_inj a b : signed_char a = signed_char b → a = b.
Proof.
  intros H. apply byte_val_inj. unfold signed_char in H.
  pose proof (byte_val_bound a). pose proof (byte_val_bound b). repeat case_match; lia.
Qed.

Lemma distance_lt_total d1 d2 :
  length d1 = length d2 → distance_lt d1 d2 = false → distance_lt d2 d1 = false → d1 = d2.
Proof.
  revert d2. induction d1 as [|a d1 IH]; intros [|b d2]; simpl; try done. intros [= Hl].
  destruct (Z.ltb_spec (signed_char a) (signed_char b)), (Z.ltb_spec (signed_char b) (signed_char a));
    try done; try lia. intros. f_equal; [apply signed_char_inj; lia | by apply IH].
Qed.

(** On identifiers of the length of ours the comparator is the order of the
    distances. *)
Lemma isNodeCloser_lt o a b :
  String.length o = 20 → String.length a = 20 → String.length b = 20 →
  isNodeCloser o a b = distance_lt (chars (calculateXORDistance o a)) (chars (calculateXORDistance o b)).
Proof.
  intros Ho Ha Hb. unfold isNodeCloser.
  assert (∀ x, String.length x = 20 → calculateXORDistance o x ≠ "") as Hne.
  { intros x Hx H. pose proof (length_xor o x ltac:(congruence)) as Hl. rewrite H, Ho in Hl. done. }
  rewrite !decide_False by auto. done.
Qed.

Lemma elem_of_registered rt l : l ∈ registered rt ↔ ∃ id, node_registry_ rt !! id = Some l.
Proof.
  unfold registered. rewrite list_elem_of_fmap. split.
  - intros ([id l'] & -> & Hin%elem_of_map_iter). by exists id.
  - intros [id Hid]. exists (id, l). split; [done|]. by apply elem_of_map_iter.
Qed.

Lemma registered_id rt id l :
  table_wf rt → node_registry_ rt !! id = Some l → id_of rt l = id ∧ String.length id = 20.
Proof.
  intros Hwf (n & Hn & <-)%(wf_registry _ Hwf). unfold id_of. rewrite Hn. split; [done|].
  apply (wf_store _ Hwf) in Hn as (_ & Hv & _). by apply Nat.eqb_eq in Hv.
Qed.

Lemma id_of_inj rt l l' :
  table_wf rt → l ∈ registered rt → l' ∈ registered rt → id_of rt l = id_of rt l' → l = l'.
Proof.
  intros Hwf [id Hid]%elem_of_registered [id' Hid']%elem_of_registered.
  destruct (registered_id _ _ _ Hwf Hid) as [-> _], (registered_id _ _ _ Hwf Hid') as [-> _].
  intros ->. congruence.
Qed.

Lemma NoDup_registered rt : table_wf rt → NoDup (registered rt).
Proof.
  intros Hwf. unfold registered. apply NoDup_fmap_2_strong.
  - intros [id l] [id' l'] Hin%elem_of_map_iter Hin'%elem_of_map_iter. simpl. intros <-.
    destruct (registered_id _ _ _ Hwf Hin) as [<- _], (registered_id _ _ _ Hwf Hin') as [<- _]. done.
  - eapply NoDup_fmap_1. apply NoDup_map_iter.
Qed.

#[local] Instance not_after_total rt : Total (not_after rt).
Proof.
  intros a b. unfold not_after, closer, isNodeCloser. repeat case_decide; auto.
  destruct (distance_lt _ _) eqn:E at 1; [right | by left]. by apply distance_lt_asym.
Qed.

Section Closest.
Context (rt : routing_table) (Hwf : table_wf rt) (Hour : String.length (our_node_id_ rt) = 20).

Lemma closer_lt a b :
  a ∈ registered rt → b ∈ registered rt →
  closer rt a b = distance_lt (chars (calculateXORDistance (our_node_id_ rt) (id_of rt a)))
                              (chars (calculateXORDistance (our_node_id_ rt) (id_of rt b))).
Proof using Hwf Hour.
  intros [ia Ha]%elem_of_registered [ib Hb]%elem_of_registered. unfold closer.
  destruct (registered_id _ _ _ Hwf Ha) as [-> ?], (registered_id _ _ _ Hwf Hb) as [-> ?].
  by apply isNodeCloser_lt.
Qed.

Lemma closer_asym a b :
  a ∈ registered rt → b ∈ registered rt → closer rt a b = true → closer rt b a = false.
Proof using Hwf Hour. intros Ha Hb. rewrite !closer_lt by done. apply distance_lt_asym. Qed.

Lemma closer_total a b :
  a ∈ registered rt → b ∈ registered rt → closer rt a b = false → closer rt b a = false → a = b.
Proof using Hwf Hour.
  intros Ha Hb. rewrite !closer_lt by done. intros H1 H2. apply (id_of_inj rt); [done..|].
  apply elem_of_registered in Ha as [ia Ha], Hb as [ib Hb].
  destruct (registered_id _ _ _ Hwf Ha) as [Ea La], (registered_id _ _ _ Hwf Hb) as [Eb Lb].
  rewrite Ea, Eb in *. eapply (xor_distance_inj (our_node_id_ rt)); [congruence..|].
  apply chars_inj, distance_lt_total; [|done..]. rewrite !length_chars, !length_xor by congruence. done.
Qed.

Lemma not_after_trans a b c :
  a ∈ registered rt → b ∈ registered rt → c ∈ registered rt →
  not_after rt a b → not_after rt b c → not_after rt a c.
Proof using Hwf Hour.
  unfold not_after. intros Ha Hb Hc Hab Hbc.
  destruct (closer rt c a) eqn:Hca; [|done]. exfalso.
  destruct (closer rt a b) eqn:E1; [|rewrite (closer_total a b Ha Hb E1 Hab) in *; congruence].
  assert (closer rt c b = true); [|congruence]. rewrite closer_lt in * by done.
  by eapply distance_lt_trans.
Qed.

(** What [std::sort] may return is determined: there is one sorted order. *)
Lemma sorted_unique ls ls' :
  ls ≡ₚ registered rt → ls' ≡ₚ registered rt →
  Sorted (not_after rt) ls → Sorted (not_after rt) ls' → ls = ls'.
Proof using Hwf Hour.
  intros Hp Hp' Hs Hs'.
  assert (∀ l, l ≡ₚ registered rt → Sorted (not_after rt) l → StronglySorted (not_after rt) l) as Hstr.
  { intros l Hl Hsl. apply Sorted_StronglySorted_on; [|done]. intros x y z. rewrite Hl. apply not_after_trans. }
  apply (StronglySorted_unique_strong (not_after rt)); [|by apply Hstr..|by rewrite Hp, Hp'].
  intros x y Hx Hy Hxy Hyx. rewrite Hp in Hx. rewrite Hp' in Hy. by apply closer_total.
Qed.

Lemma merge_sort_registered :
  merge_sort (not_after rt) (registered rt) ≡ₚ registered rt
  ∧ StronglySorted (λ a b, closer rt a b = true) (merge_sort (not_after rt) (registered rt)).
Proof using Hwf Hour.
  pose proof (merge_sort_Permutation (not_after rt) (registered rt)) as Hp. split; [done|].
  assert (Sorted (not_after rt) (merge_sort (not_after rt) (registered rt))) as Hs.
  { apply Sorted_merge_sort, _. }
  apply Sorted_StronglySorted_on in Hs.
  2:{ intros x y z. rewrite Hp. apply not_after_trans. }
  assert (NoDup (merge_sort (not_after rt) (registered rt))) as Hnd by (rewrite Hp; by apply NoDup_registered).
  assert (∀ x, x ∈ merge_sort (not_after rt) (registered rt) → x ∈ registered rt) as Hin by (intros x; by rewrite Hp).
  clear Hp. revert Hnd Hin. induction Hs as [|x l Hs IH Hx]; intros Hnd Hin; [constructor|].
  apply NoDup_cons in Hnd as [Hxl Hnd]. constructor; [apply IH; [done | set_solver]|].
  rewrite Forall_forall in Hx. apply Forall_forall. intros y Hy. specialize (Hx y Hy). unfold not_after in Hx.
  destruct (closer rt x y) eqn:E; [done|]. destruct Hxl.
  rewrite (closer_total x y); [done | set_solver.. | done | done].
Qed.
End Closest.

(** *** Distances as numbers

    The bytes of an XOR distance, most significant first, as one number: the
    metric of Kademlia; and the same with the highest bit of every byte
    inverted, which is the order of bytes that are compared as signed
    characters. *)

Definition big_endian (l : list Z) : Z := foldl (λ n x, n * 256 + x)%Z 0%Z l.
Definition xor_bytes (a b : string) : list Z :=
  zip_with (λ x y, Z.lxor (byte_val x) (byte_val y)) (chars a) (chars b).
Definition xor_metric (a b : string) : Z := big_endian (xor_bytes a b).
Definition invert_high_bit (x : Z) : Z := Z.lxor x 128.
Definition inverted_metric (a b : string) : Z := big_endian (invert_high_bit <$> xor_bytes a b).

Lemma big_endian_app n l : foldl (λ n x, n * 256 + x)%Z n l = (n * 256 ^ Z.of_nat (length l) + big_endian l)%Z.
Proof.
  unfold big_endian. revert n. induction l as [|x l IH]; intros n; [simpl; lia|].
  cbn [foldl length]. rewrite IH, (IH (0 * 256 + x)%Z), Nat2Z.inj_succ, Z.pow_succ_r by lia. lia.
Qed.
Lemma big_endian_cons x l : big_endian (x :: l) = (x * 256 ^ Z.of_nat (length l) + big_endian l)%Z.
Proof. unfold big_endian at 1. cbn [foldl]. rewrite big_endian_app. lia. Qed.

Lemma big_endian_bound l : Forall (λ x, 0 ≤ x < 256)%Z l → (0 ≤ big_endian l < 256 ^ Z.of_nat (length l))%Z.
Proof.
  induction 1 as [|x l Hx _ IH]; [by vm_compute|]. rewrite big_endian_cons. cbn [length].
  rewrite Nat2Z.inj_succ, Z.pow_succ_r by lia. nia.
Qed.

(** Lists of bytes are ordered as the numbers they are the digits of. *)
Lemma big_endian_lex x y l l' : length l = length l' →
  Forall (λ x, 0 ≤ x < 256)%Z l → Forall (λ x, 0 ≤ x < 256)%Z l' →
  (big_endian (x :: l) <? big_endian (y :: l'))%Z
  = if (x <? y)%Z then true else if (y <? x)%Z then false else (big_endian l <? big_endian l')%Z.
Proof.
  intros Hlen Hl%big_endian_bound Hl'%big_endian_bound. rewrite !big_endian_cons, Hlen in *.
  set (m := (256 ^ Z.of_nat (length l'))%Z) in *.
  destruct (Z.ltb_spec x y), (Z.ltb_spec y x); try lia; [apply Z.ltb_lt; nia|apply Z.ltb_ge; nia|].
  assert (x = y) as -> by lia. destruct (Z.ltb_spec (big_endian l) (big_endian l')); [apply Z.ltb_lt|apply Z.ltb_ge]; lia.
Qed.

Lemma inverted_byte c : (invert_high_bit (byte_val c) = signed_char c + 128 ∧ 0 ≤ invert_high_bit (byte_val c) < 256)%Z.
Proof.
  pose proof (forall_bytes (λ c, bool_decide (invert_high_bit (byte_val c) = signed_char c + 128)%Z
    && (0 <=? invert_high_bit (byte_val c))%Z && (invert_high_bit (byte_val c) <? 256)%Z) ltac:(by vm_compute) c) as Hc.
  apply andb_true_iff in Hc as [[Hc Hlow]%andb_true_iff Hhigh]. apply bool_decide_eq_true in Hc.
  apply Z.leb_le in Hlow. apply Z.ltb_lt in Hhigh. done.
Qed.

Lemma distance_lt_number d1 d2 : length d1 = length d2 →
  distance_lt d1 d2 = (big_endian ((λ c, invert_high_bit (byte_val c)) <$> d1) <? big_endian ((λ c, invert_high_bit (byte_val c)) <$> d2))%Z.
Proof.
  assert (∀ d : list ascii, Forall (λ x, 0 ≤ x < 256)%Z ((λ c, invert_high_bit (byte_val c)) <$> d)) as Hbytes.
  { intros d. apply Forall_fmap, Forall_true. intros c. apply inverted_byte. }
  revert d2. induction d1 as [|a d1 IH]; intros [|b d2] Hlen; [done..|]. injection Hlen as Hlen.
  rewrite !fmap_cons, big_endian_lex by (done || by rewrite !length_fmap). cbn [distance_lt].
  rewrite !(proj1 (inverted_byte _)), (IH _ Hlen).
  destruct (Z.ltb_spec (signed_char a) (signed_char b)), (Z.ltb_spec (signed_char b) (signed_char a)),
    (Z.ltb_spec (signed_char a + 128) (signed_char b + 128)), (Z.ltb_spec (signed_char b + 128) (signed_char a + 128)); done || lia.
Qed.

Lemma xor_distance_bytes a b : String.length a = String.length b →
  byte_val <$> chars (calculateXORDistance a b) = xor_bytes a b.
Proof.
  intros Hlen. unfold calculateXORDistance, xor_bytes. rewrite Hlen, Nat.eqb_refl, chars_of_chars.
  generalize (chars a) as l, (chars b) as l'. induction l as [|x l IH]; intros [|y l']; [done..|]. simpl. by rewrite byte_val_xor, IH.
Qed.

(** Where no byte of the two distances has its highest bit set, the order is
    that of the metric. *)
Lemma low_bytes_metric l l' : length l = length l' →
  Forall (λ x, 0 ≤ x < 128)%Z l → Forall (λ x, 0 ≤ x < 128)%Z l' →
  (big_endian (invert_high_bit <$> l) < big_endian (invert_high_bit <$> l') ↔ big_endian l < big_endian l')%Z.
Proof.
  intros Hlen Hl Hl'. assert (∀ l, Forall (λ x, 0 ≤ x < 128)%Z l →
    big_endian (invert_high_bit <$> l) = big_endian l + big_endian (replicate (length l) 128))%Z as Hsum.
  { clear. induction 1 as [|x l Hx _ IH]; [done|]. rewrite fmap_cons. cbn [length replicate].
    rewrite !big_endian_cons, IH, length_fmap, length_replicate.
    assert (invert_high_bit x = x + 128)%Z as ->; [|lia].
    unfold invert_high_bit. rewrite Z.add_nocarry_lxor; [done|]. apply Z.bits_inj'. intros n Hn. rewrite Z.land_spec, Z.bits_0.
    destruct (decide (n = 7)%Z) as [->|Hne].
    - assert (Z.testbit x 7 = false) as ->; [|done]. rewrite Z.testbit_false by lia. by rewrite Z.div_small by (change (2 ^ 7)%Z with 128%Z; lia).
    - change 128%Z with (2 ^ 7)%Z. rewrite Z.pow2_bits_false by lia. apply andb_false_r. }
  rewrite !Hsum, Hlen by done. lia.
Qed.

Lemma resize_to_prefix count ls : ∃ rest, ls = resize_to count ls ++ rest.
Proof.
  unfold resize_to. case_match; [|exists []; by rewrite app_nil_r].
  exists (drop (Z.to_nat count) ls). by rewrite take_drop.
Qed.

Lemma StronglySorted_weaken_on {A} (P : A → Prop) (R R' : A → A → Prop) l :
  (∀ a b, P a → P b → R a b → R' a b) → Forall P l → StronglySorted R l → StronglySorted R' l.
Proof.
  intros HR Hl Hs. induction Hs as [|x l Hs IH Hx]; [constructor|]. apply Forall_cons in Hl as [Hpx Hl].
  constructor; [by apply IH|]. rewrite Forall_forall in *. auto.
Qed.

(** The rank of a node: its inverted distance from our own identifier. *)
Definition rank rt l : Z := inverted_metric (our_node_id_ rt) (id_of rt l).

Lemma closer_rank rt a b : table_wf rt → String.length (our_node_id_ rt) = 20 →
  a ∈ registered rt → b ∈ registered rt → closer rt a b = (rank rt a <? rank rt b)%Z.
Proof.
  intros Hwf Hour Ha Hb. rewrite (closer_lt rt Hwf Hour) by done.
  assert (∀ l, l ∈ registered rt → String.length (our_node_id_ rt) = String.length (id_of rt l)) as Hlen.
  { intros l [id Hid]%elem_of_registered. destruct (registered_id _ _ _ Hwf Hid) as [-> Hl]. congruence. }
  rewrite distance_lt_number by (rewrite !length_chars, !length_xor by auto; done).
  unfold rank, inverted_metric. rewrite <-!xor_distance_bytes by auto. by rewrite <-!list_fmap_compose.
Qed.

(** C22: The closest nodes are the registered nodes of least rank, in ascending
    order of rank, where the rank is the XOR distance from our own identifier,
    read as a number with the highest bit of every byte inverted: it is the
    order of Kademlia's metric among nodes in whose distances no byte has that
    bit set.  The answer is determined: whatever permutation [std::sort]
    produces that is sorted by the comparator, the answer is the same.  The
    target the caller asks about has no influence. *)
Theorem closest_nodes_spec rt target count :
  table_wf rt → String.length (our_node_id_ rt) = 20 →
  let res := getClosestNodes rt target count in
  let metric l := xor_metric (our_node_id_ rt) (id_of rt l) in
  let low l := Forall (λ x, 0 ≤ x < 128)%Z (xor_bytes (our_node_id_ rt) (id_of rt l)) in
  (∀ ls, ls ≡ₚ registered rt → Sorted (not_after rt) ls → res = resize_to count ls)
  ∧ StronglySorted (λ a b, rank rt a < rank rt b)%Z res
  ∧ res ⊆+ registered rt
  ∧ (∀ l l', l ∈ res → l' ∈ registered rt → l' ∉ res → (rank rt l < rank rt l')%Z)
  ∧ (∀ l l', l ∈ registered rt → l' ∈ registered rt → low l → low l' → (rank rt l < rank rt l' ↔ metric l < metric l')%Z)
  ∧ ∀ target', getClosestNodes rt target' count = res.
Proof.
  intros Hwf Hour res metric low. unfold res, getClosestNodes.
  destruct (merge_sort_registered rt Hwf Hour) as [Hp Hs].
  destruct (resize_to_prefix count (merge_sort (not_after rt) (registered rt))) as [rest Hrest].
  set (sorted := merge_sort (not_after rt) (registered rt)) in *.
  assert (StronglySorted (λ a b, rank rt a < rank rt b)%Z sorted) as Hrank.
  { eapply (StronglySorted_weaken_on (λ l, l ∈ registered rt)); [|by apply Forall_forall; intros l; rewrite Hp|exact Hs].
    intros a b Ha Hb Hab. cbv beta in *. rewrite closer_rank in Hab by done. by apply Z.ltb_lt. }
  clear Hs. rewrite Hrest in Hrank, Hp. apply StronglySorted_app in Hrank as (Hcross & Hs & _). split_all.
  - intros ls Hls Hsort. f_equal. apply (sorted_unique rt Hwf Hour); [by rewrite Hrest | done | | done].
    apply Sorted_merge_sort, _.
  - done.
  - rewrite <-Hp. by apply submseteq_inserts_r.
  - intros l l' Hl Hl' Hn. apply Hcross; [done|]. rewrite <-Hp in Hl'. set_solver.
  - intros l l' [id Hid]%elem_of_registered [id' Hid']%elem_of_registered Hl Hl'. apply low_bytes_metric; [|done..].
    destruct (registered_id _ _ _ Hwf Hid) as [Hi Li], (registered_id _ _ _ Hwf Hid') as [Hi' Li'].
    unfold xor_bytes. rewrite Hi, Hi', !length_zip_with, !length_chars. lia.
  - done.
Qed.

(** *** Adding and removing *)

Lemma addNode_added id ip p rt w rt' w' :
  addNode now id ip p rt w = (true, rt', w') →
  ∃ n bs, rt' = rt <| node_store ::= <[next_loc rt := n]> |> <| next_loc ::= Pos.succ |>
                   <| node_registry_ ::= <[id := next_loc rt]> |> <| routing_buckets_ := bs |>
    ∧ n_bucket_index n = calculateBucketIndex (our_node_id_ rt) id
    ∧ successful_pings n = 0%Z ∧ ping_attempts n = 0%Z
    ∧ isValidNodeId id = true ∧ node_registry_ rt !! id = None
    ∧ ∃ up, bs = if (0 <=? n_bucket_index n)%Z
                 then alter (λ b, b <| nodes ::= (λ ns, ns ++ [next_loc rt]) |> <| last_updated := up |>)
                        (n_bucket_index n) (routing_buckets_ rt)
                 else routing_buckets_ rt.
Proof.
  unfold addNode. destruct (negb _ || _ || _) eqn:Hv; [done|].
  apply orb_false_iff in Hv as [[Hv1%negb_false_iff _]%orb_false_iff _].
  destruct (node_registry_ rt !! id) eqn:Hid; [done|].
  destruct (now w) as [seen w1]. destruct (now w1) as [ev w2].
  set (n := mk_DHTNode _ _ _ _ _ _ _ _ _ _ _ _ _ _ _ _ _ _ _ _ _ _ _ _).
  intros H. exists n, (routing_buckets_ rt'). rewrite Hv1.
  enough (rt' = rt <| node_store ::= <[next_loc rt := n]> |> <| next_loc ::= Pos.succ |>
                   <| node_registry_ ::= <[id := next_loc rt]> |> <| routing_buckets_ := routing_buckets_ rt' |>
          ∧ ∃ up, routing_buckets_ rt' = if (0 <=? n_bucket_index n)%Z
                 then alter (λ b, b <| nodes ::= (λ ns, ns ++ [next_loc rt]) |> <| last_updated := up |>)
                        (n_bucket_index n) (routing_buckets_ rt)
                 else routing_buckets_ rt) as [? ?] by done.
  simpl in *. destruct (0 <=? _)%Z eqn:Hpos; [|simplify_eq; by split; [|exists 0%Z]].
  destruct (routing_buckets_ rt !! _) as [b|] eqn:Hb.
  - destruct (now w2) as [up w3]. simplify_eq. split; [done|]. by exists up.
  - simplify_eq. split; [done|]. exists 0%Z. simpl. symmetry. apply map_eq. intros j.
    rewrite lookup_alter. case_decide as Hj; [|done]. rewrite <-Hj. by rewrite Hb.
Qed.

(** The quality score given to [addNodeWithQuality] is discarded: the
    first update of the node's quality replaces it by one success out of one
    attempt.  An added node always scores 1, and two calls that differ in the
    score alone have the same effect. *)
Theorem addNodeWithQuality_ignores_score id ip p score t rt w :
  (addNodeWithQuality now id ip p score t rt w).1.1 = true →
  getNodeQualityScore (addNodeWithQuality now id ip p score t rt w).1.2 id = double_of_int 1
  ∧ ∀ score', addNodeWithQuality now id ip p score' t rt w = addNodeWithQuality now id ip p score t rt w.
Proof.
  unfold addNodeWithQuality. destruct (addNode now id ip p rt w) as [[[] rt1] w1] eqn:Hadd; [|done].
  apply addNode_added in Hadd as (n & bs & -> & _ & Hs & Hp & _ & _ & _). simpl.
  rewrite lookup_insert_eq. simpl. intros _. split.
  - unfold getNodeQualityScore, registered_node. simpl. rewrite lookup_insert_eq. simpl.
    rewrite lookup_alter_eq, lookup_insert_eq. unfold updateNodeQuality. simpl. rewrite Hs, Hp. by vm_compute.
  - intros score'. f_equal. f_equal. unfold alter_node, set_field; simpl. f_equal.
    apply map_eq. intros l. rewrite !lookup_alter. case_decide; [|done]. subst.
    rewrite lookup_insert_eq. simpl. f_equal. unfold updateNodeQuality. simpl. by rewrite Hs, Hp.
Qed.

(** Removing a node undoes adding it: a node that was added is found, and
    after its removal the registry and the nodes of every bucket are what they
    were before. *)
Theorem add_remove_roundtrip id ip p rt w rt' w' :
  table_wf rt → addNode now id ip p rt w = (true, rt', w') →
  hasNode rt' id = true ∧ hasNode rt id = false
  ∧ (removeNode id rt').1 = true
  ∧ node_registry_ (removeNode id rt').2 = node_registry_ rt
  ∧ ∀ k, getNodesInBucket (removeNode id rt').2 k = getNodesInBucket rt k.
Proof.
  intros Hwf (n & bs & -> & _ & _ & _ & _ & Hid & up & Hbs)%addNode_added. unfold hasNode, removeNode. simpl.
  rewrite lookup_insert_eq, Hid. simpl. rewrite lookup_insert_eq. simpl. split_all; [done..| |].
  - unfold remove_from_bucket. case_match; simpl; by rewrite delete_insert_id.
  - intros k. unfold remove_from_bucket, getNodesInBucket. case_match; simpl; [|by rewrite Hbs].
    rewrite Hbs. destruct (decide (n_bucket_index n = k)) as [<-|]; [|by rewrite !lookup_alter_ne].
    rewrite !lookup_alter_eq.
    destruct (routing_buckets_ rt !! n_bucket_index n) as [b|] eqn:Hb; simpl; [|done].
    rewrite filter_app, filter_cons_False, filter_nil, app_nil_r by (intros HH; by apply HH).
    apply filter_keeps_all. intros l Hl ->.
    destruct (wf_buckets _ Hwf _ _ Hb) as (_ & _ & Hin).
    destruct (Hin _ Hl) as (m & Hm & _). apply (wf_store _ Hwf) in Hm as [? _]. lia.
Qed.
End Properties.
