(* ===== verification/RoutingRuns.v ===== *)
(** * Runs of the routing table

    What the table does over whole runs: a split discards the next bucket,
    nodes other than our own never reach a bucket, and the monitor's first
    pass over the buckets is undefined behaviour. *)

From S2P Require Import Prelude Numeric RoutingTable RoutingFacts.

Section Runs.
Context {W : Type} (now : W → Z * W).
Implicit Types (w : W) (rt : routing_table).

(** ** Splitting *)

(** Splitting a full bucket moves none of its nodes: the bucket keeps
    them all, and the bucket after it is replaced by an empty one.  The nodes
    that one held are lost to the buckets; if one of them is registered, the
    table fails its own integrity check. *)
Theorem split_discards_next rt k b w :
  table_wf rt → routing_buckets_ rt !! k = Some b → shouldSplitBucket (config_ rt) b = true →
  let rt' := (splitBucket now k rt w).1 in
  getNodesInBucket rt' k = nodes b
  ∧ getNodesInBucket rt' (k + 1) = []
  ∧ (∀ j, j ≠ k → j ≠ (k + 1)%Z → getNodesInBucket rt' j = getNodesInBucket rt j)
  ∧ node_registry_ rt' = node_registry_ rt
  ∧ ∀ l, (0 ≤ k)%Z → l ∈ getNodesInBucket rt (k + 1) → l ∈ registered rt →
      validateRoutingTableIntegrity rt' = false.
Proof.
  intros Hwf Hk Hs rt'. unfold rt'.
  destruct (splitBucket_full now _ _ _ w Hwf Hk Hs) as (nb & t & Hnb & Hi & ->).
  unfold getNodesInBucket; simpl. split_all.
  - by rewrite lookup_insert_eq.
  - by rewrite lookup_insert_ne, lookup_insert_eq by lia.
  - intros j Hj Hj'. by rewrite !lookup_insert_ne by done.
  - done.
  - intros l Hpos Hl Hreg. destruct (routing_buckets_ rt !! (k + 1)%Z) as [b'|] eqn:Hb'; [|by apply elem_of_nil in Hl].
    destruct (wf_buckets _ Hwf _ _ Hb') as (_ & _ & Hin). destruct (Hin _ Hl) as (n & Hn & Hidx).
    apply not_true_is_false. unfold validateRoutingTableIntegrity. rewrite forallb_forall.
    intros Hall. specialize (Hall l). rewrite <-list_elem_of_In in Hall. specialize (Hall Hreg).
    unfold node_in_place in Hall. simpl in Hall. rewrite Hn, Hidx in Hall.
    rewrite (proj2 (Z.leb_le 0 (k + 1))) in Hall by lia.
    rewrite lookup_insert_ne, lookup_insert_eq in Hall by lia.
    rewrite Hnb in Hall. by apply bool_decide_eq_true, elem_of_nil in Hall.
Qed.

(** ** Buckets that stay empty *)

(** Only buckets 0 to 7 exist, they are empty, and an empty bucket is not
    full. *)
Definition unbucketed (o : string) rt : Prop :=
  our_node_id_ rt = o ∧ (0 < max_bucket_size (config_ rt))%Z
  ∧ ∀ k b, routing_buckets_ rt !! k = Some b → (0 ≤ k < 8)%Z ∧ nodes b = [].

(** Operations that do not add our own identifier and keep a bucket's limit
    positive. *)
Definition foreign_op (o : string) (op : table_op) : Prop :=
  match op with
  | OpAdd id _ _ | OpAddWithQuality id _ _ _ _ => id ≠ o
  | OpConfig config => (0 < max_bucket_size config)%Z
  | _ => True
  end.

(** [rt'] has the buckets of [rt], with no node added and none gone. *)
Definition keeps_buckets rt rt' : Prop :=
  our_node_id_ rt' = our_node_id_ rt ∧ config_ rt' = config_ rt
  ∧ (∀ k b', routing_buckets_ rt' !! k = Some b' →
       (0 ≤ k < 8)%Z ∧ nodes b' = [] ∨ ∃ b, routing_buckets_ rt !! k = Some b ∧ sublist (nodes b') (nodes b))
  ∧ ∀ k, is_Some (routing_buckets_ rt !! k) → is_Some (routing_buckets_ rt' !! k).

Lemma keeps_refl rt : keeps_buckets rt rt.
Proof. split_and!; [done..| |done]. intros k b Hb. right. by exists b. Qed.

Lemma keeps_trans rt1 rt2 rt3 : keeps_buckets rt1 rt2 → keeps_buckets rt2 rt3 → keeps_buckets rt1 rt3.
Proof.
  intros (Ho & Hc & Hb & Hk) (Ho' & Hc' & Hb' & Hk'). split_and!; [congruence..| |auto].
  intros k b [?|(b2 & Hb2 & Hsub)]%Hb'; [by left|]. apply Hb in Hb2 as [[? Hnil]|(b1 & ? & ?)].
  - left. split; [done|]. rewrite Hnil in Hsub. by apply sublist_nil_r in Hsub.
  - right. exists b1. split; [done | by etrans].
Qed.

Lemma keeps_unbucketed o rt rt' : keeps_buckets rt rt' → unbucketed o rt → unbucketed o rt'.
Proof.
  intros (Ho & Hc & Hb & _) (Ho' & Hm & He). split_and!; [congruence..|].
  intros k b [?|(b1 & Hb1 & Hsub)]%Hb; [done|]. destruct (He _ _ Hb1) as [? Hnil]. split; [done|].
  rewrite Hnil in Hsub. by apply sublist_nil_r in Hsub.
Qed.

(** Operations on nodes and the registry alone. *)
Lemma keeps_same rt rt' :
  our_node_id_ rt' = our_node_id_ rt → config_ rt' = config_ rt →
  routing_buckets_ rt' = routing_buckets_ rt → keeps_buckets rt rt'.
Proof. intros Ho Hc Hb. split_and!; [done..| |by rewrite Hb]. intros k b. rewrite Hb. right. by exists b. Qed.

Lemma keeps_remove l n rt : keeps_buckets rt (remove_from_bucket l n rt).
Proof.
  unfold remove_from_bucket. case_match; [|apply keeps_refl]. split_and!; simpl; [done..| |].
  - intros k b'. rewrite lookup_alter. case_decide as Hk; [subst k|by right; exists b'].
    intros (b & Hb & ->)%fmap_Some. right. exists b. split; [done | apply sublist_filter].
  - intros k [b Hb]. rewrite lookup_alter. case_decide as Hk; [subst k|by exists b]. rewrite Hb. by eexists.
Qed.

Lemma initialize_buckets rt w :
  let rt' := (initializeRoutingBuckets now rt w).1 in
  our_node_id_ rt' = our_node_id_ rt ∧ config_ rt' = config_ rt ∧ stats_ rt' = stats_ rt
  ∧ (∀ k b, routing_buckets_ rt' !! k = Some b →
       (0 ≤ k < 8)%Z ∧ nodes b = [] ∨ routing_buckets_ rt !! k = Some b)
  ∧ ∀ k, (0 ≤ k < 8)%Z ∨ is_Some (routing_buckets_ rt !! k) → is_Some (routing_buckets_ rt' !! k).
Proof.
  cbv zeta. unfold initializeRoutingBuckets.
  assert (∀ ks rt w, Forall (λ k, 0 ≤ k < 8)%Z ks →
    let rt' := (foldl (λ s i, createBucket now i i s.1 s.2) (rt, w) ks).1 in
    our_node_id_ rt' = our_node_id_ rt ∧ config_ rt' = config_ rt ∧ stats_ rt' = stats_ rt
    ∧ (∀ k b, routing_buckets_ rt' !! k = Some b →
         (0 ≤ k < 8)%Z ∧ nodes b = [] ∨ routing_buckets_ rt !! k = Some b)
    ∧ ∀ k, k ∈ ks ∨ is_Some (routing_buckets_ rt !! k) → is_Some (routing_buckets_ rt' !! k)) as Hfold.
  { clear rt w. induction ks as [|k0 ks IH]; intros rt w Hks; simpl.
    { split_all; [done..|by right|]. by intros k [?%elem_of_nil|?]. }
    inversion_clear Hks as [|?? Hk0 Hks'].
    assert (∃ b0 w', nodes b0 = [] ∧ createBucket now k0 k0 rt w = (rt <| routing_buckets_ ::= <[k0 := b0]> |>, w'))
      as (b0 & w' & Hb0 & ->).
    { unfold createBucket. do 3 destruct (now _). eexists _, _. split; [|reflexivity]. done. }
    destruct (IH (rt <| routing_buckets_ ::= <[k0 := b0]> |>) w' Hks') as (-> & -> & -> & Hb & Hk).
    split_all; [done..| |].
    - intros k b [?|Hl]%Hb; [by left|]. simpl in Hl. apply lookup_insert_Some in Hl as [[<- <-]|[_ ?]]; [by left | by right].
    - intros k Hin. apply Hk. simpl. destruct (decide (k0 = k)) as [<-|Hne].
      + right. rewrite lookup_insert_eq. by eexists.
      + rewrite lookup_insert_ne by done. destruct Hin as [[->|?]%elem_of_cons|?]; [done | by left | by right]. }
  destruct (Hfold [0; 1; 2; 3; 4; 5; 6; 7]%Z rt w) as (-> & -> & -> & Hb & Hk); [repeat constructor; lia|].
  split_all; [done..|done|]. intros k [Hr|?]; apply Hk; [left | by right].
  assert (k = 0 ∨ k = 1 ∨ k = 2 ∨ k = 3 ∨ k = 4 ∨ k = 5 ∨ k = 6 ∨ k = 7)%Z as Hc by lia.
  set_solver.
Qed.

Lemma keeps_add o id ip p rt w :
  unbucketed o rt → id ≠ o → keeps_buckets rt (addNode now id ip p rt w).1.2.
Proof.
  intros (Ho & _ & He) Hne. destruct (addNode now id ip p rt w) as [[[] rt'] w'] eqn:Hadd.
  - pose proof Hadd as Hadd'. apply addNode_added in Hadd as (n & bs & -> & Hidx & _ & _ & Hv & _ & up & ->).
    apply keeps_same; simpl; [done..|].
    apply Nat.eqb_eq in Hv. subst o. destruct (bucket_index_large _ _ Hv Hne) as [H|H]; rewrite <-Hidx in H.
    + by rewrite H.
    + case_match; [|done]. apply map_eq. intros j. rewrite lookup_alter. case_decide as Hj; [subst j|done].
      destruct (routing_buckets_ rt !! n_bucket_index n) eqn:Hb; [|done]. apply He in Hb. lia.
  - simpl. unfold addNode in Hadd. repeat (case_match; simplify_eq/=); apply keeps_refl.
Qed.

Lemma keeps_add_quality o id ip p q t rt w :
  unbucketed o rt → id ≠ o → keeps_buckets rt (addNodeWithQuality now id ip p q t rt w).1.2.
Proof.
  intros Hu Hne. unfold addNodeWithQuality. pose proof (keeps_add o id ip p rt w Hu Hne) as Hk.
  destruct (addNode now id ip p rt w) as [[[] rt'] w']; simpl in *; [|done]. case_match; [|done].
  eapply keeps_trans; [done|]. by apply keeps_same.
Qed.

Lemma unbucketed_no_split o rt k b :
  unbucketed o rt → routing_buckets_ rt !! k = Some b → shouldSplitBucket (config_ rt) b = false.
Proof.
  intros (_ & Hm & He) Hb. destruct (He _ _ Hb) as [_ Hn]. unfold shouldSplitBucket. rewrite Hn.
  apply andb_false_iff. left. by apply Z.leb_gt.
Qed.

Lemma keeps_split o k rt w : unbucketed o rt → keeps_buckets rt (forceBucketSplit now k rt w).1.2.
Proof.
  intros Hu. unfold forceBucketSplit, splitBucket. destruct (routing_buckets_ rt !! k) as [b|] eqn:Hb;
    [rewrite (unbucketed_no_split _ _ _ _ Hu Hb)|]; apply keeps_refl.
Qed.

Lemma keeps_evict l rt w : keeps_buckets rt (evictNode now l rt w).1.
Proof.
  unfold evictNode. destruct (now w) as [t w']. set (rt1 := alter_node l _ rt).
  assert (keeps_buckets rt rt1) as H1 by (by apply keeps_same).
  case_match; [|done]. simpl. eapply keeps_trans; [done|].
  eapply keeps_trans; [apply (keeps_remove l)|]. by apply keeps_same.
Qed.

Lemma keeps_cleanup rt w : keeps_buckets rt (cleanupExpiredNodes now rt w).1.
Proof.
  destruct (cleanup_buckets now rt w) as (Heq & Hn & Hs). split_and!; [by rewrite Heq..| |].
  - intros k b' (b & ns & Hb & Hsub & ->)%Hs. right. exists b. by split.
  - intros k. rewrite <-!not_eq_None_Some. by rewrite Hn.
Qed.

Lemma keeps_clear_expired rt w : keeps_buckets rt (clearExpiredNodes now rt w).1.2.
Proof. destruct (clearExpired_registry now rt w) as [-> _]. by apply keeps_same. Qed.

Lemma keeps_clear o rt w : unbucketed o rt → keeps_buckets rt (clearRoutingTable now rt w).1.
Proof.
  intros (_ & _ & He). unfold keeps_buckets, clearRoutingTable.
  destruct (initialize_buckets (rt <| node_registry_ := ∅ |> <| routing_buckets_ := ∅ |>) w) as (-> & -> & _ & Hb & Hk).
  simpl in *. split_and!; [done..| |].
  - intros k b [?|Hl]%Hb; [by left|]. by rewrite lookup_empty in Hl.
  - intros k [b Hl]. apply Hk. left. by eapply He.
Qed.

Lemma keeps_repair o rt w : unbucketed o rt → keeps_buckets rt (repairRoutingTable now rt w).1.2.
Proof.
  intros Hu. unfold repairRoutingTable.
  assert (∀ c rt w, keeps_buckets rt
    (if double_lt (getRoutingEfficiency rt) (double_lit 1 2)
     then let '(cleared, rt, w) := clearExpiredNodes now rt w in ((c + cleared)%Z, rt, w)
     else (c, rt, w)).1.2) as Hclear.
  { intros c rt1 w1. case_match; [|apply keeps_refl]. pose proof (keeps_clear_expired rt1 w1).
    by destruct (clearExpiredNodes now rt1 w1) as [[? ?] ?]. }
  destruct (negb _); [|apply Hclear].
  pose proof (keeps_clear _ rt w Hu). destruct (clearRoutingTable now rt w). eapply keeps_trans; [done | apply Hclear].
Qed.

(** Every operation but a merge and a change of the configuration. *)
Lemma keeps_op o op rt w :
  unbucketed o rt → foreign_op o op →
  (∀ k, op ≠ OpMerge k) → (∀ c, op ≠ OpConfig c) → (∀ n, op ≠ OpMaxSize n) →
  keeps_buckets rt (run_op now op rt w).1.
Proof.
  intros Hu Hf Hm Hc Hn. destruct op; simpl in *;
    try (exfalso; first [exact (Hm _ eq_refl) | exact (Hc _ eq_refl) | exact (Hn _ eq_refl)]).
  - pose proof (keeps_add _ id ip port rt w Hu Hf). by destruct (addNode now id ip port rt w) as [[? ?] ?].
  - pose proof (keeps_add_quality _ id ip port score response_time rt w Hu Hf).
    by destruct (addNodeWithQuality now id ip port score response_time rt w) as [[? ?] ?].
  - unfold removeNode. case_match; [|apply keeps_refl]. simpl. case_match.
    + eapply keeps_trans; [apply keeps_remove | by apply keeps_same].
    + by apply keeps_same.
  - unfold updateNode. destruct (node_registry_ rt !! id); [|apply keeps_refl]. destruct (now w). by apply keeps_same.
  - unfold updateNodeStatus. case_match; [by apply keeps_same | apply keeps_refl].
  - pose proof (keeps_split _ bucket_index rt w Hu). by destruct (forceBucketSplit now bucket_index rt w) as [[? ?] ?].
  - unfold forceNodeEviction. destruct (node_registry_ rt !! id) as [p|]; [|apply keeps_refl].
    pose proof (keeps_evict p rt w). by destruct (evictNode now p rt w).
  - apply keeps_cleanup.
  - pose proof (keeps_clear_expired rt w). by destruct (clearExpiredNodes now rt w) as [[? ?] ?].
  - by eapply keeps_clear.
  - split_and!; simpl; [done..| |].
    + intros k b'. rewrite lookup_fmap. intros (b & Hb & ->)%fmap_Some. right. by exists b.
    + intros k [b Hb]. rewrite lookup_fmap, Hb. by eexists.
  - pose proof (keeps_repair _ rt w Hu). by destruct (repairRoutingTable now rt w) as [[? ?] ?].
  - unfold updateStatistics. destruct (now w). by apply keeps_same.
  - by apply keeps_same.
Qed.

Lemma merge_unbucketed o k rt w :
  table_wf rt → unbucketed o rt → unbucketed o (mergeBucket now k rt w).1.2.
Proof.
  intros Hwf Hu. destruct (routing_buckets_ rt !! k) as [b|] eqn:Hk; [|unfold mergeBucket; by rewrite Hk].
  destruct (shouldMergeBucket (config_ rt) b) eqn:Hm; [|unfold mergeBucket; by rewrite Hk, Hm].
  destruct (wf_buckets _ Hwf _ _ Hk) as (Hi & _ & _).
  destruct (routing_buckets_ rt !! (k - 1)%Z) as [pb|] eqn:Hp; [|unfold mergeBucket; by rewrite Hk, Hm, Hi, Hp].
  destruct (mergeBucket_merged now _ _ _ _ w Hwf Hk Hm Hp) as (t & w' & store & -> & _).
  destruct Hu as (Ho & Hmax & He). split_and!; simpl; [done..|].
  destruct (He _ _ Hk) as [_ Hbn], (He _ _ Hp) as [? Hpn].
  intros j b' [[<- <-]|[_ [_ Hj]%lookup_delete_Some]]%lookup_insert_Some; [|by apply He].
  split; [done|]. simpl. by rewrite Hpn, Hbn.
Qed.

Lemma run_op_unbucketed o op rt w :
  table_wf rt → unbucketed o rt → foreign_op o op → unbucketed o (run_op now op rt w).1.
Proof.
  intros Hwf Hu Hf. destruct op; try (eapply keeps_unbucketed; [by eapply keeps_op | done]).
  - simpl. unfold forceBucketMerge. destruct (routing_buckets_ rt !! bucket_index); [|done]. pose proof (merge_unbucketed o bucket_index rt w Hwf Hu).
    by destruct (mergeBucket now bucket_index rt w) as [[? ?] ?].
  - destruct Hu as (? & ? & ?). by split_and!.
  - destruct Hu as (? & ? & ?). by split_and!.
Qed.

Lemma new_unbucketed o config w :
  (0 < max_bucket_size config)%Z → unbucketed o (new_routing_table now o config w).1.
Proof.
  intros Hm. unfold new_routing_table.
  destruct (initialize_buckets (mk_routing_table config o ∅ ∅ empty_statistics ∅ 1) w) as (Ho & Hc & _ & Hb & _).
  simpl in *. split_and!; [done | by rewrite Hc |].
  intros k b [?|Hl]%Hb; [done|]. by rewrite lookup_empty in Hl.
Qed.

Lemma run_ops_unbucketed o ops s :
  table_wf s.1 → unbucketed o s.1 → Forall (foreign_op o) ops → unbucketed o (run_ops now ops s).1.
Proof.
  revert s. induction ops as [|op ops IH]; intros [rt w] Hwf Hu Hf; [done|].
  inversion_clear Hf as [|?? Hop Hops]. simpl. apply IH; [by apply run_op_wf | by apply run_op_unbucketed | done].
Qed.

Lemma unbucketed_no_nodes o rt : unbucketed o rt → bucketed_nodes rt = [].
Proof.
  intros (_ & _ & He). unfold bucketed_nodes.
  assert (∀ p, p ∈ int_map_iter (routing_buckets_ rt) → nodes p.2 = []) as Hp.
  { intros [k b] Hin%elem_of_int_map_iter. by eapply He. }
  induction (int_map_iter (routing_buckets_ rt)) as [|p ps IH]; [done|].
  cbn [fmap list_fmap mjoin list_join]. unfold bucket_nodes at 1. rewrite Hp by (by left).
  simpl. apply IH. intros q Hq. apply Hp. by right.
Qed.

(** C23: However many nodes are added, the buckets stay empty, as long as our
    own identifier is not added: the bucket index of any other node is at
    least 24 (or -1), and only buckets 0 to 7 exist.  So the statistics, which
    count the nodes of the buckets, always report no node and an efficiency
    of zero. *)
Theorem nodes_never_bucketed o config ops w :
  (0 < max_bucket_size config)%Z → Forall (foreign_op o) ops →
  let s := run_ops now ops (new_routing_table now o config w) in
  (∀ k, getNodesInBucket s.1 k = [])
  ∧ st_total_nodes (stats_ (updateStatistics now s.1 s.2).1) = 0%Z
  ∧ getRoutingEfficiency (updateStatistics now s.1 s.2).1 = double_of_int 0.
Proof.
  intros Hm Hops s.
  assert (unbucketed o s.1) as Hu.
  { apply run_ops_unbucketed; [apply new_routing_table_wf | by apply new_unbucketed | done]. }
  pose proof (unbucketed_no_nodes _ _ Hu) as Hnil. split_all.
  - intros k. unfold getNodesInBucket. destruct (routing_buckets_ s.1 !! k) eqn:Hk; [|done].
    by eapply Hu.
  - unfold updateStatistics. destruct (now s.2). simpl. by rewrite Hnil.
  - unfold getRoutingEfficiency, updateStatistics. destruct (now s.2). simpl. by rewrite Hnil.
Qed.

(** ** The monitor's pass *)

(** Operations that leave merging enabled and force no merge themselves. *)
Definition merging_kept (op : table_op) : Prop :=
  match op with
  | OpMerge _ => False
  | OpConfig c => enable_bucket_merging c = true ∧ (0 < min_bucket_size c)%Z
  | _ => True
  end.

Definition merging (c : RoutingConfig) : Prop := enable_bucket_merging c = true ∧ (0 < min_bucket_size c)%Z.

Lemma run_op_merging o op rt w :
  unbucketed o rt → foreign_op o op → merging_kept op →
  merging (config_ rt) ∧ (∀ k, (0 ≤ k < 8)%Z → is_Some (routing_buckets_ rt !! k)) →
  let rt' := (run_op now op rt w).1 in
  merging (config_ rt') ∧ (∀ k, (0 ≤ k < 8)%Z → is_Some (routing_buckets_ rt' !! k)).
Proof.
  intros Hu Hf Hk [Hm Hall]. cbv zeta. destruct op; try done; try (simpl; by split);
    match goal with |- context [run_op now ?op rt w] =>
      destruct (keeps_op o op rt w) as (_ & -> & _ & Hkeep); [done.. | split; [done | auto]] end.
Qed.

Lemma empty_bucket_merges o rt k b :
  unbucketed o rt → merging (config_ rt) → routing_buckets_ rt !! k = Some b →
  shouldMergeBucket (config_ rt) b = true.
Proof.
  intros (_ & _ & He) [Hm Hmin] Hb. destruct (He _ _ Hb) as [_ Hn].
  unfold shouldMergeBucket. rewrite Hn, Hm. apply andb_true_iff. split; [by apply Z.ltb_lt | done].
Qed.

Lemma monitor_erases o rt w fuel :
  table_wf rt → unbucketed o rt → merging (config_ rt) →
  (∀ k, (0 ≤ k < 8)%Z → is_Some (routing_buckets_ rt !! k)) →
  monitorRoutingTable now (S (S fuel)) rt w = Undefined.
Proof.
  intros Hwf Hu Hm Hall. destruct (Hall 0%Z) as [b0 H0]; [lia|]. destruct (Hall 1%Z) as [b1 H1]; [lia|].
  assert (∀ i, is_Some (routing_buckets_ rt !! i) → (0 ≤ i < 8)%Z) as Hdom.
  { intros i [b Hb]. by eapply Hu. }
  unfold monitorRoutingTable. rewrite (head_least _ 0).
  2: apply int_map_keys_sorted.
  2: apply int_map_keys; by exists b0.
  2: intros i Hi%int_map_keys%Hdom; lia.
  simpl monitor_from. rewrite H0.
  rewrite (unbucketed_no_split _ _ _ _ Hu H0), (empty_bucket_merges _ _ _ _ Hu Hm H0).
  assert (mergeBucket now 0 rt w = (false, rt, w)) as ->.
  { unfold mergeBucket. rewrite H0, (empty_bucket_merges _ _ _ _ Hu Hm H0).
    destruct (wf_buckets _ Hwf _ _ H0) as (-> & _ & _). change (0 - 1)%Z with (-1)%Z. simpl negb. cbv iota.
    destruct (routing_buckets_ rt !! (-1)%Z) eqn:Hneg; [|done].
    destruct (Hdom (-1)%Z); [by eexists|lia]. }
  rewrite (next_key_least 0 1); [|by exists b1|lia|intros i Hi%Hdom; lia].
  rewrite H1, (unbucketed_no_split _ _ _ _ Hu H1), (empty_bucket_merges _ _ _ _ Hu Hm H1).
  destruct (mergeBucket_merged now rt 1 b1 b0 w Hwf H1) as (t & w' & st & -> & _); [by eapply empty_bucket_merges|done|done].
Qed.

(** With bucket merging enabled, as it is by default, the first pass of
    the monitor thread over the buckets is undefined behaviour in every state
    the public operations reach (a forced merge apart): bucket 1 is empty, is
    merged into bucket 0 and erased from the map while the loop's iterator
    points to it.  Two steps of fuel reach that point, and more change nothing. *)
Theorem monitor_undefined o config ops w fuel :
  (0 < max_bucket_size config)%Z → enable_bucket_merging config = true → (0 < min_bucket_size config)%Z →
  Forall (λ op, foreign_op o op ∧ merging_kept op) ops →
  let s := run_ops now ops (new_routing_table now o config w) in
  monitor_round now (S (S fuel)) s.1 s.2 = Undefined.
Proof.
  intros Hmax Hen Hmin Hops s.
  assert (∀ ops s, table_wf s.1 → unbucketed o s.1 → Forall (λ op, foreign_op o op ∧ merging_kept op) ops →
    merging (config_ s.1) ∧ (∀ k, (0 ≤ k < 8)%Z → is_Some (routing_buckets_ s.1 !! k)) →
    let s' := run_ops now ops s in
    merging (config_ s'.1) ∧ (∀ k, (0 ≤ k < 8)%Z → is_Some (routing_buckets_ s'.1 !! k))) as Hrun.
  { clear. induction ops as [|op ops IH]; intros [rt w] Hwf Hu Hf Hs; [done|].
    inversion_clear Hf as [|?? [Hop Hk] Hops]. simpl. apply IH;
      [by apply run_op_wf | by apply run_op_unbucketed | done | by eapply run_op_merging]. }
  pose proof (new_routing_table_wf now o config w) as Hwf0.
  pose proof (new_unbucketed o config w Hmax) as Hu0.
  destruct (Hrun ops (new_routing_table now o config w)) as [Hm Hall]; [done..| |].
  { unfold new_routing_table in *.
    destruct (initialize_buckets (mk_routing_table config o ∅ ∅ empty_statistics ∅ 1) w) as (_ & -> & _ & _ & Hk).
    split; [done|]. intros k Hr. apply Hk. by left. }
  unfold monitor_round. rewrite (monitor_erases o); [done|by apply run_ops_wf| |done|done].
  apply run_ops_unbucketed; [done..|]. eapply Forall_impl; [done|]. by intros ? [? _].
Qed.
End Runs.

(** ** Concrete tables

    A clock that ticks at every reading, our identifier, and two others. *)

Definition tick (w : Z) : Z * Z := (w, (w + 1)%Z).
Definition our_id : string := "AAAAAAAAAAAAAAAAAAAA".
Definition id_b : string := "AAAAAAAAAAAAAAAAAAAB".
Definition id_p : string := "PAAAAAAAAAAAAAAAAAAA".
Definition two_adds : list table_op := [OpAdd id_b "10.0.0.1" 6881; OpAdd id_p "10.0.0.2" 6881].
Definition two_nodes : routing_table * Z :=
  run_ops tick two_adds (new_routing_table tick our_id default_RoutingConfig 0%Z).

Lemma two_nodes_wf : table_wf two_nodes.1.
Proof. apply run_ops_wf, new_routing_table_wf. Qed.

Lemma two_adds_foreign : Forall (foreign_op our_id) two_adds.
Proof. repeat constructor; discriminate. Qed.

(** The far node comes second, although it is the one asked for. *)
Lemma closest_nodes_spec_witness :
  getClosestNodes two_nodes.1 id_p 8 = [1; 2]%positive
  ∧ StronglySorted (λ a b, rank two_nodes.1 a < rank two_nodes.1 b)%Z (getClosestNodes two_nodes.1 id_p 8)
  ∧ (xor_metric our_id id_b < xor_metric our_id id_p)%Z.
Proof.
  split; [by vm_compute|].
  destruct (closest_nodes_spec two_nodes.1 id_p 8 two_nodes_wf eq_refl) as (_ & Hs & _ & _ & Hmetric & _). split; [exact Hs|].
  assert (∀ l, l ∈ [1; 2]%positive → l ∈ registered two_nodes.1) as Hin.
  { intros l Hl. by replace (registered two_nodes.1) with [1; 2]%positive by (vm_compute; reflexivity). }
  apply (Hmetric 1%positive 2%positive).
  - apply Hin. by apply (bool_decide_eq_true_1 _).
  - apply Hin. by apply (bool_decide_eq_true_1 _).
  - vm_compute. repeat constructor; discriminate.
  - vm_compute. repeat constructor; discriminate.
  - vm_compute. reflexivity.
Defined.

Lemma addNodeWithQuality_ignores_score_witness :
  getNodeQualityScore
    (addNodeWithQuality tick id_b "10.0.0.1" 6881 (double_lit 1 10) 50
       (new_routing_table tick our_id default_RoutingConfig 0%Z).1 0%Z).1.2 id_b = double_of_int 1.
Proof.
  apply (addNodeWithQuality_ignores_score tick id_b "10.0.0.1" 6881 (double_lit 1 10) 50
    (new_routing_table tick our_id default_RoutingConfig 0%Z).1 0%Z).
  by vm_compute.
Defined.

Definition third_id : string := "AAAAAAAAAAAAAAAAAAAC".
Definition three_nodes : bool * routing_table * Z :=
  addNode tick third_id "10.0.0.3" 6881 two_nodes.1 two_nodes.2.

Lemma three_nodes_added :
  addNode tick third_id "10.0.0.3" 6881 two_nodes.1 two_nodes.2 = (true, three_nodes.1.2, three_nodes.2).
Proof.
  assert (three_nodes.1.1 = true) as Ht by (vm_compute; reflexivity).
  revert Ht. unfold three_nodes. generalize (addNode tick third_id "10.0.0.3" 6881 two_nodes.1 two_nodes.2).
  intros [[b rt] w]. simpl. by intros ->.
Qed.

Lemma add_remove_roundtrip_witness :
  node_registry_ (removeNode third_id three_nodes.1.2).2 = node_registry_ two_nodes.1.
Proof.
  exact (proj1 (proj2 (proj2 (proj2 (add_remove_roundtrip tick third_id "10.0.0.3" 6881 two_nodes.1 two_nodes.2
    three_nodes.1.2 three_nodes.2 two_nodes_wf three_nodes_added))))).
Defined.

(** With a limit of one node per bucket, our own identifier fills bucket 0. *)
Definition small_config : RoutingConfig := default_RoutingConfig <| max_bucket_size := 1%Z |>.
Definition own_node : routing_table * Z :=
  run_ops tick [OpAdd our_id "10.0.0.1" 6881] (new_routing_table tick our_id small_config 0%Z).
Definition own_bucket : RoutingBucket :=
  default (mk_RoutingBucket 0 0 ACTIVE [] 0 0 0 0 0 0 (double_of_int 0) 0) (routing_buckets_ own_node.1 !! 0%Z).

Lemma split_discards_next_witness :
  getNodesInBucket (splitBucket tick 0 own_node.1 own_node.2).1 0 = [1%positive]
  ∧ getNodesInBucket (splitBucket tick 0 own_node.1 own_node.2).1 1 = [].
Proof.
  destruct (split_discards_next tick own_node.1 0 own_bucket own_node.2) as (H0 & H1 & _).
  - apply run_ops_wf, new_routing_table_wf.
  - by vm_compute.
  - by vm_compute.
  - split; [rewrite H0; by vm_compute | exact H1].
Defined.

Lemma nodes_never_bucketed_witness :
  st_total_nodes (stats_ (updateStatistics tick two_nodes.1 two_nodes.2).1) = 0%Z
  ∧ getRoutingTableSize two_nodes.1 = 2%Z.
Proof.
  split; [|by vm_compute].
  destruct (nodes_never_bucketed tick our_id default_RoutingConfig two_adds 0%Z ltac:(done) two_adds_foreign)
    as (_ & Hs & _). exact Hs.
Defined.

Lemma two_adds_merging : Forall (λ op, foreign_op our_id op ∧ merging_kept op) two_adds.
Proof. repeat constructor; discriminate. Qed.

Lemma monitor_undefined_witness :
  let s := run_ops tick two_adds (new_routing_table tick our_id default_RoutingConfig 0%Z) in
  monitor_round tick 10 s.1 s.2 = Undefined.
Proof.
  exact (monitor_undefined tick our_id default_RoutingConfig two_adds 0%Z 8
           eq_refl eq_refl eq_refl two_adds_merging).
Defined.

(** The bytes of a distance are compared as signed characters: a node whose
    distance starts with the bit 0x80 counts as closer than our immediate
    neighbour. *)
Theorem closer_is_not_xor_metric :
  let near := id_b in
  let far := of_chars (byte_of 193 :: chars "AAAAAAAAAAAAAAAAAAA") in
  isNodeCloser our_id far near = true ∧ isNodeCloser our_id near far = false
  ∧ calculateXORDistance our_id near = of_chars (replicate 19 (byte_of 0) ++ [byte_of 3])
  ∧ calculateXORDistance our_id far = of_chars (byte_of 128 :: replicate 19 (byte_of 0)).
Proof. by vm_compute. Qed.

(** Only the last four bytes of a distance reach [bucket_distance]. *)
Theorem bucket_distance_truncated :
  calculateBucketDistance our_id id_p = calculateBucketDistance our_id our_id
  ∧ calculateXORDistance our_id id_p ≠ calculateXORDistance our_id our_id.
Proof. split; [by vm_compute | by vm_compute]. Qed.
