(* ===== verification/Pieces.v ===== *)
(** * The metadata piece manager

    Models [MetadataPieceManager] of [src/src/metadata_piece_manager.cpp] and
    [src/src/metadata_piece_manager.hpp]: the pieces of the metadata of a
    torrent, their states, their expiry, the counters and the statistics, and
    the integrity check and repair.

    A [std::shared_ptr<MetadataPiece>] is owned by its entry of the map alone
    and is kept there by value.  The SHA-1 of OpenSSL is a parameter, the
    system clock is read as often and in the order in which the code reads
    it.  Every operation holds the mutex of the pieces while it changes them
    and is one step here. *)

From S2P Require Import Prelude HashFormat Numeric.

(** ** Data *)

Inductive PieceStatus := MISSING | REQUESTED | RECEIVED | VALIDATED | INVALID | DUPLICATE | CORRUPTED | EXPIRED.
Inductive AssemblyStatus :=
  | A_INCOMPLETE | A_COMPLETE | A_VALIDATED | A_INVALID | A_CORRUPTED | A_EXPIRED.

#[export] Instance PieceStatus_eq_dec : EqDecision PieceStatus.
Proof. solve_decision. Defined.
#[export] Instance AssemblyStatus_eq_dec : EqDecision AssemblyStatus.
Proof. solve_decision. Defined.

(** The members of [PieceConfig] the code reads; durations in milliseconds. *)
Record PieceConfig := mk_PieceConfig {
  max_piece_size : Z;
  max_total_size : Z;
  piece_timeout : Z;
  assembly_timeout : Z;
}.
Definition default_PieceConfig : PieceConfig := mk_PieceConfig 16384 (1024 * 1024) 30000 300000.

Record MetadataPiece := mk_MetadataPiece {
  p_info_hash : string;
  piece_index : Z;
  p_status : PieceStatus;
  p_data : list ascii;
  checksum : string;
  created_at : Z;
  updated_at : Z;
  expires_at : Z;
  request_count : Z;
  retry_count : Z;
  last_request : Z;
  p_quality_score : double;
  validation_attempts : Z;
  successful_validations : Z;
  failed_validations : Z;
  p_metadata : gmap string string;
}.
#[export] Instance eta_MetadataPiece : Eta MetadataPiece :=
  λ r, mk_MetadataPiece (p_info_hash r) (piece_index r) (p_status r) (p_data r) (checksum r)
         (created_at r) (updated_at r) (expires_at r) (request_count r) (retry_count r)
         (last_request r) (p_quality_score r) (validation_attempts r) (successful_validations r)
         (failed_validations r) (p_metadata r).

(** The members of [MetadataAssembly] the code reads or writes. *)
Record MetadataAssembly := mk_MetadataAssembly {
  a_expires_at : Z;
  total_pieces : Z;
  received_pieces : Z;
  validated_pieces : Z;
  a_quality_score : double;
  completeness_ratio : double;
  validity_ratio : double;
}.
#[export] Instance eta_MetadataAssembly : Eta MetadataAssembly :=
  λ r, mk_MetadataAssembly (a_expires_at r) (total_pieces r) (received_pieces r) (validated_pieces r)
         (a_quality_score r) (completeness_ratio r) (validity_ratio r).

(** The members of [PieceManagerStatistics] the code writes. *)
Record PieceManagerStatistics := mk_PieceManagerStatistics {
  s_total : Z;
  s_by_status : PieceStatus → Z;
  s_avg_quality_score : double;
  s_last_update : Z;
}.

Definition empty_piece_statistics : PieceManagerStatistics :=
  mk_PieceManagerStatistics 0 (λ _, 0%Z) (double_of_int 0) 0.

Record piece_manager := mk_piece_manager {
  pm_config : PieceConfig;
  pieces_ : gmap string (gmap Z MetadataPiece);
  assemblies_ : gmap string MetadataAssembly;
  pm_stats : PieceManagerStatistics;
}.
#[export] Instance eta_piece_manager : Eta piece_manager :=
  λ r, mk_piece_manager (pm_config r) (pieces_ r) (assemblies_ r) (pm_stats r).

Definition new_piece_manager (config : PieceConfig) : piece_manager :=
  mk_piece_manager config ∅ ∅ empty_piece_statistics.

(** ** Validation *)

Definition isValidInfoHash (info_hash : string) : bool := String.length info_hash =? 40.
Definition isValidPieceIndex (index : Z) : bool := (0 <=? index)%Z.
Definition isValidPieceData (config : PieceConfig) (data : list ascii) : bool :=
  negb (bool_decide (data = [])) && (Z.of_nat (length data) <=? max_piece_size config)%Z.
Definition validatePieceData (config : PieceConfig) (data : list ascii) : bool :=
  negb (bool_decide (data = [])) && (Z.of_nat (length data) <=? max_piece_size config)%Z.
Definition validateAssemblyData (config : PieceConfig) (data : list ascii) : bool :=
  negb (bool_decide (data = [])) && (Z.of_nat (length data) <=? max_total_size config)%Z.

(** ** Quality and status *)

Definition updatePieceQuality (success : bool) (piece : MetadataPiece) : MetadataPiece :=
  let piece := if success then piece <| successful_validations ::= Z.succ |>
               else piece <| failed_validations ::= Z.succ |> in
  let piece := piece <| validation_attempts ::= Z.succ |> in
  if (0 <? validation_attempts piece)%Z
  then piece <| p_quality_score := double_div (double_of_int (successful_validations piece))
                                     (double_of_int (validation_attempts piece)) |>
  else piece.

Definition updateAssemblyQuality (assembly : MetadataAssembly) : MetadataAssembly :=
  if (0 <? total_pieces assembly)%Z then
    let complete := double_div (double_of_int (received_pieces assembly)) (double_of_int (total_pieces assembly)) in
    let valid := double_div (double_of_int (validated_pieces assembly)) (double_of_int (total_pieces assembly)) in
    assembly <| completeness_ratio := complete |> <| validity_ratio := valid |>
             <| a_quality_score := double_div (double_add complete valid) (double_of_int 2) |>
  else assembly.

Definition determinePieceStatus (config : PieceConfig) (piece : MetadataPiece) : PieceStatus :=
  match p_status piece with
  | RECEIVED =>
    if decide (p_data piece = []) then MISSING
    else if validatePieceData config (p_data piece) then VALIDATED else INVALID
  | s => s
  end.

Definition determineAssemblyStatus (assembly : MetadataAssembly) : AssemblyStatus :=
  if (total_pieces assembly <=? received_pieces assembly)%Z then
    if (total_pieces assembly <=? validated_pieces assembly)%Z then A_VALIDATED else A_COMPLETE
  else A_INCOMPLETE.

(** ** Operations *)

Section Operations.
Context {W : Type} (now : W → Z * W) (sha1 : list ascii → list ascii).
Implicit Types (m : piece_manager) (w : W).

Definition calculatePieceChecksum (data : list ascii) : string := of_chars (mjoin (hex_byte <$> sha1 data)).
Definition calculateAssemblyChecksum (data : list ascii) : string := calculatePieceChecksum data.

(** [pieces_[info_hash]], which creates an empty entry when there is none. *)
Definition info_pieces (info_hash : string) m : gmap Z MetadataPiece := default ∅ (pieces_ m !! info_hash).
Definition set_info_pieces (info_hash : string) (ps : gmap Z MetadataPiece) m : piece_manager :=
  m <| pieces_ ::= <[info_hash := ps]> |>.

Definition addPiece (info_hash : string) (index : Z) (data : list ascii) m w : bool * piece_manager * W :=
  if negb (isValidInfoHash info_hash) || negb (isValidPieceIndex index)
     || negb (isValidPieceData (pm_config m) data)
  then (false, m, w)
  else
    let '(t, w) := now w in
    let piece := mk_MetadataPiece info_hash index RECEIVED data (calculatePieceChecksum data) t t
                   (t + milliseconds (piece_timeout (pm_config m))) 0 0 0 (double_of_int 1) 0 0 0 ∅ in
    (true, set_info_pieces info_hash (<[index := piece]> (info_pieces info_hash m)) m, w).

(** A piece that is known keeps its time of expiry. *)
Definition requestPiece (info_hash : string) (index : Z) m w : bool * piece_manager * W :=
  if negb (isValidInfoHash info_hash) || negb (isValidPieceIndex index) then (false, m, w)
  else
    let ps := info_pieces info_hash m in
    match ps !! index with
    | Some piece =>
      if decide (p_status piece = REQUESTED) then (false, set_info_pieces info_hash ps m, w)
      else
        let '(t, w) := now w in
        let piece := piece <| p_status := REQUESTED |> <| request_count ::= Z.succ |> <| last_request := t |> in
        (true, set_info_pieces info_hash (<[index := piece]> ps) m, w)
    | None =>
      let '(t, w) := now w in
      let piece := mk_MetadataPiece info_hash index REQUESTED [] "" t t
                     (t + milliseconds (piece_timeout (pm_config m))) 1 0 t (double_of_int 0) 0 0 0 ∅ in
      (true, set_info_pieces info_hash (<[index := piece]> ps) m, w)
    end.

Definition markPieceReceived (info_hash : string) (index : Z) (data : list ascii) m w : bool * piece_manager * W :=
  if negb (isValidInfoHash info_hash) || negb (isValidPieceIndex index)
     || negb (isValidPieceData (pm_config m) data)
  then (false, m, w)
  else
    let ps := info_pieces info_hash m in
    match ps !! index with
    | Some piece =>
      let '(t, w) := now w in
      let piece := piece <| p_status := RECEIVED |> <| p_data := data |>
                         <| checksum := calculatePieceChecksum data |> <| updated_at := t |>
                         <| expires_at := (t + milliseconds (piece_timeout (pm_config m)))%Z |> in
      (true, set_info_pieces info_hash (<[index := updatePieceQuality true piece]> ps) m, w)
    | None => (false, set_info_pieces info_hash ps m, w)
    end.

(** The three operations that mark a known piece; a duplicate does not count
    as a failed validation. *)
Definition mark_piece (status : PieceStatus) (failed : bool) (info_hash : string) (index : Z) m w
    : bool * piece_manager * W :=
  if negb (isValidInfoHash info_hash) || negb (isValidPieceIndex index) then (false, m, w)
  else
    let ps := info_pieces info_hash m in
    match ps !! index with
    | Some piece =>
      let '(t, w) := now w in
      let piece := piece <| p_status := status |> <| updated_at := t |> in
      (true, set_info_pieces info_hash
               (<[index := if failed then updatePieceQuality false piece else piece]> ps) m, w)
    | None => (false, set_info_pieces info_hash ps m, w)
    end.

Definition markPieceInvalid := mark_piece INVALID true.
Definition markPieceDuplicate := mark_piece DUPLICATE false.
Definition markPieceCorrupted := mark_piece CORRUPTED true.

(** *** Expiry *)

(** One reading of the clock for each piece that is requested; the number is
    that of the pieces erased, none here. *)
Fixpoint monitor_list (timeout : Z) (l : list (Z * MetadataPiece)) w : list (Z * MetadataPiece) * Z * W :=
  match l with
  | [] => ([], 0%Z, w)
  | (i, piece) :: l =>
    if decide (p_status piece = REQUESTED) then
      let '(t, w) := now w in
      let '(l, _, w) := monitor_list timeout l w in
      ((i, if (milliseconds timeout <? t - last_request piece)%Z
           then piece <| p_status := EXPIRED |> else piece) :: l, 0%Z, w)
    else let '(l, _, w) := monitor_list timeout l w in ((i, piece) :: l, 0%Z, w)
  end.

(** [isPieceExpired] erases: one reading for each piece. *)
Fixpoint unexpired_list (l : list (Z * MetadataPiece)) w : list (Z * MetadataPiece) * Z * W :=
  match l with
  | [] => ([], 0%Z, w)
  | (i, piece) :: l =>
    let '(t, w) := now w in
    let '(l, erased, w) := unexpired_list l w in
    if (expires_at piece <? t)%Z then (l, (1 + erased)%Z, w) else ((i, piece) :: l, erased, w)
  end.

(** A pass over the pieces of every hash, in the order of the maps. *)
Definition pass (f : list (Z * MetadataPiece) → W → list (Z * MetadataPiece) * Z * W) m w
    : Z * piece_manager * W :=
  foldl (λ s p,
    let '(count, m, w) := s in
    let '(l, erased, w) := f (int_map_iter p.2) w in
    ((count + erased)%Z, set_info_pieces p.1 (list_to_map l) m, w))
    (0%Z, m, w) (map_iter (pieces_ m)).

Definition monitorPieces m w : piece_manager * W :=
  let '(_, m, w) := pass (monitor_list (piece_timeout (pm_config m))) m w in (m, w).

Definition cleanupExpiredPieces m w : piece_manager * W :=
  let '(_, w) := now w in
  let '(_, m, w) := pass unexpired_list m w in (m, w).

Definition clearExpiredPieces m w : Z * piece_manager * W :=
  let '(_, w) := now w in pass unexpired_list m w.

Fixpoint expired_assemblies (l : list (string * MetadataAssembly)) w : list string * W :=
  match l with
  | [] => ([], w)
  | (h, a) :: l =>
    let '(t, w) := now w in
    let '(rest, w) := expired_assemblies l w in
    (if (a_expires_at a <? t)%Z then h :: rest else rest, w)
  end.

Definition cleanupExpiredAssemblies m w : piece_manager * W :=
  let '(_, w) := now w in
  let '(hs, w) := expired_assemblies (map_iter (assemblies_ m)) w in
  (m <| assemblies_ ::= (λ a, foldl (λ a h, delete h a) a hs) |>, w).

(** *** Queries *)

Definition getPiece m (info_hash : string) (index : Z) : option MetadataPiece :=
  ps ← pieces_ m !! info_hash; ps !! index.

Definition getPieces m (info_hash : string) : gmap Z MetadataPiece := default ∅ (pieces_ m !! info_hash).

Definition getPiecesByStatus m (info_hash : string) (status : PieceStatus) : list Z :=
  match pieces_ m !! info_hash with
  | Some ps => (filter (λ p, p_status p.2 = status) (int_map_iter ps)).*1
  | None => []
  end.

Definition getMissingPieces m (info_hash : string) : list Z := getPiecesByStatus m info_hash MISSING.

Definition hasPiece m info_hash index : bool := bool_decide (is_Some (getPiece m info_hash index)).
Definition isPieceComplete m info_hash index : bool :=
  match getPiece m info_hash index with Some p => negb (bool_decide (p_data p = [])) | None => false end.
Definition piece_has_status (status : PieceStatus) m info_hash index : bool :=
  match getPiece m info_hash index with Some p => bool_decide (p_status p = status) | None => false end.
Definition isPieceValid := piece_has_status VALIDATED.
Definition isPieceMissing := piece_has_status MISSING.
Definition isPieceRequested := piece_has_status REQUESTED.
Definition getPieceStatus m info_hash index : PieceStatus :=
  match getPiece m info_hash index with Some p => p_status p | None => MISSING end.
Definition getPieceData m info_hash index : list ascii :=
  match getPiece m info_hash index with Some p => p_data p | None => [] end.
Definition getPieceChecksum m info_hash index : string :=
  match getPiece m info_hash index with Some p => checksum p | None => "" end.

(** The metadata of a piece. *)
Definition alter_piece (f : MetadataPiece → MetadataPiece) (info_hash : string) (index : Z) m : piece_manager :=
  m <| pieces_ ::= alter (alter f index) info_hash |>.
Definition setPieceMetadata (info_hash : string) (index : Z) (key value : string) m : bool * piece_manager :=
  match getPiece m info_hash index with
  | Some _ => (true, alter_piece (λ p, p <| p_metadata ::= <[key := value]> |>) info_hash index m)
  | None => (false, m)
  end.
Definition removePieceMetadata (info_hash : string) (index : Z) (key : string) m : bool * piece_manager :=
  match getPiece m info_hash index with
  | Some _ => (true, alter_piece (λ p, p <| p_metadata ::= delete key |>) info_hash index m)
  | None => (false, m)
  end.
Definition clearPieceMetadata (info_hash : string) (index : Z) m : bool * piece_manager :=
  match getPiece m info_hash index with
  | Some _ => (true, alter_piece (λ p, p <| p_metadata := ∅ |>) info_hash index m)
  | None => (false, m)
  end.

(** *** Counters and statistics *)

Definition getPieceCount m (info_hash : string) : Z :=
  match pieces_ m !! info_hash with Some ps => Z.of_nat (size ps) | None => 0 end.
Definition getPieceCountByStatus m (info_hash : string) (status : PieceStatus) : Z :=
  Z.of_nat (length (getPiecesByStatus m info_hash status)).
Definition getTotalPieceCount m : Z := sumZ (λ p, Z.of_nat (size p.2)) (map_iter (pieces_ m)).
Definition getTotalPieceCountByStatus m (status : PieceStatus) : Z :=
  sumZ (λ p, Z.of_nat (length (filter (λ q, p_status q.2 = status) (int_map_iter p.2)))) (map_iter (pieces_ m)).

Definition getPieceCompletionRatio m (info_hash : string) : double :=
  let total := getPieceCount m info_hash in
  if (total =? 0)%Z then double_of_int 0
  else double_div (double_of_int (getPieceCountByStatus m info_hash RECEIVED
                                  + getPieceCountByStatus m info_hash VALIDATED)) (double_of_int total).

Definition getPieceValidityRatio m (info_hash : string) : double :=
  let total := getPieceCount m info_hash in
  if (total =? 0)%Z then double_of_int 0
  else double_div (double_of_int (getPieceCountByStatus m info_hash VALIDATED)) (double_of_int total).

(** Every piece, in the order in which the statistics visit them. *)
Definition all_pieces m : list MetadataPiece :=
  mjoin ((λ p, (int_map_iter p.2).*2) <$> map_iter (pieces_ m)).

(** The pass of [updateStatistics] over the pieces. *)
Definition count_piece (acc : Z * (PieceStatus → Z) * double) (piece : MetadataPiece) : Z * (PieceStatus → Z) * double :=
  let '(total, by_status, quality) := acc in
  ((total + 1)%Z,
   (λ s, if decide (s = p_status piece) then by_status s + 1 else by_status s)%Z,
   double_add quality (p_quality_score piece)).

Definition updateStatistics m w : piece_manager * W :=
  let '(total, by_status, quality) := foldl count_piece (0%Z, λ _, 0%Z, double_of_int 0) (all_pieces m) in
  let avg := if (0 <? total)%Z then double_div quality (double_of_int total)
             else s_avg_quality_score (pm_stats m) in
  let '(t, w) := now w in
  (m <| pm_stats := mk_PieceManagerStatistics total by_status avg t |>, w).

Definition resetStatistics m : piece_manager := m <| pm_stats := empty_piece_statistics |>.
Definition updateConfig (config : PieceConfig) m : piece_manager := m <| pm_config := config |>.

(** One round of [pieceMonitorLoop] that is not stopped. *)
Definition piece_monitor_round m w : piece_manager * W :=
  let '(m, w) := monitorPieces m w in
  let '(m, w) := cleanupExpiredPieces m w in
  let '(m, w) := cleanupExpiredAssemblies m w in
  updateStatistics m w.

(** *** Clearing, validation and repair *)

Definition clearPieces (info_hash : string) m : Z * piece_manager :=
  match pieces_ m !! info_hash with
  | Some ps => (Z.of_nat (size ps), m <| pieces_ ::= delete info_hash |>)
  | None => (0%Z, m)
  end.
Definition clearAllPieces m : Z * piece_manager := (getTotalPieceCount m, m <| pieces_ := ∅ |>).

Definition forcePieceCleanup (info_hash : string) (index : Z) m : bool * piece_manager :=
  match getPiece m info_hash index with
  | Some _ => (true, m <| pieces_ ::= alter (delete index) info_hash |>)
  | None => (false, m)
  end.

Definition forcePieceValidation (info_hash : string) (index : Z) m : bool * piece_manager :=
  match getPiece m info_hash index with
  | Some piece =>
    if decide (p_data piece = []) then (false, m)
    else if validatePieceData (pm_config m) (p_data piece)
    then (true, alter_piece (λ p, updatePieceQuality true (p <| p_status := VALIDATED |>)) info_hash index m)
    else (false, alter_piece (λ p, updatePieceQuality false (p <| p_status := INVALID |>)) info_hash index m)
  | None => (false, m)
  end.

Definition piece_sound (config : PieceConfig) (piece : MetadataPiece) : bool :=
  negb (max_piece_size config <? Z.of_nat (length (p_data piece)))%Z
  && negb (double_lt (p_quality_score piece) (double_of_int 0) || double_lt (double_of_int 1) (p_quality_score piece)).

Definition validatePieceManagerIntegrity m : bool := forallb (piece_sound (pm_config m)) (all_pieces m).

(** The division and the multiplication are on [size_t]; [None] is a division
    by zero. *)
Definition too_many_pieces m : option bool :=
  if decide (max_piece_size (pm_config m) = 0%Z) then None
  else Some (((max_total_size (pm_config m) / max_piece_size (pm_config m) * 10) mod 2 ^ 64
              <? getTotalPieceCount m)%Z).

Definition repairPieceManager m w : option (Z * piece_manager * W) :=
  let '(repaired, m) := if negb (validatePieceManagerIntegrity m) then clearAllPieces m else (0%Z, m) in
  many ← too_many_pieces m;
  Some (if many : bool
        then let '(cleared, m, w) := clearExpiredPieces m w in ((repaired + cleared)%Z, m, w)
        else (repaired, m, w)).

(** ** Runs: the operations in any order, under one configuration *)

Inductive piece_op :=
  | OpAddPiece (info_hash : string) (index : Z) (data : list ascii)
  | OpRequest (info_hash : string) (index : Z)
  | OpReceived (info_hash : string) (index : Z) (data : list ascii)
  | OpInvalid (info_hash : string) (index : Z)
  | OpDuplicate (info_hash : string) (index : Z)
  | OpCorrupted (info_hash : string) (index : Z)
  | OpMonitor
  | OpClearExpiredPieces
  | OpClearPieces (info_hash : string)
  | OpClearAll
  | OpForceCleanup (info_hash : string) (index : Z)
  | OpForceValidation (info_hash : string) (index : Z)
  | OpSetMetadata (info_hash : string) (index : Z) (key value : string)
  | OpRemoveMetadata (info_hash : string) (index : Z) (key : string)
  | OpClearMetadata (info_hash : string) (index : Z)
  | OpResetStats
  | OpConfig (config : PieceConfig).

Definition run_piece_op (op : piece_op) m w : piece_manager * W :=
  match op with
  | OpAddPiece h i d => let '(_, m, w) := addPiece h i d m w in (m, w)
  | OpRequest h i => let '(_, m, w) := requestPiece h i m w in (m, w)
  | OpReceived h i d => let '(_, m, w) := markPieceReceived h i d m w in (m, w)
  | OpInvalid h i => let '(_, m, w) := markPieceInvalid h i m w in (m, w)
  | OpDuplicate h i => let '(_, m, w) := markPieceDuplicate h i m w in (m, w)
  | OpCorrupted h i => let '(_, m, w) := markPieceCorrupted h i m w in (m, w)
  | OpMonitor => piece_monitor_round m w
  | OpClearExpiredPieces => let '(_, m, w) := clearExpiredPieces m w in (m, w)
  | OpClearPieces h => ((clearPieces h m).2, w)
  | OpClearAll => ((clearAllPieces m).2, w)
  | OpForceCleanup h i => ((forcePieceCleanup h i m).2, w)
  | OpForceValidation h i => ((forcePieceValidation h i m).2, w)
  | OpSetMetadata h i k v => ((setPieceMetadata h i k v m).2, w)
  | OpRemoveMetadata h i k => ((removePieceMetadata h i k m).2, w)
  | OpClearMetadata h i => ((clearPieceMetadata h i m).2, w)
  | OpResetStats => (resetStatistics m, w)
  | OpConfig config => (updateConfig config m, w)
  end.

Definition run_piece_ops (ops : list piece_op) (s : piece_manager * W) : piece_manager * W :=
  foldl (λ s op, run_piece_op op s.1 s.2) s ops.
End Operations.
