(* ===== verification/PieceFacts.v ===== *)
(** * Correctness of the piece manager

    Theorems about [Pieces]: the invariant of the stored pieces, the data read
    back, what expiry does to a piece that was requested again, the agreement
    of the statistics with the counters, and the repair. *)

From S2P Require Import Prelude HashFormat Numeric Pieces.

Section Facts.
Context {W : Type} (now : W → Z * W) (sha1 : list ascii → list ascii).
Implicit Types (m : piece_manager) (w : W).

(** ** Passes *)

Lemma pass_fold f ps c m w :
  NoDup ps.*1 → (∀ p, p ∈ ps → pieces_ m !! p.1 = Some p.2) →
  let s := foldl (λ s p,
    let '(count, m, w) := s in
    let '(l, erased, w) := f (int_map_iter p.2) w in
    ((count + erased)%Z, set_info_pieces p.1 (list_to_map l) m, w)) (c, m, w) ps in
  s.1.2 = m <| pieces_ := pieces_ s.1.2 |>
  ∧ (∀ h, h ∉ ps.*1 → pieces_ s.1.2 !! h = pieces_ m !! h)
  ∧ ∀ h q, (h, q) ∈ ps → ∃ w' : W, pieces_ s.1.2 !! h = Some (list_to_map (f (int_map_iter q) w').1.1).
Proof.
  cbv zeta. revert c m w. induction ps as [|[h0 q0] ps IH]; intros c m w Hnd Hps.
  { simpl. split_all; [by destruct m | done |]. by intros h q ?%elem_of_nil. }
  simpl foldl. destruct (f (int_map_iter q0) w) as [[l e] w1] eqn:Hf.
  rewrite fmap_cons, NoDup_cons in Hnd. destruct Hnd as [Hh0 Hnd].
  destruct (IH (c + e)%Z (set_info_pieces h0 (list_to_map l) m) w1 Hnd) as (Heq & Hout & Hin).
  { intros [h q] Hin. simpl. rewrite lookup_insert_ne; [apply (Hps (h, q)); by right|].
    intros <-. apply Hh0, list_elem_of_fmap. by exists (h0, q). }
  split_all.
  - rewrite Heq at 1. done.
  - intros h Hh. rewrite fmap_cons, not_elem_of_cons in Hh. destruct Hh as [Hne Hh].
    rewrite Hout by done. simpl. by rewrite lookup_insert_ne.
  - intros h q [[= -> ->]|Hq]%elem_of_cons; [|by apply Hin].
    exists w. rewrite Hout by done. simpl. rewrite lookup_insert_eq. by rewrite Hf.
Qed.

(** A pass replaces the pieces of every hash by what [f] makes of them. *)
Lemma pass_lookup f m w :
  let m' := (pass f m w).1.2 in
  m' = m <| pieces_ := pieces_ m' |>
  ∧ (∀ h, pieces_ m !! h = None → pieces_ m' !! h = None)
  ∧ ∀ h q, pieces_ m !! h = Some q → ∃ w' : W, pieces_ m' !! h = Some (list_to_map (f (int_map_iter q) w').1.1).
Proof.
  cbv zeta. unfold pass. destruct (pass_fold f (map_iter (pieces_ m)) 0 m w) as (Heq & Hout & Hin).
  - apply NoDup_map_iter.
  - intros [h q]. apply elem_of_map_iter.
  - split_all; [done| |].
    + intros h Hh. rewrite Hout; [done|]. rewrite list_elem_of_fmap.
      intros ([h' q] & -> & Hq%elem_of_map_iter). simpl in Hh. congruence.
    + intros h q Hq. apply Hin. by apply elem_of_map_iter.
Qed.

Lemma unexpired_sublist l w : sublist (unexpired_list now l w).1.1 l.
Proof.
  revert w. induction l as [|[i p] l IH]; intros w; simpl; [done|].
  destruct (now w) as [t w1]. specialize (IH w1). destruct (unexpired_list now l w1) as [[l' e] w2]. simpl in *.
  case_match; simpl; [by apply sublist_cons | by apply sublist_skip].
Qed.

(** ** The invariant of a stored piece *)

(** The piece stored under a hash and an index is the piece of that hash and
    index, its data fits, its checksum is that of its data, if any, a received or
    validated piece has data, and its counters add up. *)
Definition piece_ok (limit : Z) (h : string) (i : Z) (p : MetadataPiece) : Prop :=
  p_info_hash p = h ∧ piece_index p = i ∧ isValidInfoHash h = true ∧ isValidPieceIndex i = true
  ∧ p_status p ≠ MISSING
  ∧ (Z.of_nat (length (p_data p)) ≤ limit)%Z
  ∧ checksum p = match p_data p with [] => "" | data => calculatePieceChecksum sha1 data end
  ∧ (p_status p = RECEIVED ∨ p_status p = VALIDATED → p_data p ≠ [])
  ∧ (0 ≤ successful_validations p)%Z ∧ (0 ≤ failed_validations p)%Z
  ∧ validation_attempts p = (successful_validations p + failed_validations p)%Z.

Definition entries_ok (limit : Z) (h : string) (ps : gmap Z MetadataPiece) : Prop :=
  map_Forall (λ i p, piece_ok limit h i p) ps.

Record manager_ok (limit : Z) m : Prop := {
  ok_limit : (max_piece_size (pm_config m) ≤ limit)%Z;
  ok_pieces : map_Forall (entries_ok limit) (pieces_ m);
  ok_assemblies : assemblies_ m = ∅;
}.

Lemma info_pieces_ok limit h m : manager_ok limit m → entries_ok limit h (info_pieces h m).
Proof.
  intros [_ Hp _]. unfold info_pieces. destruct (pieces_ m !! h) as [ps|] eqn:E; simpl; [by apply Hp|].
  apply map_Forall_empty.
Qed.

Lemma set_info_ok limit h ps m : manager_ok limit m → entries_ok limit h ps → manager_ok limit (set_info_pieces h ps m).
Proof. intros [Hl Hp Ha] Hps. split; simpl; [done| |done]. by apply map_Forall_insert_2. Qed.

Lemma set_piece_ok limit h i p ps m :
  manager_ok limit m → entries_ok limit h ps → piece_ok limit h i p →
  manager_ok limit (set_info_pieces h (<[i := p]> ps) m).
Proof. intros Hm Hps Hp. apply set_info_ok; [done|]. by apply map_Forall_insert_2. Qed.

Lemma updatePieceQuality_ok limit h i success p :
  piece_ok limit h i p → piece_ok limit h i (updatePieceQuality success p).
Proof.
  intros (?&?&?&?&?&?&?&?&?&?&?). unfold updatePieceQuality.
  destruct success; simpl; destruct (0 <? _)%Z; unfold piece_ok; simpl; split_all; try done; lia.
Qed.

Lemma valid_args h i :
  negb (isValidInfoHash h) || negb (isValidPieceIndex i) = false →
  isValidInfoHash h = true ∧ isValidPieceIndex i = true.
Proof. intros [?%negb_false_iff ?%negb_false_iff]%orb_false_iff. done. Qed.

Lemma valid_data config data :
  isValidPieceData config data = true → data ≠ [] ∧ (Z.of_nat (length data) ≤ max_piece_size config)%Z.
Proof. intros [?%negb_true_iff%bool_decide_eq_false ?%Z.leb_le]%andb_true_iff. done. Qed.

Lemma addPiece_ok limit h i data m w : manager_ok limit m → manager_ok limit (addPiece now sha1 h i data m w).1.2.
Proof.
  intros Hm. unfold addPiece. destruct (negb _ || _ || _) eqn:Hv; [done|].
  apply orb_false_iff in Hv as [[Hh Hi]%valid_args [Hne Hlen]%negb_false_iff%valid_data].
  destruct (now w) as [t w1]. simpl. apply set_piece_ok; [done | by apply info_pieces_ok|].
  pose proof (ok_limit _ _ Hm) as Hlim. unfold piece_ok; simpl. split_all; try done; [lia|]. by destruct data.
Qed.

Lemma requestPiece_ok limit h i m w :
  (0 ≤ limit)%Z → manager_ok limit m → manager_ok limit (requestPiece now h i m w).1.2.
Proof.
  intros Hlim Hm. unfold requestPiece. destruct (negb _ || _) eqn:Hv; [done|]. apply valid_args in Hv as [Hh Hi].
  pose proof (info_pieces_ok _ h _ Hm) as Hps. destruct (info_pieces h m !! i) as [p|] eqn:Hp.
  - case_decide; simpl; [by apply set_info_ok|]. destruct (now w) as [t w1]. simpl.
    apply set_piece_ok; [done..|]. destruct (Hps _ _ Hp) as (?&?&?&?&?&?&?&?&?&?&?).
    unfold piece_ok; simpl. split_all; try done. by intros [?|?].
  - destruct (now w) as [t w1]. simpl. apply set_piece_ok; [done..|].
    unfold piece_ok; simpl. split_all; try done. by intros [?|?].
Qed.

Lemma markPieceReceived_ok limit h i data m w :
  manager_ok limit m → manager_ok limit (markPieceReceived now sha1 h i data m w).1.2.
Proof.
  intros Hm. unfold markPieceReceived. destruct (negb _ || _ || _) eqn:Hv; [done|].
  apply orb_false_iff in Hv as [[Hh Hi]%valid_args [Hne Hlen]%negb_false_iff%valid_data].
  pose proof (info_pieces_ok _ h _ Hm) as Hps. pose proof (ok_limit _ _ Hm) as Hlim.
  destruct (info_pieces h m !! i) as [p|] eqn:Hp; [|by apply set_info_ok].
  destruct (now w) as [t w1]. simpl. apply set_piece_ok; [done..|]. apply updatePieceQuality_ok.
  destruct (Hps _ _ Hp) as (?&?&?&?&?&?&?&?&?&?&?). unfold piece_ok; simpl.
  split_all; try done; [lia|]. by destruct data.
Qed.

Lemma mark_piece_ok limit st failed h i m w :
  st ≠ MISSING → st ≠ RECEIVED → st ≠ VALIDATED →
  manager_ok limit m → manager_ok limit (mark_piece now st failed h i m w).1.2.
Proof.
  intros H1 H2 H3 Hm. unfold mark_piece. destruct (negb _ || _) eqn:Hv; [done|].
  pose proof (info_pieces_ok _ h _ Hm) as Hps. destruct (info_pieces h m !! i) as [p|] eqn:Hp; [|by apply set_info_ok].
  destruct (now w) as [t w1]. simpl. apply set_piece_ok; [done..|].
  assert (piece_ok limit h i (p <| p_status := st |> <| updated_at := t |>)) as Hok.
  { destruct (Hps _ _ Hp) as (?&?&?&?&?&?&?&?&?&?&?). unfold piece_ok; simpl. split_all; try done. by intros [?|?]. }
  destruct failed; [by apply updatePieceQuality_ok | done].
Qed.

Lemma pass_ok limit f m w :
  (∀ h l w, Forall (λ q, piece_ok limit h q.1 q.2) l → Forall (λ q, piece_ok limit h q.1 q.2) (f l w).1.1) →
  manager_ok limit m → manager_ok limit (pass f m w).1.2.
Proof.
  intros Hf [Hl Hp Ha]. destruct (pass_lookup f m w) as (Heq & Hnone & Hsome).
  split; [by rewrite Heq| |by rewrite Heq]. intros h ps Hh.
  destruct (pieces_ m !! h) as [q|] eqn:Hq; [|rewrite (Hnone _ Hq) in Hh; done].
  destruct (Hsome _ _ Hq) as (w' & Hps). rewrite Hps in Hh. injection Hh as <-.
  assert (Forall (λ q, piece_ok limit h q.1 q.2) (f (int_map_iter q) w').1.1) as Hall.
  { apply Hf, Forall_forall. intros [i p] Hin%elem_of_int_map_iter. exact (Hp _ _ Hq _ _ Hin). }
  intros i p Hi%elem_of_list_to_map_2. rewrite Forall_forall in Hall. exact (Hall _ Hi).
Qed.

Lemma unexpired_ok limit h l w :
  Forall (λ q, piece_ok limit h q.1 q.2) l → Forall (λ q, piece_ok limit h q.1 q.2) (unexpired_list now l w).1.1.
Proof.
  rewrite !Forall_forall. intros Hl q Hq. apply Hl.
  eapply elem_of_submseteq; [done|]. apply sublist_submseteq, unexpired_sublist.
Qed.

Lemma monitor_ok limit t h l w :
  Forall (λ q, piece_ok limit h q.1 q.2) l → Forall (λ q, piece_ok limit h q.1 q.2) (monitor_list now t l w).1.1.
Proof.
  intros Hl. revert w. induction Hl as [|[i p] l Hp Hl IH]; intros w; simpl; [constructor|].
  case_decide as Hs.
  - destruct (now w) as [t1 w1]. specialize (IH w1). destruct (monitor_list now t l w1) as [[l' e] w2].
    simpl in *. constructor; [|done]. simpl. case_match; [|done].
    destruct Hp as (?&?&?&?&?&?&?&?&?&?&?). unfold piece_ok; simpl. split_all; try done. by intros [?|?].
  - specialize (IH w). destruct (monitor_list now t l w) as [[l' e] w2]. by constructor.
Qed.

Lemma monitorPieces_ok limit m w : manager_ok limit m → manager_ok limit (monitorPieces now m w).1.
Proof.
  intros Hm. unfold monitorPieces.
  apply (pass_ok _ (monitor_list now (piece_timeout (pm_config m))) _ w) in Hm; [|intros; by apply monitor_ok].
  by destruct (pass _ m w) as [[c1 m1] w1].
Qed.

Lemma cleanupExpiredPieces_ok limit m w : manager_ok limit m → manager_ok limit (cleanupExpiredPieces now m w).1.
Proof.
  intros Hm. unfold cleanupExpiredPieces. destruct (now w) as [t1 w2].
  apply (pass_ok _ (unexpired_list now) _ w2) in Hm; [|intros; by apply unexpired_ok].
  by destruct (pass _ m w2) as [[c2 m2] w3].
Qed.

Lemma cleanupExpiredAssemblies_ok limit m w : manager_ok limit m → manager_ok limit (cleanupExpiredAssemblies now m w).1.
Proof.
  intros [Hl Hp Ha]. unfold cleanupExpiredAssemblies. rewrite Ha, map_iter_empty. by destruct (now w) as [t2 w4].
Qed.

Lemma updateStatistics_ok limit m w : manager_ok limit m → manager_ok limit (updateStatistics now m w).1.
Proof.
  intros [Hl Hp Ha]. unfold updateStatistics. destruct (foldl _ _ _) as [[??] ?]. by destruct (now w) as [t3 w5].
Qed.

Lemma monitor_round_ok limit m w : manager_ok limit m → manager_ok limit (piece_monitor_round now m w).1.
Proof.
  intros Hm. unfold piece_monitor_round.
  apply (monitorPieces_ok _ _ w) in Hm. destruct (monitorPieces now m w) as [m1 w1].
  apply (cleanupExpiredPieces_ok _ _ w1) in Hm. destruct (cleanupExpiredPieces now _ w1) as [m2 w2].
  apply (cleanupExpiredAssemblies_ok _ _ w2) in Hm. destruct (cleanupExpiredAssemblies now _ w2) as [m3 w3].
  by apply updateStatistics_ok.
Qed.

Lemma alter_piece_ok limit f h i m :
  (∀ p, piece_ok limit h i p → piece_ok limit h i (f p)) →
  manager_ok limit m → manager_ok limit (alter_piece f h i m).
Proof.
  intros Hf [Hl Hp Ha]. split; simpl; [done| |done]. intros h' ps'. rewrite lookup_alter.
  case_decide as Hh; [subst h'|by apply Hp]. intros (ps & Hps & ->)%fmap_Some.
  intros i' p'. rewrite lookup_alter. case_decide as Hi; [subst i'|by apply (Hp _ _ Hps)].
  intros (p & Hpp & ->)%fmap_Some. apply Hf. by apply (Hp _ _ Hps).
Qed.

(** A new configuration respects the limit. *)
Definition op_within (limit : Z) (op : piece_op) : Prop :=
  match op with OpConfig config => (max_piece_size config ≤ limit)%Z | _ => True end.

Lemma run_piece_op_ok limit op m w :
  (0 ≤ limit)%Z → op_within limit op → manager_ok limit m → manager_ok limit (run_piece_op now sha1 op m w).1.
Proof.
  intros Hlim Hop Hm. destruct op as [h i d|h i|h i d|h i|h i|h i| | |h| |h i|h i|h i k v|h i k|h i| |config]; simpl.
  - pose proof (addPiece_ok limit h i d m w Hm). by destruct (addPiece _ _ h i d m w) as [[??]?].
  - pose proof (requestPiece_ok limit h i m w Hlim Hm). by destruct (requestPiece _ h i m w) as [[??]?].
  - pose proof (markPieceReceived_ok limit h i d m w Hm). by destruct (markPieceReceived _ _ h i d m w) as [[??]?].
  - unfold markPieceInvalid. pose proof (mark_piece_ok limit INVALID true h i m w).
    destruct (mark_piece _ _ _ h i m w) as [[??]?]. by auto.
  - unfold markPieceDuplicate. pose proof (mark_piece_ok limit DUPLICATE false h i m w).
    destruct (mark_piece _ _ _ h i m w) as [[??]?]. by auto.
  - unfold markPieceCorrupted. pose proof (mark_piece_ok limit CORRUPTED true h i m w).
    destruct (mark_piece _ _ _ h i m w) as [[??]?]. by auto.
  - by apply monitor_round_ok.
  - unfold clearExpiredPieces. destruct (now w) as [t w1].
    apply (pass_ok _ (unexpired_list now) _ w1) in Hm; [|intros; by apply unexpired_ok].
    by destruct (pass _ m w1) as [[??]?].
  - unfold clearPieces. destruct Hm as [Hl Hp Ha]. case_match; split; simpl; try done. by apply map_Forall_delete.
  - destruct Hm as [Hl Hp Ha]. split; simpl; [done|apply map_Forall_empty|done].
  - unfold forcePieceCleanup. case_match; [|done]. destruct Hm as [Hl Hp Ha]. split; simpl; [done| |done].
    intros h' ps'. rewrite lookup_alter. case_decide as Hh; [subst h'|by apply Hp].
    intros (ps & Hps & ->)%fmap_Some. by apply map_Forall_delete, Hp.
  - unfold forcePieceValidation. destruct (getPiece m h i) as [p|] eqn:Hp; [|done].
    case_decide as Hd; [done|]. unfold getPiece in Hp. apply bind_Some in Hp as (ps & Hps & Hpi).
    assert (∀ st b, st ≠ MISSING → (st = VALIDATED → p_data p ≠ []) → st ≠ RECEIVED →
      manager_ok limit (alter_piece (λ p, updatePieceQuality b (p <| p_status := st |>)) h i m)) as Halter.
    { intros st b H1 H2 H3. destruct Hm as [Hl Hall Ha]. split; simpl; [done| |done]. intros h' ps'. rewrite lookup_alter.
      case_decide as Hh; [subst h'|by apply Hall]. rewrite Hps. intros [= <-]. intros i' p'. rewrite lookup_alter.
      case_decide as Hi; [subst i'|by apply (Hall _ _ Hps)]. rewrite Hpi. intros [= <-].
      apply updatePieceQuality_ok. destruct (Hall _ _ Hps _ _ Hpi) as (?&?&?&?&?&?&?&?&?&?&?).
      unfold piece_ok; simpl. split_all; try done. }
    case_match; by apply Halter.
  - unfold setPieceMetadata. case_match; [by apply alter_piece_ok | done].
  - unfold removePieceMetadata. case_match; [by apply alter_piece_ok | done].
  - unfold clearPieceMetadata. case_match; [by apply alter_piece_ok | done].
  - destruct Hm. by split.
  - destruct Hm. by split.
Qed.

Lemma run_piece_ops_ok limit ops s :
  (0 ≤ limit)%Z → Forall (op_within limit) ops → manager_ok limit s.1 → manager_ok limit (run_piece_ops now sha1 ops s).1.
Proof.
  intros Hlim Hops. revert s. induction Hops as [|op ops Hop _ IH]; intros [m w] Hm; [done|].
  simpl. apply IH. by apply run_piece_op_ok.
Qed.

Lemma new_manager_ok limit config : (max_piece_size config ≤ limit)%Z → manager_ok limit (new_piece_manager config).
Proof. split; simpl; [done|apply map_Forall_empty|done]. Qed.

(** The largest piece size that was ever configured. *)
Definition largest_limit (config : PieceConfig) (ops : list piece_op) : Z :=
  foldr (λ op l, match op with OpConfig config => Z.max (max_piece_size config) l | _ => l end)
    (Z.max 0 (max_piece_size config)) ops.

Lemma reached_ok config ops w :
  manager_ok (largest_limit config ops) (run_piece_ops now sha1 ops (new_piece_manager config, w)).1.
Proof.
  assert (0 ≤ largest_limit config ops ∧ max_piece_size config ≤ largest_limit config ops)%Z as [Hpos Hmax].
  { unfold largest_limit. induction ops as [|op ops IH]; simpl; [lia|]. destruct op; simpl; lia. }
  apply run_piece_ops_ok; [done| |by apply new_manager_ok]. clear Hpos Hmax. unfold largest_limit. induction ops as [|op ops IH]; [done|].
  constructor; [destruct op; simpl; lia || done|]. eapply Forall_impl; [exact IH|].
  intros [] Hop; simpl in *; try done. destruct op; simpl; lia.
Qed.

(** C24: In every reachable state of the piece manager, changes of its
    configuration included, a stored piece is filed under its own hash and
    index, its data fits the largest limit that was ever configured, its
    checksum is that of its data (empty when it has none), a received or
    validated piece has data, and its validation counters add up.  No piece is
    ever in the state MISSING, so the list of missing pieces is always empty,
    and no assembly exists. *)
Theorem pieces_well_formed config ops w h i p :
  let m := (run_piece_ops now sha1 ops (new_piece_manager config, w)).1 in
  (getPiece m h i = Some p → piece_ok (largest_limit config ops) h i p)
  ∧ getMissingPieces m h = [] ∧ assemblies_ m = ∅.
Proof.
  intros m. destruct (reached_ok config ops w : manager_ok (largest_limit config ops) m) as [_ Hp Ha].
  split_all; [| |done].
  - intros (ps & Hps & Hi)%bind_Some. exact (Hp _ _ Hps _ _ Hi).
  - unfold getMissingPieces, getPiecesByStatus. destruct (pieces_ m !! h) as [ps|] eqn:Hps; [|done].
    rewrite filter_keeps_none; [done|]. intros [j q] Hin%elem_of_int_map_iter. simpl.
    destruct (Hp _ _ Hps _ _ Hin) as (_&_&_&_&?&_). done.
Qed.

(** ** Reading back *)

Lemma quality_frame b p :
  p_data (updatePieceQuality b p) = p_data p ∧ p_status (updatePieceQuality b p) = p_status p
  ∧ checksum (updatePieceQuality b p) = checksum p.
Proof. unfold updatePieceQuality. destruct b; simpl; by case_match. Qed.

(** C25: A piece that was requested and is then received is read back: its
    data, its checksum and its state, and no other piece changes. *)
Theorem received_piece_read_back h i data m w m1 w1 m2 w2 :
  requestPiece now h i m w = (true, m1, w1) →
  markPieceReceived now sha1 h i data m1 w1 = (true, m2, w2) →
  getPieceData m2 h i = data ∧ getPieceStatus m2 h i = RECEIVED
  ∧ getPieceChecksum m2 h i = calculatePieceChecksum sha1 data
  ∧ ∀ h' i', (h', i') ≠ (h, i) → getPiece m2 h' i' = getPiece m h' i'.
Proof.
  unfold requestPiece. destruct (negb _ || _); [done|]. intros H1 H2.
  assert (∃ p, m1 = set_info_pieces h (<[i := p]> (info_pieces h m)) m) as [p ->].
  { destruct (info_pieces h m !! i) as [p|]; [case_decide; [done|]|]; destruct (now w); simplify_eq; by eexists. }
  unfold markPieceReceived in H2. destruct (negb _ || _ || _); [done|].
  unfold info_pieces at 1 in H2. simpl in H2. rewrite lookup_insert_eq in H2. simpl in H2.
  rewrite lookup_insert_eq in H2. destruct (now w1) as [t w3]. simplify_eq.
  unfold getPieceData, getPieceStatus, getPieceChecksum, getPiece, info_pieces. simpl.
  rewrite !lookup_insert_eq. simpl. rewrite !lookup_insert_eq. split_all; [apply quality_frame..|].
  intros h' i' Hne. destruct (decide (h = h')) as [<-|Hh].
  - rewrite !lookup_insert_eq. simpl. assert (i ≠ i') by congruence. rewrite !lookup_insert_ne by done.
    by destruct (pieces_ m !! h).
  - by rewrite !lookup_insert_ne.
Qed.

(** ** Expiry *)

Lemma unexpired_drops i p l w :
  (∀ w', (expires_at p < (now w').1)%Z) → (i, p) ∉ (unexpired_list now l w).1.1.
Proof.
  intros Hlate. revert w. induction l as [|[j q] l IH]; intros w; simpl; [apply not_elem_of_nil|].
  pose proof (Hlate w). destruct (now w) as [t w1]. simpl in *. specialize (IH w1).
  destruct (unexpired_list now l w1) as [[l' e] w2]. simpl in *.
  destruct (Z.ltb_spec (expires_at q) t); simpl; [done|].
  intros [[= -> ->]|?]%elem_of_cons; [lia | done].
Qed.

(** Requesting a known piece again does not extend its life: once the
    time of expiry set when it was first stored has passed, the clean-up
    erases it, however recent the request, and the data that then arrives is
    rejected. *)
Theorem rerequest_not_extended {W0 : Type} (now0 : W0 → Z * W0) h i p data m v m1 v1 w :
  getPiece m h i = Some p → requestPiece now0 h i m v = (true, m1, v1) →
  (∀ w', (expires_at p < (now w').1)%Z) →
  let m2 := (cleanupExpiredPieces now m1 w).1 in
  getPiece m2 h i = None ∧ (markPieceReceived now sha1 h i data m2 w).1.1 = false.
Proof.
  intros Hp H1 Hlate m2.
  assert (∃ ps q, pieces_ m1 !! h = Some ps ∧ ps !! i = Some q ∧ expires_at q = expires_at p) as (ps & q & Hps & Hq & He).
  { unfold requestPiece in H1. destruct (negb _ || _); [done|]. unfold getPiece in Hp.
    apply bind_Some in Hp as (ps & Hps & Hpi). unfold info_pieces in H1. rewrite Hps in H1. simpl in H1.
    rewrite Hpi in H1. case_decide; [done|]. destruct (now0 v). simplify_eq. simpl.
    rewrite lookup_insert_eq. eexists _, _. split; [done|]. rewrite lookup_insert_eq. done. }
  assert (getPiece m2 h i = None) as Hnone.
  { unfold m2, cleanupExpiredPieces. destruct (now w) as [t w2].
    destruct (pass_lookup (unexpired_list now) m1 w2) as (_ & _ & Hsome).
    destruct (Hsome _ _ Hps) as (w' & Hl). destruct (pass _ m1 w2) as [[c m3] w3]. simpl in *.
    unfold getPiece. rewrite Hl. simpl. apply eq_None_not_Some. intros [q' Hq'%elem_of_list_to_map_2].
    assert ((i, q') ∈ int_map_iter ps) as Hin.
    { eapply elem_of_submseteq; [done|]. apply sublist_submseteq, unexpired_sublist. }
    apply elem_of_int_map_iter in Hin. simplify_eq.
    by apply unexpired_drops in Hq'; [|rewrite He]. }
  split; [done|]. unfold markPieceReceived. case_match; [done|]. unfold info_pieces. unfold getPiece in Hnone.
  destruct (pieces_ m2 !! h) as [ps2|]; simpl in *; [by rewrite Hnone|]. by rewrite lookup_empty.
Qed.

(** ** Statistics *)

Lemma count_fold l total by_status q :
  let '(t, b, _) := foldl count_piece (total, by_status, q) l in
  t = (total + Z.of_nat (length l))%Z
  ∧ ∀ s, b s = (by_status s + Z.of_nat (length (filter (λ p, p_status p = s) l)))%Z.
Proof.
  revert total by_status q. induction l as [|p l IH]; intros total by_status q; simpl foldl.
  { split; [simpl; lia|]. intros s. rewrite filter_nil. simpl. lia. }
  match goal with |- context [foldl count_piece (?t, ?b, ?q) l] => specialize (IH t b q) end.
  destruct (foldl count_piece _ l) as [[t b] q']. destruct IH as [-> Hb]. split; [simpl; lia|].
  intros s. rewrite Hb, filter_cons. repeat case_decide; simpl; congruence || lia.
Qed.

Lemma mjoin_cons {A} (x : list A) l : mjoin (x :: l) = x ++ mjoin l.
Proof. done. Qed.

Lemma length_all_pieces m : Z.of_nat (length (all_pieces m)) = getTotalPieceCount m.
Proof.
  unfold all_pieces, getTotalPieceCount. induction (map_iter (pieces_ m)) as [|[h ps] l IH]; [done|].
  rewrite fmap_cons, mjoin_cons, length_app, Nat2Z.inj_add, IH, length_fmap.
  unfold int_map_iter. rewrite merge_sort_Permutation, length_map_to_list. done.
Qed.

Lemma length_filter_snd (s : PieceStatus) (l : list (Z * MetadataPiece)) :
  length (filter (λ p, p_status p = s) l.*2) = length (filter (λ q, p_status q.2 = s) l).
Proof.
  induction l as [|[i p] l IH]; [done|]. rewrite fmap_cons, !filter_cons. simpl. case_decide; simpl; by rewrite IH.
Qed.

Lemma count_all_pieces m s :
  Z.of_nat (length (filter (λ p, p_status p = s) (all_pieces m))) = getTotalPieceCountByStatus m s.
Proof.
  unfold all_pieces, getTotalPieceCountByStatus. induction (map_iter (pieces_ m)) as [|[h ps] l IH]; [done|].
  rewrite fmap_cons, mjoin_cons, filter_app, length_app, Nat2Z.inj_add, IH, length_filter_snd. done.
Qed.

(** The statistics, gathered in one pass, agree with the counters, each of
    which walks the pieces on its own, and every piece is in exactly one of
    the eight states. *)
Theorem statistics_agree m w :
  let st := pm_stats (updateStatistics now m w).1 in
  s_total st = getTotalPieceCount m
  ∧ (∀ s, s_by_status st s = getTotalPieceCountByStatus m s)
  ∧ s_total st = sumZ (s_by_status st) [MISSING; REQUESTED; RECEIVED; VALIDATED; INVALID; DUPLICATE; CORRUPTED; EXPIRED].
Proof.
  unfold updateStatistics. pose proof (count_fold (all_pieces m) 0 (λ _, 0%Z) (double_of_int 0)) as Hc.
  destruct (foldl count_piece _ _) as [[t b] q]. destruct Hc as [Ht Hb]. destruct (now w) as [t1 w1]. simpl.
  split_all.
  - by rewrite Ht, <-length_all_pieces.
  - intros s. by rewrite Hb, <-count_all_pieces.
  - rewrite Ht, !Hb. clear. induction (all_pieces m) as [|p l IH]; [done|].
    rewrite !filter_cons. destruct (p_status p); repeat (case_decide; try done); simpl length in *; lia.
Qed.

(** ** Repair *)

Lemma all_pieces_elem m p : p ∈ all_pieces m ↔ ∃ h i, getPiece m h i = Some p.
Proof.
  unfold all_pieces, getPiece. rewrite list_elem_of_join. split.
  - intros (l & Hp & ([h ps] & -> & Hin%elem_of_map_iter)%list_elem_of_fmap).
    apply list_elem_of_fmap in Hp as ([i q] & -> & Hi%elem_of_int_map_iter). exists h, i. simpl in *. by rewrite Hin.
  - intros (h & i & (ps & Hps & Hi)%bind_Some). exists (int_map_iter ps).*2. split.
    + apply list_elem_of_fmap. exists (i, p). split; [done|]. by apply elem_of_int_map_iter.
    + apply list_elem_of_fmap. exists (h, ps). split; [done|]. by apply elem_of_map_iter.
Qed.

Lemma clear_expired_sub m w h i p :
  getPiece (clearExpiredPieces now m w).1.2 h i = Some p → getPiece m h i = Some p.
Proof.
  unfold clearExpiredPieces. destruct (now w) as [t w1].
  destruct (pass_lookup (unexpired_list now) m w1) as (_ & Hnone & Hsome).
  intros (ps & Hps & Hi)%bind_Some. unfold getPiece. destruct (pieces_ m !! h) as [q|] eqn:Hq.
  - destruct (Hsome _ _ Hq) as (w' & Hl). rewrite Hl in Hps. injection Hps as <-. simpl.
    apply elem_of_list_to_map_2 in Hi. apply elem_of_int_map_iter.
    eapply elem_of_submseteq; [done|]. apply sublist_submseteq, unexpired_sublist.
  - rewrite (Hnone _ Hq) in Hps. done.
Qed.

Lemma clear_expired_config m w : pm_config (clearExpiredPieces now m w).1.2 = pm_config m.
Proof.
  unfold clearExpiredPieces. destruct (now w) as [t w1].
  by destruct (pass_lookup (unexpired_list now) m w1) as (-> & _).
Qed.

(** The repair always returns when the size of a piece is not zero, and
    the manager then passes its integrity check. *)
Theorem repair_restores_integrity m w :
  max_piece_size (pm_config m) ≠ 0%Z →
  ∃ r, repairPieceManager now m w = Some r ∧ validatePieceManagerIntegrity r.1.2 = true.
Proof.
  intros Hne. unfold repairPieceManager, too_many_pieces.
  assert (∃ c m1, (if negb (validatePieceManagerIntegrity m) then clearAllPieces m else (0%Z, m)) = (c, m1)
    ∧ pm_config m1 = pm_config m ∧ validatePieceManagerIntegrity m1 = true) as (c & m1 & -> & Hcfg & Hok).
  { destruct (validatePieceManagerIntegrity m) eqn:Hv; simpl.
    - by exists 0%Z, m.
    - unfold clearAllPieces. eexists _, _. split; [done|]. split; [done|].
      unfold validatePieceManagerIntegrity, all_pieces. simpl. by rewrite map_iter_empty. }
  rewrite Hcfg, decide_False by done. simpl.
  pose proof (clear_expired_sub m1 w) as Hsub. pose proof (clear_expired_config m1 w) as Hc1.
  destruct (clearExpiredPieces now m1 w) as [[c1 m2] w1]. simpl in *.
  eexists. split; [done|]. case_match; simpl; [|done].
  unfold validatePieceManagerIntegrity in *. rewrite forallb_forall in *.
  intros p Hp%list_elem_of_In. rewrite all_pieces_elem in Hp. destruct Hp as (h & i & Hp%Hsub).
  rewrite Hc1. apply Hok, list_elem_of_In, all_pieces_elem. eauto.
Qed.
End Facts.

(** ** Concrete runs: a clock that ticks a second at every reading, and a
    stand-in for the hash function. *)

Definition second_tick (w : Z) : Z * Z := (w, (w + seconds 1)%Z).
Definition toy_sha1 (data : list ascii) : list ascii := take 20 (data ++ replicate 20 (byte_of 0)).
Definition sample_hash : string := "0123456789abcdef0123456789abcdef01234567".
Definition sample_data : list ascii := chars "d4:name4:teste".

Definition sample_run : piece_manager * Z :=
  run_piece_ops second_tick toy_sha1
    [OpRequest sample_hash 0; OpReceived sample_hash 0 sample_data; OpRequest sample_hash 1]
    (new_piece_manager default_PieceConfig, 0%Z).

(** A piece is received, and then the limit is lowered below its size. *)
Definition reconfigured_ops : list piece_op :=
  [OpRequest sample_hash 0; OpReceived sample_hash 0 sample_data; OpRequest sample_hash 1;
   OpConfig (mk_PieceConfig 4 (1024 * 1024) 30000 300000)].
Definition reconfigured_run : piece_manager * Z :=
  run_piece_ops second_tick toy_sha1 reconfigured_ops (new_piece_manager default_PieceConfig, 0%Z).

Lemma pieces_well_formed_witness :
  ∃ p, getPiece reconfigured_run.1 sample_hash 0 = Some p
    ∧ p_data p = sample_data ∧ checksum p = calculatePieceChecksum toy_sha1 sample_data
    ∧ piece_ok toy_sha1 (max_piece_size default_PieceConfig) sample_hash 0 p
    ∧ max_piece_size (pm_config reconfigured_run.1) = 4%Z ∧ getMissingPieces reconfigured_run.1 sample_hash = [].
Proof.
  destruct (getPiece reconfigured_run.1 sample_hash 0) as [p|] eqn:Hp; [|vm_compute in Hp; discriminate Hp].
  destruct (pieces_well_formed second_tick toy_sha1 default_PieceConfig reconfigured_ops 0%Z sample_hash 0%Z p) as (Hok & Hmissing & _).
  specialize (Hok Hp). assert (p_data p = sample_data) as Hdata by (vm_compute in Hp; injection Hp as <-; reflexivity).
  exists p. split; [reflexivity|]. split; [exact Hdata|]. split; [|split; [exact Hok|]; split; [reflexivity|exact Hmissing]].
  destruct Hok as (_ & _ & _ & _ & _ & _ & Hsum & _). rewrite Hsum, Hdata. reflexivity.
Defined.

Definition requested : bool * piece_manager * Z :=
  requestPiece second_tick sample_hash 0 (new_piece_manager default_PieceConfig) 0%Z.
Definition received : bool * piece_manager * Z :=
  markPieceReceived second_tick toy_sha1 sample_hash 0 sample_data requested.1.2 requested.2.

Lemma triple_true {A B} (r : bool * A * B) : r.1.1 = true → r = (true, r.1.2, r.2).
Proof. destruct r as [[b a] c]. simpl. by intros ->. Qed.

Lemma requested_true :
  requestPiece second_tick sample_hash 0 (new_piece_manager default_PieceConfig) 0%Z = (true, requested.1.2, requested.2).
Proof. apply (triple_true requested). vm_compute. reflexivity. Qed.
Lemma received_true :
  markPieceReceived second_tick toy_sha1 sample_hash 0 sample_data requested.1.2 requested.2
  = (true, received.1.2, received.2).
Proof. apply (triple_true received). vm_compute. reflexivity. Qed.

Lemma received_piece_read_back_witness : getPieceData received.1.2 sample_hash 0 = sample_data.
Proof.
  exact (proj1 (received_piece_read_back second_tick toy_sha1 sample_hash 0 sample_data
    (new_piece_manager default_PieceConfig) 0%Z requested.1.2 requested.2 received.1.2 received.2
    requested_true received_true)).
Defined.

(** The received piece is requested again 25 seconds later; 35 seconds after
    it was received the clean-up erases it. *)
Definition known_piece : MetadataPiece :=
  default (mk_MetadataPiece "" 0 MISSING [] "" 0 0 0 0 0 0 (double_of_int 0) 0 0 0 ∅)
    (getPiece received.1.2 sample_hash 0).
Definition late (w : Z) : Z * Z := (seconds 36, w).
Definition requested_again : bool * piece_manager * Z :=
  requestPiece second_tick sample_hash 0 received.1.2 (seconds 26).

Lemma requested_again_true :
  requestPiece second_tick sample_hash 0 received.1.2 (seconds 26) = (true, requested_again.1.2, requested_again.2).
Proof. apply (triple_true requested_again). vm_compute. reflexivity. Qed.
Lemma known_piece_stored : getPiece received.1.2 sample_hash 0 = Some known_piece.
Proof. vm_compute. reflexivity. Qed.
Lemma known_piece_late w : (expires_at known_piece < (late w).1)%Z.
Proof. vm_compute. reflexivity. Qed.

Lemma rerequest_not_extended_witness :
  (markPieceReceived late toy_sha1 sample_hash 0 sample_data
     (cleanupExpiredPieces late requested_again.1.2 0%Z).1 0%Z).1.1 = false.
Proof.
  exact (proj2 (rerequest_not_extended late toy_sha1 second_tick sample_hash 0 known_piece sample_data
    received.1.2 (seconds 26) requested_again.1.2 requested_again.2 0%Z
    known_piece_stored requested_again_true known_piece_late)).
Defined.

Lemma repair_restores_integrity_witness :
  ∃ r, repairPieceManager second_tick sample_run.1 0%Z = Some r ∧ validatePieceManagerIntegrity r.1.2 = true.
Proof. exact (repair_restores_integrity second_tick sample_run.1 0%Z ltac:(vm_compute; discriminate)). Defined.
