(* ===== verification/Registry.v ===== *)
(** * Maps whose entries expire

    The request cache, the timeout manager, the token manager and the
    ut_metadata protocol all keep a map of active entries and a map of
    expired ones, and all sweep the former into the latter with the same loop:
    test the entry's deadline against a clock value read before the loop,
    assign it to the expired map, erase it from the active one.  This file has
    that loop and the lemmas the four components share.  [present] counts
    occurrences, so that "in exactly one of the maps" is linear arithmetic. *)

From S2P Require Import Prelude.

Section Registry.
Context {A : Type}.
Implicit Types (m active expired : gmap string A) (id : string).

Definition present m id : nat := match m !! id with Some _ => 1 | None => 0 end.

Lemma present_insert m k r id : present (<[k := r]> m) id = if decide (k = id) then 1 else present m id.
Proof. unfold present. rewrite lookup_insert. by case_decide. Qed.
Lemma present_delete m k id : present (delete k m) id = if decide (k = id) then 0 else present m id.
Proof. unfold present. rewrite lookup_delete. by case_decide. Qed.
Lemma present_empty id : present ∅ id = 0.
Proof. unfold present. by rewrite lookup_empty. Qed.
Lemma present_fmap (f : A → A) m id : present (f <$> m) id = present m id.
Proof. unfold present. rewrite lookup_fmap. by destruct (m !! id). Qed.
Lemma present_union m1 m2 id : present (m1 ∪ m2) id ≤ present m1 id + present m2 id.
Proof. unfold present. rewrite lookup_union. destruct (m1 !! id), (m2 !! id); simpl; lia. Qed.
Lemma present_Some m id r : m !! id = Some r → present m id = 1.
Proof. unfold present. by intros ->. Qed.
Lemma present_None m id : present m id = 0 ↔ m !! id = None.
Proof. unfold present. by destruct (m !! id). Qed.

Section Sweep.
Context (P : string * A → Prop) `{!∀ x, Decision (P x)} (f : A → A).

Lemma present_filter m id : present (filter P m) id + present (filter (λ x, ¬ P x) m) id = present m id.
Proof.
  unfold present. rewrite !map_lookup_filter. destruct (m !! id) as [r|]; simpl; [|done].
  repeat case_guard; simpl; done || (exfalso; tauto).
Qed.
Lemma present_filter_le m id : present (filter P m) id ≤ present m id.
Proof. pose proof (present_filter m id). lia. Qed.

(** The sweep: [P] holds of the entries to be moved, [f] is what the loop
    assigns to an entry before it copies it. *)
Definition swept active expired : gmap string A := (f <$> filter P active) ∪ expired.
Definition unswept active : gmap string A := filter (λ x, ¬ P x) active.

Lemma unswept_Some active id r : unswept active !! id = Some r ↔ active !! id = Some r ∧ ¬ P (id, r).
Proof. unfold unswept. by rewrite map_lookup_filter_Some. Qed.

Lemma swept_Some active expired id r : swept active expired !! id = Some r ↔
  (∃ r', active !! id = Some r' ∧ P (id, r') ∧ r = f r')
  ∨ (unswept active !! id = active !! id ∧ expired !! id = Some r).
Proof.
  unfold swept, unswept. rewrite lookup_union, lookup_fmap, !map_lookup_filter.
  destruct (active !! id) as [r'|]; simpl.
  - repeat case_guard; simpl; try (exfalso; tauto).
    + rewrite union_Some_l. split; [intros [= <-]; left; eauto|].
      intros [(r'' & [= <-] & _ & ->)|[? _]]; done.
    + rewrite (left_id_L None (∪)). split; [by right|].
      intros [(r'' & [= <-] & ? & _)|[_ ?]]; [tauto|done].
  - rewrite (left_id_L None (∪)). split; [by right|]. by intros [(? & ? & _)|[_ ?]].
Qed.

(** A sweep neither loses an entry nor duplicates one. *)
Lemma sweep_present active expired id :
  present (unswept active) id + present (swept active expired) id ≤ present active id + present expired id.
Proof.
  pose proof (present_filter active id). pose proof (present_union (f <$> filter P active) expired id) as Hu.
  rewrite present_fmap in Hu. unfold swept, unswept. lia.
Qed.

Lemma unswept_Forall (Q : string → A → Prop) active : map_Forall Q active → map_Forall Q (unswept active).
Proof. intros HQ id r [Hl _]%unswept_Some. by apply HQ. Qed.

Lemma swept_Forall (Q Q' : string → A → Prop) active expired :
  map_Forall Q active → map_Forall Q' expired → (∀ id r, Q id r → P (id, r) → Q' id (f r)) →
  map_Forall Q' (swept active expired).
Proof.
  intros HQ HQ' Hf id r [(r' & Hl & HP & ->)|[_ Hl]]%swept_Some; [apply Hf; [by apply HQ|done]|by apply HQ'].
Qed.

Lemma filter_Forall (Q : string → A → Prop) m : map_Forall Q m → map_Forall Q (filter P m).
Proof. intros HQ id r [Hl _]%map_lookup_filter_Some. by apply HQ. Qed.
End Sweep.
End Registry.
