(* ===== verification/RequestCache.v ===== *)
(** * The request cache

    Models [RequestCacheManager] as [src/src/request_cache_manager.cpp]
    defines it: a request is active until it completes, fails for good after
    its retries, or expires; three further maps keep the requests that left.
    The structures are those the source file uses; the header of the same
    name declares others.  Every operation holds the mutex of the cache and is
    one step here; the clock is read as often as the code reads it. *)

From S2P Require Import Prelude Numeric Registry.

Inductive RequestStatus := PENDING | COMPLETED | FAILED | EXPIRED | NOT_FOUND.
#[export] Instance RequestStatus_eq_dec : EqDecision RequestStatus.
Proof. solve_decision. Defined.

Record RequestInfo := mk_RequestInfo {
  r_id : string;
  r_type : string;
  r_target_id : string;
  r_parameters : gmap string string;
  r_status : RequestStatus;
  r_created_at : Z;
  r_expires_at : Z;
  r_completed_at : Z;
  r_failed_at : Z;
  r_retry_count : Z;
  r_max_retries : Z;
  r_result_data : string;
  r_error_message : string;
}.
#[export] Instance eta_RequestInfo : Eta RequestInfo :=
  λ r, mk_RequestInfo (r_id r) (r_type r) (r_target_id r) (r_parameters r) (r_status r)
         (r_created_at r) (r_expires_at r) (r_completed_at r) (r_failed_at r)
         (r_retry_count r) (r_max_retries r) (r_result_data r) (r_error_message r).

(** The members of the configuration the source file reads; milliseconds. *)
Record CacheConfig := mk_CacheConfig {
  request_timeout : Z;
  max_retries : Z;
  cleanup_interval : Z;
}.

(** [c_counter] is the static counter of [generateRequestId], an [int]. *)
Record request_cache := mk_request_cache {
  c_config : CacheConfig;
  active_requests_ : gmap string RequestInfo;
  completed_requests_ : gmap string RequestInfo;
  failed_requests_ : gmap string RequestInfo;
  expired_requests_ : gmap string RequestInfo;
  c_counter : Z;
}.
#[export] Instance eta_request_cache : Eta request_cache :=
  λ r, mk_request_cache (c_config r) (active_requests_ r) (completed_requests_ r)
         (failed_requests_ r) (expired_requests_ r) (c_counter r).

Definition new_request_cache (config : CacheConfig) : request_cache := mk_request_cache config ∅ ∅ ∅ ∅ 0.

Section Operations.
Context {W : Type} (now : W → Z * W).
Implicit Types (c : request_cache) (w : W).

Definition request_id (timestamp counter : Z) : string :=
  "REQ_" +:+ to_string timestamp +:+ "_" +:+ to_string counter.

Definition generateRequestId c w : string * request_cache * W :=
  let '(t, w) := now w in
  (request_id (duration_cast_ms t) (c_counter c), c <| c_counter ::= (λ n, int_of_Z (n + 1)) |>, w).

Definition addRequest (type target_id : string) (parameters : gmap string string) c w
    : string * request_cache * W :=
  let '(id, c, w) := generateRequestId c w in
  let '(t, w) := now w in
  let r := mk_RequestInfo id type target_id parameters PENDING t
             (t + milliseconds (request_timeout (c_config c))) 0 0 0 (max_retries (c_config c)) "" "" in
  (id, c <| active_requests_ ::= <[id := r]> |>, w).

Definition expired_by (t : Z) (p : string * RequestInfo) : Prop := (r_expires_at p.2 ≤ t)%Z.
#[export] Instance expired_by_dec t p : Decision (expired_by t p).
Proof. unfold expired_by. apply _. Defined.

(** The clock is read once, before the loop. *)
Definition checkExpiredRequests c w : request_cache * W :=
  let '(t, w) := now w in
  (c <| expired_requests_ ::= swept (expired_by t) (λ r, r <| r_status := EXPIRED |>) (active_requests_ c) |>
     <| active_requests_ ::= unswept (expired_by t) |>, w).

Definition cleanupExpiredRequests c w : request_cache * W :=
  let '(t, w) := now w in
  (c <| expired_requests_ ::=
       filter (λ p, ¬ (milliseconds (cleanup_interval (c_config c)) < t - r_expires_at p.2)%Z) |>, w).

(** One round of [cacheMonitorLoop] that is not stopped. *)
Definition cache_monitor_round c w : request_cache * W :=
  let '(c, w) := checkExpiredRequests c w in cleanupExpiredRequests c w.

Definition getRequestStatus c (id : string) : RequestStatus :=
  match active_requests_ c !! id with
  | Some r => r_status r
  | None => match expired_requests_ c !! id with Some r => r_status r | None => NOT_FOUND end
  end.

Definition markRequestComplete (id result_data : string) c w : bool * request_cache * W :=
  match active_requests_ c !! id with
  | Some r =>
    let '(t, w) := now w in
    let r := r <| r_status := COMPLETED |> <| r_result_data := result_data |> <| r_completed_at := t |> in
    (true, c <| completed_requests_ ::= <[id := r]> |> <| active_requests_ ::= delete id |>, w)
  | None => (false, c, w)
  end.

Definition markRequestFailed (id error_message : string) c w : bool * request_cache * W :=
  match active_requests_ c !! id with
  | Some r =>
    let '(t, w) := now w in
    let r := r <| r_status := FAILED |> <| r_error_message := error_message |> <| r_failed_at := t |>
               <| r_retry_count ::= Z.succ |> in
    if (r_retry_count r <? r_max_retries r)%Z then
      let '(t', w) := now w in
      let r := r <| r_status := PENDING |>
                 <| r_expires_at := (t' + milliseconds (request_timeout (c_config c)))%Z |> in
      (true, c <| active_requests_ ::= <[id := r]> |>, w)
    else (true, c <| failed_requests_ ::= <[id := r]> |> <| active_requests_ ::= delete id |>, w)
  | None => (false, c, w)
  end.

Definition same_request (type target_id : string) (r : RequestInfo) : bool :=
  bool_decide (r_type r = type) && bool_decide (r_target_id r = target_id).

Definition isRequestCached (type target_id : string) c : bool :=
  existsb (same_request type target_id) (map_iter (active_requests_ c)).*2
  || existsb (same_request type target_id) (map_iter (completed_requests_ c)).*2.

(** [None] is the empty record. *)
Definition getRequestInfo c (id : string) : option RequestInfo :=
  match active_requests_ c !! id with
  | Some r => Some r
  | None =>
    match completed_requests_ c !! id with
    | Some r => Some r
    | None => match failed_requests_ c !! id with Some r => Some r | None => expired_requests_ c !! id end
    end
  end.

Definition getActiveRequestIds c : list string := (map_iter (active_requests_ c)).*1.
Definition getCompletedRequestIds c : list string := (map_iter (completed_requests_ c)).*1.
Definition getFailedRequestIds c : list string := (map_iter (failed_requests_ c)).*1.
Definition getExpiredRequestIds c : list string := (map_iter (expired_requests_ c)).*1.
Definition count (m : gmap string RequestInfo) : Z := int_of_Z (Z.of_nat (size m)).
Definition getActiveRequestCount c : Z := count (active_requests_ c).
Definition getCompletedRequestCount c : Z := count (completed_requests_ c).
Definition getFailedRequestCount c : Z := count (failed_requests_ c).
Definition getExpiredRequestCount c : Z := count (expired_requests_ c).
Definition getTotalRequestCount c : Z :=
  int_of_Z (Z.of_nat (size (active_requests_ c) + size (completed_requests_ c)
                      + size (failed_requests_ c) + size (expired_requests_ c))).

Definition clearExpiredRequests c : request_cache := c <| expired_requests_ := ∅ |>.
Definition clearAllRequests c : request_cache :=
  c <| active_requests_ := ∅ |> <| completed_requests_ := ∅ |> <| failed_requests_ := ∅ |>
    <| expired_requests_ := ∅ |>.
Definition updateConfig (config : CacheConfig) c : request_cache := c <| c_config := config |>.

(** ** Runs; [ids] are the identifiers handed out so far *)

Inductive cache_op :=
  | CAdd (type target_id : string) (parameters : gmap string string)
  | CComplete (id result_data : string)
  | CFail (id error_message : string)
  | CMonitor
  | CClearExpired
  | CClearAll
  | CConfig (config : CacheConfig).

Definition run_cache_op (op : cache_op) (s : request_cache * W * list string) : request_cache * W * list string :=
  let '(c, w, ids) := s in
  match op with
  | CAdd ty tg ps => let '(id, c, w) := addRequest ty tg ps c w in (c, w, ids ++ [id])
  | CComplete id d => let '(_, c, w) := markRequestComplete id d c w in (c, w, ids)
  | CFail id e => let '(_, c, w) := markRequestFailed id e c w in (c, w, ids)
  | CMonitor => let '(c, w) := cache_monitor_round c w in (c, w, ids)
  | CClearExpired => (clearExpiredRequests c, w, ids)
  | CClearAll => (clearAllRequests c, w, ids)
  | CConfig config => (updateConfig config c, w, ids)
  end.

Definition run_cache (ops : list cache_op) (s : request_cache * W * list string) : request_cache * W * list string :=
  foldl (λ s op, run_cache_op op s) s ops.
End Operations.

(** ** Identifiers *)

Lemma split_last_char (c : ascii) l1 l2 k1 k2 :
  c ∉ l2 → c ∉ k2 → l1 ++ c :: l2 = k1 ++ c :: k2 → l2 = k2.
Proof.
  intros H1 H2 Heq. apply (f_equal reverse) in Heq. rewrite !reverse_app, !reverse_cons, <-!app_assoc in Heq.
  simpl in Heq. rewrite <-(reverse_involutive l2), <-(reverse_involutive k2). f_equal.
  rewrite <-elem_of_reverse in H1. rewrite <-elem_of_reverse in H2.
  revert H1 H2 Heq. generalize (reverse l2) as a, (reverse k2) as b. intros a. induction a as [|x a IH]; intros [|y b]; simpl.
  - done.
  - intros _ Hb [= -> _]. set_solver.
  - intros Ha _ [= -> _]. set_solver.
  - intros Ha Hb [= -> Heq]. f_equal. apply IH; [set_solver..|done].
Qed.

Lemma to_string_no_underscore z : "_"%char ∉ chars (to_string z).
Proof.
  intros Hin. destruct (to_string_chars z) as [Hf _]. rewrite forallb_forall in Hf.
  apply list_elem_of_In in Hin. by apply Hf in Hin.
Qed.

#[export] Instance to_string_inj : Inj (=) (=) to_string.
Proof.
  intros a b H. pose proof (strtol_to_string a) as Ha. rewrite H, strtol_to_string in Ha. congruence.
Qed.

(** The counter is the part of an identifier after its last underscore. *)
Lemma request_id_counter t1 n1 t2 n2 : request_id t1 n1 = request_id t2 n2 → n1 = n2.
Proof.
  intros H%(f_equal chars). unfold request_id in H. rewrite !chars_append in H.
  apply to_string_inj, chars_inj. simpl in H. injection H as H.
  eapply split_last_char; [apply to_string_no_underscore..|done].
Qed.

(** ** Accounting *)

(** How often [id] is held: at most once. *)
Definition held (c : request_cache) (id : string) : nat :=
  present (active_requests_ c) id + present (completed_requests_ c) id
  + present (failed_requests_ c) id + present (expired_requests_ c) id.

Definition request_ok (ids : list string) (status : RequestStatus) (id : string) (r : RequestInfo) : Prop :=
  r_id r = id ∧ id ∈ ids ∧ r_status r = status.

(** Of an active request with a limit of [n] failures, fewer have happened;
    of one that failed for good, exactly the limit (at least one). *)
Definition retrying (r : RequestInfo) : Prop :=
  r_retry_count r = 0%Z ∨ (0 ≤ r_retry_count r < r_max_retries r)%Z.
Definition exhausted (r : RequestInfo) : Prop := r_retry_count r = Z.max 1 (r_max_retries r).

Record cache_ok (c : request_cache) (ids : list string) : Prop := {
  co_counter : c_counter c = Z.of_nat (length ids);
  co_ids : ∀ k id, ids !! k = Some id → ∃ t, id = request_id t (Z.of_nat k);
  co_held : ∀ id, held c id ≤ 1;
  co_active : map_Forall (λ id r, request_ok ids PENDING id r ∧ retrying r) (active_requests_ c);
  co_completed : map_Forall (request_ok ids COMPLETED) (completed_requests_ c);
  co_failed : map_Forall (λ id r, request_ok ids FAILED id r ∧ exhausted r) (failed_requests_ c);
  co_expired : map_Forall (request_ok ids EXPIRED) (expired_requests_ c);
}.

Lemma ids_NoDup c ids : cache_ok c ids → NoDup ids.
Proof.
  intros Hc. apply NoDup_alt. intros i j id Hi Hj.
  destruct (co_ids _ _ Hc _ _ Hi) as [t1 H1], (co_ids _ _ Hc _ _ Hj) as [t2 H2].
  rewrite H1 in H2. apply request_id_counter in H2. lia.
Qed.

Section Accounting.
Context {W : Type} (now : W → Z * W).
Implicit Types (c : request_cache) (w : W).

Lemma held_active c ids id r : cache_ok c ids → active_requests_ c !! id = Some r →
  present (completed_requests_ c) id = 0 ∧ present (failed_requests_ c) id = 0 ∧ present (expired_requests_ c) id = 0.
Proof.
  intros Hc Hr. pose proof (co_held _ _ Hc id) as Hh. unfold held in Hh.
  unfold present in Hh at 1. rewrite Hr in Hh. lia.
Qed.

Lemma complete_ok c ids id d w : cache_ok c ids → cache_ok (markRequestComplete now id d c w).1.2 ids.
Proof.
  intros Hc. unfold markRequestComplete. destruct (active_requests_ c !! id) as [r|] eqn:Hr; [|done].
  destruct (now w) as [t w1]. destruct (held_active _ _ _ _ Hc Hr) as (H1 & H2 & H3).
  destruct (co_active _ _ Hc _ _ Hr) as [(Hi & Hin & Hs) _]. destruct Hc as [Hn Hids Hh Ha Hco Hf He].
  split; simpl; [done..| | | |done|done].
  - intros id'. specialize (Hh id'). unfold held in *; simpl. rewrite present_insert, present_delete.
    repeat case_decide; subst; lia.
  - by apply map_Forall_delete.
  - apply map_Forall_insert_2; [by split_and! | done].
Qed.

Lemma failed_ok c ids id e w : cache_ok c ids → cache_ok (markRequestFailed now id e c w).1.2 ids.
Proof.
  intros Hc. unfold markRequestFailed. destruct (active_requests_ c !! id) as [r|] eqn:Hr; [|done].
  destruct (now w) as [t w1]. destruct (held_active _ _ _ _ Hc Hr) as (H1 & H2 & H3).
  destruct (co_active _ _ Hc _ _ Hr) as [(Hi & Hin & Hs) Hretry]. destruct Hc as [Hn Hids Hh Ha Hco Hf He].
  simpl. destruct (Z.ltb_spec (Z.succ (r_retry_count r)) (r_max_retries r)).
  - destruct (now w1) as [t' w2]. split; simpl; [done..| | |done|done|done].
    + intros id'. specialize (Hh id'). unfold held in *; simpl. rewrite present_insert.
      case_decide; [subst id'|done]. lia.
    + apply map_Forall_insert_2; [|done]. split; [by split_and!|]. unfold retrying in *; simpl. lia.
  - split; simpl; [done..| | |done| |done].
    + intros id'. specialize (Hh id'). unfold held in *; simpl. rewrite present_insert, present_delete.
      repeat case_decide; subst; lia.
    + by apply map_Forall_delete.
    + apply map_Forall_insert_2; [|done]. split; [by split_and!|]. unfold retrying, exhausted in *; simpl. lia.
Qed.

Lemma check_expired_ok c ids w : cache_ok c ids → cache_ok (checkExpiredRequests now c w).1 ids.
Proof.
  intros [Hn Hids Hh Ha Hco Hf He]. unfold checkExpiredRequests. destruct (now w) as [t w1].
  split; simpl; [done..| | |done|done|].
  - intros id. specialize (Hh id). unfold held in *; simpl.
    match goal with |- context [present (swept ?P ?f ?a ?e) id] => pose proof (sweep_present P f a e id) end. lia.
  - by apply unswept_Forall.
  - eapply swept_Forall; [exact Ha|exact He|]. intros id r [(? & ? & ?) _] _. by split_and!.
Qed.

Lemma cleanup_expired_ok c ids w : cache_ok c ids → cache_ok (cleanupExpiredRequests now c w).1 ids.
Proof.
  intros [Hn Hids Hh Ha Hco Hf He]. unfold cleanupExpiredRequests. destruct (now w) as [t w1].
  split; simpl; [done..| |done|done|done|by apply filter_Forall].
  intros id. specialize (Hh id). unfold held in *; simpl.
  match goal with |- context [present (filter ?Q ?e) id] => pose proof (present_filter_le Q e id) end. lia.
Qed.

Lemma cache_monitor_ok c ids w : cache_ok c ids → cache_ok (cache_monitor_round now c w).1 ids.
Proof.
  intros Hc. unfold cache_monitor_round. apply (check_expired_ok _ _ w) in Hc.
  destruct (checkExpiredRequests now c w) as [c1 w1]. by apply cleanup_expired_ok.
Qed.

Lemma request_ok_mono ids id' st id r : request_ok ids st id r → request_ok (ids ++ [id']) st id r.
Proof. intros (? & ? & ?). split_and!; [done| |done]. apply elem_of_app. by left. Qed.

(** An identifier that carries the next counter value has not been handed out. *)
Lemma fresh_id c ids t : cache_ok c ids → request_id t (c_counter c) ∉ ids.
Proof.
  intros Hc [k Hk]%list_elem_of_lookup. destruct (co_ids _ _ Hc _ _ Hk) as [t' Heq%request_id_counter].
  rewrite (co_counter _ _ Hc) in Heq. apply lookup_lt_Some in Hk. lia.
Qed.

Lemma not_held c ids id : cache_ok c ids → id ∉ ids → held c id = 0.
Proof.
  intros [_ _ _ Ha Hco Hf He] Hid. unfold held, present.
  destruct (active_requests_ c !! id) eqn:H1; [by destruct (Ha _ _ H1) as [(_ & ? & _) _]|].
  destruct (completed_requests_ c !! id) eqn:H2; [by destruct (Hco _ _ H2) as (_ & ? & _)|].
  destruct (failed_requests_ c !! id) eqn:H3; [by destruct (Hf _ _ H3) as [(_ & ? & _) _]|].
  destruct (expired_requests_ c !! id) eqn:H4; [by destruct (He _ _ H4) as (_ & ? & _)|done].
Qed.

Lemma add_ok c ids ty tg ps w : (Z.of_nat (length ids) < 2 ^ 31 - 1)%Z → cache_ok c ids →
  ∀ id c' w', addRequest now ty tg ps c w = (id, c', w') → cache_ok c' (ids ++ [id]).
Proof.
  intros Hlen Hc id c' w'. unfold addRequest, generateRequestId.
  destruct (now w) as [t w1], (now w1) as [t' w2]. intros [= <- <- _].
  pose proof (fresh_id _ _ (duration_cast_ms t) Hc) as Hfresh.
  pose proof (not_held _ _ _ Hc Hfresh) as Hno. destruct Hc as [Hn Hids Hh Ha Hco Hf He].
  set (id := request_id (duration_cast_ms t) (c_counter c)) in *.
  split; simpl.
  - rewrite Hn, int_of_Z_small, length_app by lia. simpl. lia.
  - intros k x Hk. apply lookup_snoc_Some in Hk as [[_ Hk]|[-> <-]]; [by apply Hids|].
    exists (duration_cast_ms t). unfold id. by rewrite Hn.
  - intros x. specialize (Hh x). unfold held in *; simpl. rewrite present_insert. case_decide; [subst x; lia|done].
  - apply map_Forall_insert_2.
    + split; [split_and!; [done| |done]; apply elem_of_app; right; by left | by left].
    + eapply map_Forall_impl; [exact Ha|]. intros ? ? [? ?]. by split; [apply request_ok_mono|].
  - eapply map_Forall_impl; [exact Hco|]. intros. by apply request_ok_mono.
  - eapply map_Forall_impl; [exact Hf|]. intros ? ? [? ?]. by split; [apply request_ok_mono|].
  - eapply map_Forall_impl; [exact He|]. intros. by apply request_ok_mono.
Qed.

Lemma run_cache_op_ok op c w ids : (Z.of_nat (length ids) < 2 ^ 31 - 1)%Z → cache_ok c ids →
  ∀ c' w' ids', run_cache_op now op (c, w, ids) = (c', w', ids') →
  cache_ok c' ids' ∧ length ids' ≤ S (length ids).
Proof.
  intros Hlen Hc c' w' ids'. destruct op as [ty tg ps|id d|id e| | | |config]; simpl.
  - destruct (addRequest now ty tg ps c w) as [[id c1] w1] eqn:Hadd. intros [= <- <- <-].
    rewrite length_app. simpl. split; [by eapply add_ok|lia].
  - pose proof (complete_ok c ids id d w Hc) as Hok.
    destruct (markRequestComplete now id d c w) as [[? ?] ?]. intros [= <- <- <-]. split; [done|lia].
  - pose proof (failed_ok c ids id e w Hc) as Hok.
    destruct (markRequestFailed now id e c w) as [[? ?] ?]. intros [= <- <- <-]. split; [done|lia].
  - pose proof (cache_monitor_ok c ids w Hc) as Hok.
    destruct (cache_monitor_round now c w) as [? ?]. intros [= <- <- <-]. split; [done|lia].
  - intros [= <- <- <-]. split; [|lia]. destruct Hc as [? ? Hh ? ? ? ?]. split; try done; simpl.
    intros id. specialize (Hh id). unfold held in *; simpl. rewrite present_empty. lia.
  - intros [= <- <- <-]. split; [|lia]. destruct Hc as [? ? Hh ? ? ? ?]. split; try done; simpl.
    intros id. unfold held; simpl. rewrite !present_empty. lia.
  - intros [= <- <- <-]. split; [|lia]. by destruct Hc.
Qed.

Lemma run_cache_ok ops : ∀ c w ids, (Z.of_nat (length ids + length ops) < 2 ^ 31)%Z → cache_ok c ids →
  ∀ c' w' ids', run_cache now ops (c, w, ids) = (c', w', ids') → cache_ok c' ids'.
Proof.
  induction ops as [|op ops IH]; intros c w ids Hlen Hc c' w' ids'.
  - by intros [= <- <- <-].
  - change (run_cache now (op :: ops) (c, w, ids)) with (run_cache now ops (run_cache_op now op (c, w, ids))).
    destruct (run_cache_op now op (c, w, ids)) as [[c1 w1] ids1] eqn:Hop.
    simpl in Hlen. destruct (run_cache_op_ok op c w ids ltac:(lia) Hc _ _ _ Hop) as [Hc1 Hl1].
    apply IH; [lia|done].
Qed.

Lemma new_cache_ok config : cache_ok (new_request_cache config) [].
Proof.
  split; simpl; try done; try apply map_Forall_empty.
  intros id. unfold held. simpl. rewrite !present_empty. lia.
Qed.

(** ** Failing for good *)

(** Failures of one request reported one after the other. *)
Definition fail_times (id : string) (errors : list string) (s : request_cache * W) : request_cache * W :=
  foldl (λ s e, let '(_, c, w) := markRequestFailed now id e s.1 s.2 in (c, w)) s errors.

Lemma fail_times_snoc id es e s : fail_times id (es ++ [e]) s =
  (let s := fail_times id es s in let '(_, c, w) := markRequestFailed now id e s.1 s.2 in (c, w)).
Proof. unfold fail_times. by rewrite foldl_snoc. Qed.

Lemma fail_times_retries id c w r es :
  active_requests_ c !! id = Some r → r_retry_count r = 0%Z → r_status r = PENDING →
  (Z.of_nat (length es) < Z.max 1 (r_max_retries r))%Z →
  ∃ r', active_requests_ (fail_times id es (c, w)).1 !! id = Some r'
    ∧ r_status r' = PENDING ∧ r_retry_count r' = Z.of_nat (length es) ∧ r_max_retries r' = r_max_retries r.
Proof.
  intros Hr H0 Hs. induction es as [|e es IH] using rev_ind; intros Hlen; [by exists r|].
  rewrite length_app in *. simpl length in *. destruct IH as (r' & Hr' & _ & Hn & Hm); [lia|].
  rewrite fail_times_snoc. cbv zeta. destruct (fail_times id es (c, w)) as [c1 w1]. simpl in Hr'.
  unfold markRequestFailed. simpl fst. simpl snd. rewrite Hr'. destruct (now w1) as [t w2]. simpl.
  destruct (Z.ltb_spec (Z.succ (r_retry_count r')) (r_max_retries r')); [|exfalso; lia].
  destruct (now w2) as [t' w3]. simpl. rewrite lookup_insert_eq. eexists; split; [done|]. simpl. split_and!; lia || done.
Qed.
End Accounting.

Section Theorems.
Context {W : Type} (now : W → Z * W).

(** C26: Whatever the sequence of operations on a new cache (fewer than 2^31,
    so that the [int] counter does not wrap), no identifier is handed out
    twice, no request is in two of the four maps, a request has the status of
    the map it is in, was handed out under its key, and a request that failed
    for good has failed exactly as often as its limit allows, at least once. *)
Theorem requests_accounted config ops w c w' ids :
  (Z.of_nat (length ops) < 2 ^ 31)%Z →
  run_cache now ops (new_request_cache config, w, []) = (c, w', ids) →
  NoDup ids ∧ (∀ id, held c id ≤ 1)
  ∧ map_Forall (λ id r, request_ok ids PENDING id r ∧ retrying r) (active_requests_ c)
  ∧ map_Forall (request_ok ids COMPLETED) (completed_requests_ c)
  ∧ map_Forall (λ id r, request_ok ids FAILED id r ∧ exhausted r) (failed_requests_ c)
  ∧ map_Forall (request_ok ids EXPIRED) (expired_requests_ c).
Proof.
  intros Hlen Hrun. assert (Hok : cache_ok c ids).
  { exact (run_cache_ok now ops (new_request_cache config) w [] Hlen (new_cache_ok config) _ _ _ Hrun). }
  split; [by eapply ids_NoDup|]. by destruct Hok.
Qed.

(** A pending request survives failures up to its limit: while fewer than
    [max 1 max_retries] failures were reported it is active and pending, and
    the failure that reaches the limit moves it to the failed requests with
    that failure's message; a further report is refused. *)
Theorem failed_after_max_retries id c w r es e :
  active_requests_ c !! id = Some r → r_retry_count r = 0%Z → r_status r = PENDING →
  Z.of_nat (S (length es)) = Z.max 1 (r_max_retries r) →
  (∃ r', active_requests_ (fail_times now id es (c, w)).1 !! id = Some r' ∧ r_status r' = PENDING)
  ∧ (∃ r', failed_requests_ (fail_times now id (es ++ [e]) (c, w)).1 !! id = Some r'
       ∧ r_status r' = FAILED ∧ r_error_message r' = e)
  ∧ (∀ e' w', (markRequestFailed now id e' (fail_times now id (es ++ [e]) (c, w)).1 w').1.1 = false).
Proof.
  intros Hr H0 Hs Hlen. destruct (fail_times_retries now id c w r es Hr H0 Hs) as (r' & Hr' & Hs' & Hn & Hm); [lia|].
  split; [by exists r'|]. rewrite fail_times_snoc. cbv zeta.
  destruct (fail_times now id es (c, w)) as [c1 w1]. simpl in Hr'.
  unfold markRequestFailed at 1 3. simpl fst. simpl snd. rewrite Hr'. destruct (now w1) as [t w2]. simpl.
  destruct (Z.ltb_spec (Z.succ (r_retry_count r')) (r_max_retries r')); [exfalso; lia|]. simpl. split.
  - eexists. rewrite lookup_insert_eq. by split_and!.
  - intros e' w'. unfold markRequestFailed. simpl. by rewrite lookup_delete_eq.
Qed.

(** A request that was completed is in the cache, [getRequestInfo] returns
    it as completed, and yet [getRequestStatus] answers that it does not
    exist: it looks in the active and the expired requests only. *)
Theorem status_forgets_completed ids id d c w r :
  cache_ok c ids → active_requests_ c !! id = Some r →
  let c' := (markRequestComplete now id d c w).1.2 in
  getRequestStatus c' id = NOT_FOUND
  ∧ r_status <$> getRequestInfo c' id = Some COMPLETED ∧ r_result_data <$> getRequestInfo c' id = Some d.
Proof.
  intros Hc Hr. destruct (held_active _ _ _ _ Hc Hr) as (_ & _ & He). unfold markRequestComplete. rewrite Hr.
  destruct (now w) as [t w1]. unfold getRequestStatus, getRequestInfo. simpl.
  rewrite lookup_delete_eq, lookup_insert_eq. unfold present in He.
  by destruct (expired_requests_ c !! id).
Qed.
End Theorems.

(** ** Witnesses *)

Definition cache_clock (n : nat) : Z * nat := (Z.of_nat n * 1000000, S n)%Z.
Definition cache_sample_config : CacheConfig := mk_CacheConfig 30000 3 60000.
Definition cache_sample_ops : list cache_op :=
  [CAdd "get_peers" "aa" ∅; CAdd "find_node" "bb" ∅; CFail "REQ_0_0" "timeout"; CMonitor;
   CComplete "REQ_2_1" "nodes"].
Definition cache_sample : request_cache * nat * list string :=
  run_cache cache_clock cache_sample_ops (new_request_cache cache_sample_config, 0, []).

Lemma requests_accounted_witness :
  cache_sample.2 = ["REQ_0_0"; "REQ_2_1"] ∧ NoDup cache_sample.2 ∧ held cache_sample.1.1 "REQ_0_0" = 1
  ∧ (∀ id, held cache_sample.1.1 id ≤ 1).
Proof.
  split; [vm_compute; reflexivity|].
  assert (Hlen : (Z.of_nat (length cache_sample_ops) < 2 ^ 31)%Z) by (vm_compute; reflexivity).
  assert (Hrun : run_cache cache_clock cache_sample_ops (new_request_cache cache_sample_config, 0, [])
                 = (cache_sample.1.1, cache_sample.1.2, cache_sample.2)) by (vm_compute; reflexivity).
  destruct (requests_accounted cache_clock _ _ _ _ _ _ Hlen Hrun) as (Hnd & Hheld & _).
  split; [exact Hnd|]. split; [vm_compute; reflexivity|exact Hheld].
Defined.

Definition cache_one : request_cache * nat * list string :=
  run_cache cache_clock [CAdd "get_peers" "aa" ∅] (new_request_cache cache_sample_config, 0, []).
Definition cache_one_request : RequestInfo :=
  mk_RequestInfo "REQ_0_0" "get_peers" "aa" ∅ PENDING 1000000 30001000000 0 0 0 3 "" "".

Lemma cache_one_active : active_requests_ cache_one.1.1 !! "REQ_0_0" = Some cache_one_request.
Proof. vm_compute. reflexivity. Qed.

Lemma cache_one_ok : cache_ok cache_one.1.1 ["REQ_0_0"].
Proof.
  apply (run_cache_ok cache_clock [CAdd "get_peers" "aa" ∅] (new_request_cache cache_sample_config) 0 []) with (w' := cache_one.1.2);
    [vm_compute; reflexivity|apply new_cache_ok|vm_compute; reflexivity].
Qed.

Lemma failed_after_max_retries_witness :
  ∃ r', failed_requests_ (fail_times cache_clock "REQ_0_0" ["a"; "b"; "c"] (cache_one.1.1, 5)).1 !! "REQ_0_0" = Some r'
    ∧ r_status r' = FAILED ∧ r_error_message r' = "c".
Proof.
  exact (proj1 (proj2 (failed_after_max_retries cache_clock "REQ_0_0" cache_one.1.1 5 cache_one_request
    ["a"; "b"] "c" cache_one_active eq_refl eq_refl eq_refl))).
Defined.

Lemma status_forgets_completed_witness :
  getRequestStatus (markRequestComplete cache_clock "REQ_0_0" "data" cache_one.1.1 5).1.2 "REQ_0_0" = NOT_FOUND.
Proof.
  exact (proj1 (status_forgets_completed cache_clock ["REQ_0_0"] "REQ_0_0" "data" cache_one.1.1 5 cache_one_request
    cache_one_ok cache_one_active)).
Defined.
