(* ===== verification/Timeouts.v ===== *)
(** * The timeout manager

    Models [TimeoutManager] as [src/src/timeout_manager.cpp] defines it: named
    timeouts with a callback, a pass that fires the expired ones and moves
    them to a second map, and a clean-up of that map.  The structures are
    those the source file uses; the header of the same name declares others.
    A callback is a function of the world: the pass runs it while it holds the
    mutex, so a callback that calls the manager would lock a non-recursive
    mutex twice and is outside the model. *)

From S2P Require Import Prelude Numeric Registry.

(** The values the source file assigns. *)
Inductive TimeoutStatus := ACTIVE | CANCELLED.
#[export] Instance TimeoutStatus_eq_dec : EqDecision TimeoutStatus.
Proof. solve_decision. Defined.

Section Timeouts.
Context {W : Type} (now : W → Z * W).

(** Durations are in milliseconds, points in time in nanoseconds; an empty
    [std::function] is [None]. *)
Record TimeoutInfo := mk_TimeoutInfo {
  ti_id : string;
  ti_duration : Z;
  ti_expires_at : Z;
  ti_callback : option (string → W → W);
  ti_created_at : Z;
  ti_status : TimeoutStatus;
}.
#[export] Instance eta_TimeoutInfo : Eta TimeoutInfo :=
  λ r, mk_TimeoutInfo (ti_id r) (ti_duration r) (ti_expires_at r) (ti_callback r) (ti_created_at r) (ti_status r).

Record timeout_manager := mk_timeout_manager {
  timeout_cleanup_interval : Z;
  active_timeouts_ : gmap string TimeoutInfo;
  expired_timeouts_ : gmap string TimeoutInfo;
}.
#[export] Instance eta_timeout_manager : Eta timeout_manager :=
  λ r, mk_timeout_manager (timeout_cleanup_interval r) (active_timeouts_ r) (expired_timeouts_ r).

Definition new_timeout_manager (interval : Z) : timeout_manager := mk_timeout_manager interval ∅ ∅.

Implicit Types (m : timeout_manager) (w : W) (id : string).

Definition due (t : Z) (p : string * TimeoutInfo) : Prop := (ti_expires_at p.2 ≤ t)%Z.
#[export] Instance due_dec t p : Decision (due t p).
Proof. unfold due. apply _. Defined.

(** The identifiers the pass at time [t] fires, in the order of the map. *)
Definition due_timeouts (t : Z) m : list (string * TimeoutInfo) := map_iter (filter (due t) (active_timeouts_ m)).

Definition fire (w : W) (p : string * TimeoutInfo) : W :=
  match ti_callback p.2 with Some callback => callback p.1 w | None => w end.

Definition checkExpiredTimeouts m w : timeout_manager * W :=
  let '(t, w) := now w in
  (m <| expired_timeouts_ ::= swept (due t) id (active_timeouts_ m) |> <| active_timeouts_ ::= unswept (due t) |>,
   foldl fire w (due_timeouts t m)).

Definition cleanupExpiredTimeouts m w : timeout_manager * W :=
  let '(t, w) := now w in
  (m <| expired_timeouts_ ::=
       filter (λ p, ¬ (milliseconds (timeout_cleanup_interval m) < t - ti_expires_at p.2)%Z) |>, w).

(** One round of [timeoutMonitorLoop] that is not stopped. *)
Definition timeout_monitor_round m w : timeout_manager * W :=
  let '(m, w) := checkExpiredTimeouts m w in cleanupExpiredTimeouts m w.

Definition startTimeout id (duration : Z) (callback : option (string → W → W)) m w : string * timeout_manager * W :=
  let '(t, w) := now w in
  let info := mk_TimeoutInfo id duration (t + milliseconds duration) callback t ACTIVE in
  (id, m <| active_timeouts_ ::= <[id := info]> |>, w).

(** The status assigned to the entry is lost with it. *)
Definition stopTimeout id m : bool * timeout_manager :=
  match active_timeouts_ m !! id with
  | Some _ => (true, m <| active_timeouts_ ::= delete id |>)
  | None => (false, m)
  end.

Definition checkTimeout id m w : bool * W :=
  match active_timeouts_ m !! id with
  | Some info => let '(t, w) := now w in (bool_decide (ti_expires_at info ≤ t)%Z, w)
  | None => (false, w)
  end.

Definition resetTimeout id (new_duration : Z) m w : bool * timeout_manager * W :=
  match active_timeouts_ m !! id with
  | Some info =>
    let '(t, w) := now w in
    let info := info <| ti_duration := new_duration |> <| ti_expires_at := (t + milliseconds new_duration)%Z |> in
    (true, m <| active_timeouts_ ::= <[id := info]> |>, w)
  | None => (false, m, w)
  end.

Definition getRemainingTime id m w : Z * W :=
  match active_timeouts_ m !! id with
  | Some info => let '(t, w) := now w in (duration_cast_ms (ti_expires_at info - t), w)
  | None => (0%Z, w)
  end.

Definition isTimedOut id m w : bool * W :=
  match active_timeouts_ m !! id with
  | Some info => let '(t, w) := now w in (bool_decide (ti_expires_at info ≤ t)%Z, w)
  | None => (false, w)
  end.

(** [None] is the empty record. *)
Definition getTimeoutInfo id m : option TimeoutInfo :=
  match active_timeouts_ m !! id with Some info => Some info | None => expired_timeouts_ m !! id end.

Definition getActiveTimeoutIds m : list string := (map_iter (active_timeouts_ m)).*1.
Definition getExpiredTimeoutIds m : list string := (map_iter (expired_timeouts_ m)).*1.
Definition getActiveTimeoutCount m : Z := int_of_Z (Z.of_nat (size (active_timeouts_ m))).
Definition getExpiredTimeoutCount m : Z := int_of_Z (Z.of_nat (size (expired_timeouts_ m))).
Definition getTotalTimeoutCount m : Z :=
  int_of_Z (Z.of_nat (size (active_timeouts_ m) + size (expired_timeouts_ m))).
Definition clearExpiredTimeouts m : timeout_manager := m <| expired_timeouts_ := ∅ |>.
Definition clearAllTimeouts m : timeout_manager := m <| active_timeouts_ := ∅ |> <| expired_timeouts_ := ∅ |>.
Definition updateConfig (interval : Z) m : timeout_manager := m <| timeout_cleanup_interval := interval |>.

(** ** Runs

    What the passes do with a callback shows in the world.  [starts] counts the
    calls of [startTimeout] for an identifier. *)
Inductive timeout_op :=
  | TStart id (duration : Z) (callback : option (string → W → W))
  | TStop id
  | TReset id (duration : Z)
  | TCheck
  | TCleanup
  | TClearExpired
  | TClearAll
  | TConfig (interval : Z).

Definition run_timeout_op (op : timeout_op) (s : timeout_manager * W) : timeout_manager * W :=
  let '(m, w) := s in
  match op with
  | TStart id d cb => let '(_, m, w) := startTimeout id d cb m w in (m, w)
  | TStop id => ((stopTimeout id m).2, w)
  | TReset id d => let '(_, m, w) := resetTimeout id d m w in (m, w)
  | TCheck => checkExpiredTimeouts m w
  | TCleanup => cleanupExpiredTimeouts m w
  | TClearExpired => (clearExpiredTimeouts m, w)
  | TClearAll => (clearAllTimeouts m, w)
  | TConfig interval => (updateConfig interval m, w)
  end.

Definition run_timeouts (ops : list timeout_op) (s : timeout_manager * W) : timeout_manager * W :=
  foldl (λ s op, run_timeout_op op s) s ops.

Definition started (id : string) (op : timeout_op) : nat :=
  match op with TStart id' _ _ => if decide (id' = id) then 1 else 0 | _ => 0 end.
Definition starts (id : string) (ops : list timeout_op) : nat := sum_list (started id <$> ops).
End Timeouts.
Arguments TimeoutInfo : clear implicits.
Arguments timeout_manager : clear implicits.
Arguments timeout_op : clear implicits.

(** ** Firing *)

Definition fires (id : string) (fired : list string) : nat := length (filter (λ x, x = id) fired).

Lemma fires_app id l1 l2 : fires id (l1 ++ l2) = fires id l1 + fires id l2.
Proof. unfold fires. by rewrite filter_app, length_app. Qed.

Lemma fires_NoDup id l : NoDup l → fires id l = if decide (id ∈ l) then 1 else 0.
Proof.
  unfold fires. induction 1 as [|x l Hx Hl IH]; [done|]. rewrite filter_cons.
  destruct (decide (x = id)) as [->|Hne]; simpl.
  - rewrite IH, (decide_False (P := id ∈ l)) by done. rewrite decide_True; [done|]. by left.
  - rewrite IH. repeat case_decide; set_solver.
Qed.

Section Facts.
Context {W : Type} (now : W → Z * W).
Implicit Types (m : timeout_manager W) (w : W) (id : string).

Lemma elem_of_due t m id : id ∈ (due_timeouts t m).*1 ↔
  ∃ info, active_timeouts_ m !! id = Some info ∧ (ti_expires_at info ≤ t)%Z.
Proof.
  rewrite list_elem_of_fmap. unfold due_timeouts. split.
  - intros ([? info] & -> & Hin). apply elem_of_map_iter, map_lookup_filter_Some in Hin. by exists info.
  - intros (info & Hl & Ht). exists (id, info). split; [done|]. by apply elem_of_map_iter, map_lookup_filter_Some.
Qed.

Lemma fires_due t m id : fires id (due_timeouts t m).*1 = present (filter (due t) (active_timeouts_ m)) id.
Proof.
  rewrite fires_NoDup by apply NoDup_map_iter. unfold present. case_decide as Hin.
  - apply elem_of_due in Hin as (info & Hl & Ht). by rewrite (proj2 (map_lookup_filter_Some _ _ _ _) (conj Hl Ht)).
  - destruct (filter _ _ !! id) as [info|] eqn:Hl; [|done]. exfalso. apply Hin, elem_of_due.
    apply map_lookup_filter_Some in Hl. by exists info.
Qed.

(** *** Callbacks that count their calls

    [calls id w] is the number of calls, with the name [id], of callbacks that
    had been made by the time the world was [w]: a callback counts its call,
    and may do anything else to the world.  The clock is no callback. *)
Section Calls.
Context (calls : string → W → nat) (calls_now : ∀ id w, calls id (now w).2 = calls id w).

Definition counting (callback : option (string → W → W)) : Prop :=
  match callback with
  | Some f => ∀ id' id w, calls id (f id' w) = calls id w + if decide (id' = id) then 1 else 0
  | None => True
  end.
Definition op_counting (op : timeout_op W) : Prop :=
  match op with TStart _ _ callback => counting callback | _ => True end.
Definition entries_counting m : Prop := map_Forall (λ _ info, counting (ti_callback info)) (active_timeouts_ m).

Lemma calls_fired id l w : Forall (λ p, counting (ti_callback p.2)) l → calls id (foldl fire w l) ≤ calls id w + fires id l.*1.
Proof.
  intros Hl. revert w. induction Hl as [|[id' info] l Hp _ IH]; intros w; [simpl; lia|]. cbn [foldl]. etrans; [apply IH|].
  unfold fire. cbn [fst snd] in *. change ((id', info) :: l).*1 with ([id'] ++ l.*1). rewrite fires_app.
  unfold counting in Hp. destruct (ti_callback info) as [f|]; [rewrite Hp|lia].
  unfold fires. rewrite filter_cons, filter_nil. repeat case_decide; simpl; lia.
Qed.

Lemma run_timeout_op_calls op m w id : op_counting op → entries_counting m →
  let '(m', w') := run_timeout_op now op (m, w) in
  entries_counting m'
  ∧ calls id w' + present (active_timeouts_ m') id ≤ calls id w + present (active_timeouts_ m) id + started id op.
Proof.
  intros Hop Hm. destruct op as [id0 d cb|id0|id0 d| | | | |i]; simpl.
  - unfold startTimeout. pose proof (calls_now id w) as Hw. destruct (now w) as [t w1]. simpl in *.
    split; [by apply map_Forall_insert_2|]. rewrite present_insert. repeat case_decide; try congruence; lia.
  - unfold stopTimeout. destruct (active_timeouts_ m !! id0); simpl; [|split; [done|lia]].
    split; [by apply map_Forall_delete|]. rewrite present_delete. case_decide; lia.
  - unfold resetTimeout. destruct (active_timeouts_ m !! id0) as [info|] eqn:Hl; [|split; [done|lia]].
    pose proof (calls_now id w) as Hw. destruct (now w) as [t w1]. simpl in *.
    split; [apply map_Forall_insert_2; [exact (Hm _ _ Hl)|done]|]. rewrite present_insert.
    case_decide; [|lia]. subst. rewrite (present_Some _ _ _ Hl). lia.
  - unfold checkExpiredTimeouts. pose proof (calls_now id w) as Hw. destruct (now w) as [t w1]. simpl in *. split.
    + intros id' info. simpl. intros [Hl _]%unswept_Some. exact (Hm _ _ Hl).
    + pose proof (calls_fired id (due_timeouts t m) w1) as Hc. rewrite fires_due in Hc.
      pose proof (present_filter (due t) (active_timeouts_ m) id). unfold unswept.
      enough (calls id (foldl fire w1 (due_timeouts t m)) ≤ calls id w1 + present (filter (due t) (active_timeouts_ m)) id) by lia.
      apply Hc, Forall_forall. intros [id' info] [Hl _]%elem_of_map_iter%map_lookup_filter_Some. exact (Hm _ _ Hl).
  - unfold cleanupExpiredTimeouts. pose proof (calls_now id w) as Hw. destruct (now w) as [t w1]. simpl in *. split; [done|lia].
  - split; [done|lia].
  - split; [apply map_Forall_empty|]. rewrite present_empty. lia.
  - split; [done|lia].
Qed.

Lemma run_timeouts_calls ops m w id : Forall op_counting ops → entries_counting m →
  let '(m', w') := run_timeouts now ops (m, w) in
  calls id w' + present (active_timeouts_ m') id ≤ calls id w + present (active_timeouts_ m) id + starts id ops.
Proof.
  intros Hops. revert m w. induction Hops as [|op ops Hop _ IH]; intros m w Hm; [simpl; lia|].
  change (run_timeouts now (op :: ops) (m, w)) with (run_timeouts now ops (run_timeout_op now op (m, w))).
  pose proof (run_timeout_op_calls op m w id Hop Hm) as Hstep. destruct (run_timeout_op now op (m, w)) as [m1 w1].
  destruct Hstep as [Hm1 Hstep]. specialize (IH m1 w1 Hm1). destruct (run_timeouts now ops (m1, w1)) as [m2 w2].
  assert (starts id (op :: ops) = started id op + starts id ops) as -> by done. lia.
Qed.

(** C27: Whatever the sequence of operations on a new manager, the callback of
    a timeout is called at most once for every time the timeout was started;
    a timeout that is still active accounts for one of its starts.  The calls
    are those the callbacks themselves count. *)
Theorem timeouts_fire_once interval ops w id :
  Forall op_counting ops →
  let '(m, w') := run_timeouts now ops (new_timeout_manager interval, w) in
  calls id w' + present (active_timeouts_ m) id ≤ calls id w + starts id ops.
Proof.
  intros Hops. pose proof (run_timeouts_calls ops (new_timeout_manager interval) w id Hops) as Hrun.
  destruct (run_timeouts now ops (new_timeout_manager interval, w)) as [m w']. simpl in Hrun. rewrite present_empty in Hrun.
  specialize (Hrun ltac:(apply map_Forall_empty)). lia.
Qed.
End Calls.

Lemma check_active m w t w1 id info : now w = (t, w1) →
  active_timeouts_ (checkExpiredTimeouts now m w).1 !! id = Some info ↔
  active_timeouts_ m !! id = Some info ∧ (t < ti_expires_at info)%Z.
Proof.
  intros Hnow. unfold checkExpiredTimeouts. rewrite Hnow. simpl. rewrite unswept_Some.
  unfold due. simpl. by rewrite Z.nle_gt.
Qed.

Lemma check_expired m w t w1 id info : now w = (t, w1) →
  active_timeouts_ m !! id = Some info → (ti_expires_at info ≤ t)%Z →
  expired_timeouts_ (checkExpiredTimeouts now m w).1 !! id = Some info.
Proof.
  intros Hnow Hl Ht. unfold checkExpiredTimeouts. rewrite Hnow. simpl. apply swept_Some. left. by exists info.
Qed.

(** A pass at time [t] runs the callbacks of exactly the timeouts whose
    deadline is not after [t], each once and in the order of their names,
    leaves exactly the others active, and moves those that fired to the expired
    ones. *)
Theorem check_fires_due m w t w1 : now w = (t, w1) →
  let m' := (checkExpiredTimeouts now m w).1 in
  (checkExpiredTimeouts now m w).2 = foldl fire w1 (due_timeouts t m)
  ∧ NoDup (due_timeouts t m).*1 ∧ StronglySorted key_le (due_timeouts t m)
  ∧ (∀ id, id ∈ (due_timeouts t m).*1 ↔
       ∃ info, active_timeouts_ m !! id = Some info ∧ (ti_expires_at info ≤ t)%Z)
  ∧ (∀ id info, active_timeouts_ m' !! id = Some info ↔
       active_timeouts_ m !! id = Some info ∧ (t < ti_expires_at info)%Z)
  ∧ (∀ id info, active_timeouts_ m !! id = Some info → (ti_expires_at info ≤ t)%Z →
       expired_timeouts_ m' !! id = Some info).
Proof.
  intros Hnow. cbv zeta. split_and!.
  - unfold checkExpiredTimeouts. by rewrite Hnow.
  - apply NoDup_map_iter.
  - apply Sorted_map_iter.
  - intros id. apply elem_of_due.
  - intros id info. by eapply check_active.
  - intros id info. by eapply check_expired.
Qed.

(** A timeout that has run out is reported as timed out only until the
    monitor's next pass: afterwards [isTimedOut] and [checkTimeout] answer
    [false] at any time, no time remains, and the record that is left says
    that the timeout is active. *)
Theorem expired_timeout_forgotten m w t w1 id info :
  now w = (t, w1) → active_timeouts_ m !! id = Some info → (ti_expires_at info ≤ t)%Z → ti_status info = ACTIVE →
  let m' := (checkExpiredTimeouts now m w).1 in
  (isTimedOut now id m w).1 = true
  ∧ (∀ w', (isTimedOut now id m' w').1 = false ∧ (checkTimeout now id m' w').1 = false
           ∧ (getRemainingTime now id m' w').1 = 0%Z)
  ∧ ti_status <$> getTimeoutInfo id m' = Some ACTIVE.
Proof.
  intros Hnow Hl Ht Hs.
  assert (Hno : active_timeouts_ (checkExpiredTimeouts now m w).1 !! id = None).
  { destruct (active_timeouts_ (checkExpiredTimeouts now m w).1 !! id) as [i|] eqn:Hi; [|done]. apply (check_active _ _ _ _ _ _ Hnow) in Hi as [Hi ?]. rewrite Hl in Hi. injection Hi as <-. lia. }
  cbv zeta. split; [|split].
  - unfold isTimedOut. rewrite Hl, Hnow. simpl. by rewrite bool_decide_true.
  - intros w'. unfold isTimedOut, checkTimeout, getRemainingTime. by rewrite Hno.
  - unfold getTimeoutInfo. rewrite Hno, (check_expired _ _ _ _ _ _ Hnow Hl Ht). simpl. by rewrite Hs.
Qed.
End Facts.

(** ** Witnesses: a world with a clock and a log the callbacks write *)

Definition timeout_world : Type := nat * list string.
Definition timeout_clock (w : timeout_world) : Z * timeout_world := ((Z.of_nat w.1 * 1000000)%Z, (S w.1, w.2)).
Definition log_callback (id : string) (w : timeout_world) : timeout_world := (w.1, w.2 ++ [id]).
Definition timeout_sample_ops : list (timeout_op timeout_world) :=
  [TStart "b" 3 (Some log_callback); TStart "a" 1 (Some log_callback); TStart "c" 100 None; TCheck; TCheck; TCheck].
Definition timeout_sample : timeout_manager timeout_world * timeout_world :=
  run_timeouts timeout_clock timeout_sample_ops (new_timeout_manager 1000, (0, [])).

(** The callbacks of [a] and [b] ran once, [c] is still active. *)
Lemma timeouts_fire_once_witness :
  timeout_sample.2.2 = ["a"; "b"] ∧ is_Some (active_timeouts_ timeout_sample.1 !! "c")
  ∧ ∀ id, fires id timeout_sample.2.2 + present (active_timeouts_ timeout_sample.1) id ≤ starts id timeout_sample_ops.
Proof.
  split; [vm_compute; reflexivity|]. split; [vm_compute; eauto|]. intros id.
  refine (timeouts_fire_once timeout_clock (λ id w, fires id w.2) (λ _ _, eq_refl) 1000 timeout_sample_ops (0, []) id _).
  repeat constructor; intros id' id0 w; cbn [log_callback snd]; rewrite fires_app; unfold fires at 2;
    rewrite filter_cons, filter_nil; by case_decide.
Defined.

Definition timeout_one : timeout_manager timeout_world :=
  (startTimeout timeout_clock "x" 5 (Some log_callback) (new_timeout_manager 1000) (0, [])).1.2.
Definition timeout_one_info : TimeoutInfo timeout_world := mk_TimeoutInfo "x" 5 5000000 (Some log_callback) 0 ACTIVE.

Lemma timeout_one_active : active_timeouts_ timeout_one !! "x" = Some timeout_one_info.
Proof. reflexivity. Qed.

Lemma check_fires_due_witness :
  (checkExpiredTimeouts timeout_clock timeout_one (9, [])).2 = (10, ["x"])
  ∧ expired_timeouts_ (checkExpiredTimeouts timeout_clock timeout_one (9, [])).1 !! "x" = Some timeout_one_info.
Proof.
  destruct (check_fires_due timeout_clock timeout_one (9, []) 9000000 (10, []) eq_refl) as (Hw & _ & _ & _ & _ & He).
  split; [rewrite Hw; vm_compute; reflexivity|]. apply (He "x" timeout_one_info timeout_one_active).
  vm_compute. discriminate.
Defined.

Lemma expired_timeout_forgotten_witness :
  (isTimedOut timeout_clock "x" timeout_one (9, [])).1 = true
  ∧ (isTimedOut timeout_clock "x" (checkExpiredTimeouts timeout_clock timeout_one (9, [])).1 (30, [])).1 = false.
Proof.
  assert (Ht : (ti_expires_at timeout_one_info ≤ 9000000)%Z) by (vm_compute; discriminate).
  destruct (expired_timeout_forgotten timeout_clock timeout_one (9, []) 9000000 (10, []) "x" timeout_one_info
    eq_refl timeout_one_active Ht eq_refl) as (H1 & H2 & _).
  split; [exact H1|exact (proj1 (H2 (30, [])))].
Defined.
