(* ===== verification/Tokens.v ===== *)
(** * The DHT token manager

    Models [DHTTokenManager] as [src/src/dht_token_manager.cpp] defines it:
    tokens handed to nodes, validated until they expire, and swept by
    [cleanupExpiredTokens].  The structures are those the source file uses;
    the header of the same name declares others.  The HMAC of OpenSSL, the
    random number generator and the wall clock are parameters. *)

From S2P Require Import Prelude HashFormat Registry.

(** [secret_key] is a string, the rest milliseconds. *)
Record TokenConfig := mk_TokenConfig {
  secret_key : string;
  token_lifetime : Z;
  token_cleanup_interval : Z;
}.

Record TokenInfo := mk_TokenInfo {
  tk_token : string;
  tk_node_id : string;
  tk_transaction_id : string;
  tk_created_at : Z;
  tk_expires_at : Z;
  tk_salt : string;
  tk_usage_count : Z;
}.
#[export] Instance eta_TokenInfo : Eta TokenInfo :=
  λ r, mk_TokenInfo (tk_token r) (tk_node_id r) (tk_transaction_id r) (tk_created_at r) (tk_expires_at r)
         (tk_salt r) (tk_usage_count r).

Record token_manager := mk_token_manager {
  tk_config : TokenConfig;
  active_tokens_ : gmap string TokenInfo;
  expired_tokens_ : gmap string TokenInfo;
}.
#[export] Instance eta_token_manager : Eta token_manager :=
  λ r, mk_token_manager (tk_config r) (active_tokens_ r) (expired_tokens_ r).

Definition new_token_manager (config : TokenConfig) : token_manager := mk_token_manager config ∅ ∅.

Section Tokens.
(** [hmac key data] is [HMAC(EVP_sha1(), key, data)]; [time] is [std::time];
    [draw] is one draw of a number between 0 and 255 from [rng_]. *)
Context {W : Type} (now : W → Z * W) (time : W → Z * W) (draw : W → ascii * W).
Context (hmac : string → string → list ascii).
Implicit Types (m : token_manager) (w : W) (token node_id : string).

Fixpoint draws (n : nat) w : list ascii * W :=
  match n with
  | O => ([], w)
  | S n => let '(c, w) := draw w in let '(cs, w) := draws n w in (c :: cs, w)
  end.

Definition generateRandomSalt w : string * W := let '(cs, w) := draws 16 w in (of_chars cs, w).

(** The second argument is not used. *)
Definition createHMACToken (config : TokenConfig) (data salt : string) : string :=
  of_chars (mjoin (hex_byte <$> hmac (secret_key config) data)).

Definition token_data node_id (transaction_id : string) (seconds : Z) : string :=
  node_id +:+ transaction_id +:+ to_string seconds.

Definition generateToken node_id (transaction_id : string) m w : string * token_manager * W :=
  let '(s, w) := time w in
  let '(salt, w) := generateRandomSalt w in
  let token := createHMACToken (tk_config m) (token_data node_id transaction_id s) salt in
  let '(t, w) := now w in
  let info := mk_TokenInfo token node_id transaction_id t (t + milliseconds (token_lifetime (tk_config m))) salt 0 in
  (token, m <| active_tokens_ ::= <[token := info]> |>, w).

Definition validateToken token node_id m w : bool * token_manager * W :=
  match active_tokens_ m !! token with
  | None => (false, m, w)
  | Some info =>
    let '(t, w) := now w in
    if (tk_expires_at info <? t)%Z then
      (false, m <| expired_tokens_ ::= <[token := info]> |> <| active_tokens_ ::= delete token |>, w)
    else if decide (tk_node_id info = node_id) then
      (true, m <| active_tokens_ ::= <[token := info <| tk_usage_count ::= Z.succ |>]> |>, w)
    else (false, m, w)
  end.

Definition refreshToken token m w : bool * token_manager * W :=
  match active_tokens_ m !! token with
  | None => (false, m, w)
  | Some info =>
    let '(t, w) := now w in
    (true, m <| active_tokens_ ::=
       <[token := info <| tk_expires_at := (t + milliseconds (token_lifetime (tk_config m)))%Z |>]> |>, w)
  end.

Definition isTokenExpired token m w : bool * W :=
  match active_tokens_ m !! token with
  | None => (bool_decide (is_Some (expired_tokens_ m !! token)), w)
  | Some info => let '(t, w) := now w in ((tk_expires_at info <? t)%Z, w)
  end.

(** [None] is the empty record. *)
Definition getTokenInfo token m : option TokenInfo :=
  match active_tokens_ m !! token with Some info => Some info | None => expired_tokens_ m !! token end.

Definition getActiveTokens m : list string := (map_iter (active_tokens_ m)).*1.
Definition getExpiredTokens m : list string := (map_iter (expired_tokens_ m)).*1.
Definition getActiveTokenCount m : Z := int_of_Z (Z.of_nat (size (active_tokens_ m))).
Definition getExpiredTokenCount m : Z := int_of_Z (Z.of_nat (size (expired_tokens_ m))).
Definition getTotalTokenCount m : Z := int_of_Z (Z.of_nat (size (active_tokens_ m) + size (expired_tokens_ m))).

Definition token_due (t : Z) (p : string * TokenInfo) : Prop := (tk_expires_at p.2 < t)%Z.
#[export] Instance token_due_dec t p : Decision (token_due t p).
Proof. unfold token_due. apply _. Defined.

(** One reading of the clock serves both loops. *)
Definition cleanupExpiredTokens m w : token_manager * W :=
  let '(t, w) := now w in
  (m <| expired_tokens_ ::= λ e,
          filter (λ p, ¬ (milliseconds (token_cleanup_interval (tk_config m)) < t - tk_expires_at p.2)%Z)
            (swept (token_due t) id (active_tokens_ m) e) |>
     <| active_tokens_ ::= unswept (token_due t) |>, w).

Definition clearAllTokens m : token_manager := m <| active_tokens_ := ∅ |> <| expired_tokens_ := ∅ |>.
Definition updateConfig (config : TokenConfig) m : token_manager := m <| tk_config := config |>.

(** ** Runs; [issued] has the tokens handed out and their nodes *)

Inductive token_op :=
  | TkGenerate (node_id transaction_id : string)
  | TkValidate (token node_id : string)
  | TkRefresh (token : string)
  | TkCleanup
  | TkClear
  | TkConfig (config : TokenConfig).

Definition run_token_op (op : token_op) (s : token_manager * W * list (string * string))
    : token_manager * W * list (string * string) :=
  let '(m, w, issued) := s in
  match op with
  | TkGenerate node tx => let '(token, m, w) := generateToken node tx m w in (m, w, issued ++ [(token, node)])
  | TkValidate token node => let '(_, m, w) := validateToken token node m w in (m, w, issued)
  | TkRefresh token => let '(_, m, w) := refreshToken token m w in (m, w, issued)
  | TkCleanup => let '(m, w) := cleanupExpiredTokens m w in (m, w, issued)
  | TkClear => (clearAllTokens m, w, issued)
  | TkConfig config => (updateConfig config m, w, issued)
  end.

Definition run_tokens (ops : list token_op) (s : token_manager * W * list (string * string))
    : token_manager * W * list (string * string) := foldl (λ s op, run_token_op op s) s ops.

(** ** Facts *)

Definition token_ok (issued : list (string * string)) (token : string) (info : TokenInfo) : Prop :=
  tk_token info = token ∧ (token, tk_node_id info) ∈ issued ∧ (0 ≤ tk_usage_count info)%Z.

Record tokens_ok (issued : list (string * string)) (m : token_manager) : Prop := {
  to_active : map_Forall (token_ok issued) (active_tokens_ m);
  to_expired : map_Forall (token_ok issued) (expired_tokens_ m);
}.

Lemma token_ok_mono issued x token info : token_ok issued token info → token_ok (issued ++ [x]) token info.
Proof. intros (? & ? & ?). split_and!; [done| |done]. apply elem_of_app. by left. Qed.

Lemma run_token_op_ok op m w issued : tokens_ok issued m →
  ∀ m' w' issued', run_token_op op (m, w, issued) = (m', w', issued') → tokens_ok issued' m'.
Proof.
  intros [Ha He] m' w' issued'. destruct op as [node tx|token node|token| | |config]; simpl.
  - unfold generateToken. destruct (time w) as [s w1], (generateRandomSalt w1) as [salt w2], (now w2) as [t w3].
    intros [= <- _ <-]. split; simpl.
    + apply map_Forall_insert_2.
      * split_and!; [done| |done]. apply elem_of_app. right. simpl. by left.
      * eapply map_Forall_impl; [exact Ha|]. intros. by apply token_ok_mono.
    + eapply map_Forall_impl; [exact He|]. intros. by apply token_ok_mono.
  - unfold validateToken. destruct (active_tokens_ m !! token) as [info|] eqn:Hl; [|by intros [= <- _ <-]].
    destruct (Ha _ _ Hl) as (? & ? & ?). destruct (now w) as [t w1]. destruct (tk_expires_at info <? t)%Z; [|case_decide]; intros [= <- _ <-].
    + split; simpl; [by apply map_Forall_delete|]. by apply map_Forall_insert_2.
    + split; simpl; [|done]. apply map_Forall_insert_2; [|done]. split_and!; [done|done|simpl; lia].
    + done.
  - unfold refreshToken. destruct (active_tokens_ m !! token) as [info|] eqn:Hl; [|by intros [= <- _ <-]].
    destruct (Ha _ _ Hl) as (? & ? & ?). destruct (now w) as [t w1]. intros [= <- _ <-].
    split; simpl; [|done]. apply map_Forall_insert_2; [|done]. by split_and!.
  - unfold cleanupExpiredTokens. destruct (now w) as [t w1]. intros [= <- _ <-]. split; simpl.
    + by apply unswept_Forall.
    + apply filter_Forall. by eapply swept_Forall.
  - intros [= <- _ <-]. split; apply map_Forall_empty.
  - by intros [= <- _ <-].
Qed.

Lemma run_tokens_ok ops : ∀ m w issued, tokens_ok issued m →
  ∀ m' w' issued', run_tokens ops (m, w, issued) = (m', w', issued') → tokens_ok issued' m'.
Proof.
  induction ops as [|op ops IH]; intros m w issued Hm m' w' issued'; [by intros [= <- _ <-]|].
  change (run_tokens (op :: ops) (m, w, issued)) with (run_tokens ops (run_token_op op (m, w, issued))).
  destruct (run_token_op op (m, w, issued)) as [[m1 w1] issued1] eqn:Hop. apply IH. by eapply run_token_op_ok.
Qed.

(** What [validateToken] answers, in terms of the entry. *)
Lemma validate_spec token node_id m w info t w1 : active_tokens_ m !! token = Some info → now w = (t, w1) →
  (validateToken token node_id m w).1.1 = bool_decide ((t ≤ tk_expires_at info)%Z ∧ tk_node_id info = node_id).
Proof using Type.
  intros Hl Hnow. unfold validateToken. rewrite Hl, Hnow.
  destruct (Z.ltb_spec (tk_expires_at info) t); [|case_decide]; simpl; symmetry.
  - apply bool_decide_false. intros [? _]. lia.
  - by apply bool_decide_true.
  - apply bool_decide_false. by intros [_ ?].
Qed.
End Tokens.

Section Theorems.
Context {W : Type} (now : W → Z * W) (time : W → Z * W) (draw : W → ascii * W).
Context (hmac : string → string → list ascii).

(** C28: In every run, a token is accepted for a node only if the manager
    handed that token to that very node, and every token on record was handed
    out to the node it names. *)
Theorem accepted_tokens_issued config ops w m w' issued token node_id :
  run_tokens now time draw hmac ops (new_token_manager config, w, []) = (m, w', issued) →
  (validateToken now token node_id m w').1.1 = true → (token, node_id) ∈ issued.
Proof.
  intros Hrun Hv. assert (Hok : tokens_ok issued m).
  { eapply run_tokens_ok; [|exact Hrun]. split; apply map_Forall_empty. }
  destruct (active_tokens_ m !! token) as [info|] eqn:Hl.
  - destruct (now w') as [t w1] eqn:Hnow. rewrite (validate_spec _ _ _ _ _ _ _ _ Hl Hnow) in Hv.
    apply bool_decide_eq_true in Hv as [_ <-]. by apply (to_active _ _ Hok _ _ Hl).
  - unfold validateToken in Hv. by rewrite Hl in Hv.
Qed.

(** A fresh token is accepted for its own node exactly until its lifetime
    is over, and for no other node; once it was presented too late it is
    refused whatever the clock says. *)
Theorem generated_token_valid node tx m w token m' w' :
  generateToken now time draw hmac node tx m w = (token, m', w') →
  ∃ created, ∀ v t v', now v = (t, v') →
    (∀ node', (validateToken now token node' m' v).1.1
       = bool_decide ((t ≤ created + milliseconds (token_lifetime (tk_config m)))%Z ∧ node = node'))
    ∧ ((created + milliseconds (token_lifetime (tk_config m)) < t)%Z →
       ∀ node' node'' u, (validateToken now token node'' (validateToken now token node' m' v).1.2 u).1.1 = false).
Proof.
  unfold generateToken. destruct (time w) as [s w1], (generateRandomSalt draw w1) as [salt w2], (now w2) as [t0 w3].
  intros [= <- <- _]. exists t0. intros v t v' Hnow. set (tok := createHMACToken _ _ _ _).
  match goal with |- context [<[tok := ?i]>] => set (info := i) end.
  match goal with |- context [validateToken now tok _ ?x v] => set (m' := x) end.
  assert (Hl : active_tokens_ m' !! tok = Some info) by apply lookup_insert_eq.
  split.
  - intros node'. by rewrite (validate_spec _ _ _ _ _ _ _ _ Hl Hnow).
  - intros Hlate node' node'' u. unfold validateToken at 2. rewrite Hl, Hnow.
    rewrite (proj2 (Z.ltb_lt _ _)) by exact Hlate.
    unfold validateToken. simpl active_tokens_. by rewrite lookup_delete_eq.
Qed.

(** The salt is drawn and stored but does not enter the token.  Two calls
    in the same second whose node and transaction identifiers concatenate to
    the same text get the same token, and the second call takes it away from
    the first node: its own fresh token is refused. *)
Theorem token_taken_over node1 tx1 node2 tx2 m w token1 m1 w1 token2 m2 w2 :
  node1 +:+ tx1 = node2 +:+ tx2 → node1 ≠ node2 → (time w).1 = (time w1).1 →
  generateToken now time draw hmac node1 tx1 m w = (token1, m1, w1) →
  generateToken now time draw hmac node2 tx2 m1 w1 = (token2, m2, w2) →
  token2 = token1 ∧ ∀ v, (validateToken now token1 node1 m2 v).1.1 = false.
Proof.
  intros Hcat Hne Htime. unfold generateToken.
  destruct (time w) as [s u1], (generateRandomSalt draw u1) as [salt u2], (now u2) as [t0 u3].
  intros [= <- <- <-]. simpl in Htime. destruct (time u3) as [s' u4]. simpl in Htime. subst s'.
  destruct (generateRandomSalt draw u4) as [salt' u5], (now u5) as [t1 u6]. intros [= <- <- _].
  assert (Hdata : token_data node1 tx1 s = token_data node2 tx2 s).
  { unfold token_data. apply chars_inj. rewrite !chars_append. apply (f_equal chars) in Hcat.
    rewrite !chars_append in Hcat. by rewrite !(assoc_L (++)), Hcat. }
  unfold createHMACToken. cbn [tk_config set_field]. rewrite Hdata. split; [done|]. intros v.
  destruct (now v) as [t v'] eqn:Hnow.
  rewrite (validate_spec now _ _ _ _ _ t v' (lookup_insert_eq _ _ _) Hnow). apply bool_decide_false. simpl. intros [_ ?]. done.
Qed.
End Theorems.

(** ** Witnesses: a counter as clock, and a checksum in place of the HMAC *)

Definition token_clock (w : nat) : Z * nat := ((Z.of_nat w * 1000000)%Z, S w).
Definition token_time (w : nat) : Z * nat := (1700000000%Z, w).
Definition token_draw (w : nat) : ascii * nat := (byte_of (Z.of_nat w), S w).
Definition sample_hmac (key data : string) : list ascii :=
  [byte_of (sumZ byte_val (chars key)); byte_of (sumZ byte_val (chars data))].
Definition sample_token_config : TokenConfig := mk_TokenConfig "secret" 600000 60000.

Definition token_sample : token_manager * nat * list (string * string) :=
  run_tokens token_clock token_time token_draw sample_hmac [TkGenerate "node" "tx"; TkCleanup]
    (new_token_manager sample_token_config, 0, []).

Lemma accepted_tokens_issued_witness :
  ∃ token, (validateToken token_clock token "node" token_sample.1.1 token_sample.1.2).1.1 = true
    ∧ (token, "node") ∈ token_sample.2.
Proof.
  exists (hd ("", "") token_sample.2).1. split; [vm_compute; reflexivity|].
  apply (accepted_tokens_issued token_clock token_time token_draw sample_hmac sample_token_config
    [TkGenerate "node" "tx"; TkCleanup] 0 token_sample.1.1 token_sample.1.2); vm_compute; reflexivity.
Defined.

Definition token_one : string * token_manager * nat :=
  generateToken token_clock token_time token_draw sample_hmac "ab" "c" (new_token_manager sample_token_config) 0.
Definition token_two : string * token_manager * nat :=
  generateToken token_clock token_time token_draw sample_hmac "a" "bc" token_one.1.2 token_one.2.

Lemma generated_token_valid_witness :
  (validateToken token_clock token_one.1.1 "ab" token_one.1.2 100).1.1 = true
  ∧ ∃ created, ∀ v t v', token_clock v = (t, v') → ∀ node', (validateToken token_clock token_one.1.1 node' token_one.1.2 v).1.1
     = bool_decide ((t ≤ created + milliseconds 600000)%Z ∧ "ab" = node').
Proof.
  split; [vm_compute; reflexivity|].
  destruct (generated_token_valid token_clock token_time token_draw sample_hmac "ab" "c"
    (new_token_manager sample_token_config) 0 token_one.1.1 token_one.1.2 token_one.2 eq_refl) as [created H].
  exists created. intros v t v' Hv. exact (proj1 (H v t v' Hv)).
Defined.

Lemma token_taken_over_witness :
  token_two.1.1 = token_one.1.1 ∧ (validateToken token_clock token_one.1.1 "ab" token_two.1.2 100).1.1 = false.
Proof.
  destruct (token_taken_over token_clock token_time token_draw sample_hmac "ab" "c" "a" "bc"
    (new_token_manager sample_token_config) 0 token_one.1.1 token_one.1.2 token_one.2 token_two.1.1 token_two.1.2 token_two.2
    eq_refl ltac:(discriminate) eq_refl eq_refl eq_refl) as [Heq Hv].
  split; [exact Heq|exact (Hv 100)].
Defined.
