(* ===== verification/UtMetadata.v ===== *)
(** * The ut_metadata protocol

    Models [UTMetadataProtocol] as [src/src/ut_metadata_protocol.cpp] defines
    it: one request per peer and info-hash, pieces stored as they arrive, the
    request completed by its last piece, and the metadata assembled from the
    pieces.  The structures are those the source file uses; the header of the
    same name declares others. *)

From S2P Require Import Prelude Numeric Registry.

Inductive RequestStatus := REQUESTING | COMPLETED | EXPIRED | NOT_FOUND.
#[export] Instance ut_RequestStatus_eq_dec : EqDecision RequestStatus.
Proof. solve_decision. Defined.

Record MetadataRequest := mk_MetadataRequest {
  ut_peer_ip : string;
  ut_peer_port : Z;
  ut_info_hash : string;
  ut_status : RequestStatus;
  ut_created_at : Z;
  ut_expires_at : Z;
  ut_piece_count : Z;
  ut_received_pieces : Z;
  ut_pieces : gmap Z (list ascii);
}.
#[export] Instance eta_MetadataRequest : Eta MetadataRequest :=
  λ r, mk_MetadataRequest (ut_peer_ip r) (ut_peer_port r) (ut_info_hash r) (ut_status r) (ut_created_at r)
         (ut_expires_at r) (ut_piece_count r) (ut_received_pieces r) (ut_pieces r).

(** [ut_request_timeout] is in milliseconds. *)
Record ut_metadata := mk_ut_metadata {
  ut_request_timeout : Z;
  ut_active : gmap string MetadataRequest;
  ut_completed : gmap string MetadataRequest;
  ut_expired : gmap string MetadataRequest;
}.
#[export] Instance eta_ut_metadata : Eta ut_metadata :=
  λ r, mk_ut_metadata (ut_request_timeout r) (ut_active r) (ut_completed r) (ut_expired r).

Definition new_ut_metadata (timeout : Z) : ut_metadata := mk_ut_metadata timeout ∅ ∅ ∅.

(** The key every operation computes. *)
Definition ut_request_id (peer_ip : string) (peer_port : Z) (info_hash : string) : string :=
  peer_ip +:+ ":" +:+ to_string peer_port +:+ ":" +:+ info_hash.

Section Operations.
Context {W : Type} (now : W → Z * W).
Implicit Types (u : ut_metadata) (w : W) (ip hash : string) (port : Z).

Definition requestMetadata ip port hash u w : bool * ut_metadata * W :=
  let id := ut_request_id ip port hash in
  match ut_active u !! id with
  | Some _ => (false, u, w)
  | None =>
    let '(t, w) := now w in
    let r := mk_MetadataRequest ip port hash REQUESTING t (t + milliseconds (ut_request_timeout u)) 0 0 ∅ in
    (true, u <| ut_active ::= <[id := r]> |>, w)
  end.

Definition processPiece ip port hash (piece_index : Z) (piece_data : list ascii) u : bool * ut_metadata :=
  let id := ut_request_id ip port hash in
  match ut_active u !! id with
  | None => (false, u)
  | Some r =>
    if decide (piece_index < 0 ∨ ut_piece_count r ≤ piece_index)%Z then (false, u)
    else if decide (is_Some (ut_pieces r !! piece_index)) then (false, u)
    else
      let r := r <| ut_pieces ::= <[piece_index := piece_data]> |> <| ut_received_pieces ::= Z.succ |> in
      if decide (ut_piece_count r ≤ ut_received_pieces r)%Z then
        let r := r <| ut_status := COMPLETED |> in
        (true, u <| ut_completed ::= <[id := r]> |> <| ut_active ::= delete id |>)
      else (true, u <| ut_active ::= <[id := r]> |>)
  end.

(** The loop over [0 .. piece_count - 1]. *)
Definition assembled (r : MetadataRequest) : list ascii :=
  mjoin ((λ i, default [] (ut_pieces r !! i)) <$> seqZ 0 (ut_piece_count r)).

Definition assembleMetadata ip port hash u : list ascii :=
  match ut_completed u !! ut_request_id ip port hash with Some r => assembled r | None => [] end.

Definition isComplete ip port hash u : bool := bool_decide (is_Some (ut_completed u !! ut_request_id ip port hash)).
Definition getMetadata ip port hash u : list ascii := assembleMetadata ip port hash u.

Definition getRequestStatus ip port hash u : RequestStatus :=
  match ut_active u !! ut_request_id ip port hash with
  | Some r => ut_status r
  | None => match ut_completed u !! ut_request_id ip port hash with Some r => ut_status r | None => NOT_FOUND end
  end.

(** [None] is the empty record. *)
Definition getRequestInfo ip port hash u : option MetadataRequest :=
  match ut_active u !! ut_request_id ip port hash with
  | Some r => Some r
  | None => ut_completed u !! ut_request_id ip port hash
  end.

Definition getActiveRequests u : list string := (map_iter (ut_active u)).*1.
Definition getCompletedRequests u : list string := (map_iter (ut_completed u)).*1.
Definition getActiveRequestCount u : Z := int_of_Z (Z.of_nat (size (ut_active u))).
Definition getCompletedRequestCount u : Z := int_of_Z (Z.of_nat (size (ut_completed u))).
Definition getTotalRequestCount u : Z := int_of_Z (Z.of_nat (size (ut_active u) + size (ut_completed u))).

Definition getCompletionRatio ip port hash u : double :=
  let id := ut_request_id ip port hash in
  let otherwise := if decide (is_Some (ut_completed u !! id)) then double_of_int 1 else double_of_int 0 in
  match ut_active u !! id with
  | Some r => if (0 <? ut_piece_count r)%Z
              then double_div (double_of_int (ut_received_pieces r)) (double_of_int (ut_piece_count r))
              else otherwise
  | None => otherwise
  end.

Definition ut_due (t : Z) (p : string * MetadataRequest) : Prop := (ut_expires_at p.2 < t)%Z.
#[export] Instance ut_due_dec t p : Decision (ut_due t p).
Proof. unfold ut_due. apply _. Defined.

Definition cleanupExpiredRequests u w : ut_metadata * W :=
  let '(t, w) := now w in
  (u <| ut_expired ::= swept (ut_due t) (λ r, r <| ut_status := EXPIRED |>) (ut_active u) |>
     <| ut_active ::= unswept (ut_due t) |>, w).

Definition clearExpiredRequests u : ut_metadata := u <| ut_expired := ∅ |>.
Definition clearAllRequests u : ut_metadata := u <| ut_active := ∅ |> <| ut_completed := ∅ |> <| ut_expired := ∅ |>.
Definition updateConfig (timeout : Z) u : ut_metadata := u <| ut_request_timeout := timeout |>.

Inductive ut_op :=
  | UtRequest ip port hash
  | UtPiece ip port hash (piece_index : Z) (piece_data : list ascii)
  | UtCleanup
  | UtClearExpired
  | UtClearAll
  | UtConfig (timeout : Z).

Definition run_ut_op (s : ut_metadata * W) (op : ut_op) : ut_metadata * W :=
  let '(u, w) := s in
  match op with
  | UtRequest ip port hash => let '(_, u, w) := requestMetadata ip port hash u w in (u, w)
  | UtPiece ip port hash i d => ((processPiece ip port hash i d u).2, w)
  | UtCleanup => cleanupExpiredRequests u w
  | UtClearExpired => (clearExpiredRequests u, w)
  | UtClearAll => (clearAllRequests u, w)
  | UtConfig timeout => (updateConfig timeout u, w)
  end.

Definition run_ut (ops : list ut_op) (s : ut_metadata * W) : ut_metadata * W := foldl run_ut_op s ops.

(** ** No piece is ever accepted *)

Record ut_idle (u : ut_metadata) : Prop := {
  ui_active : map_Forall (λ _ r, ut_piece_count r = 0%Z ∧ ut_status r = REQUESTING) (ut_active u);
  ui_completed : ut_completed u = ∅;
}.

Lemma idle_rejects u ip port hash i d : ut_idle u → processPiece ip port hash i d u = (false, u).
Proof.
  intros [Ha _]. unfold processPiece. destruct (ut_active u !! _) as [r|] eqn:Hr; [|done].
  rewrite decide_True; [done|]. apply Ha in Hr as [? _]. lia.
Qed.

Lemma run_ut_idle ops u w : ut_idle u → ut_idle (run_ut ops (u, w)).1.
Proof.
  revert u w. induction ops as [|op ops IH]; intros u w Hu; [done|].
  change (run_ut (op :: ops) (u, w)) with (run_ut ops (run_ut_op (u, w) op)).
  destruct (run_ut_op (u, w) op) as [u' w'] eqn:Hop. apply IH. revert Hop.
  destruct op as [ip port hash|ip port hash i d| | | |t]; simpl.
  - unfold requestMetadata. destruct (ut_active u !! _); [by intros [= <- _]|]. destruct (now w) as [t w1].
    intros [= <- _]. destruct Hu. split; simpl; [|done]. by apply map_Forall_insert_2.
  - rewrite idle_rejects by done. by intros [= <- _].
  - unfold cleanupExpiredRequests. destruct (now w) as [t w1]. intros [= <- _]. destruct Hu. split; simpl; [|done].
    by apply unswept_Forall.
  - intros [= <- _]. by destruct Hu.
  - intros [= <- _]. by split.
  - intros [= <- _]. by destruct Hu.
Qed.
End Operations.

(** C29: No run of the protocol ever completes: [requestMetadata] sets the
    number of pieces to zero and nothing changes it, so every piece is
    rejected, and neither [isComplete] nor [getMetadata] ever has a result. *)
Theorem metadata_never_completes {W} (now : W → Z * W) timeout ops w ip port hash :
  let u := (run_ut now ops (new_ut_metadata timeout, w)).1 in
  (∀ i d, processPiece ip port hash i d u = (false, u))
  ∧ isComplete ip port hash u = false ∧ getMetadata ip port hash u = []
  ∧ getRequestStatus ip port hash u ∈ [REQUESTING; NOT_FOUND].
Proof.
  cbv zeta. assert (Hu : ut_idle (run_ut now ops (new_ut_metadata timeout, w)).1)
    by (apply run_ut_idle; split; [apply map_Forall_empty|done]).
  destruct (run_ut now ops (new_ut_metadata timeout, w)) as [u w']. simpl in *.
  split; [intros i d; by apply idle_rejects|].
  unfold isComplete, getMetadata, assembleMetadata, getRequestStatus. rewrite (ui_completed _ Hu), lookup_empty.
  split_and!; [done|done|]. destruct (ut_active u !! _) as [r|] eqn:Hr; [|set_solver].
  apply (ui_active _ Hu) in Hr as [_ ->]. set_solver.
Qed.
