(* ===== verification/PeerProtocol.v ===== *)
(** * The peer wire protocol

    Models [BitTorrentProtocol] as [src/src/bittorrent_protocol.cpp] defines
    it: parsing and writing of length-prefixed messages, handshakes, and the
    extensions enabled for a peer.  The source file uses a [Message] whose
    members are those of the header's [MessageInfo]: [length] has 32 bits.

    An access of a vector outside its bounds has no defined result:
    [parseMessage] returns [None] then. *)

From S2P Require Import Prelude.

(** The enumerators the header declares, in its order. *)
Inductive MessageType :=
  | HANDSHAKE | KEEP_ALIVE | CHOKE | UNCHOKE | INTERESTED | NOT_INTERESTED | HAVE | BITFIELD
  | REQUEST | PIECE | CANCEL | PORT | EXTENDED | UNKNOWN.

Definition enum_value (t : MessageType) : Z :=
  match t with
  | HANDSHAKE => 0 | KEEP_ALIVE => 1 | CHOKE => 2 | UNCHOKE => 3 | INTERESTED => 4 | NOT_INTERESTED => 5
  | HAVE => 6 | BITFIELD => 7 | REQUEST => 8 | PIECE => 9 | CANCEL => 10 | PORT => 11 | EXTENDED => 12
  | UNKNOWN => 13
  end.

(** [m_type] is the value of the enumeration; [m_length] is [None] while the
    member is not initialised. *)
Record Message := mk_Message {
  m_type : Z;
  m_length : option Z;
  m_payload : list ascii;
}.

(** [(d0 << 24) | (d1 << 16) | (d2 << 8) | d3], converted to 32 bits. *)
Definition be32 (d0 d1 d2 d3 : ascii) : Z :=
  Z.lor (Z.lor (Z.lor (Z.shiftl (byte_val d0) 24) (Z.shiftl (byte_val d1) 16)) (Z.shiftl (byte_val d2) 8))
    (byte_val d3).

(** The sum of an [int] and a 32-bit unsigned number. *)
Definition uint32_add (a b : Z) : Z := ((a + b) mod 2 ^ 32)%Z.

(** [v.assign(v.begin() + i, v.begin() + j)]: both iterators must be in range. *)
Definition subrange (i j : Z) (v : list ascii) : option (list ascii) :=
  if decide (0 ≤ i ≤ j ∧ j ≤ Z.of_nat (length v))%Z
  then Some (take (Z.to_nat (j - i)) (drop (Z.to_nat i) v)) else None.

Section Wire.
(** [INVALID] is used by the source file and declared nowhere. *)
Context (INVALID : Z).

Definition parseMessage (data : list ascii) : option Message :=
  match data with
  | d0 :: d1 :: d2 :: d3 :: rest =>
    let len := be32 d0 d1 d2 d3 in
    if (len =? 0)%Z then Some (mk_Message (enum_value KEEP_ALIVE) (Some len) [])
    else if (Z.of_nat (length data) <? uint32_add 4 len)%Z then Some (mk_Message INVALID (Some len) [])
    else
      d4 ← rest !! 0;
      if (1 <? len)%Z
      then payload ← subrange 5 (4 + len) data; Some (mk_Message (byte_val d4) (Some len) payload)
      else Some (mk_Message (byte_val d4) (Some len) [])
  | _ => Some (mk_Message INVALID None [])
  end.

(** The bytes [sendMessage] assembles for a message whose length is [len]. *)
Definition message_bytes (type len : Z) (payload : list ascii) : list ascii :=
  [byte_of (Z.land (Z.shiftr len 24) 255); byte_of (Z.land (Z.shiftr len 16) 255);
   byte_of (Z.land (Z.shiftr len 8) 255); byte_of (Z.land len 255)]
  ++ (if (0 <? len)%Z then [byte_of type] else []) ++ payload.

(** ** Big-endian lengths *)

Lemma lor_low m k d : (0 ≤ k)%Z → (0 ≤ d < 2 ^ k)%Z → Z.lor (Z.shiftl m k) d = (m * 2 ^ k + d)%Z.
Proof.
  intros Hk Hd. rewrite <-Z.shiftl_mul_pow2 by done.
  assert (Hand : Z.land (Z.shiftl m k) d = 0%Z).
  { apply Z.bits_inj'. intros i Hi. rewrite Z.land_spec, Z.bits_0. destruct (decide (i < k)%Z).
    - by rewrite Z.shiftl_spec_low.
    - rewrite <-(Z.mod_small d (2 ^ k)) by done. rewrite Z.mod_pow2_bits_high by lia. by rewrite andb_false_r. }
  by rewrite Z.add_nocarry_lxor, Z.lxor_lor.
Qed.

Lemma be32_value d0 d1 d2 d3 :
  be32 d0 d1 d2 d3 = (byte_val d0 * 2 ^ 24 + byte_val d1 * 2 ^ 16 + byte_val d2 * 2 ^ 8 + byte_val d3)%Z.
Proof.
  unfold be32. pose proof (byte_val_bound d0). pose proof (byte_val_bound d1).
  pose proof (byte_val_bound d2). pose proof (byte_val_bound d3).
  rewrite (lor_low _ 24) by (rewrite ?Z.shiftl_mul_pow2 by lia; lia). rewrite (Z.shiftl_mul_pow2 (byte_val d1)) by lia.
  replace (byte_val d0 * 2 ^ 24 + byte_val d1 * 2 ^ 16)%Z with (Z.shiftl (byte_val d0 * 256 + byte_val d1) 16)
    by (rewrite Z.shiftl_mul_pow2 by lia; lia).
  rewrite (lor_low _ 16) by (rewrite ?Z.shiftl_mul_pow2 by lia; lia). rewrite (Z.shiftl_mul_pow2 (byte_val d2)) by lia.
  replace ((byte_val d0 * 256 + byte_val d1) * 2 ^ 16 + byte_val d2 * 2 ^ 8)%Z
    with (Z.shiftl ((byte_val d0 * 256 + byte_val d1) * 256 + byte_val d2) 8) by (rewrite Z.shiftl_mul_pow2 by lia; lia).
  rewrite lor_low, Z.shiftl_mul_pow2 by lia. lia.
Qed.

Lemma be32_bound d0 d1 d2 d3 : (0 ≤ be32 d0 d1 d2 d3 < 2 ^ 32)%Z.
Proof.
  rewrite be32_value. pose proof (byte_val_bound d0). pose proof (byte_val_bound d1).
  pose proof (byte_val_bound d2). pose proof (byte_val_bound d3). lia.
Qed.

Lemma octet_value len k : (0 ≤ k)%Z → byte_val (byte_of (Z.land (Z.shiftr len k) 255)) = (len / 2 ^ k mod 256)%Z.
Proof.
  intros Hk. change 255%Z with (Z.ones 8). rewrite Z.land_ones, Z.shiftr_div_pow2 by lia.
  apply byte_val_of. apply Z.mod_pos_bound. lia.
Qed.

Lemma be32_octets len : (0 ≤ len < 2 ^ 32)%Z →
  be32 (byte_of (Z.land (Z.shiftr len 24) 255)) (byte_of (Z.land (Z.shiftr len 16) 255))
    (byte_of (Z.land (Z.shiftr len 8) 255)) (byte_of (Z.land len 255)) = len.
Proof.
  intros Hl. rewrite be32_value, !octet_value by lia. rewrite <-(Z.shiftr_0_r len) at 4. rewrite octet_value by lia.
  change (2 ^ 0)%Z with 1%Z. Z.to_euclidean_division_equations. lia.
Qed.

Lemma be32_byte d0 d1 d2 d3 k : (0 ≤ k)%Z →
  byte_of (Z.land (Z.shiftr (be32 d0 d1 d2 d3) k) 255) = byte_of (be32 d0 d1 d2 d3 / 2 ^ k).
Proof.
  intros Hk. change 255%Z with (Z.ones 8). rewrite Z.land_ones, Z.shiftr_div_pow2 by lia.
  unfold byte_of. by rewrite Z.mod_mod.
Qed.

Lemma byte_of_mod z c : (z mod 256)%Z = byte_val c → byte_of z = c.
Proof. intros H. unfold byte_of. rewrite H. unfold byte_val. rewrite Nat2Z.id. apply ascii_nat_embedding. Qed.

(** Writing the length that was read gives the bytes it was read from. *)
Lemma be32_bytes d0 d1 d2 d3 :
  [byte_of (Z.land (Z.shiftr (be32 d0 d1 d2 d3) 24) 255); byte_of (Z.land (Z.shiftr (be32 d0 d1 d2 d3) 16) 255);
   byte_of (Z.land (Z.shiftr (be32 d0 d1 d2 d3) 8) 255); byte_of (Z.land (be32 d0 d1 d2 d3) 255)] = [d0; d1; d2; d3].
Proof.
  rewrite <-(Z.shiftr_0_r (be32 d0 d1 d2 d3)) at 4. rewrite !be32_byte, be32_value by lia.
  pose proof (byte_val_bound d0). pose proof (byte_val_bound d1). pose proof (byte_val_bound d2). pose proof (byte_val_bound d3).
  f_equal; [|f_equal; [|f_equal; [|f_equal]]]; apply byte_of_mod; Z.to_euclidean_division_equations; lia.
Qed.

(** ** Parsing *)

Lemma uint32_add_small len : (0 ≤ len < 2 ^ 32 - 4)%Z → uint32_add 4 len = (4 + len)%Z.
Proof. intros. apply Z.mod_small. lia. Qed.

Lemma uint32_add_wraps len : (2 ^ 32 - 4 ≤ len < 2 ^ 32)%Z → (uint32_add 4 len < 4)%Z.
Proof.
  intros. unfold uint32_add. replace (4 + len)%Z with (len + 4 - 2 ^ 32 + 1 * 2 ^ 32)%Z by lia.
  rewrite Z.mod_add, Z.mod_small by lia. lia.
Qed.

(** A message that declares [len] bytes and is complete. *)
Lemma parse_complete d0 d1 d2 d3 d4 payload rest :
  be32 d0 d1 d2 d3 = (1 + Z.of_nat (length payload))%Z → (be32 d0 d1 d2 d3 < 2 ^ 32 - 4)%Z →
  parseMessage (d0 :: d1 :: d2 :: d3 :: d4 :: payload ++ rest)
  = Some (mk_Message (byte_val d4) (Some (be32 d0 d1 d2 d3)) payload).
Proof.
  intros Hlen Hsmall. unfold parseMessage. cbv zeta. pose proof (be32_bound d0 d1 d2 d3).
  rewrite uint32_add_small by lia. simpl length. rewrite length_app. set (len := be32 d0 d1 d2 d3) in *.
  destruct (Z.eqb_spec len 0); [lia|]. destruct (Z.ltb_spec (Z.of_nat (S (S (S (S (S (length payload + length rest)))))) ) (4 + len)); [lia|].
  simpl lookup. cbn [mbind option_bind]. destruct (Z.ltb_spec 1 len).
  - unfold subrange. rewrite decide_True by (simpl length; rewrite length_app; lia). cbn [mbind option_bind].
    replace (Z.to_nat (4 + len - 5)) with (length payload) by lia.
    change (drop (Z.to_nat 5) (d0 :: d1 :: d2 :: d3 :: d4 :: payload ++ rest)) with (payload ++ rest).
    by rewrite take_app_length.
  - destruct payload; [done|]. simpl in *. lia.
Qed.

(** C32: [parseMessage] reads memory outside its argument exactly when the
    declared length is one of the four largest 32-bit numbers and the data is
    shorter than declared: [4 + length] wraps around in the bounds check.  On
    any other input it returns. *)
Theorem parse_undefined data : parseMessage data = None ↔
  ∃ d0 d1 d2 d3 rest, data = d0 :: d1 :: d2 :: d3 :: rest
    ∧ (2 ^ 32 - 4 ≤ be32 d0 d1 d2 d3)%Z ∧ (Z.of_nat (length data) < 4 + be32 d0 d1 d2 d3)%Z.
Proof.
  destruct data as [|d0 [|d1 [|d2 [|d3 rest]]]];
    try (split; [done|intros (?&?&?&?&?&?&_); done]).
  transitivity ((2 ^ 32 - 4 ≤ be32 d0 d1 d2 d3)%Z
    ∧ (Z.of_nat (length (d0 :: d1 :: d2 :: d3 :: rest)) < 4 + be32 d0 d1 d2 d3)%Z); last first.
  { split; [intros [? ?]; by exists d0, d1, d2, d3, rest|]. by intros (?&?&?&?&?&[= <- <- <- <- <-]&?). }
  unfold parseMessage. cbv zeta. pose proof (be32_bound d0 d1 d2 d3). set (len := be32 d0 d1 d2 d3) in *.
  destruct (Z.eqb_spec len 0); [split; [done|lia]|].
  destruct (decide (len < 2 ^ 32 - 4)%Z) as [Hsmall|Hbig].
  - rewrite uint32_add_small by lia. case (Z.ltb_spec (Z.of_nat (length (d0 :: d1 :: d2 :: d3 :: rest))) (4 + len));
      intros Hs; [split; [done|lia]|]. split; [|lia]. destruct rest as [|d4 rest]; [simpl in Hs; lia|].
    simpl lookup. cbn [mbind option_bind]. destruct (Z.ltb_spec 1 len); [|done].
    unfold subrange. rewrite decide_True by lia. done.
  - pose proof (uint32_add_wraps len ltac:(lia)) as Hw.
    case (Z.ltb_spec (Z.of_nat (length (d0 :: d1 :: d2 :: d3 :: rest))) (uint32_add 4 len)); intros Hs; [simpl in Hs; lia|].
    destruct rest as [|d4 rest]; [simpl; split; [lia|done]|]. simpl lookup. cbn [mbind option_bind].
    destruct (Z.ltb_spec 1 len); [|lia]. unfold subrange. case_decide as Hd; cbn [mbind option_bind].
    + split; [done|lia].
    + split; [intros _; split; [lia|]|done]. apply Z.nle_gt. intros ?. apply Hd. lia.
Qed.

(** C33: What [sendMessage] writes is read back unchanged, also when other bytes
    follow: a message of any type with its true length, and a keep-alive. *)
Theorem message_roundtrip type payload rest :
  (0 ≤ type < 256)%Z → (1 + Z.of_nat (length payload) < 2 ^ 32 - 4)%Z →
  parseMessage (message_bytes type (1 + Z.of_nat (length payload)) payload ++ rest)
    = Some (mk_Message type (Some (1 + Z.of_nat (length payload))%Z) payload)
  ∧ parseMessage (message_bytes type 0 [] ++ rest) = Some (mk_Message (enum_value KEEP_ALIVE) (Some 0%Z) []).
Proof.
  intros Ht Hl. split; [|done]. unfold message_bytes. set (len := (1 + Z.of_nat (length payload))%Z) in *.
  rewrite (proj2 (Z.ltb_lt 0 len)) by lia. simpl app.
  pose proof (be32_octets len ltac:(lia)) as Hbe.
  rewrite parse_complete by (rewrite Hbe; lia). by rewrite Hbe, byte_val_of.
Qed.

(** Conversely, a message that is not rejected (and whose declared length
    is not one of the four that wrap around) stands at the front of the data
    exactly as [sendMessage] would write it, with its true length. *)
Theorem parse_sound data type len payload :
  parseMessage data = Some (mk_Message type (Some len) payload) →
  type ≠ INVALID → len ≠ 0%Z → (len < 2 ^ 32 - 4)%Z →
  (0 ≤ type < 256)%Z ∧ len = (1 + Z.of_nat (length payload))%Z
  ∧ ∃ rest, data = message_bytes type len payload ++ rest.
Proof.
  destruct data as [|d0 [|d1 [|d2 [|d3 rest]]]]; try (by intros [= <- <- <-]).
  unfold parseMessage. cbv zeta. pose proof (be32_bound d0 d1 d2 d3) as Hb. set (l := be32 d0 d1 d2 d3) in *.
  destruct (Z.eqb_spec l 0) as [|Hl0]; [by intros [= <- <- <-]|].
  case (Z.ltb_spec (Z.of_nat (length (d0 :: d1 :: d2 :: d3 :: rest))) (uint32_add 4 l)); intros Hs;
    [by intros [= <- <- <-]|].
  destruct rest as [|d4 rest]; [done|]. simpl lookup. cbn [mbind option_bind].
  intros Heq Hinv Hlen Hsmall. assert (Htype : type = byte_val d4 ∧ len = l).
  { destruct (Z.ltb_spec 1 l); [|by simplify_eq]. apply bind_Some in Heq as (? & _ & Heq). by simplify_eq. }
  destruct Htype as [-> ->]. split; [apply byte_val_bound|].
  rewrite uint32_add_small in Hs by lia. simpl in Hs.
  assert (Hp : l = (1 + Z.of_nat (length payload))%Z ∧ take (length payload) rest = payload).
  { destruct (Z.ltb_spec 1 l) as [H1|H1].
    - unfold subrange in Heq. rewrite decide_True in Heq by (simpl; lia). simpl in Heq. injection Heq as <-.
      rewrite drop_0, length_take_le by lia. split; [lia|done].
    - injection Heq as <-. simpl. split; [lia|done]. }
  destruct Hp as [Hp Htake]. split; [done|]. exists (drop (length payload) rest). unfold message_bytes.
  rewrite (proj2 (Z.ltb_lt 0 l)) by lia. unfold l. rewrite be32_bytes, byte_of_val. rewrite <-Htake at 1. simpl.
  by rewrite take_drop.
Qed.
End Wire.

(** ** Handshakes and extensions *)

(** The only status the source file assigns. *)
Inductive HandshakeStatus := INITIATED.

Record HandshakeInfo := mk_HandshakeInfo {
  h_peer_ip : string;
  h_peer_port : Z;
  h_info_hash : string;
  h_peer_id : string;
  h_status : HandshakeStatus;
  h_created_at : Z;
}.

Record ExtensionInfo := mk_ExtensionInfo {
  x_peer_ip : string;
  x_peer_port : Z;
  enabled_extensions : gset string;
  x_created_at : Z;
}.
#[export] Instance eta_ExtensionInfo : Eta ExtensionInfo :=
  λ x, mk_ExtensionInfo (x_peer_ip x) (x_peer_port x) (enabled_extensions x) (x_created_at x).

(** The two timeouts of the configuration the source file reads, in
    milliseconds. *)
Record ProtocolConfig := mk_ProtocolConfig { handshake_timeout : Z; extension_timeout : Z }.

Record peer_protocol := mk_peer_protocol {
  pp_config : ProtocolConfig;
  active_handshakes_ : gmap string HandshakeInfo;
  peer_extensions_ : gmap string ExtensionInfo;
}.
#[export] Instance eta_peer_protocol : Eta peer_protocol :=
  λ p, mk_peer_protocol (pp_config p) (active_handshakes_ p) (peer_extensions_ p).

Definition new_peer_protocol (config : ProtocolConfig) : peer_protocol := mk_peer_protocol config ∅ ∅.

Definition peer_key (ip : string) (port : Z) : string := ip +:+ ":" +:+ to_string port.

Section Protocol.
Context {W : Type} (now : W → Z * W).
Implicit Types (p : peer_protocol) (w : W) (ip name : string) (port : Z).

(** [digit] is one draw of [std::uniform_int_distribution<char>('0', '9')]. *)
Fixpoint random_digits (digit : W → ascii * W) (n : nat) w : list ascii * W :=
  match n with
  | O => ([], w)
  | S n => let '(c, w) := digit w in let '(cs, w) := random_digits digit n w in (c :: cs, w)
  end.

Definition generatePeerId digit w : string * W :=
  let '(cs, w) := random_digits digit 12 w in ("-DC0001-" +:+ of_chars cs, w).

(** The handshake message itself is built and dropped. *)
Definition performHandshake digit ip port (info_hash : string) p w : bool * peer_protocol * W :=
  let '(peer_id, w) := generatePeerId digit w in
  let '(t, w) := now w in
  (true, p <| active_handshakes_ ::= <[peer_key ip port := mk_HandshakeInfo ip port info_hash peer_id INITIATED t]> |>, w).

Definition enableExtension ip port name p w : bool * peer_protocol * W :=
  match peer_extensions_ p !! peer_key ip port with
  | Some x => (true, p <| peer_extensions_ ::= <[peer_key ip port := x <| enabled_extensions ::= ({[name]} ∪.) |>]> |>, w)
  | None =>
    let '(t, w) := now w in
    (true, p <| peer_extensions_ ::= <[peer_key ip port := mk_ExtensionInfo ip port {[name]} t]> |>, w)
  end.

(** The bytes handed to [sendMessage], or [None] when the call is refused; the
    length is converted to 32 bits. *)
Definition sendExtensionMessage ip port name (payload : list ascii) p : option (list ascii) :=
  x ← peer_extensions_ p !! peer_key ip port;
  if decide (name ∈ enabled_extensions x)
  then Some (message_bytes (enum_value EXTENDED) ((2 + Z.of_nat (length payload)) mod 2 ^ 32)%Z (byte_of 0 :: payload))
  else None.

(** [None] is the empty record. *)
Definition getHandshakeInfo ip port p : option HandshakeInfo := active_handshakes_ p !! peer_key ip port.
Definition getActiveHandshakes p : list string := (map_iter (active_handshakes_ p)).*1.
Definition getEnabledExtensions ip port p : list string :=
  match peer_extensions_ p !! peer_key ip port with Some x => set_iter (enabled_extensions x) | None => [] end.
Definition isExtensionEnabled ip port name p : bool :=
  match peer_extensions_ p !! peer_key ip port with
  | Some x => bool_decide (name ∈ enabled_extensions x)
  | None => false
  end.
Definition getActiveHandshakeCount p : Z := int_of_Z (Z.of_nat (size (active_handshakes_ p))).
Definition getExtensionCount p : Z := int_of_Z (Z.of_nat (size (peer_extensions_ p))).

Definition cleanupExpiredHandshakes p w : peer_protocol * W :=
  let '(t, w) := now w in
  (p <| active_handshakes_ ::=
       filter (λ q, ¬ (milliseconds (handshake_timeout (pp_config p)) < t - h_created_at q.2)%Z) |>, w).

Definition cleanupExpiredExtensions p w : peer_protocol * W :=
  let '(t, w) := now w in
  (p <| peer_extensions_ ::=
       filter (λ q, ¬ (milliseconds (extension_timeout (pp_config p)) < t - x_created_at q.2)%Z) |>, w).

Definition updateConfig (config : ProtocolConfig) p : peer_protocol := p <| pp_config := config |>.

(** What [enableExtension] leaves for a peer. *)
Lemma enable_lookup ip port name p w : ∃ x,
  peer_extensions_ (enableExtension ip port name p w).1.2 !! peer_key ip port = Some x ∧ name ∈ enabled_extensions x
  ∧ (∀ y, peer_extensions_ p !! peer_key ip port = Some y →
       x_created_at x = x_created_at y ∧ enabled_extensions y ⊆ enabled_extensions x).
Proof.
  unfold enableExtension. destruct (peer_extensions_ p !! peer_key ip port) as [y|] eqn:Hy.
  - eexists. split; [apply lookup_insert_eq|]. simpl. split; [set_solver|]. intros y' [= <-]. split; [done|set_solver].
  - destruct (now w) as [t w1]. eexists. split; [apply lookup_insert_eq|]. simpl. split; [set_solver|done].
Qed.

(** An extension message is refused unless the extension was enabled for
    that peer; when it is sent, its bytes are read back by [parseMessage] as a
    message with the type EXTENDED, the extension identifier 0 and the
    payload. *)
Theorem extension_message_read_back INVALID ip port name payload rest p w :
  (Z.of_nat (length payload) < 2 ^ 32 - 6)%Z →
  (isExtensionEnabled ip port name p = false → sendExtensionMessage ip port name payload p = None)
  ∧ ∃ bytes, sendExtensionMessage ip port name payload (enableExtension ip port name p w).1.2 = Some bytes
    ∧ parseMessage INVALID (bytes ++ rest)
      = Some (mk_Message (enum_value EXTENDED) (Some (2 + Z.of_nat (length payload))%Z) (byte_of 0 :: payload)).
Proof.
  intros Hlen. split.
  - unfold isExtensionEnabled, sendExtensionMessage. destruct (peer_extensions_ p !! _) as [x|]; [|done].
    intros Hx%bool_decide_eq_false. simpl. by rewrite decide_False.
  - destruct (enable_lookup ip port name p w) as (x & Hx & Hin & _). unfold sendExtensionMessage. rewrite Hx. simpl.
    rewrite decide_True by done. eexists. split; [reflexivity|]. rewrite Z.mod_small by lia.
    set (len := (2 + Z.of_nat (length payload))%Z). unfold message_bytes. rewrite (proj2 (Z.ltb_lt 0 len)) by lia.
    simpl app. pose proof (be32_octets len ltac:(lia)) as Hbe.
    change (byte_of 0 :: payload ++ rest) with ((byte_of 0 :: payload) ++ rest).
    rewrite parse_complete by (rewrite Hbe; simpl length; lia). by rewrite Hbe.
Qed.

(** Enabling an extension of a known peer does not renew the peer's entry:
    when the entry is older than the timeout, the next clean-up disables the
    extension that was enabled a moment ago, with all others of the peer. *)
Theorem enabled_extension_dropped ip port name p w x v t v' :
  peer_extensions_ p !! peer_key ip port = Some x → now v = (t, v') →
  (milliseconds (extension_timeout (pp_config p)) < t - x_created_at x)%Z →
  isExtensionEnabled ip port name (enableExtension ip port name p w).1.2 = true
  ∧ isExtensionEnabled ip port name (cleanupExpiredExtensions (enableExtension ip port name p w).1.2 v).1 = false.
Proof.
  intros Hx Hnow Hold. destruct (enable_lookup ip port name p w) as (x' & Hx' & Hin & Hc).
  destruct (Hc _ Hx) as [Hcreated _]. split.
  - unfold isExtensionEnabled. rewrite Hx'. by apply bool_decide_true.
  - unfold isExtensionEnabled, cleanupExpiredExtensions. rewrite Hnow. simpl.
    rewrite map_lookup_filter, Hx'. simpl. case_guard as Hg; [|done]. exfalso. apply Hg. rewrite Hcreated.
    unfold enableExtension. rewrite Hx. simpl. exact Hold.
Qed.

(** The identifiers of this client have twenty characters. *)
Lemma peer_id_length digit w : String.length (generatePeerId digit w).1 = 20.
Proof.
  unfold generatePeerId. assert (Hl : ∀ n v, length (random_digits digit n v).1 = n).
  { induction n as [|n IH]; intros v; [done|]. simpl. destruct (digit v) as [c v1]. specialize (IH v1).
    destruct (random_digits digit n v1) as [cs v2]. simpl in *. by rewrite IH. }
  specialize (Hl 12 w). destruct (random_digits digit 12 w) as [cs w']. cbn [fst] in *. by rewrite length_append, length_of_chars, Hl.
Qed.
End Protocol.

(** The enumeration does not have the numbers of the wire protocol, in which
    the message 0 is [choke]: it is read as HANDSHAKE. *)
Example choke_read_as_handshake INVALID :
  parseMessage INVALID [byte_of 0; byte_of 0; byte_of 0; byte_of 1; byte_of 0]
  = Some (mk_Message (enum_value HANDSHAKE) (Some 1%Z) []).
Proof. reflexivity. Qed.

(** ** Witnesses *)

Lemma message_roundtrip_witness :
  parseMessage 99 (message_bytes 6 4 (chars "abc") ++ chars "zz") = Some (mk_Message 6 (Some 4%Z) (chars "abc")).
Proof.
  assert (H1 : (0 ≤ 6 < 256)%Z) by lia.
  assert (H2 : (1 + Z.of_nat (length (chars "abc")) < 2 ^ 32 - 4)%Z) by (simpl; lia).
  exact (proj1 (message_roundtrip 99 6 (chars "abc") (chars "zz") H1 H2)).
Defined.

Lemma parse_sound_witness :
  ∃ rest, message_bytes 6 4 (chars "abc") ++ chars "zz" = message_bytes 6 4 (chars "abc") ++ rest.
Proof.
  assert (H1 : (6 ≠ 99)%Z) by discriminate. assert (H2 : (4 ≠ 0)%Z) by discriminate.
  exact (proj2 (proj2 (parse_sound 99 (message_bytes 6 4 (chars "abc") ++ chars "zz") 6 4 (chars "abc")
    eq_refl H1 H2 eq_refl))).
Defined.

Definition protocol_clock (w : nat) : Z * nat := ((Z.of_nat w * 1000000000)%Z, S w).
Definition sample_protocol : peer_protocol :=
  (enableExtension protocol_clock "10.0.0.1" 6881 "ut_pex" (new_peer_protocol (mk_ProtocolConfig 10000 10000)) 0).1.2.
Definition sample_extension : ExtensionInfo := mk_ExtensionInfo "10.0.0.1" 6881 {["ut_pex"]} 0.

Lemma extension_message_read_back_witness :
  ∃ bytes, sendExtensionMessage "10.0.0.1" 6881 "ut_metadata" (chars "d8:e")
    (enableExtension protocol_clock "10.0.0.1" 6881 "ut_metadata" sample_protocol 1).1.2 = Some bytes
    ∧ parseMessage 99 (bytes ++ chars "x") = Some (mk_Message 12 (Some 6%Z) (byte_of 0 :: chars "d8:e")).
Proof.
  exact (proj2 (extension_message_read_back protocol_clock 99 "10.0.0.1" 6881 "ut_metadata" (chars "d8:e") (chars "x")
    sample_protocol 1 eq_refl)).
Defined.

Lemma enabled_extension_dropped_witness :
  isExtensionEnabled "10.0.0.1" 6881 "ut_metadata"
    (cleanupExpiredExtensions protocol_clock
      (enableExtension protocol_clock "10.0.0.1" 6881 "ut_metadata" sample_protocol 19).1.2 20).1 = false.
Proof.
  exact (proj2 (enabled_extension_dropped protocol_clock "10.0.0.1" 6881 "ut_metadata" sample_protocol 19
    sample_extension 20 20000000000 21 eq_refl eq_refl eq_refl)).
Defined.
