(* ===== verification/Validator.v ===== *)
(** * The metadata validator

    Models [MetadataValidator] of [src/src/metadata_validator.cpp]: the chain
    of checks of [validateMetadata], each of which writes flags, the error
    message of the first check that fails, and the quality score of a result
    that passed.  SHA-1 is a parameter. *)

From S2P Require Import Prelude Numeric HashFormat Cli.

Record ValidationResult := mk_ValidationResult {
  is_valid : bool;
  error_message : string;
  validation_details : string;
  quality_score : double;
  validation_flags : gmap string string;
}.
#[export] Instance eta_ValidationResult : Eta ValidationResult :=
  λ r, mk_ValidationResult (is_valid r) (error_message r) (validation_details r) (quality_score r) (validation_flags r).

Definition new_ValidationResult : ValidationResult := mk_ValidationResult false "" "" (double_of_int 0) ∅.

(** The member of the configuration the checks read. *)
Record ValidationConfig := mk_ValidationConfig { max_metadata_size : Z }.
Definition default_ValidationConfig : ValidationConfig := mk_ValidationConfig (10 * 1024 * 1024).

(** [metadata.find(field) != npos] *)
Definition has_field (field metadata : string) : bool := contains_text (chars field) (chars metadata).

Definition metadata_size (metadata : string) : Z := Z.of_nat (String.length metadata).

Abbreviation flag k v r := (r <| validation_flags ::= <[k := v]> |>) (only parsing).

Section Checks.
Context (sha1 : list ascii → list ascii).
Implicit Types (config : ValidationConfig) (metadata : string) (r : ValidationResult).

(** A check answers and leaves the result it has written to. *)
Definition validateMetadataSize config metadata r : bool * ValidationResult :=
  let size := metadata_size metadata in
  if (max_metadata_size config <? size)%Z then
    (false, flag "max_size" (to_string (max_metadata_size config))
             (flag "actual_size" (to_string size)
             (flag "size_exceeded" "true" (r <| error_message := "Metadata size exceeds maximum allowed size" |>))))
  else if (size <? 100)%Z then
    (false, flag "actual_size" (to_string size)
             (flag "size_too_small" "true" (r <| error_message := "Metadata size is too small" |>)))
  else (true, flag "actual_size" (to_string size) (flag "size_valid" "true" r)).

Definition calculateSHA1 (data : string) : string := of_chars (mjoin (hex_byte <$> sha1 (chars data))).

Definition validateInfoHash metadata r : bool * ValidationResult :=
  let calculated_hash := calculateSHA1 metadata in
  if decide (calculated_hash = "") then
    (false, flag "hash_calculation_failed" "true" (r <| error_message := "Failed to calculate metadata hash" |>))
  else (true, flag "hash_valid" "true" (flag "info_hash" calculated_hash r)).

Definition validatePieces metadata r : bool * ValidationResult :=
  if has_field "pieces" metadata then (true, flag "pieces_present" "true" r)
  else (false, flag "pieces_missing" "true"
                 (r <| error_message := "Metadata does not contain pieces information" |>)).

Definition required_fields : list string := ["name"; "length"; "piece length"; "pieces"].

Definition validateInfoDictionary metadata r : bool * ValidationResult :=
  match find (λ field, negb (has_field field metadata)) required_fields with
  | Some field => (false, flag "missing_field" field (r <| error_message := "Missing required field: " +:+ field |>))
  | None => (true, flag "info_dictionary_valid" "true" r)
  end.

Definition validateFileStructure metadata r : bool * ValidationResult :=
  if has_field "files" metadata then
    (true, flag "file_structure_valid" "true" (flag "torrent_type" "multi_file" r))
  else if has_field "length" metadata then
    (true, flag "file_structure_valid" "true" (flag "torrent_type" "single_file" r))
  else (false, flag "file_structure_invalid" "true"
                 (r <| error_message := "Invalid file structure - neither single nor multi-file" |>)).

Definition score_flags : list string :=
  ["size_valid"; "hash_valid"; "pieces_present"; "info_dictionary_valid"; "file_structure_valid"].

Definition calculateQualityScore r : double :=
  let score := double_of_int 0 in
  let score := if is_valid r then double_add score (double_lit 5 10) else score in
  let score := foldl (λ score k, match validation_flags r !! k with
                                 | Some _ => double_add score (double_lit 1 10) | None => score end) score score_flags in
  double_min score (double_of_int 1).

Definition validateMetadata config metadata : ValidationResult :=
  let r := new_ValidationResult in
  if decide (metadata = "") then r <| error_message := "Metadata is empty" |>
  else
    let '(ok, r) := validateMetadataSize config metadata r in
    if negb ok then r else
    let '(ok, r) := validateInfoHash metadata r in
    if negb ok then r else
    let '(ok, r) := validatePieces metadata r in
    if negb ok then r else
    let '(ok, r) := validateInfoDictionary metadata r in
    if negb ok then r else
    let '(ok, r) := validateFileStructure metadata r in
    if negb ok then r else
    let r := r <| is_valid := true |> in
    r <| quality_score := calculateQualityScore r |>.
End Checks.

(** ** Fields that contain fields *)

(** What contains a text contains the texts inside it. *)
Lemma has_field_trans f g metadata : contains_text (chars f) (chars g) = true →
  has_field g metadata = true → has_field f metadata = true.
Proof.
  unfold has_field. rewrite !contains_text_app. intros (k1 & k2 & Hg) (l1 & l2 & Hm).
  rewrite Hg in Hm. exists (l1 ++ k1), (k2 ++ l2). by rewrite Hm, <-!app_assoc.
Qed.

(** ** What a valid result means *)

(** The sum of one half and five tenths, added one by one in binary: the
    largest number below one, [1 - 2^-53]. *)
Definition full_score : double := SpecFloat.S754_finite false 9007199254740991 (-53).

(** The reference: three searches and two comparisons. *)
Definition acceptable (config : ValidationConfig) (metadata : string) : bool :=
  (100 <=? metadata_size metadata)%Z && (metadata_size metadata <=? max_metadata_size config)%Z
  && has_field "name" metadata && has_field "piece length" metadata && has_field "pieces" metadata.

Lemma hex_bytes_nonempty l : l ≠ [] → of_chars (mjoin (hex_byte <$> l)) ≠ "".
Proof. destruct l as [|c l]; [done|]. intros _. by unfold hex_byte. Qed.

Lemma find_missing metadata : has_field "pieces" metadata = true →
  find (λ field, negb (has_field field metadata)) required_fields = None
  ↔ has_field "name" metadata = true ∧ has_field "piece length" metadata = true.
Proof.
  intros Hp. unfold required_fields. simpl. rewrite Hp.
  destruct (has_field "piece length" metadata) eqn:Hl.
  - rewrite (has_field_trans "length" "piece length" metadata eq_refl Hl). simpl.
    by destruct (has_field "name" metadata); simpl; split; intros; destruct_and?.
  - destruct (has_field "name" metadata), (has_field "length" metadata); simpl; split; intros; destruct_and?; done.
Qed.

Lemma all_flags_score (flags : gmap string string) ks x : Forall (λ k, is_Some (flags !! k)) ks →
  foldl (λ score k, match flags !! k with Some _ => double_add score (double_lit 1 10) | None => score end) x ks
  = foldl (λ score _, double_add score (double_lit 1 10)) x ks.
Proof. intros Hf. revert x. induction Hf as [|k ks [v Hk] _ IH]; intros x; [done|]. cbn [foldl]. rewrite Hk. apply IH. Qed.

Lemma score_full r : is_valid r = true → Forall (λ k, is_Some (validation_flags r !! k)) score_flags →
  calculateQualityScore r = full_score.
Proof.
  intros Hv Hf. unfold calculateQualityScore. rewrite Hv, (all_flags_score _ _ _ Hf). vm_compute. reflexivity.
Qed.

Ltac solve_flag :=
  repeat (rewrite lookup_insert_eq || rewrite lookup_insert_ne by discriminate); first [reflexivity | by eexists].

Section Theorems.
Context (sha1 : list ascii → list ascii) (sha1_length : ∀ d, length (sha1 d) = 20).

Lemma validateInfoHash_passes metadata r : (validateInfoHash sha1 metadata r).1 = true.
Proof using sha1_length.
  unfold validateInfoHash. rewrite decide_False; [done|]. apply hex_bytes_nonempty. intros H.
  pose proof (sha1_length (chars metadata)) as Hl. by rewrite H in Hl.
Qed.

(** The chain, with the outcome of every check spelled out. *)
Lemma validate_cases config metadata :
  let r := validateMetadata sha1 config metadata in
  (is_valid r = true ∧ acceptable config metadata = true ∧ error_message r = ""
   ∧ Forall (λ k, is_Some (validation_flags r !! k)) score_flags ∧ quality_score r = full_score
   ∧ validation_flags r !! "torrent_type" = Some (if has_field "files" metadata then "multi_file" else "single_file"))
  ∨ (is_valid r = false ∧ acceptable config metadata = false ∧ error_message r ≠ "" ∧ quality_score r = double_of_int 0).
Proof using sha1_length.
  cbv zeta. unfold validateMetadata, acceptable. case_decide as He; [right; by subst|].
  unfold validateMetadataSize. set (size := metadata_size metadata).
  destruct (Z.ltb_spec (max_metadata_size config) size).
  { right. simpl. rewrite (proj2 (Z.leb_gt size (max_metadata_size config))) by done. by rewrite andb_false_r. }
  destruct (Z.ltb_spec size 100).
  { right. simpl. by rewrite (proj2 (Z.leb_gt 100 size)). }
  rewrite (proj2 (Z.leb_le 100 size)), (proj2 (Z.leb_le size (max_metadata_size config))) by done. simpl negb. cbv iota.
  match goal with |- context [validateInfoHash sha1 metadata ?r] => pose proof (validateInfoHash_passes metadata r) as Hh end.
  unfold validateInfoHash in *. case_decide as Hc; [done|]. clear Hh. simpl negb. cbv iota.
  unfold validatePieces. destruct (has_field "pieces" metadata) eqn:Hp; [|right; simpl; by rewrite andb_false_r].
  simpl negb. cbv iota. unfold validateInfoDictionary. pose proof (find_missing metadata Hp) as Hf.
  destruct (find _ required_fields) as [field|] eqn:Hfind.
  { right. simpl. split; [done|]. split; [|done].
    destruct (has_field "name" metadata), (has_field "piece length" metadata); try done.
    exfalso. by discriminate (proj2 Hf (conj eq_refl eq_refl)). }
  destruct (proj1 Hf eq_refl) as [-> Hl]. rewrite Hl. simpl negb. cbv iota. left.
  unfold validateFileStructure. rewrite (has_field_trans "length" "piece length" metadata eq_refl Hl).
  destruct (has_field "files" metadata); simpl negb; cbv iota.
  all: split; [reflexivity|]; split; [reflexivity|]; split; [reflexivity|].
  all: match goal with |- ?P ∧ _ => assert (Hflags : P) by (repeat constructor; cbn [validation_flags set_field]; solve_flag) end.
  all: split; [exact Hflags|]; split; [|cbn [validation_flags set_field]; solve_flag].
  all: cbn [quality_score set_field]; apply score_full; [reflexivity|exact Hflags].
Qed.

(** C34: The validator accepts exactly the metadata of at least a hundred bytes
    and at most the configured size in which the texts "name", "piece length"
    and "pieces" occur somewhere: its other searches, for "length" and for the
    file structure, and the hash can never fail after those. *)
Theorem validate_accepts config metadata :
  is_valid (validateMetadata sha1 config metadata) = acceptable config metadata.
Proof using sha1_length.
  destruct (validate_cases config metadata) as [(Hv & Ha & _)|(Hv & Ha & _)]; rewrite Hv, Ha; reflexivity.
Qed.

(** A result is either valid, without a message and with one fixed score
    just below one, whatever the metadata, or invalid, with the message of the
    first check that failed and the score zero. *)
Theorem validate_result config metadata :
  let r := validateMetadata sha1 config metadata in
  if is_valid r
  then error_message r = "" ∧ quality_score r = full_score ∧ double_lt full_score (double_of_int 1) = true
       ∧ validation_flags r !! "torrent_type"
         = Some (if has_field "files" metadata then "multi_file" else "single_file")
  else error_message r ≠ "" ∧ quality_score r = double_of_int 0.
Proof using sha1_length.
  cbv zeta. destruct (validate_cases config metadata) as [(Hv & _ & He & _ & Hs & Hf)|(Hv & _ & He & Hs)]; rewrite Hv.
  - split; [exact He|]. split; [exact Hs|]. split; [vm_compute; reflexivity|exact Hf].
  - split; [exact He|exact Hs].
Qed.
End Theorems.

(** ** Witnesses *)

Definition twenty_bytes (d : list ascii) : list ascii := replicate 20 (byte_of (sumZ byte_val d)).
Lemma twenty_bytes_length d : length (twenty_bytes d) = 20.
Proof. apply length_replicate. Qed.

Definition sample_metadata : string :=
  "d6:lengthi1024e4:name8:file.txt12:piece lengthi16384e6:pieces20:01234567890123456789e" +:+
  "8:encodingxxxxxxxxxxxxxxxxxxxxxxxxxxx".

Lemma validate_accepts_witness :
  is_valid (validateMetadata twenty_bytes default_ValidationConfig sample_metadata) = true
  ∧ is_valid (validateMetadata twenty_bytes default_ValidationConfig "d4:name") = false.
Proof.
  split.
  - rewrite (validate_accepts twenty_bytes twenty_bytes_length default_ValidationConfig sample_metadata).
    vm_compute. reflexivity.
  - rewrite (validate_accepts twenty_bytes twenty_bytes_length default_ValidationConfig "d4:name").
    vm_compute. reflexivity.
Defined.

Lemma validate_result_witness :
  error_message (validateMetadata twenty_bytes default_ValidationConfig sample_metadata) = "".
Proof.
  pose proof (validate_result twenty_bytes twenty_bytes_length default_ValidationConfig sample_metadata) as H.
  cbv zeta in H.
  assert (Hv : is_valid (validateMetadata twenty_bytes default_ValidationConfig sample_metadata) = true)
    by (vm_compute; reflexivity).
  rewrite Hv in H. exact (proj1 H).
Defined.
