(* ===== verification/ErrorHandler.v ===== *)
(** * The error handler

    Models [ErrorHandler] as [src/src/error_handler.cpp] defines it: the list
    of errors, the count of each message, the statistics, and the recovery
    strategy.  The structures are those the source file uses, the severities
    those of the header.  The lines written to the console and to the log file
    are in [ErrorLog]; counters are unbounded. *)

From S2P Require Import Prelude.

Inductive ErrorSeverity := DEBUG | INFO | WARNING | ERROR | CRITICAL | FATAL.
#[export] Instance ErrorSeverity_eq_dec : EqDecision ErrorSeverity.
Proof. solve_decision. Defined.

Definition severity_code (s : ErrorSeverity) : nat :=
  match s with DEBUG => 0 | INFO => 1 | WARNING => 2 | ERROR => 3 | CRITICAL => 4 | FATAL => 5 end.
Definition severity_of_code (n : nat) : ErrorSeverity := nth n [DEBUG; INFO; WARNING; ERROR; CRITICAL; FATAL] DEBUG.
#[export] Instance ErrorSeverity_countable : Countable ErrorSeverity.
Proof. apply (inj_countable' severity_code severity_of_code). by intros []. Defined.

Record ErrorInfo := mk_ErrorInfo {
  e_id : string;
  e_message : string;
  e_severity : ErrorSeverity;
  e_component : string;
  e_context : gmap string string;
  e_timestamp : Z;
  e_count : Z;
}.

Record ErrorStatistics := mk_ErrorStatistics {
  total_errors : Z;
  info_errors : Z;
  warning_errors : Z;
  error_errors : Z;
  critical_errors : Z;
  errors_by_component : gmap string Z;
  errors_by_severity : gmap ErrorSeverity Z;
  last_error_time : Z;
}.
Definition empty_ErrorStatistics : ErrorStatistics := mk_ErrorStatistics 0 0 0 0 0 ∅ ∅ 0.
#[export] Instance eta_ErrorStatistics : Eta ErrorStatistics :=
  λ s, mk_ErrorStatistics (total_errors s) (info_errors s) (warning_errors s) (error_errors s) (critical_errors s)
         (errors_by_component s) (errors_by_severity s) (last_error_time s).

(** [eh_counter] is the static counter of [generateErrorId], an [int]. *)
Record error_handler := mk_error_handler {
  errors_ : list ErrorInfo;
  error_counts_ : gmap string Z;
  stats_ : ErrorStatistics;
  eh_counter : Z;
}.
#[export] Instance eta_error_handler : Eta error_handler :=
  λ h, mk_error_handler (errors_ h) (error_counts_ h) (stats_ h) (eh_counter h).

Definition new_error_handler : error_handler := mk_error_handler [] ∅ empty_ErrorStatistics 0.

(** [m[k]++] *)
Definition bump `{Countable K} (k : K) (m : gmap K Z) : gmap K Z := <[k := (default 0 (m !! k) + 1)%Z]> m.

Definition updateStatistics (e : ErrorInfo) (s : ErrorStatistics) : ErrorStatistics :=
  let s := s <| total_errors ::= Z.succ |> in
  let s := match e_severity e with
           | INFO => s <| info_errors ::= Z.succ |>
           | WARNING => s <| warning_errors ::= Z.succ |>
           | ERROR => s <| error_errors ::= Z.succ |>
           | CRITICAL => s <| critical_errors ::= Z.succ |>
           | _ => s
           end in
  s <| errors_by_component ::= bump (e_component e) |> <| errors_by_severity ::= bump (e_severity e) |>
    <| last_error_time := e_timestamp e |>.

Definition severityToString (s : ErrorSeverity) : string :=
  match s with
  | INFO => "INFO" | WARNING => "WARNING" | ERROR => "ERROR" | CRITICAL => "CRITICAL" | _ => "UNKNOWN"
  end.

Definition determineRecoveryStrategy (severity : ErrorSeverity) (component : string) : string :=
  if decide (severity = CRITICAL) then "restart_component"
  else if decide (severity = ERROR) then "retry_operation"
  else if decide (severity = WARNING) then "log_and_continue"
  else "ignore".

Section Handler.
Context {W : Type} (now : W → Z * W).
Implicit Types (h : error_handler) (w : W).

Definition generateErrorId h w : string * error_handler * W :=
  let '(t, w) := now w in
  ("ERR_" +:+ to_string (duration_cast_ms t) +:+ "_" +:+ to_string (eh_counter h),
   h <| eh_counter ::= (λ n, int_of_Z (n + 1)) |>, w).

Definition logError (error_message : string) (severity : ErrorSeverity) (component : string)
    (context : gmap string string) h w : error_handler * W :=
  let '(id, h, w) := generateErrorId h w in
  let '(t, w) := now w in
  let count := match error_counts_ h !! error_message with Some n => (n + 1)%Z | None => 1%Z end in
  let e := mk_ErrorInfo id error_message severity component context t count in
  (h <| error_counts_ ::= <[error_message := count]> |> <| errors_ ::= (λ l, l ++ [e]) |>
     <| stats_ ::= updateStatistics e |>, w).

Definition executeRecoveryStrategy (strategy error_message component : string) h w : error_handler * W :=
  if decide (strategy = "restart_component") then
    logError ("Component restart requested: " +:+ component) INFO "ErrorHandler" ∅ h w
  else if decide (strategy = "retry_operation") then
    logError ("Operation retry requested: " +:+ error_message) INFO "ErrorHandler" ∅ h w
  else (h, w).

Definition handleError (error_message : string) (severity : ErrorSeverity) (component : string)
    (context : gmap string string) h w : string * error_handler * W :=
  let '(h, w) := logError error_message severity component context h w in
  let recovery_strategy := determineRecoveryStrategy severity component in
  let '(h, w) := executeRecoveryStrategy recovery_strategy error_message component h w in
  (recovery_strategy, h, w).

Definition getErrorCount h : Z := total_errors (stats_ h).
Definition getWarningCount h : Z := warning_errors (stats_ h).
Definition getCriticalCount h : Z := critical_errors (stats_ h).

(** [max(0, size - count)] is the first index. *)
Definition getRecentErrors (count : Z) h : list ErrorInfo :=
  drop (Z.to_nat (Z.max 0 (Z.of_nat (length (errors_ h)) - count))) (errors_ h).

Definition getErrorsByComponent h : gmap string Z := errors_by_component (stats_ h).
Definition getErrorsBySeverity h : gmap ErrorSeverity Z := errors_by_severity (stats_ h).

Definition clearErrors h : error_handler :=
  h <| errors_ := [] |> <| error_counts_ := ∅ |> <| stats_ := empty_ErrorStatistics |>.

Inductive error_op :=
  | ELog (message : string) (severity : ErrorSeverity) (component : string) (context : gmap string string)
  | EHandle (message : string) (severity : ErrorSeverity) (component : string) (context : gmap string string)
  | EClear.

Definition run_error_op (s : error_handler * W) (op : error_op) : error_handler * W :=
  let '(h, w) := s in
  match op with
  | ELog m s c x => logError m s c x h w
  | EHandle m s c x => let '(_, h, w) := handleError m s c x h w in (h, w)
  | EClear => (clearErrors h, w)
  end.

Definition run_errors (ops : list error_op) (s : error_handler * W) : error_handler * W := foldl run_error_op s ops.
End Handler.

(** ** Counting *)

Section Counting.
Context `{Countable K} {A : Type}.
Implicit Types (f : A → K) (l : list A) (k : K).

(** How many elements of [l] have the key [k]. *)
Definition occurrences f k l : Z := Z.of_nat (length (filter (λ x, f x = k) l)).

(** [m] has the number of occurrences of every key that occurs. *)
Definition counts f l (m : gmap K Z) : Prop :=
  ∀ k, m !! k = if decide (occurrences f k l = 0)%Z then None else Some (occurrences f k l).

Lemma occurrences_snoc f k l x : occurrences f k (l ++ [x]) = (occurrences f k l + if decide (f x = k) then 1 else 0)%Z.
Proof.
  unfold occurrences. rewrite filter_app, length_app, filter_cons, filter_nil. case_decide; simpl; lia.
Qed.

Lemma occurrences_nonneg f k l : (0 ≤ occurrences f k l)%Z.
Proof. unfold occurrences. lia. Qed.

Lemma counts_nil f : counts f [] ∅.
Proof. intros k. by rewrite lookup_empty. Qed.

Lemma counts_default f l m k : counts f l m → default 0%Z (m !! k) = occurrences f k l.
Proof. intros Hm. rewrite Hm. by case_decide. Qed.

Lemma counts_snoc f l m x : counts f l m → counts f (l ++ [x]) (bump (f x) m).
Proof.
  intros Hm k. unfold bump. rewrite (counts_default _ _ _ _ Hm), occurrences_snoc.
  pose proof (occurrences_nonneg f k l). destruct (decide (f x = k)) as [<-|Hne].
  - rewrite lookup_insert_eq, decide_False by lia. done.
  - by rewrite lookup_insert_ne, Hm, Z.add_0_r.
Qed.
End Counting.

(** ** The statistics *)

Record handler_ok (h : error_handler) : Prop := {
  ho_total : total_errors (stats_ h) = Z.of_nat (length (errors_ h));
  ho_info : info_errors (stats_ h) = occurrences e_severity INFO (errors_ h);
  ho_warning : warning_errors (stats_ h) = occurrences e_severity WARNING (errors_ h);
  ho_error : error_errors (stats_ h) = occurrences e_severity ERROR (errors_ h);
  ho_critical : critical_errors (stats_ h) = occurrences e_severity CRITICAL (errors_ h);
  ho_component : counts e_component (errors_ h) (errors_by_component (stats_ h));
  ho_severity : counts e_severity (errors_ h) (errors_by_severity (stats_ h));
  ho_message : counts e_message (errors_ h) (error_counts_ h);
  ho_count : ∀ k e, errors_ h !! k = Some e → e_count e = occurrences e_message (e_message e) (take (S k) (errors_ h));
}.

Lemma count_is_bump (m : gmap string Z) k :
  <[k := match m !! k with Some n => (n + 1)%Z | None => 1%Z end]> m = bump k m.
Proof. unfold bump. by destruct (m !! k). Qed.

Lemma updateStatistics_fields e s :
  total_errors (updateStatistics e s) = (total_errors s + 1)%Z
  ∧ info_errors (updateStatistics e s) = (info_errors s + if decide (e_severity e = INFO) then 1 else 0)%Z
  ∧ warning_errors (updateStatistics e s) = (warning_errors s + if decide (e_severity e = WARNING) then 1 else 0)%Z
  ∧ error_errors (updateStatistics e s) = (error_errors s + if decide (e_severity e = ERROR) then 1 else 0)%Z
  ∧ critical_errors (updateStatistics e s) = (critical_errors s + if decide (e_severity e = CRITICAL) then 1 else 0)%Z
  ∧ errors_by_component (updateStatistics e s) = bump (e_component e) (errors_by_component s)
  ∧ errors_by_severity (updateStatistics e s) = bump (e_severity e) (errors_by_severity s).
Proof.
  unfold updateStatistics. destruct (e_severity e); simpl; rewrite ?Z.add_0_r; by split_and!.
Qed.

Section Facts.
Context {W : Type} (now : W → Z * W).
Implicit Types (h : error_handler) (w : W).

(** What [logError] appends. *)
Lemma logError_spec m s c x h w : ∃ e,
  errors_ (logError now m s c x h w).1 = errors_ h ++ [e]
  ∧ error_counts_ (logError now m s c x h w).1 = bump m (error_counts_ h)
  ∧ stats_ (logError now m s c x h w).1 = updateStatistics e (stats_ h)
  ∧ e_message e = m ∧ e_severity e = s ∧ e_component e = c ∧ e_context e = x
  ∧ e_count e = (default 0 (error_counts_ h !! m) + 1)%Z.
Proof.
  unfold logError, generateErrorId. destruct (now w) as [t w1], (now w1) as [t' w2]. simpl.
  rewrite count_is_bump. eexists. split; [reflexivity|]. simpl. split_and!; try done. by destruct (error_counts_ h !! m).
Qed.

Lemma logError_ok m s c x h w : handler_ok h → handler_ok (logError now m s c x h w).1.
Proof.
  intros Hh. destruct (logError_spec m s c x h w) as (e & He & Hc & Hs & <- & <- & <- & _ & Hn).
  destruct (updateStatistics_fields e (stats_ h)) as (H1 & H2 & H3 & H4 & H5 & H6 & H7).
  destruct Hh as [Ht Hi Hw Her Hcr Hco Hse Hme Hcount].
  split; rewrite ?Hs, ?He, ?Hc, ?H1, ?H2, ?H3, ?H4, ?H5, ?H6, ?H7, ?occurrences_snoc.
  - rewrite length_app, Ht. simpl. lia.
  - by rewrite Hi.
  - by rewrite Hw.
  - by rewrite Her.
  - by rewrite Hcr.
  - by apply counts_snoc.
  - by apply counts_snoc.
  - by apply counts_snoc.
  - intros k e' Hk. apply lookup_snoc_Some in Hk as [[Hlt Hk]|[-> <-]].
    + rewrite take_app_le by lia. by apply Hcount.
    + rewrite take_ge by (rewrite length_app; simpl; lia). rewrite occurrences_snoc, decide_True by done.
      by rewrite Hn, (counts_default _ _ _ _ Hme).
Qed.

Lemma handleError_ok m s c x h w : handler_ok h → handler_ok (handleError now m s c x h w).1.2.
Proof.
  intros Hh. unfold handleError. apply (logError_ok m s c x _ w) in Hh. destruct (logError now m s c x h w) as [h1 w1].
  unfold executeRecoveryStrategy. simpl in Hh. repeat case_decide; [| |done].
  - pose proof (logError_ok ("Component restart requested: " +:+ c) INFO "ErrorHandler" ∅ h1 w1 Hh) as Ho.
    by destruct (logError now _ INFO _ ∅ h1 w1).
  - pose proof (logError_ok ("Operation retry requested: " +:+ m) INFO "ErrorHandler" ∅ h1 w1 Hh) as Ho.
    by destruct (logError now _ INFO _ ∅ h1 w1).
Qed.

Lemma new_handler_ok : handler_ok new_error_handler.
Proof. by split. Qed.

Lemma run_errors_ok ops h w : handler_ok h → handler_ok (run_errors now ops (h, w)).1.
Proof.
  revert h w. induction ops as [|op ops IH]; intros h w Hh; [done|].
  change (run_errors now (op :: ops) (h, w)) with (run_errors now ops (run_error_op now (h, w) op)).
  destruct op as [m s c x|m s c x|]; simpl.
  - pose proof (logError_ok m s c x h w Hh). destruct (logError now m s c x h w) as [h' w']. by apply IH.
  - pose proof (handleError_ok m s c x h w Hh). destruct (handleError now m s c x h w) as [[y h'] w']. by apply IH.
  - apply IH. by split.
Qed.
End Facts.

Section Theorems.
Context {W : Type} (now : W → Z * W).

(** After any sequence of logged, handled and cleared errors the
    incremental statistics are what a recount of the stored errors gives: the
    total, the four severities that have a counter, the counts per component
    and per severity and per message; and the count stored with an error is its
    number among the errors with the same message. *)
Theorem statistics_recount ops w :
  let h := (run_errors now ops (new_error_handler, w)).1 in
  getErrorCount h = Z.of_nat (length (errors_ h))
  ∧ info_errors (stats_ h) = occurrences e_severity INFO (errors_ h)
  ∧ getWarningCount h = occurrences e_severity WARNING (errors_ h)
  ∧ error_errors (stats_ h) = occurrences e_severity ERROR (errors_ h)
  ∧ getCriticalCount h = occurrences e_severity CRITICAL (errors_ h)
  ∧ counts e_component (errors_ h) (getErrorsByComponent h)
  ∧ counts e_severity (errors_ h) (getErrorsBySeverity h)
  ∧ counts e_message (errors_ h) (error_counts_ h)
  ∧ ∀ k e, errors_ h !! k = Some e →
      e_count e = occurrences e_message (e_message e) (take (S k) (errors_ h)).
Proof. cbv zeta. by destruct (run_errors_ok now ops new_error_handler w new_handler_ok). Qed.

(** The errors one call of [handleError] stores, as messages and severities. *)
Definition handled_entries (m : string) (s : ErrorSeverity) (c : string) : list (string * ErrorSeverity) :=
  (m, s) ::
  match s with
  | CRITICAL => [("Component restart requested: " +:+ c, INFO)]
  | ERROR => [("Operation retry requested: " +:+ m, INFO)]
  | _ => []
  end.

(** Handling an error stores it, and for the severities ERROR and CRITICAL
    also a second, informational error that counts in the total; nothing is
    retried or restarted.  FATAL, the severity above CRITICAL, gets the
    strategy "ignore", as DEBUG does. *)
Theorem handle_error_entries m s c x h w :
  let r := handleError now m s c x h w in
  (λ e, (e_message e, e_severity e)) <$> errors_ r.1.2
    = ((λ e, (e_message e, e_severity e)) <$> errors_ h) ++ handled_entries m s c
  ∧ getErrorCount r.1.2 = (getErrorCount h + Z.of_nat (length (handled_entries m s c)))%Z
  ∧ r.1.1 = match s with
            | CRITICAL => "restart_component" | ERROR => "retry_operation"
            | WARNING => "log_and_continue" | _ => "ignore" end.
Proof.
  cbv zeta. unfold handleError. destruct (logError_spec now m s c x h w) as (e & He & _ & Hs & Hm & Hse & _).
  destruct (updateStatistics_fields e (stats_ h)) as (Ht & _).
  destruct (logError now m s c x h w) as [h1 w1]. cbn [fst] in *.
  assert (Hplain : s ≠ CRITICAL → s ≠ ERROR →
    (λ e, (e_message e, e_severity e)) <$> errors_ h1 = ((λ e, (e_message e, e_severity e)) <$> errors_ h) ++ [(m, s)]
    ∧ getErrorCount h1 = (getErrorCount h + 1)%Z).
  { intros _ _. rewrite He, fmap_app. unfold getErrorCount. rewrite Hs, Ht. simpl. by rewrite Hm, Hse. }
  assert (Hsecond : ∀ m', let h2 := (logError now m' INFO "ErrorHandler" ∅ h1 w1).1 in
    (λ e, (e_message e, e_severity e)) <$> errors_ h2
      = ((λ e, (e_message e, e_severity e)) <$> errors_ h) ++ [(m, s); (m', INFO)]
    ∧ getErrorCount h2 = (getErrorCount h + 2)%Z).
  { intros m'. cbv zeta. destruct (logError_spec now m' INFO "ErrorHandler" ∅ h1 w1) as (e2 & He2 & _ & Hs2 & Hm2 & Hse2 & _).
    destruct (updateStatistics_fields e2 (stats_ h1)) as (Ht2 & _).
    unfold getErrorCount. rewrite He2, He, !fmap_app, Hs2, Ht2, Hs, Ht, <-app_assoc. simpl. rewrite Hm, Hse, Hm2, Hse2.
    split; [done|lia]. }
  unfold executeRecoveryStrategy, determineRecoveryStrategy, handled_entries.
  destruct s; cbn [decide]; try (destruct (Hplain ltac:(done) ltac:(done)); by split_and!).
  - destruct (Hsecond ("Operation retry requested: " +:+ m)). simpl.
    destruct (logError now _ INFO _ ∅ h1 w1). by split_and!.
  - destruct (Hsecond ("Component restart requested: " +:+ c)). simpl.
    destruct (logError now _ INFO _ ∅ h1 w1). by split_and!.
Qed.

(** [getRecentErrors] returns the last [count] errors in their order, all
    of them when there are fewer, and none for a count that is not positive. *)
Theorem recent_errors_spec count h :
  ∃ older, errors_ h = older ++ getRecentErrors count h
    ∧ Z.of_nat (length (getRecentErrors count h)) = Z.max 0 (Z.min count (Z.of_nat (length (errors_ h)))).
Proof using Type.
  unfold getRecentErrors. set (n := Z.to_nat (Z.max 0 (Z.of_nat (length (errors_ h)) - count))).
  exists (take n (errors_ h)). rewrite take_drop, length_drop. split; [done|]. unfold n. lia.
Qed.
End Theorems.
