(* ===== verification/NodeQuality.v ===== *)
(** * The node quality tracker

    Models [NodeQualityTracker] as [src/src/node_quality_tracker.cpp] defines
    it: the status of each node, a window of response times, a quality score
    in binary64 arithmetic, a blacklist, and the removal of nodes that were
    not updated for a while.  The structures are those the source file uses,
    the statuses those of the header. *)

From S2P Require Import Prelude Numeric.

Inductive NodeStatus := GOOD | UNKNOWN | BAD | BLACKLISTED.
#[export] Instance quality_NodeStatus_eq_dec : EqDecision NodeStatus.
Proof. solve_decision. Defined.

(** Response times in milliseconds. *)
Record NodeQuality := mk_NodeQuality {
  q_node_id : string;
  q_status : NodeStatus;
  q_quality_score : double;
  response_times : list Z;
  successful_requests : Z;
  failed_requests : Z;
  q_last_updated : Z;
  q_created_at : Z;
  blacklist_reason : string;
  blacklisted_at : Z;
}.
#[export] Instance eta_NodeQuality : Eta NodeQuality :=
  λ q, mk_NodeQuality (q_node_id q) (q_status q) (q_quality_score q) (response_times q) (successful_requests q)
         (failed_requests q) (q_last_updated q) (q_created_at q) (blacklist_reason q) (blacklisted_at q).

(** [max_response_history] counts entries, [node_timeout] milliseconds. *)
Record QualityConfig := mk_QualityConfig {
  max_response_history : Z;
  max_response_time : double;
  node_timeout : Z;
}.

Record quality_tracker := mk_quality_tracker {
  qt_config : QualityConfig;
  node_qualities_ : gmap string NodeQuality;
}.
#[export] Instance eta_quality_tracker : Eta quality_tracker :=
  λ q, mk_quality_tracker (qt_config q) (node_qualities_ q).
Definition new_quality_tracker (config : QualityConfig) : quality_tracker := mk_quality_tracker config ∅.

Definition getInitialQualityScore (status : NodeStatus) : double :=
  match status with
  | GOOD => double_lit 8 10
  | UNKNOWN => double_lit 5 10
  | BAD => double_lit 2 10
  | _ => double_lit 5 10
  end.

(** The sum of the response times and their average. *)
Definition total_time (times : list Z) : double :=
  foldl (λ total t, double_add total (double_of_int t)) (double_of_int 0) times.
Definition average_time (times : list Z) : double :=
  double_div (total_time times) (double_of_int (Z.of_nat (length times))).

Definition updateQualityScore (config : QualityConfig) (q : NodeQuality) : NodeQuality :=
  let score := double_of_int 0 in
  let score := double_add score (double_mul (getInitialQualityScore (q_status q)) (double_lit 3 10)) in
  let score :=
    if decide (response_times q = []) then score
    else
      let response_score := double_max (double_of_int 0)
        (double_sub (double_of_int 1) (double_div (average_time (response_times q)) (max_response_time config))) in
      double_add score (double_mul response_score (double_lit 3 10)) in
  let total_requests := (successful_requests q + failed_requests q)%Z in
  let score :=
    if (0 <? total_requests)%Z then
      let success_rate := double_div (double_of_int (successful_requests q)) (double_of_int total_requests) in
      double_add score (double_mul success_rate (double_lit 4 10))
    else score in
  q <| q_quality_score := double_min score (double_of_int 1) |>.

Section Tracker.
(** [unassigned] is the value of a counter the code never assigns. *)
Context {W : Type} (now : W → Z * W) (unassigned : Z).
Implicit Types (s : quality_tracker) (w : W) (id : string).

Definition updateNodeStatus id (status : NodeStatus) s w : quality_tracker * W :=
  match node_qualities_ s !! id with
  | Some q =>
    let '(t, w) := now w in
    (s <| node_qualities_ ::= <[id := q <| q_status := status |> <| q_last_updated := t |>]> |>, w)
  | None =>
    let '(t, w) := now w in
    let '(t', w) := now w in
    let q := mk_NodeQuality id status (getInitialQualityScore status) [] 0 0 t t' "" 0 in
    (s <| node_qualities_ ::= <[id := q]> |>, w)
  end.

Definition getNodeStatus id s : NodeStatus :=
  match node_qualities_ s !! id with Some q => q_status q | None => UNKNOWN end.

Definition push_response (config : QualityConfig) (t : Z) (times : list Z) : list Z :=
  push_bounded (max_response_history config) t times.

Definition updateResponseTime id (response_time : Z) s w : quality_tracker * W :=
  match node_qualities_ s !! id with
  | Some q =>
    let q := q <| response_times ::= push_response (qt_config s) response_time |> in
    let q := updateQualityScore (qt_config s) q in
    let '(t, w) := now w in
    (s <| node_qualities_ ::= <[id := q <| q_last_updated := t |>]> |>, w)
  | None => (s, w)
  end.

Definition blacklistNode id (reason : string) s w : quality_tracker * W :=
  match node_qualities_ s !! id with
  | Some q =>
    let '(t, w) := now w in
    let q := q <| q_status := BAD |> <| blacklist_reason := reason |> <| blacklisted_at := t |>
               <| q_quality_score := double_of_int 0 |> in
    (s <| node_qualities_ ::= <[id := q]> |>, w)
  | None =>
    let '(t, w) := now w in
    let '(t', w) := now w in
    let '(t'', w) := now w in
    let q := mk_NodeQuality id BAD (double_of_int 0) [] unassigned unassigned t'' t' reason t in
    (s <| node_qualities_ ::= <[id := q]> |>, w)
  end.

Definition getQualityScore id s : double :=
  match node_qualities_ s !! id with Some q => q_quality_score q | None => double_of_int 0 end.

(** [None] is the empty record. *)
Definition getNodeQuality id s : option NodeQuality := node_qualities_ s !! id.

Definition getNodesByStatus (status : NodeStatus) s : list string :=
  (filter (λ p, q_status p.2 = status) (map_iter (node_qualities_ s))).*1.
Definition getGoodNodes s : list string := getNodesByStatus GOOD s.
Definition getBadNodes s : list string := getNodesByStatus BAD s.
Definition getUnknownNodes s : list string := getNodesByStatus UNKNOWN s.
Definition getBlacklistedNodes s : list string :=
  (filter (λ p, blacklist_reason p.2 ≠ "") (map_iter (node_qualities_ s))).*1.

Definition getNodeCount s : Z := int_of_Z (Z.of_nat (size (node_qualities_ s))).
Definition getNodeCountByStatus (status : NodeStatus) s : Z :=
  sumZ (λ p, if decide (q_status p.2 = status) then 1 else 0)%Z (map_iter (node_qualities_ s)).
Definition getBlacklistedNodeCount s : Z :=
  sumZ (λ p, if decide (blacklist_reason p.2 = "") then 0 else 1)%Z (map_iter (node_qualities_ s)).

Definition getAverageQualityScore s : double :=
  if decide (node_qualities_ s = ∅) then double_of_int 0
  else double_div
         (foldl (λ total p, double_add total (q_quality_score p.2)) (double_of_int 0) (map_iter (node_qualities_ s)))
         (double_of_int (Z.of_nat (size (node_qualities_ s)))).

Definition getAverageResponseTime id s : double :=
  match node_qualities_ s !! id with
  | Some q => if decide (response_times q = []) then double_of_int 0 else average_time (response_times q)
  | None => double_of_int 0
  end.

Definition clearExpiredNodes s w : quality_tracker * W :=
  let '(t, w) := now w in
  (s <| node_qualities_ ::=
       filter (λ p, ¬ (milliseconds (node_timeout (qt_config s)) < t - q_last_updated p.2)%Z) |>, w).

Definition clearAllNodes s : quality_tracker := s <| node_qualities_ := ∅ |>.
Definition updateConfig (config : QualityConfig) s : quality_tracker := s <| qt_config := config |>.

Inductive quality_op :=
  | QStatus id (status : NodeStatus)
  | QResponse id (response_time : Z)
  | QBlacklist id (reason : string)
  | QClearExpired
  | QClearAll.

Definition run_quality_op (st : quality_tracker * W) (op : quality_op) : quality_tracker * W :=
  let '(s, w) := st in
  match op with
  | QStatus id status => updateNodeStatus id status s w
  | QResponse id t => updateResponseTime id t s w
  | QBlacklist id reason => blacklistNode id reason s w
  | QClearExpired => clearExpiredNodes s w
  | QClearAll => (clearAllNodes s, w)
  end.
Definition run_quality (ops : list quality_op) (st : quality_tracker * W) : quality_tracker * W := foldl run_quality_op st ops.
End Tracker.

(** ** Facts *)

(** The entry of a node: its key, its window, its request counters. *)
Definition quality_ok (config : QualityConfig) (unassigned : Z) (id : string) (q : NodeQuality) : Prop :=
  q_node_id q = id
  ∧ length (response_times q) ≤ Z.to_nat (max_response_history config)
  ∧ ((successful_requests q = 0 ∧ failed_requests q = 0)
     ∨ (successful_requests q = unassigned ∧ failed_requests q = unassigned))%Z.

Lemma updateQualityScore_fields config q :
  response_times (updateQualityScore config q) = response_times q ∧ q_node_id (updateQualityScore config q) = q_node_id q
  ∧ successful_requests (updateQualityScore config q) = successful_requests q
  ∧ failed_requests (updateQualityScore config q) = failed_requests q
  ∧ q_last_updated (updateQualityScore config q) = q_last_updated q.
Proof. done. Qed.

Section Facts.
Context {W : Type} (now : W → Z * W) (unassigned : Z) (config : QualityConfig).
Context (history_fits : (0 ≤ max_response_history config < 2 ^ 64)%Z).
Implicit Types (s : quality_tracker) (w : W) (id : string).

Record tracker_ok (s : quality_tracker) : Prop := {
  tq_config : qt_config s = config;
  tq_nodes : map_Forall (quality_ok config unassigned) (node_qualities_ s);
}.

Lemma run_quality_op_ok op s w : tracker_ok s → tracker_ok (run_quality_op now unassigned (s, w) op).1.
Proof using history_fits.
  intros [Hc Hn]. destruct op as [id st|id t|id r| |]; simpl.
  - unfold updateNodeStatus. destruct (node_qualities_ s !! id) as [q|] eqn:Hq; destruct (now w) as [t w1].
    + split; simpl; [done|]. apply map_Forall_insert_2; [exact (Hn _ _ Hq)|done].
    + destruct (now w1) as [t' w2]. split; simpl; [done|]. apply map_Forall_insert_2; [|done].
      split; [done|]. split; [simpl; lia|by left].
  - unfold updateResponseTime. destruct (node_qualities_ s !! id) as [q|] eqn:Hq; [|done]. destruct (now w) as [t' w1].
    destruct (Hn _ _ Hq) as (H1 & H2 & H3). split; simpl; [done|]. apply map_Forall_insert_2; [|done].
    split; [done|]. split; [|done]. simpl. unfold push_response. rewrite Hc, push_bounded_last_n by done. apply last_n_length.
  - unfold blacklistNode. destruct (node_qualities_ s !! id) as [q|] eqn:Hq; destruct (now w) as [t w1].
    + split; simpl; [done|]. apply map_Forall_insert_2; [exact (Hn _ _ Hq)|done].
    + destruct (now w1) as [t' w2], (now w2) as [t'' w3]. split; simpl; [done|]. apply map_Forall_insert_2; [|done].
      split; [done|]. split; [simpl; lia|by right].
  - unfold clearExpiredNodes. destruct (now w) as [t w1]. split; simpl; [done|].
    intros id q [Hl _]%map_lookup_filter_Some. by apply Hn.
  - split; [done|apply map_Forall_empty].
Qed.

Lemma run_quality_ok ops s w : tracker_ok s → tracker_ok (run_quality now unassigned ops (s, w)).1.
Proof using history_fits.
  revert s w. induction ops as [|op ops IH]; intros s w Hs; [done|].
  change (run_quality now unassigned (op :: ops) (s, w))
    with (run_quality now unassigned ops (run_quality_op now unassigned (s, w) op)).
  pose proof (run_quality_op_ok op s w Hs). destruct (run_quality_op now unassigned (s, w) op) as [s' w']. by apply IH.
Qed.

(** Response times of one node, reported one after the other. *)
Definition report (id : string) (times : list Z) (st : quality_tracker * W) : quality_tracker * W :=
  foldl (λ st t, updateResponseTime now id t st.1 st.2) st times.

Lemma report_window id times s w q : tracker_ok s → node_qualities_ s !! id = Some q →
  ∃ q', node_qualities_ (report id times (s, w)).1 !! id = Some q'
    ∧ response_times q' = last_n (Z.to_nat (max_response_history config)) (response_times q ++ times).
Proof using history_fits.
  revert s w q. induction times as [|t times IH]; intros s w q Hs Hq.
  - exists q. split; [done|]. rewrite app_nil_r. symmetry. apply last_n_all. by destruct (tq_nodes _ Hs _ _ Hq) as (_ & Hl & _).
  - destruct (tq_nodes _ Hs _ _ Hq) as (_ & Hl & _).
    pose proof (run_quality_op_ok (QResponse id t) s w Hs) as Hs'. simpl in Hs'.
    assert (Hq1 : ∃ q1, node_qualities_ (updateResponseTime now id t s w).1 !! id = Some q1
      ∧ response_times q1 = last_n (Z.to_nat (max_response_history config)) (response_times q ++ [t])).
    { unfold updateResponseTime. rewrite Hq. destruct (now w) as [t' w1]. eexists. split; [apply lookup_insert_eq|].
      simpl. unfold push_response. rewrite (tq_config _ Hs). by apply push_bounded_last_n. }
    destruct Hq1 as (q1 & Hq1 & Hr1). change (report id (t :: times) (s, w)) with (report id times (updateResponseTime now id t s w)).
    destruct (updateResponseTime now id t s w) as [s1 w1]. destruct (IH s1 w1 q1 Hs' Hq1) as (q' & Hq' & Hr').
    exists q'. split; [done|]. rewrite Hr', Hr1, last_n_last_n_app. by rewrite <-app_assoc.
Qed.
End Facts.

Lemma elem_of_blacklisted id s : id ∈ getBlacklistedNodes s ↔
  ∃ q, node_qualities_ s !! id = Some q ∧ blacklist_reason q ≠ "".
Proof.
  unfold getBlacklistedNodes. rewrite list_elem_of_fmap. split.
  - intros ([? q] & -> & [Hb Hin]%list_elem_of_filter). exists q. split; [by apply elem_of_map_iter|done].
  - intros (q & Hl & Hb). exists (id, q). split; [done|]. apply list_elem_of_filter.
    split; [done|by apply elem_of_map_iter].
Qed.

Section Nodes.
Context {W : Type} (now : W → Z * W).

Lemma blacklist_lookup unassigned id reason s w q : node_qualities_ s !! id = Some q → ∃ q',
  node_qualities_ (blacklistNode now unassigned id reason s w).1 !! id = Some q' ∧ blacklist_reason q' = reason
  ∧ q_last_updated q' = q_last_updated q ∧ qt_config (blacklistNode now unassigned id reason s w).1 = qt_config s.
Proof.
  intros Hq. unfold blacklistNode. rewrite Hq. destruct (now w) as [t w1].
  eexists. split; [apply lookup_insert_eq|]. done.
Qed.

Lemma clear_drops id s q v t v' : now v = (t, v') → node_qualities_ s !! id = Some q →
  (milliseconds (node_timeout (qt_config s)) < t - q_last_updated q)%Z →
  node_qualities_ (clearExpiredNodes now s v).1 !! id = None.
Proof.
  intros Hnow Hq Hold. unfold clearExpiredNodes. rewrite Hnow. simpl. apply map_lookup_filter_None. right.
  intros q' Hq'. rewrite Hq in Hq'. injection Hq' as <-. simpl. intros Hno. by apply Hno.
Qed.

Lemma fresh_status id status s w : node_qualities_ s !! id = None → ∃ q,
  node_qualities_ (updateNodeStatus now id status s w).1 !! id = Some q ∧ blacklist_reason q = ""
  ∧ q_quality_score q = getInitialQualityScore status.
Proof.
  intros Hq. unfold updateNodeStatus. rewrite Hq. destruct (now w) as [t w1], (now w1) as [t' w2].
  eexists. split; [apply lookup_insert_eq|]. done.
Qed.
End Nodes.

Section Theorems.
Context {W : Type} (now : W → Z * W) (unassigned : Z).

(** The response times kept for a known node are the last
    [max_response_history] ones reported, in their order, and its average is
    the average of exactly those; an unknown node stays unknown. *)
Theorem response_window config ops w id times :
  (0 ≤ max_response_history config < 2 ^ 64)%Z →
  let st := run_quality now unassigned ops (new_quality_tracker config, w) in
  let st' := report now id times st in
  (∀ q, getNodeQuality id st.1 = Some q →
     let kept := last_n (Z.to_nat (max_response_history config)) (response_times q ++ times) in
     response_times <$> getNodeQuality id st'.1 = Some kept
     ∧ getAverageResponseTime id st'.1 = if decide (kept = []) then double_of_int 0 else average_time kept)
  ∧ (getNodeQuality id st.1 = None → getNodeQuality id st'.1 = None).
Proof.
  intros Hn. cbv zeta.
  pose proof (run_quality_ok now unassigned config Hn ops (new_quality_tracker config) w) as Hs.
  specialize (Hs ltac:(split; [done|apply map_Forall_empty])).
  destruct (run_quality now unassigned ops (new_quality_tracker config, w)) as [s w1]. cbn [fst] in *. split.
  - intros q Hq. destruct (report_window now unassigned config Hn id times s w1 q Hs Hq) as (q' & Hq' & Hr).
    unfold getNodeQuality, getAverageResponseTime. rewrite Hq'. simpl. by rewrite Hr.
  - unfold getNodeQuality. intros Hq. revert w1. induction times as [|t times IH]; intros w1; [done|].
    change (report now id (t :: times) (s, w1)) with (report now id times (updateResponseTime now id t s w1)).
    unfold updateResponseTime. rewrite Hq. apply IH.
Qed.

(** No operation of the tracker counts a request: every node has the
    counters it was created with, zero or, when [blacklistNode] created it,
    whatever the members contained. *)
Theorem requests_never_counted config ops w id q :
  (0 ≤ max_response_history config < 2 ^ 64)%Z →
  getNodeQuality id (run_quality now unassigned ops (new_quality_tracker config, w)).1 = Some q →
  (successful_requests q = 0 ∧ failed_requests q = 0)%Z
  ∨ (successful_requests q = unassigned ∧ failed_requests q = unassigned).
Proof.
  intros Hn Hq. pose proof (run_quality_ok now unassigned config Hn ops (new_quality_tracker config) w) as Hs.
  specialize (Hs ltac:(split; [done|apply map_Forall_empty])).
  exact (proj2 (proj2 (tq_nodes _ _ _ Hs _ _ Hq))).
Qed.

(** Blacklisting a known node does not count as an update: when the node
    was last updated longer ago than the timeout, the next removal of expired
    nodes forgets it, blacklist entry included, and its next status makes it an
    unblemished node with the initial score. *)
Theorem blacklist_forgotten id reason status s w q v t v' u :
  node_qualities_ s !! id = Some q → reason ≠ "" → now v = (t, v') →
  (milliseconds (node_timeout (qt_config s)) < t - q_last_updated q)%Z →
  let s1 := (blacklistNode now unassigned id reason s w).1 in
  let s2 := (clearExpiredNodes now s1 v).1 in
  let s3 := (updateNodeStatus now id status s2 u).1 in
  id ∈ getBlacklistedNodes s1 ∧ getNodeStatus id s2 = UNKNOWN
  ∧ id ∉ getBlacklistedNodes s3 ∧ getQualityScore id s3 = getInitialQualityScore status.
Proof.
  intros Hq Hr Hnow Hold. cbv zeta.
  destruct (blacklist_lookup now unassigned id reason s w q Hq) as (q1 & Hq1 & Hb1 & Hu1 & Hc1).
  pose proof (clear_drops now id _ q1 v t v' Hnow Hq1 ltac:(by rewrite Hu1, Hc1)) as Hgone.
  destruct (fresh_status now id status _ u Hgone) as (q3 & Hq3 & Hb3 & Hs3).
  split; [apply elem_of_blacklisted; exists q1; by rewrite Hb1|].
  split; [unfold getNodeStatus; by rewrite Hgone|].
  split; [rewrite elem_of_blacklisted; intros (q' & Hq' & Hb'); congruence|].
  unfold getQualityScore. by rewrite Hq3.
Qed.

(** The status counts partition the nodes, and each agrees with the list
    of the nodes that have the status. *)
Theorem status_counts s :
  (getNodeCountByStatus GOOD s + getNodeCountByStatus UNKNOWN s + getNodeCountByStatus BAD s
   + getNodeCountByStatus BLACKLISTED s)%Z = Z.of_nat (size (node_qualities_ s))
  ∧ (∀ st, getNodeCountByStatus st s = Z.of_nat (length (getNodesByStatus st s)))
  ∧ getBlacklistedNodeCount s = Z.of_nat (length (getBlacklistedNodes s)).
Proof using Type.
  unfold getNodeCountByStatus, getNodesByStatus, getBlacklistedNodeCount, getBlacklistedNodes. split_and!.
  - rewrite <-length_map_iter. induction (map_iter (node_qualities_ s)) as [|[k q] l IH]; [done|].
    simpl. destruct (q_status q); simpl; lia.
  - intros st. rewrite length_fmap. induction (map_iter (node_qualities_ s)) as [|[k q] l IH]; [done|].
    rewrite filter_cons. simpl. case_decide; simpl; lia.
  - rewrite length_fmap. induction (map_iter (node_qualities_ s)) as [|[k q] l IH]; [done|].
    rewrite filter_cons. simpl. repeat case_decide; simpl; lia || tauto.
Qed.
End Theorems.

(** ** Witnesses *)

Definition quality_clock (n : nat) : Z * nat := ((Z.of_nat n * 1000000000)%Z, S n).
Definition sample_quality_config : QualityConfig := mk_QualityConfig 3 (double_of_int 1000) 5000.
Definition quality_ops : list quality_op := [QStatus "n1" GOOD; QResponse "n1" 10].
Definition quality_sample : quality_tracker * nat :=
  run_quality quality_clock 0 quality_ops (new_quality_tracker sample_quality_config, 0).
Definition quality_sample_node : NodeQuality :=
  default (mk_NodeQuality "" BAD (double_of_int 0) [] 0 0 0 0 "" 0) (getNodeQuality "n1" quality_sample.1).

Lemma quality_sample_known : getNodeQuality "n1" quality_sample.1 = Some quality_sample_node.
Proof. vm_compute. reflexivity. Qed.

Lemma sample_history_fits : (0 ≤ max_response_history sample_quality_config < 2 ^ 64)%Z.
Proof. vm_compute. split; discriminate || reflexivity. Qed.

Lemma response_window_witness :
  response_times <$> getNodeQuality "n1" (report quality_clock "n1" [20; 30; 40]%Z quality_sample).1 = Some [20; 30; 40]%Z.
Proof.
  exact (proj1 (proj1 (response_window quality_clock 0 sample_quality_config quality_ops 0 "n1" [20; 30; 40]%Z
    sample_history_fits) quality_sample_node quality_sample_known)).
Defined.

Lemma requests_never_counted_witness :
  (successful_requests quality_sample_node = 0 ∧ failed_requests quality_sample_node = 0)%Z
  ∨ (successful_requests quality_sample_node = 0 ∧ failed_requests quality_sample_node = 0)%Z.
Proof.
  exact (requests_never_counted quality_clock 0 sample_quality_config quality_ops 0 "n1" quality_sample_node
    sample_history_fits quality_sample_known).
Defined.

Lemma sample_expired :
  (milliseconds (node_timeout (qt_config quality_sample.1)) < 20 * 1000000000 - q_last_updated quality_sample_node)%Z.
Proof. vm_compute. reflexivity. Qed.

Lemma blacklist_forgotten_witness :
  "n1" ∈ getBlacklistedNodes (blacklistNode quality_clock 0 "n1" "spam" quality_sample.1 19).1
  ∧ getNodeStatus "n1" (clearExpiredNodes quality_clock (blacklistNode quality_clock 0 "n1" "spam" quality_sample.1 19).1 20).1
    = UNKNOWN.
Proof.
  destruct (blacklist_forgotten quality_clock 0 "n1" "spam" GOOD quality_sample.1 19 quality_sample_node 20
    (20 * 1000000000)%Z 21 21 quality_sample_known ltac:(discriminate) eq_refl sample_expired) as (H1 & H2 & _).
  split; [exact H1|exact H2].
Defined.

(** The best response time there is lowers the score of a good node from 0.8
    to 0.54. *)
Example good_response_lowers_score :
  double_lt (q_quality_score (updateQualityScore sample_quality_config
      (mk_NodeQuality "n" GOOD (getInitialQualityScore GOOD) [0%Z] 0 0 0 0 "" 0)))
    (getInitialQualityScore GOOD) = true.
Proof. vm_compute. reflexivity. Qed.
