(* ===== verification/Logs.v ===== *)
(** * Logs of bounded length whose entries expire

    The extension diagnostics and the BEP 9 resolver keep vectors of records
    with a time stamp: a record is appended and the first one erased when there
    are more than the configured number; a clean-up erases the records that are
    older than the configured time. *)

From S2P Require Import Prelude.

Section Log.
Context {A : Type} (stamp : A → Z).
Implicit Types (l : list A) (x : A).

Definition expired_record (retention now : Z) x : Prop := (milliseconds retention < now - stamp x)%Z.
#[export] Instance expired_record_dec retention now x : Decision (expired_record retention now x).
Proof. unfold expired_record. apply _. Defined.
Definition unexpired_records (retention now : Z) l : list A := filter (λ x, ¬ expired_record retention now x) l.

Lemma Forall_push (P : A → Prop) limit x l : Forall P l → P x → Forall P (push_bounded limit x l).
Proof.
  intros Hl Hx. assert (Forall P (l ++ [x])) as Hlx by (apply Forall_app; auto).
  unfold push_bounded. destruct (_ <? _)%Z; [|done]. by destruct Hlx.
Qed.

Lemma Forall_unexpired (P : A → Prop) retention now l : Forall P l → Forall P (unexpired_records retention now l).
Proof. rewrite !Forall_forall. intros Hl x [_ Hx]%list_elem_of_filter. by apply Hl. Qed.

Lemma push_length limit x l : (0 ≤ limit < 2 ^ 64)%Z → length l ≤ Z.to_nat limit →
  length (push_bounded limit x l) ≤ Z.to_nat limit.
Proof. intros Hn Hl. rewrite push_bounded_last_n by done. apply last_n_length. Qed.

Lemma unexpired_length retention now l : length (unexpired_records retention now l) ≤ length l.
Proof. apply length_filter. Qed.

(** Appending records one after the other keeps the last ones. *)
Lemma push_all limit (xs l : list A) : (0 ≤ limit < 2 ^ 64)%Z → length l ≤ Z.to_nat limit →
  foldl (λ l x, push_bounded limit x l) l xs = last_n (Z.to_nat limit) (l ++ xs).
Proof.
  intros Hn. revert l. induction xs as [|x xs IH]; intros l Hl; simpl.
  { by rewrite app_nil_r, last_n_all. }
  rewrite IH by by apply push_length. rewrite push_bounded_last_n, last_n_last_n_app by done.
  by rewrite <-(assoc_L app).
Qed.

(** A sublist in the same order. *)
Lemma push_sublist limit x l l0 : l `sublist_of` l0 → push_bounded limit x l `sublist_of` (l0 ++ [x]).
Proof.
  intros Hl. assert (l ++ [x] `sublist_of` l0 ++ [x]) as Hlx by (by apply sublist_app).
  unfold push_bounded. destruct (_ <? _)%Z; [|done]. etrans; [|exact Hlx].
  destruct (l ++ [x]); [done|]. by apply sublist_cons.
Qed.

Lemma unexpired_records_sublist retention now l : unexpired_records retention now l `sublist_of` l.
Proof. apply sublist_filter. Qed.
End Log.

Lemma push_bounded_fmap {A K} (key : A → K) n x (l : list A) : key <$> push_bounded n x l = push_bounded n (key x) (key <$> l).
Proof.
  unfold push_bounded. rewrite !length_app, length_fmap. destruct (_ <? _)%Z; [|by rewrite fmap_app].
  destruct l as [|y l]; simpl; [done|]. by rewrite fmap_app.
Qed.
