(* ===== verification/Diagnostics.v ===== *)
(** * The extension protocol diagnostics

    Models [ExtensionProtocolDiagnostics] as
    [src/src/extension_protocol_diagnostics.cpp] defines it, with the structures
    that file uses (the header declares others): three bounded logs, of
    handshakes, capability negotiations and messages, and what is counted from
    them. *)

From S2P Require Import Prelude Numeric Cli Logs.

Inductive HandshakeStatus := H_INITIATED | H_SUCCESS | H_FAILED.
Inductive NegotiationStatus := N_IN_PROGRESS | N_SUCCESS | N_FAILED.
Inductive MessageStatus := M_RECEIVED | M_SUCCESS | M_FAILED.
#[export] Instance HandshakeStatus_eq_dec : EqDecision HandshakeStatus.
Proof. solve_decision. Defined.
#[export] Instance NegotiationStatus_eq_dec : EqDecision NegotiationStatus.
Proof. solve_decision. Defined.
#[export] Instance MessageStatus_eq_dec : EqDecision MessageStatus.
Proof. solve_decision. Defined.

Inductive ErrorType := E_TIMEOUT | E_CONNECTION | E_PROTOCOL | E_HANDSHAKE | E_CAPABILITY | E_MESSAGE | E_UNKNOWN.
#[export] Instance ErrorType_eq_dec : EqDecision ErrorType.
Proof. solve_decision. Defined.
Definition error_code (e : ErrorType) : nat :=
  match e with
  | E_TIMEOUT => 0 | E_CONNECTION => 1 | E_PROTOCOL => 2 | E_HANDSHAKE => 3 | E_CAPABILITY => 4 | E_MESSAGE => 5 | E_UNKNOWN => 6
  end.
Definition error_of_code (n : nat) : ErrorType :=
  match n with
  | 0 => E_TIMEOUT | 1 => E_CONNECTION | 2 => E_PROTOCOL | 3 => E_HANDSHAKE | 4 => E_CAPABILITY | 5 => E_MESSAGE | _ => E_UNKNOWN
  end.
#[export, refine] Instance ErrorType_countable : Countable ErrorType := inj_countable' error_code error_of_code _.
Proof. by intros []. Defined.

Record HandshakeAttempt := mk_HandshakeAttempt {
  ha_peer_ip : string; ha_peer_port : Z; ha_info_hash : string; ha_timestamp : Z; ha_status : HandshakeStatus;
  ha_error_message : string;
}.
Record CapabilityNegotiation := mk_CapabilityNegotiation {
  cn_peer_ip : string; cn_peer_port : Z; cn_info_hash : string; cn_capabilities : list string; cn_timestamp : Z;
  cn_status : NegotiationStatus; cn_error_message : string;
}.
Record ProtocolMessage := mk_ProtocolMessage {
  pm_peer_ip : string; pm_peer_port : Z; pm_info_hash : string; pm_message_type : string; pm_message_data : list ascii;
  pm_timestamp : Z; pm_status : MessageStatus; pm_error_message : string;
}.

(** [data_retention] is in milliseconds. *)
Record DiagnosticsConfig := mk_DiagnosticsConfig {
  max_handshake_attempts : Z;
  max_negotiations : Z;
  max_messages : Z;
  dg_data_retention : Z;
}.
Record diagnostics := mk_diagnostics {
  dg_config : DiagnosticsConfig;
  handshake_attempts_ : list HandshakeAttempt;
  capability_negotiations_ : list CapabilityNegotiation;
  protocol_messages_ : list ProtocolMessage;
}.
#[export] Instance eta_diagnostics : Eta diagnostics := λ d,
  mk_diagnostics (dg_config d) (handshake_attempts_ d) (capability_negotiations_ d) (protocol_messages_ d).
Definition new_diagnostics (config : DiagnosticsConfig) : diagnostics := mk_diagnostics config [] [] [].

(** [counts[key]++] *)
Definition count_one `{Countable K} (key : K) (counts : gmap K Z) : gmap K Z :=
  <[key := (default 0 (counts !! key) + 1)%Z]> counts.

Definition classifyError (error_message : string) : ErrorType :=
  let mentions word := contains_text (chars word) (chars error_message) in
  if mentions "timeout" then E_TIMEOUT
  else if mentions "connection" then E_CONNECTION
  else if mentions "protocol" then E_PROTOCOL
  else if mentions "handshake" then E_HANDSHAKE
  else if mentions "capability" then E_CAPABILITY
  else if mentions "message" then E_MESSAGE
  else E_UNKNOWN.

Section Operations.
Context {W : Type} (steady_now : W → Z * W).
Implicit Types (d : diagnostics) (w : W) (ip info_hash : string) (port : Z).

Definition logHandshakeAttempt ip port info_hash d w : diagnostics * W :=
  let '(t, w) := steady_now w in
  (d <| handshake_attempts_ ::= push_bounded (max_handshake_attempts (dg_config d))
          (mk_HandshakeAttempt ip port info_hash t H_INITIATED "") |>, w).
Definition logCapabilityNegotiation ip port info_hash (capabilities : list string) d w : diagnostics * W :=
  let '(t, w) := steady_now w in
  (d <| capability_negotiations_ ::= push_bounded (max_negotiations (dg_config d))
          (mk_CapabilityNegotiation ip port info_hash capabilities t N_IN_PROGRESS "") |>, w).
Definition logMessage ip port info_hash (message_type : string) (message_data : list ascii) d w : diagnostics * W :=
  let '(t, w) := steady_now w in
  (d <| protocol_messages_ ::= push_bounded (max_messages (dg_config d))
          (mk_ProtocolMessage ip port info_hash message_type message_data t M_RECEIVED "") |>, w).

Definition clearExpiredData d w : diagnostics * W :=
  let '(now, w) := steady_now w in
  let retention := dg_data_retention (dg_config d) in
  (d <| handshake_attempts_ ::= unexpired_records ha_timestamp retention now |>
     <| capability_negotiations_ ::= unexpired_records cn_timestamp retention now |>
     <| protocol_messages_ ::= unexpired_records pm_timestamp retention now |>, w).
Definition clearAllData d : diagnostics :=
  d <| handshake_attempts_ := [] |> <| capability_negotiations_ := [] |> <| protocol_messages_ := [] |>.
Definition updateConfig (config : DiagnosticsConfig) d : diagnostics := d <| dg_config := config |>.
End Operations.

Section Queries.
Implicit Types (d : diagnostics) (ip info_hash : string) (port : Z).

Definition detectCompatibility ip port info_hash d : bool :=
  existsb (λ a, bool_decide (ha_peer_ip a = ip ∧ ha_peer_port a = port ∧ ha_info_hash a = info_hash ∧ ha_status a = H_SUCCESS))
    (handshake_attempts_ d)
  || existsb (λ n, bool_decide (cn_peer_ip n = ip ∧ cn_peer_port n = port ∧ cn_info_hash n = info_hash ∧ cn_status n = N_SUCCESS))
    (capability_negotiations_ d).

Definition getHandshakeAttemptsByPeer ip port d : list HandshakeAttempt :=
  filter (λ a, ha_peer_ip a = ip ∧ ha_peer_port a = port) (handshake_attempts_ d).
Definition getCapabilityNegotiationsByPeer ip port d : list CapabilityNegotiation :=
  filter (λ n, cn_peer_ip n = ip ∧ cn_peer_port n = port) (capability_negotiations_ d).
Definition getProtocolMessagesByPeer ip port d : list ProtocolMessage :=
  filter (λ m, pm_peer_ip m = ip ∧ pm_peer_port m = port) (protocol_messages_ d).
Definition getHandshakeAttemptsByInfoHash info_hash d : list HandshakeAttempt :=
  filter (λ a, ha_info_hash a = info_hash) (handshake_attempts_ d).
Definition getCapabilityNegotiationsByInfoHash info_hash d : list CapabilityNegotiation :=
  filter (λ n, cn_info_hash n = info_hash) (capability_negotiations_ d).
Definition getProtocolMessagesByInfoHash info_hash d : list ProtocolMessage :=
  filter (λ m, pm_info_hash m = info_hash) (protocol_messages_ d).

Definition count_int {A} (l : list A) : Z := int_of_Z (Z.of_nat (length l)).
Definition getHandshakeAttemptCount d : Z := count_int (handshake_attempts_ d).
Definition getCapabilityNegotiationCount d : Z := count_int (capability_negotiations_ d).
Definition getProtocolMessageCount d : Z := count_int (protocol_messages_ d).
Definition getHandshakeAttemptCountByPeer ip port d : Z := count_int (getHandshakeAttemptsByPeer ip port d).
Definition getCapabilityNegotiationCountByPeer ip port d : Z := count_int (getCapabilityNegotiationsByPeer ip port d).
Definition getProtocolMessageCountByPeer ip port d : Z := count_int (getProtocolMessagesByPeer ip port d).
Definition getHandshakeAttemptCountByInfoHash info_hash d : Z := count_int (getHandshakeAttemptsByInfoHash info_hash d).
Definition getCapabilityNegotiationCountByInfoHash info_hash d : Z :=
  count_int (getCapabilityNegotiationsByInfoHash info_hash d).
Definition getProtocolMessageCountByInfoHash info_hash d : Z := count_int (getProtocolMessagesByInfoHash info_hash d).

(** The share of the records with the property. *)
Definition success_rate {A} (success : A → Prop) `{∀ x, Decision (success x)} (l : list A) : double :=
  match l with
  | [] => double_of_int 0
  | _ => double_div (double_of_int (Z.of_nat (length (filter success l)))) (double_of_int (Z.of_nat (length l)))
  end.
Definition getHandshakeSuccessRate d : double := success_rate (λ a, ha_status a = H_SUCCESS) (handshake_attempts_ d).
Definition getCapabilityNegotiationSuccessRate d : double :=
  success_rate (λ n, cn_status n = N_SUCCESS) (capability_negotiations_ d).
Definition getProtocolMessageSuccessRate d : double := success_rate (λ m, pm_status m = M_SUCCESS) (protocol_messages_ d).

Definition count_errors {A} (failed : A → Prop) `{∀ x, Decision (failed x)} (error_message : A → string) (l : list A)
    (counts : gmap ErrorType Z) : gmap ErrorType Z :=
  foldl (λ counts x, if decide (failed x) then count_one (classifyError (error_message x)) counts else counts) counts l.
Definition getErrorCounts d : gmap ErrorType Z :=
  count_errors (λ m, pm_status m = M_FAILED) pm_error_message (protocol_messages_ d)
    (count_errors (λ n, cn_status n = N_FAILED) cn_error_message (capability_negotiations_ d)
      (count_errors (λ a, ha_status a = H_FAILED) ha_error_message (handshake_attempts_ d) ∅)).
Definition getMessageTypeCounts d : gmap string Z :=
  foldl (λ counts m, count_one (pm_message_type m) counts) ∅ (protocol_messages_ d).
Definition getCapabilityCounts d : gmap string Z :=
  foldl (λ counts n, foldl (λ counts capability, count_one capability counts) counts (cn_capabilities n)) ∅
    (capability_negotiations_ d).
End Queries.

Section Runs.
Context {W : Type} (steady_now : W → Z * W).

Inductive diagnostics_op :=
  | DHandshake (ip : string) (port : Z) (info_hash : string)
  | DNegotiation (ip : string) (port : Z) (info_hash : string) (capabilities : list string)
  | DMessage (ip : string) (port : Z) (info_hash message_type : string) (message_data : list ascii)
  | DClearExpired | DClearAll.
Definition run_diagnostics_op (st : diagnostics * W) (op : diagnostics_op) : diagnostics * W :=
  let '(d, w) := st in
  match op with
  | DHandshake ip port info_hash => logHandshakeAttempt steady_now ip port info_hash d w
  | DNegotiation ip port info_hash capabilities => logCapabilityNegotiation steady_now ip port info_hash capabilities d w
  | DMessage ip port info_hash ty data => logMessage steady_now ip port info_hash ty data d w
  | DClearExpired => clearExpiredData steady_now d w
  | DClearAll => (clearAllData d, w)
  end.
Definition run_diagnostics (ops : list diagnostics_op) (st : diagnostics * W) : diagnostics * W :=
  foldl run_diagnostics_op st ops.
End Runs.

(** ** What the logs hold *)

Definition handshake_call (op : diagnostics_op) : option (string * Z * string) :=
  match op with DHandshake ip port info_hash => Some (ip, port, info_hash) | _ => None end.
Definition negotiation_call (op : diagnostics_op) : option (string * Z * string * list string) :=
  match op with DNegotiation ip port info_hash capabilities => Some (ip, port, info_hash, capabilities) | _ => None end.
Definition message_call (op : diagnostics_op) : option (string * Z * string * string * list ascii) :=
  match op with DMessage ip port info_hash ty data => Some (ip, port, info_hash, ty, data) | _ => None end.
Definition clears (op : diagnostics_op) : bool := match op with DClearExpired | DClearAll => true | _ => false end.

Definition handshake_key (a : HandshakeAttempt) := (ha_peer_ip a, ha_peer_port a, ha_info_hash a).
Definition negotiation_key (n : CapabilityNegotiation) :=
  (cn_peer_ip n, cn_peer_port n, cn_info_hash n, cn_capabilities n).
Definition message_key (m : ProtocolMessage) :=
  (pm_peer_ip m, pm_peer_port m, pm_info_hash m, pm_message_type m, pm_message_data m).

(** One of the logs: where it is, its limit, and which calls append to it. *)
Section OneLog.
Context {W : Type} (steady_now : W → Z * W) {A K : Type} (log : diagnostics → list A) (key : A → K)
  (limit : DiagnosticsConfig → Z) (call : diagnostics_op → option K) (initial : A → Prop).

Definition appends : Prop := ∀ st op,
  let st' := run_diagnostics_op steady_now st op in
  dg_config st'.1 = dg_config st.1
  ∧ match call op with
    | Some k => ∃ x, key x = k ∧ initial x ∧ log st'.1 = push_bounded (limit (dg_config st.1)) x (log st.1)
    | None => if clears op then log st'.1 `sublist_of` log st.1 else log st'.1 = log st.1
    end.

Context (Happ : appends).

Lemma log_op_length st op : (0 ≤ limit (dg_config st.1) < 2 ^ 64)%Z →
  length (log st.1) ≤ Z.to_nat (limit (dg_config st.1)) →
  length (log (run_diagnostics_op steady_now st op).1) ≤ Z.to_nat (limit (dg_config st.1)).
Proof.
  intros Hlim Hlen. destruct (Happ st op) as [_ Hlog].
  destruct (call op) as [k|]; [destruct Hlog as (x & _ & _ & ->); by apply push_length|].
  destruct (clears op); [apply sublist_length in Hlog; lia|by rewrite Hlog].
Qed.

Lemma log_run_initial ops st : Forall initial (log st.1) → Forall initial (log (run_diagnostics steady_now ops st).1).
Proof.
  revert st. induction ops as [|op ops IH]; intros st Hst; simpl; [done|]. apply IH.
  destruct (Happ st op) as [_ Hlog]. destruct (call op) as [k|]; [destruct Hlog as (x & _ & Hx & ->); by apply Forall_push|].
  destruct (clears op); [|by rewrite Hlog]. rewrite Forall_forall in *. intros x Hx. apply Hst.
  by eapply elem_of_sublist.
Qed.

Lemma log_run ops st : (0 ≤ limit (dg_config st.1) < 2 ^ 64)%Z →
  length (log st.1) ≤ Z.to_nat (limit (dg_config st.1)) →
  let st' := run_diagnostics steady_now ops st in
  dg_config st'.1 = dg_config st.1
  ∧ length (log st'.1) ≤ Z.to_nat (limit (dg_config st.1))
  ∧ (forallb (negb ∘ clears) ops = true →
     key <$> log st'.1 = last_n (Z.to_nat (limit (dg_config st.1))) ((key <$> log st.1) ++ omap call ops)).
Proof.
  intros Hlim. revert st Hlim. induction ops as [|op ops IH]; intros st Hlim Hlen; cbv zeta.
  { split; [done|]. split; [done|]. intros _. rewrite app_nil_r, last_n_all by by rewrite length_fmap. done. }
  simpl. destruct (Happ st op) as [Hc Hlog]. pose proof (log_op_length st op Hlim Hlen) as Hlen1. rewrite <-Hc in Hlen1, Hlim.
  destruct (IH _ Hlim Hlen1) as (Hc' & Hlen' & Hkeep). rewrite Hc in *. split; [done|]. split; [done|].
  intros [Hop Hops]%andb_true_iff. rewrite Hkeep by done. apply negb_true_iff in Hop. rewrite Hop in Hlog.
  destruct (call op) as [k|]; [|by rewrite Hlog]. destruct Hlog as (x & <- & _ & ->).
  rewrite push_bounded_fmap, push_bounded_last_n, last_n_last_n_app by (rewrite ?length_fmap; done).
  by rewrite <-(assoc_L app).
Qed.
End OneLog.

Section Facts.
Context {W : Type} (steady_now : W → Z * W).

Lemma handshake_appends : appends steady_now handshake_attempts_ handshake_key max_handshake_attempts handshake_call
  (λ a, ha_status a = H_INITIATED).
Proof.
  intros [d w] op. destruct op; simpl; unfold logHandshakeAttempt, logCapabilityNegotiation, logMessage, clearExpiredData;
    try destruct (steady_now w); simpl; (split; [done|]); [eexists; split; [|split; [|reflexivity]]; done|done..|apply unexpired_records_sublist|apply sublist_nil_l].
Qed.
Lemma negotiation_appends : appends steady_now capability_negotiations_ negotiation_key max_negotiations negotiation_call
  (λ n, cn_status n = N_IN_PROGRESS).
Proof.
  intros [d w] op. destruct op; simpl; unfold logHandshakeAttempt, logCapabilityNegotiation, logMessage, clearExpiredData;
    try destruct (steady_now w); simpl; (split; [done|]); [done|eexists; split; [|split; [|reflexivity]]; done|done..|apply unexpired_records_sublist|apply sublist_nil_l].
Qed.
Lemma message_appends : appends steady_now protocol_messages_ message_key max_messages message_call
  (λ m, pm_status m = M_RECEIVED).
Proof.
  intros [d w] op. destruct op; simpl; unfold logHandshakeAttempt, logCapabilityNegotiation, logMessage, clearExpiredData;
    try destruct (steady_now w); simpl; (split; [done|]); [done..|eexists; split; [|split; [|reflexivity]]; done|apply unexpired_records_sublist|apply sublist_nil_l].
Qed.

Definition limits_fit (config : DiagnosticsConfig) : Prop :=
  (0 ≤ max_handshake_attempts config < 2 ^ 64)%Z ∧ (0 ≤ max_negotiations config < 2 ^ 64)%Z
  ∧ (0 ≤ max_messages config < 2 ^ 64)%Z.

(** Each log holds the last records of its kind, in the order in which
    they were logged, as many as are allowed: after any run, and any further
    calls that log (of all three kinds, interleaved), it is the tail of what it
    held followed by the new records of its kind. *)
Theorem logs_keep_last config (ops ops' : list diagnostics_op) w :
  limits_fit config → forallb (negb ∘ clears) ops' = true →
  let st := run_diagnostics steady_now ops (new_diagnostics config, w) in
  let st' := run_diagnostics steady_now ops' st in
  (handshake_key <$> handshake_attempts_ st'.1 = last_n (Z.to_nat (max_handshake_attempts config))
     ((handshake_key <$> handshake_attempts_ st.1) ++ omap handshake_call ops'))
  ∧ (negotiation_key <$> capability_negotiations_ st'.1 = last_n (Z.to_nat (max_negotiations config))
     ((negotiation_key <$> capability_negotiations_ st.1) ++ omap negotiation_call ops'))
  ∧ (message_key <$> protocol_messages_ st'.1 = last_n (Z.to_nat (max_messages config))
     ((message_key <$> protocol_messages_ st.1) ++ omap message_call ops')).
Proof.
  intros (Hh & Hn & Hm) Hops. cbv zeta.
  destruct (log_run _ _ _ _ _ _ handshake_appends ops (new_diagnostics config, w) Hh ltac:(simpl; lia)) as (Hc & Hlh & _).
  destruct (log_run _ _ _ _ _ _ negotiation_appends ops (new_diagnostics config, w) Hn ltac:(simpl; lia)) as (_ & Hln & _).
  destruct (log_run _ _ _ _ _ _ message_appends ops (new_diagnostics config, w) Hm ltac:(simpl; lia)) as (_ & Hlm & _).
  simpl in Hc, Hlh, Hln, Hlm. set (st := run_diagnostics steady_now ops (new_diagnostics config, w)) in *.
  rewrite <-Hc in *. split; [|split].
  - by apply (log_run _ _ _ _ _ _ handshake_appends ops' st).
  - by apply (log_run _ _ _ _ _ _ negotiation_appends ops' st).
  - by apply (log_run _ _ _ _ _ _ message_appends ops' st).
Qed.

Lemma count_errors_none {A} (failed : A → Prop) `{∀ x, Decision (failed x)} msg (l : list A) counts :
  Forall (λ x, ¬ failed x) l → count_errors failed msg l counts = counts.
Proof.
  unfold count_errors. revert counts. induction l as [|x l IH]; intros counts Hl; simpl; [done|].
  apply Forall_cons in Hl as [Hx Hl]. rewrite decide_False by done. by apply IH.
Qed.

Lemma success_rate_none {A} (success : A → Prop) `{∀ x, Decision (success x)} (l : list A) :
  Forall (λ x, ¬ success x) l → (Z.of_nat (length l) < 2 ^ 53)%Z → success_rate success l = double_of_int 0.
Proof.
  intros Hl Hlen. unfold success_rate. destruct l as [|x l]; [done|].
  assert (filter success (x :: l) = []) as ->.
  { apply elem_of_nil_inv. intros y [Hy Hin]%list_elem_of_filter. rewrite Forall_forall in Hl. by apply (Hl y). }
  apply zero_share. simpl length in *. lia.
Qed.

(** The diagnostics never reach a conclusion: no call records the outcome
    of a handshake, a negotiation or a message, so in every reachable state no
    peer counts as compatible, the three success rates are zero and no error
    is counted, whatever is logged. *)
Theorem diagnostics_inconclusive config (ops : list diagnostics_op) w ip port info_hash :
  limits_fit config →
  (max_handshake_attempts config < 2 ^ 53)%Z → (max_negotiations config < 2 ^ 53)%Z → (max_messages config < 2 ^ 53)%Z →
  let d := (run_diagnostics steady_now ops (new_diagnostics config, w)).1 in
  detectCompatibility ip port info_hash d = false
  ∧ getHandshakeSuccessRate d = double_of_int 0 ∧ getCapabilityNegotiationSuccessRate d = double_of_int 0
  ∧ getProtocolMessageSuccessRate d = double_of_int 0 ∧ getErrorCounts d = ∅.
Proof.
  intros (Hh & Hn & Hm) Hh53 Hn53 Hm53. cbv zeta.
  pose proof (log_run_initial _ _ _ _ _ _ handshake_appends ops (new_diagnostics config, w) ltac:(constructor)) as Hih.
  pose proof (log_run_initial _ _ _ _ _ _ negotiation_appends ops (new_diagnostics config, w) ltac:(constructor)) as Hin.
  pose proof (log_run_initial _ _ _ _ _ _ message_appends ops (new_diagnostics config, w) ltac:(constructor)) as Him.
  destruct (log_run _ _ _ _ _ _ handshake_appends ops (new_diagnostics config, w) Hh ltac:(simpl; lia)) as (_ & Hlh & _).
  destruct (log_run _ _ _ _ _ _ negotiation_appends ops (new_diagnostics config, w) Hn ltac:(simpl; lia)) as (_ & Hln & _).
  destruct (log_run _ _ _ _ _ _ message_appends ops (new_diagnostics config, w) Hm ltac:(simpl; lia)) as (_ & Hlm & _).
  simpl in Hlh, Hln, Hlm. destruct (run_diagnostics steady_now ops (new_diagnostics config, w)) as [d w1].
  cbn [fst] in *. split_all.
  - unfold detectCompatibility. apply orb_false_iff. rewrite Forall_forall in Hih. rewrite Forall_forall in Hin.
    split; apply not_true_is_false; rewrite existsb_exists;
      intros (x & Hx%list_elem_of_In & (_ & _ & _ & Hs)%bool_decide_eq_true).
    + specialize (Hih x Hx). simpl in Hih. congruence.
    + specialize (Hin x Hx). simpl in Hin. congruence.
  - apply success_rate_none; [|lia]. eapply Forall_impl; [exact Hih|]. simpl. congruence.
  - apply success_rate_none; [|lia]. eapply Forall_impl; [exact Hin|]. simpl. congruence.
  - apply success_rate_none; [|lia]. eapply Forall_impl; [exact Him|]. simpl. congruence.
  - unfold getErrorCounts. rewrite !count_errors_none; [done|..]; (eapply Forall_impl; [eassumption|]); simpl; congruence.
Qed.
End Facts.

(** ** Witnesses *)

Definition small_diagnostics : DiagnosticsConfig := mk_DiagnosticsConfig 2 10 3 60000.
Definition counting_clock (w : Z) : Z * Z := (w, (w + 1)%Z).

Lemma logs_keep_last_witness :
  let st := run_diagnostics counting_clock [DHandshake "a" 1 "h"; DClearExpired] (new_diagnostics small_diagnostics, 0%Z) in
  let st' := run_diagnostics counting_clock [DHandshake "b" 2 "h"; DMessage "b" 2 "h" "m" []; DHandshake "c" 3 "h"] st in
  handshake_key <$> handshake_attempts_ st.1 = [("a", 1%Z, "h")]
  ∧ handshake_key <$> handshake_attempts_ st'.1 = [("b", 2%Z, "h"); ("c", 3%Z, "h")].
Proof.
  cbv zeta. split; [vm_compute; reflexivity|].
  destruct (logs_keep_last counting_clock small_diagnostics [DHandshake "a" 1 "h"; DClearExpired]
    [DHandshake "b" 2 "h"; DMessage "b" 2 "h" "m" []; DHandshake "c" 3 "h"] 0%Z) as [Hlog _].
  - unfold limits_fit. split_all; vm_compute; congruence.
  - vm_compute. reflexivity.
  - rewrite Hlog. vm_compute. reflexivity.
Defined.

Lemma diagnostics_inconclusive_witness :
  let d := (run_diagnostics counting_clock [DHandshake "a" 1 "h"; DMessage "a" 1 "h" "handshake" []]
    (new_diagnostics small_diagnostics, 0%Z)).1 in
  getHandshakeAttemptCount d = 1%Z ∧ detectCompatibility "a" 1 "h" d = false ∧ getErrorCounts d = ∅.
Proof.
  cbv zeta. split; [vm_compute; reflexivity|].
  destruct (diagnostics_inconclusive counting_clock small_diagnostics
    [DHandshake "a" 1 "h"; DMessage "a" 1 "h" "handshake" []] 0%Z "a" 1 "h") as (Hd & _ & _ & _ & He);
    [unfold limits_fit; split_all; vm_compute; congruence|vm_compute; congruence..|].
  split; [exact Hd|exact He].
Defined.
