(* ===== verification/IssueResolver.v ===== *)
(** * The BEP 9 issue resolver

    Models [BEP9IssueResolver] as [src/src/bep9_issue_resolver.cpp] defines it,
    with the structures that file uses (the header declares others).  The
    source's [getRecentFailures] and [getMessagesForPeer] return nothing; the
    classification of failures and messages, which is therefore never run on
    anything, is modelled as functions of the records it is given. *)

From S2P Require Import Prelude Numeric Logs Diagnostics.

Inductive IssueType := I_UNKNOWN | I_NO_DATA | I_TIMEOUT | I_CONNECTION | I_PROTOCOL | I_MIXED.
Inductive IssueSeverity := LOW | MEDIUM | HIGH.
Inductive FailureType := F_TIMEOUT | F_CONNECTION | F_PROTOCOL | F_HANDSHAKE | F_CAPABILITY | F_MESSAGE.
Inductive PatternType :=
  | P_UNKNOWN | P_NO_DATA | TIMEOUT_DOMINANT | CONNECTION_DOMINANT | PROTOCOL_DOMINANT | HANDSHAKE_DOMINANT
  | CAPABILITY_DOMINANT | MESSAGE_DOMINANT | P_MIXED.
Inductive MessageOutcome := O_SUCCESS | O_FAILED | O_TIMEOUT.
#[export] Instance IssueType_eq_dec : EqDecision IssueType.
Proof. solve_decision. Defined.
#[export] Instance IssueSeverity_eq_dec : EqDecision IssueSeverity.
Proof. solve_decision. Defined.
#[export] Instance FailureType_eq_dec : EqDecision FailureType.
Proof. solve_decision. Defined.
#[export] Instance PatternType_eq_dec : EqDecision PatternType.
Proof. solve_decision. Defined.
#[export] Instance MessageOutcome_eq_dec : EqDecision MessageOutcome.
Proof. solve_decision. Defined.

(** A failure is kept as its type, a message as its status and its type: what
    the code reads of them. *)
Record MessageRecord := mk_MessageRecord { msg_status : MessageOutcome; msg_type : string }.

Record IssueDiagnosis := mk_IssueDiagnosis {
  id_peer_ip : string; id_peer_port : Z; id_info_hash : string; id_timestamp : Z;
  issue_type : IssueType; severity : IssueSeverity; description : string; recommendations : list string;
}.
#[export] Instance eta_IssueDiagnosis : Eta IssueDiagnosis := λ d,
  mk_IssueDiagnosis (id_peer_ip d) (id_peer_port d) (id_info_hash d) (id_timestamp d) (issue_type d) (severity d)
    (description d) (recommendations d).

Record MessageFlowAnalysis := mk_MessageFlowAnalysis {
  mf_peer_ip : string; mf_peer_port : Z; mf_info_hash : string; mf_timestamp : Z;
  total_messages : Z; successful_messages : Z; failed_messages : Z; timeout_messages : Z;
  message_types : gmap string Z; flow_efficiency : double; bottlenecks : list string;
}.
#[export] Instance eta_MessageFlowAnalysis : Eta MessageFlowAnalysis := λ a,
  mk_MessageFlowAnalysis (mf_peer_ip a) (mf_peer_port a) (mf_info_hash a) (mf_timestamp a) (total_messages a)
    (successful_messages a) (failed_messages a) (timeout_messages a) (message_types a) (flow_efficiency a) (bottlenecks a).

Record FailurePattern := mk_FailurePattern {
  fp_peer_ip : string; fp_peer_port : Z; fp_info_hash : string; fp_timestamp : Z;
  timeout_count : Z; connection_count : Z; protocol_count : Z; handshake_count : Z; capability_count : Z;
  message_count : Z; total_failures : Z; pattern_type : PatternType;
}.
#[export] Instance eta_FailurePattern : Eta FailurePattern := λ p,
  mk_FailurePattern (fp_peer_ip p) (fp_peer_port p) (fp_info_hash p) (fp_timestamp p) (timeout_count p)
    (connection_count p) (protocol_count p) (handshake_count p) (capability_count p) (message_count p)
    (total_failures p) (pattern_type p).

Record DisconnectionRecord := mk_DisconnectionRecord {
  dr_peer_ip : string; dr_peer_port : Z; dr_info_hash : string; dr_reason : string; dr_timestamp : Z;
}.

Record ResolverConfig := mk_ResolverConfig {
  max_diagnoses : Z; max_analyses : Z; max_patterns : Z; max_disconnections : Z; rv_data_retention : Z;
}.
Record resolver := mk_resolver {
  rv_config : ResolverConfig;
  issue_diagnoses_ : list IssueDiagnosis;
  message_flow_analyses_ : list MessageFlowAnalysis;
  failure_patterns_ : list FailurePattern;
  disconnection_records_ : list DisconnectionRecord;
}.
#[export] Instance eta_resolver : Eta resolver := λ r,
  mk_resolver (rv_config r) (issue_diagnoses_ r) (message_flow_analyses_ r) (failure_patterns_ r) (disconnection_records_ r).
Definition new_resolver (config : ResolverConfig) : resolver := mk_resolver config [] [] [] [].

(** ** Classification *)

Definition count_failure (p : FailurePattern) (f : FailureType) : FailurePattern :=
  match f with
  | F_TIMEOUT => p <| timeout_count ::= Z.succ |>
  | F_CONNECTION => p <| connection_count ::= Z.succ |>
  | F_PROTOCOL => p <| protocol_count ::= Z.succ |>
  | F_HANDSHAKE => p <| handshake_count ::= Z.succ |>
  | F_CAPABILITY => p <| capability_count ::= Z.succ |>
  | F_MESSAGE => p <| message_count ::= Z.succ |>
  end.
(** [static_cast<int>(failures.size())] *)
Definition analyzeFailurePattern_at (t : Z) (failures : list FailureType) : FailurePattern :=
  foldl count_failure (mk_FailurePattern "" 0 "" t 0 0 0 0 0 0 (count_int failures) P_UNKNOWN) failures.

Definition classify_issue (p : FailurePattern) (d : IssueDiagnosis) : IssueDiagnosis :=
  if (connection_count p <? timeout_count p)%Z && (protocol_count p <? timeout_count p)%Z then
    d <| issue_type := I_TIMEOUT |> <| severity := HIGH |> <| description := "Frequent timeout issues" |>
      <| recommendations ::= λ l, l ++ ["Increase timeout values"; "Check network connectivity"] |>
  else if (timeout_count p <? connection_count p)%Z && (protocol_count p <? connection_count p)%Z then
    d <| issue_type := I_CONNECTION |> <| severity := HIGH |> <| description := "Connection issues" |>
      <| recommendations ::= λ l, l ++ ["Check peer availability"; "Verify network configuration"] |>
  else if (timeout_count p <? protocol_count p)%Z && (connection_count p <? protocol_count p)%Z then
    d <| issue_type := I_PROTOCOL |> <| severity := MEDIUM |> <| description := "Protocol compatibility issues" |>
      <| recommendations ::= λ l, l ++ ["Check protocol version compatibility"; "Verify message format"] |>
  else
    d <| issue_type := I_MIXED |> <| severity := MEDIUM |> <| description := "Mixed failure types" |>
      <| recommendations ::= λ l, l ++ ["Investigate multiple failure causes"] |>.

(** [count > total * 0.6], in doubles. *)
Definition dominates (count total : Z) : bool :=
  double_lt (double_mul (double_of_int total) (double_lit 6 10)) (double_of_int count).
Definition classify_pattern (p : FailurePattern) : PatternType :=
  let total := total_failures p in
  if dominates (timeout_count p) total then TIMEOUT_DOMINANT
  else if dominates (connection_count p) total then CONNECTION_DOMINANT
  else if dominates (protocol_count p) total then PROTOCOL_DOMINANT
  else if dominates (handshake_count p) total then HANDSHAKE_DOMINANT
  else if dominates (capability_count p) total then CAPABILITY_DOMINANT
  else if dominates (message_count p) total then MESSAGE_DOMINANT
  else P_MIXED.

Definition count_message (a : MessageFlowAnalysis) (m : MessageRecord) : MessageFlowAnalysis :=
  (match msg_status m with
   | O_SUCCESS => a <| successful_messages ::= Z.succ |>
   | O_FAILED => a <| failed_messages ::= Z.succ |>
   | O_TIMEOUT => a <| timeout_messages ::= Z.succ |>
   end) <| message_types ::= count_one (msg_type m) |>.
Definition exceeds_share (count total : Z) (share : double) : bool :=
  double_lt (double_mul (double_of_int total) share) (double_of_int count).
Definition find_bottlenecks (a : MessageFlowAnalysis) : list string :=
  (if exceeds_share (timeout_messages a) (total_messages a) (double_lit 5 10) then ["High timeout rate"] else [])
  ++ (if exceeds_share (failed_messages a) (total_messages a) (double_lit 3 10) then ["High failure rate"] else [])
  ++ (match message_types a !! "handshake" with
      | Some n => if exceeds_share n (total_messages a) (double_lit 4 10) then ["Excessive handshake attempts"] else []
      | None => []
      end).
(** The analysis of messages that are there. *)
Definition analyze_messages (messages : list MessageRecord) (a : MessageFlowAnalysis) : MessageFlowAnalysis :=
  let a := foldl count_message (a <| total_messages := count_int messages |>) messages in
  let a := if (0 <? total_messages a)%Z
    then a <| flow_efficiency := double_div (double_of_int (successful_messages a)) (double_of_int (total_messages a)) |>
    else a in
  a <| bottlenecks ::= λ l, l ++ find_bottlenecks a |>.

(** ** Operations *)

Section Operations.
Context {W : Type} (steady_now : W → Z * W).
Implicit Types (r : resolver) (w : W) (ip info_hash : string) (port : Z).

Definition getRecentFailures ip port info_hash r : list FailureType := [].
Definition getMessagesForPeer ip port info_hash r : list MessageRecord := [].

Definition analyzeFailurePattern (failures : list FailureType) w : FailurePattern * W :=
  let '(t, w) := steady_now w in (analyzeFailurePattern_at t failures, w).

Definition diagnoseFailure ip port info_hash r w : IssueDiagnosis * resolver * W :=
  let '(t, w) := steady_now w in
  let diagnosis := mk_IssueDiagnosis ip port info_hash t I_UNKNOWN LOW "Unknown issue" [] in
  match getRecentFailures ip port info_hash r with
  | [] => (diagnosis <| issue_type := I_NO_DATA |> <| description := "No failure data available" |>
             <| recommendations ::= λ l, l ++ ["Collect more failure data"] |>, r, w)
  | failures =>
    let '(pattern, w) := analyzeFailurePattern failures w in
    let diagnosis := classify_issue pattern diagnosis in
    (diagnosis, r <| issue_diagnoses_ ::= push_bounded (max_diagnoses (rv_config r)) diagnosis |>, w)
  end.

Definition analyzeMessageFlow ip port info_hash r w : MessageFlowAnalysis * resolver * W :=
  let '(t, w) := steady_now w in
  let analysis := mk_MessageFlowAnalysis ip port info_hash t 0 0 0 0 ∅ (double_of_int 0) [] in
  match getMessagesForPeer ip port info_hash r with
  | [] => (analysis <| bottlenecks ::= λ l, l ++ ["No message data available"] |>, r, w)
  | messages =>
    let analysis := analyze_messages messages analysis in
    (analysis, r <| message_flow_analyses_ ::= push_bounded (max_analyses (rv_config r)) analysis |>, w)
  end.

Definition detectFailurePattern ip port info_hash r w : FailurePattern * resolver * W :=
  let '(t, w) := steady_now w in
  let pattern := mk_FailurePattern ip port info_hash t 0 0 0 0 0 0 0 P_UNKNOWN in
  match getRecentFailures ip port info_hash r with
  | [] => (pattern <| pattern_type := P_NO_DATA |>, r, w)
  | failures =>
    let pattern := foldl count_failure (pattern <| total_failures := count_int failures |>) failures in
    let pattern := pattern <| pattern_type := classify_pattern pattern |> in
    (pattern, r <| failure_patterns_ ::= push_bounded (max_patterns (rv_config r)) pattern |>, w)
  end.

Definition logDisconnectionReason ip port info_hash (reason : string) r w : resolver * W :=
  let '(t, w) := steady_now w in
  (r <| disconnection_records_ ::= push_bounded (max_disconnections (rv_config r))
          (mk_DisconnectionRecord ip port info_hash reason t) |>, w).

Definition clearExpiredData r w : resolver * W :=
  let '(now, w) := steady_now w in
  let retention := rv_data_retention (rv_config r) in
  (r <| issue_diagnoses_ ::= unexpired_records id_timestamp retention now |>
     <| message_flow_analyses_ ::= unexpired_records mf_timestamp retention now |>
     <| failure_patterns_ ::= unexpired_records fp_timestamp retention now |>
     <| disconnection_records_ ::= unexpired_records dr_timestamp retention now |>, w).
Definition clearAllData r : resolver :=
  r <| issue_diagnoses_ := [] |> <| message_flow_analyses_ := [] |> <| failure_patterns_ := [] |>
    <| disconnection_records_ := [] |>.
Definition updateConfig (config : ResolverConfig) r : resolver := r <| rv_config := config |>.

Definition getIssueDiagnosesByPeer ip port r : list IssueDiagnosis :=
  filter (λ d, id_peer_ip d = ip ∧ id_peer_port d = port) (issue_diagnoses_ r).
Definition getMessageFlowAnalysesByPeer ip port r : list MessageFlowAnalysis :=
  filter (λ a, mf_peer_ip a = ip ∧ mf_peer_port a = port) (message_flow_analyses_ r).
Definition getFailurePatternsByPeer ip port r : list FailurePattern :=
  filter (λ p, fp_peer_ip p = ip ∧ fp_peer_port p = port) (failure_patterns_ r).
Definition getDisconnectionRecordsByPeer ip port r : list DisconnectionRecord :=
  filter (λ d, dr_peer_ip d = ip ∧ dr_peer_port d = port) (disconnection_records_ r).
Definition getIssueDiagnosisCount r : Z := count_int (issue_diagnoses_ r).
Definition getMessageFlowAnalysisCount r : Z := count_int (message_flow_analyses_ r).
Definition getFailurePatternCount r : Z := count_int (failure_patterns_ r).
Definition getDisconnectionRecordCount r : Z := count_int (disconnection_records_ r).
Definition getAverageFlowEfficiency r : double :=
  match message_flow_analyses_ r with
  | [] => double_of_int 0
  | analyses =>
    double_div (foldl (λ total a, double_add total (flow_efficiency a)) (double_of_int 0) analyses)
      (double_of_int (Z.of_nat (length analyses)))
  end.
(** The counts, keys in no particular order: how many records have the key,
    [None] for keys of no record. *)
Definition count_by {A K} `{EqDecision K} (key : A → K) (l : list A) (k : K) : option Z :=
  match filter (λ x, key x = k) l with [] => None | l => Some (count_int l) end.
Definition getIssueTypeCounts r : IssueType → option Z := count_by issue_type (issue_diagnoses_ r).
Definition getIssueSeverityCounts r : IssueSeverity → option Z := count_by severity (issue_diagnoses_ r).
Definition getPatternTypeCounts r : PatternType → option Z := count_by pattern_type (failure_patterns_ r).

Inductive resolver_op :=
  | RDiagnose ip port info_hash | RAnalyze ip port info_hash | RDetect ip port info_hash
  | RDisconnect ip port info_hash (reason : string) | RClearExpired | RClearAll | RConfig (config : ResolverConfig).
Definition run_resolver_op (st : resolver * W) (op : resolver_op) : resolver * W :=
  let '(r, w) := st in
  match op with
  | RDiagnose ip port info_hash => let '(_, r, w) := diagnoseFailure ip port info_hash r w in (r, w)
  | RAnalyze ip port info_hash => let '(_, r, w) := analyzeMessageFlow ip port info_hash r w in (r, w)
  | RDetect ip port info_hash => let '(_, r, w) := detectFailurePattern ip port info_hash r w in (r, w)
  | RDisconnect ip port info_hash reason => logDisconnectionReason ip port info_hash reason r w
  | RClearExpired => clearExpiredData r w
  | RClearAll => (clearAllData r, w)
  | RConfig config => (updateConfig config r, w)
  end.
Definition run_resolver (ops : list resolver_op) (st : resolver * W) : resolver * W := foldl run_resolver_op st ops.
End Operations.

(** ** How failures are classified *)

Definition failures_of (f : FailureType) (failures : list FailureType) : Z :=
  Z.of_nat (length (filter (eq f) failures)).

Lemma failures_of_cons f g l : failures_of f (g :: l) = ((if decide (f = g) then 1 else 0) + failures_of f l)%Z.
Proof. unfold failures_of. rewrite filter_cons. destruct (decide (f = g)); [simpl length; lia|done]. Qed.

(** One pass of the loop counts each type. *)
Lemma count_failures failures p :
  let p' := foldl count_failure p failures in
  timeout_count p' = (timeout_count p + failures_of F_TIMEOUT failures)%Z
  ∧ connection_count p' = (connection_count p + failures_of F_CONNECTION failures)%Z
  ∧ protocol_count p' = (protocol_count p + failures_of F_PROTOCOL failures)%Z
  ∧ handshake_count p' = (handshake_count p + failures_of F_HANDSHAKE failures)%Z
  ∧ capability_count p' = (capability_count p + failures_of F_CAPABILITY failures)%Z
  ∧ message_count p' = (message_count p + failures_of F_MESSAGE failures)%Z
  ∧ total_failures p' = total_failures p.
Proof.
  revert p. induction failures as [|f failures IH]; intros p; cbv zeta; simpl foldl.
  { unfold failures_of. simpl. split_all; lia. }
  destruct (IH (count_failure p f)) as (-> & -> & -> & -> & -> & -> & ->). rewrite !failures_of_cons.
  destruct f; simpl; split_all; lia.
Qed.

(** Every failure is of one of the types. *)
Lemma failures_partition failures :
  (failures_of F_TIMEOUT failures + failures_of F_CONNECTION failures + failures_of F_PROTOCOL failures
   + failures_of F_HANDSHAKE failures + failures_of F_CAPABILITY failures + failures_of F_MESSAGE failures
   = Z.of_nat (length failures))%Z.
Proof.
  induction failures as [|f failures IH]; [done|]. rewrite !failures_of_cons. simpl length. destruct f; simpl; lia.
Qed.

Definition issue_for (timeouts connections protocols : Z) : IssueType :=
  if decide (connections < timeouts ∧ protocols < timeouts)%Z then I_TIMEOUT
  else if decide (timeouts < connections ∧ protocols < connections)%Z then I_CONNECTION
  else if decide (timeouts < protocols ∧ connections < protocols)%Z then I_PROTOCOL else I_MIXED.

(** The diagnosis of a set of failures names the kind, of timeouts,
    connection failures and protocol failures, that outnumbers each of the two
    others, and is mixed when there is none.  The order of the failures does
    not matter, and the three other kinds are counted but have no influence:
    with them alone the diagnosis is mixed. *)
Theorem issue_plurality t (failures : list FailureType) d :
  let p := analyzeFailurePattern_at t failures in
  issue_type (classify_issue p d)
    = issue_for (failures_of F_TIMEOUT failures) (failures_of F_CONNECTION failures) (failures_of F_PROTOCOL failures)
  ∧ severity (classify_issue p d)
    = (match issue_type (classify_issue p d) with I_TIMEOUT | I_CONNECTION => HIGH | _ => MEDIUM end)
  ∧ (timeout_count p + connection_count p + protocol_count p + handshake_count p + capability_count p + message_count p
     = Z.of_nat (length failures))%Z.
Proof.
  cbv zeta. unfold analyzeFailurePattern_at.
  destruct (count_failures failures (mk_FailurePattern "" 0 "" t 0 0 0 0 0 0 (count_int failures) P_UNKNOWN))
    as (Ht & Hc & Hp & Hh & Hca & Hm & _). simpl in Ht, Hc, Hp, Hh, Hca, Hm.
  pose proof (failures_partition failures). unfold classify_issue, issue_for. rewrite Ht, Hc, Hp.
  split; [|split; [|lia]].
  - repeat (case_decide; destruct_and?);
      repeat match goal with |- context [(?a <? ?b)%Z] => destruct (Z.ltb_spec a b) end; simpl; done || lia.
  - by repeat match goal with |- context [if ?b then _ else _] => destruct b end.
Qed.

Section Facts.
Context {W : Type} (steady_now : W → Z * W).

Definition no_analyses (r : resolver) : Prop :=
  issue_diagnoses_ r = [] ∧ message_flow_analyses_ r = [] ∧ failure_patterns_ r = [].

Lemma run_resolver_op_empty st op : no_analyses st.1 → no_analyses (run_resolver_op steady_now st op).1.
Proof.
  destruct st as [r w]. intros (Hd & Ha & Hp). simpl in Hd, Ha, Hp.
  destruct op; simpl; unfold diagnoseFailure, analyzeMessageFlow, detectFailurePattern, logDisconnectionReason, clearExpiredData;
    try destruct (steady_now w); unfold no_analyses; simpl; rewrite ?Hd, ?Ha, ?Hp; done.
Qed.

Lemma run_resolver_empty ops st : no_analyses st.1 → no_analyses (run_resolver steady_now ops st).1.
Proof.
  unfold run_resolver. revert st. induction ops as [|op ops IH]; intros st Hst; simpl; [done|].
  by apply IH, run_resolver_op_empty.
Qed.

Definition disconnect_key (d : DisconnectionRecord) := (dr_peer_ip d, dr_peer_port d, dr_info_hash d, dr_reason d).
Definition disconnect_call (op : resolver_op) : option (string * Z * string * string) :=
  match op with RDisconnect ip port info_hash reason => Some (ip, port, info_hash, reason) | _ => None end.
Definition keeps_records (op : resolver_op) : bool :=
  match op with RClearExpired | RClearAll | RConfig _ => false | _ => true end.

Lemma disconnections_run ops st : (0 ≤ max_disconnections (rv_config st.1) < 2 ^ 64)%Z →
  length (disconnection_records_ st.1) ≤ Z.to_nat (max_disconnections (rv_config st.1)) →
  forallb keeps_records ops = true →
  disconnect_key <$> disconnection_records_ (run_resolver steady_now ops st).1
  = last_n (Z.to_nat (max_disconnections (rv_config st.1)))
      ((disconnect_key <$> disconnection_records_ st.1) ++ omap disconnect_call ops).
Proof.
  revert st. induction ops as [|op ops IH]; intros [r w] Hlim Hlen; simpl in *.
  { intros _. by rewrite app_nil_r, last_n_all by by rewrite length_fmap. }
  intros [Hop Hops]%andb_true_iff.
  assert (Hsame : ∀ st', rv_config st'.1 = rv_config r → disconnection_records_ st'.1 = disconnection_records_ r →
    disconnect_key <$> disconnection_records_ (run_resolver steady_now ops st').1
    = last_n (Z.to_nat (max_disconnections (rv_config r)))
        ((disconnect_key <$> disconnection_records_ r) ++ omap disconnect_call ops)).
  { intros st' Hc Hd. rewrite IH by (rewrite ?Hc, ?Hd; done). by rewrite Hc, Hd. }
  unfold run_resolver in *.
  destruct op; simpl in *; try done;
    unfold diagnoseFailure, analyzeMessageFlow, detectFailurePattern, logDisconnectionReason; destruct (steady_now w) as [t w1];
    simpl; [by apply Hsame..|].
  rewrite IH; simpl; [|done|by apply push_length|done].
  rewrite push_bounded_fmap, push_bounded_last_n, last_n_last_n_app by (rewrite ?length_fmap; done).
  by rewrite <-(assoc_L app).
Qed.

(** The resolver has nothing to work on: failures and messages are not
    recorded anywhere, so whatever was done before, every diagnosis, analysis
    and pattern says that there is no data, and none is kept.  What is kept
    are the last disconnections, as many as configured. *)
Theorem resolver_has_no_data config (ops ops' : list resolver_op) w ip port info_hash :
  let st := run_resolver steady_now ops (new_resolver config, w) in
  let r := st.1 in
  issue_type (diagnoseFailure steady_now ip port info_hash r st.2).1.1 = I_NO_DATA
  ∧ pattern_type (detectFailurePattern steady_now ip port info_hash r st.2).1.1 = P_NO_DATA
  ∧ bottlenecks (analyzeMessageFlow steady_now ip port info_hash r st.2).1.1 = ["No message data available"]
  ∧ getIssueDiagnosisCount r = 0%Z ∧ getMessageFlowAnalysisCount r = 0%Z ∧ getFailurePatternCount r = 0%Z
  ∧ getAverageFlowEfficiency r = double_of_int 0
  ∧ ((0 ≤ max_disconnections config < 2 ^ 64)%Z → forallb keeps_records ops' = true →
     disconnect_key <$> disconnection_records_ (run_resolver steady_now ops' (new_resolver config, w)).1
     = last_n (Z.to_nat (max_disconnections config)) (omap disconnect_call ops')).
Proof.
  cbv zeta. destruct (run_resolver_empty ops (new_resolver config, w)) as (Hd & Ha & Hp); [done|].
  destruct (run_resolver steady_now ops (new_resolver config, w)) as [r w1]. simpl in Hd, Ha, Hp. cbn [fst snd].
  unfold diagnoseFailure, detectFailurePattern, analyzeMessageFlow, getIssueDiagnosisCount, getMessageFlowAnalysisCount,
    getFailurePatternCount, getAverageFlowEfficiency. rewrite Hd, Ha, Hp. destruct (steady_now w1) as [t w2].
  split_all; [done..|]. intros Hlim Hops. by apply (disconnections_run ops' (new_resolver config, w) Hlim); [simpl; lia|].
Qed.
End Facts.

(** ** Witnesses *)

Definition small_resolver : ResolverConfig := mk_ResolverConfig 5 5 5 2 60000.

Example handshake_failures_are_mixed :
  issue_type (classify_issue (analyzeFailurePattern_at 0 [F_HANDSHAKE; F_HANDSHAKE; F_HANDSHAKE])
    (mk_IssueDiagnosis "" 0 "" 0 I_UNKNOWN LOW "" [])) = I_MIXED
  ∧ classify_pattern (analyzeFailurePattern_at 0 [F_HANDSHAKE; F_HANDSHAKE; F_HANDSHAKE]) = HANDSHAKE_DOMINANT.
Proof. vm_compute. done. Qed.

(** Sixty percent of the failures is not enough for [DOMINANT]. *)
Example three_of_five_mixed :
  classify_pattern (analyzeFailurePattern_at 0 [F_TIMEOUT; F_TIMEOUT; F_TIMEOUT; F_MESSAGE; F_MESSAGE]) = P_MIXED.
Proof. vm_compute. reflexivity. Qed.

Lemma resolver_has_no_data_witness :
  disconnect_key <$> disconnection_records_ (run_resolver counting_clock
     [RDisconnect "a" 1 "h" "x"; RDiagnose "a" 1 "h"; RDisconnect "b" 2 "h" "y"; RDisconnect "c" 3 "h" "z"]
     (new_resolver small_resolver, 0%Z)).1
  = [("b", 2%Z, "h", "y"); ("c", 3%Z, "h", "z")].
Proof.
  destruct (resolver_has_no_data counting_clock small_resolver []
    [RDisconnect "a" 1 "h" "x"; RDiagnose "a" 1 "h"; RDisconnect "b" 2 "h" "y"; RDisconnect "c" 3 "h" "z"] 0%Z "a" 1 "h")
    as (_ & _ & _ & _ & _ & _ & _ & Hlog).
  rewrite Hlog; [vm_compute; reflexivity|vm_compute; split; congruence|reflexivity].
Defined.
