(* ===== verification/Bootstrap.v ===== *)
(** * Bootstrapping

    Models [EnhancedBootstrap] as [src/src/enhanced_bootstrap.cpp] defines it,
    with the structures that file uses (the header declares others, and no
    initial state; [NOT_STARTED] is the one the source names for it).  The
    attempt to contact a node is simulated by the code: it compares counters
    and sends nothing.  The clock and the random engine are parameters. *)

From S2P Require Import Prelude Numeric.

Class BootstrapWorld (W : Type) := {
  boot_now : W → Z * W;
  (** [dist(rng_)] for bytes, and [rng_()] *)
  random_byte : W → Z * W;
  random_word : W → Z * W;
}.

Inductive NodeStatus := UNKNOWN | GOOD | BAD.
Inductive BootstrapState := NOT_STARTED | IN_PROGRESS | SUCCESS | FAILED | EXPIRED.
#[export] Instance BootstrapState_eq_dec : EqDecision BootstrapState.
Proof. solve_decision. Defined.

Record BootstrapConfig := mk_BootstrapConfig {
  max_bootstrap_attempts : Z;
  min_successful_nodes : Z;
  bootstrap_timeout : Z;
  max_node_failures : Z;
  node_timeout : Z;
}.

Record BootstrapNode := mk_BootstrapNode {
  bn_ip_address : string;
  bn_port : Z;
  bn_node_id : list ascii;
  bn_status : NodeStatus;
  last_attempt : Z;
  success_count : Z;
  failure_count : Z;
  (** in milliseconds *)
  bn_response_time : Z;
}.
#[export] Instance eta_BootstrapNode : Eta BootstrapNode := λ n,
  mk_BootstrapNode (bn_ip_address n) (bn_port n) (bn_node_id n) (bn_status n) (last_attempt n) (success_count n)
    (failure_count n) (bn_response_time n).

Record bootstrap := mk_bootstrap {
  boot_config : BootstrapConfig;
  bootstrap_nodes_ : list BootstrapNode;
  successful_bootstrap_nodes_ : list BootstrapNode;
  failed_bootstrap_nodes_ : list BootstrapNode;
  bootstrap_state_ : BootstrapState;
  bootstrap_attempts_ : Z;
  last_bootstrap_time_ : Z;
}.
#[export] Instance eta_bootstrap : Eta bootstrap := λ b,
  mk_bootstrap (boot_config b) (bootstrap_nodes_ b) (successful_bootstrap_nodes_ b) (failed_bootstrap_nodes_ b)
    (bootstrap_state_ b) (bootstrap_attempts_ b) (last_bootstrap_time_ b).

Section Operations.
Context `{BootstrapWorld W}.
Implicit Types (b : bootstrap) (n : BootstrapNode) (w : W) (ip : string) (port : Z).

Fixpoint random_bytes (k : nat) w : list ascii * W :=
  match k with
  | O => ([], w)
  | S k => let '(x, w) := random_byte w in let '(xs, w) := random_bytes k w in (byte_of x :: xs, w)
  end.
Definition generateNodeId w : list ascii * W := random_bytes 20 w.

Definition addBootstrapNode ip port b w : bool * bootstrap * W :=
  let '(node_id, w) := generateNodeId w in
  (true, b <| bootstrap_nodes_ ::= λ l, l ++ [mk_BootstrapNode ip port node_id UNKNOWN 0 0 0 0] |>, w).

Definition default_nodes : list (string * Z) :=
  [("router.bittorrent.com", 6881); ("dht.transmissionbt.com", 6881); ("router.utorrent.com", 6881);
   ("dht.aelitis.com", 6881); ("router.bitcomet.com", 6881)]%Z.
Definition addDefaultBootstrapNodes b w : bootstrap * W :=
  foldl (λ '(b, w) p, let '(_, b, w) := addBootstrapNode p.1 p.2 b w in (b, w)) (b, w) default_nodes.
Definition new_bootstrap (config : BootstrapConfig) w : bootstrap * W :=
  addDefaultBootstrapNodes (mk_bootstrap config [] [] [] NOT_STARTED 0 0) w.

Definition matches_node ip port n : Prop := bn_ip_address n = ip ∧ bn_port n = port.
#[export] Instance matches_node_dec ip port n : Decision (matches_node ip port n).
Proof. unfold matches_node. apply _. Defined.
Definition removeBootstrapNode ip port b : bool * bootstrap :=
  match list_find (matches_node ip port) (bootstrap_nodes_ b) with
  | Some (i, _) => (true, b <| bootstrap_nodes_ ::= delete i |>)
  | None => (false, b)
  end.

(** The node is changed through a [const_cast]. *)
Definition attemptBootstrap (config : BootstrapConfig) n w : bool * BootstrapNode * W :=
  if (failure_count n <? max_node_failures config)%Z then
    let '(t, w) := boot_now w in
    let '(r, w) := random_word w in
    (true, n <| success_count ::= Z.succ |> <| bn_status := GOOD |> <| last_attempt := t |>
             <| bn_response_time := (100 + r mod 500)%Z |>, w)
  else
    let '(t, w) := boot_now w in
    (false, n <| failure_count ::= Z.succ |> <| bn_status := BAD |> <| last_attempt := t |>, w).

(** The loop of [bootstrapDHT]: the nodes after it, and the members it adds
    to. *)
Fixpoint bootstrap_loop (config : BootstrapConfig) (nodes : list BootstrapNode) (attempts : Z)
    (successful failed : list BootstrapNode) w : list BootstrapNode * Z * list BootstrapNode * list BootstrapNode * W :=
  match nodes with
  | [] => ([], attempts, successful, failed, w)
  | node :: rest =>
    if (max_bootstrap_attempts config <=? attempts)%Z then (nodes, attempts, successful, failed, w)
    else
      let '(ok, node, w) := attemptBootstrap config node w in
      let '(rest, attempts, successful, failed, w) :=
        if ok then bootstrap_loop config rest (attempts + 1) (successful ++ [node]) failed w
        else bootstrap_loop config rest (attempts + 1) successful (failed ++ [node]) w in
      (node :: rest, attempts, successful, failed, w)
  end.

(** [size() >= min_successful_nodes] compares as [size_t]. *)
Definition enough (config : BootstrapConfig) (nodes : list BootstrapNode) : bool :=
  (size_t_of_int (min_successful_nodes config) <=? Z.of_nat (length nodes))%Z.

(** The state is [IN_PROGRESS] only while the lock is held. *)
Definition bootstrapDHT b w : bool * bootstrap * W :=
  match bootstrap_nodes_ b with
  | [] => (false, b, w)
  | nodes =>
    let '(nodes, attempts, successful, failed, w) := bootstrap_loop (boot_config b) nodes 0 [] [] w in
    let ok := enough (boot_config b) successful in
    (ok, b <| bootstrap_nodes_ := nodes |> <| bootstrap_attempts_ := attempts |>
           <| successful_bootstrap_nodes_ := successful |> <| failed_bootstrap_nodes_ := failed |>
           <| bootstrap_state_ := if ok then SUCCESS else FAILED |>, w)
  end.

Definition validateBootstrap b w : bool * bootstrap * W :=
  if decide (bootstrap_state_ b = SUCCESS) then
    if negb (enough (boot_config b) (successful_bootstrap_nodes_ b)) then (false, b, w)
    else
      let '(now, w) := boot_now w in
      if (milliseconds (bootstrap_timeout (boot_config b)) <? now - last_bootstrap_time_ b)%Z then
        (false, b <| bootstrap_state_ := EXPIRED |>, w)
      else (true, b, w)
  else (false, b, w).

Definition expired_node (timeout now : Z) n : Prop := (milliseconds timeout < now - last_attempt n)%Z.
#[export] Instance expired_node_dec timeout now n : Decision (expired_node timeout now n).
Proof. unfold expired_node. apply _. Defined.
Definition cleanupExpiredNodes b w : bootstrap * W :=
  let '(now, w) := boot_now w in
  (b <| bootstrap_nodes_ ::= filter (λ n, ¬ expired_node (node_timeout (boot_config b)) now n) |>, w).

Definition clearAllNodes b : bootstrap :=
  b <| bootstrap_nodes_ := [] |> <| successful_bootstrap_nodes_ := [] |> <| failed_bootstrap_nodes_ := [] |>.
Definition updateConfig (config : BootstrapConfig) b : bootstrap := b <| boot_config := config |>.

Definition getSuccessfulNodeCount b : Z := int_of_Z (Z.of_nat (length (successful_bootstrap_nodes_ b))).
Definition getFailedNodeCount b : Z := int_of_Z (Z.of_nat (length (failed_bootstrap_nodes_ b))).
Definition getTotalNodeCount b : Z := int_of_Z (Z.of_nat (length (bootstrap_nodes_ b))).
Definition getSuccessRate b : double :=
  if (bootstrap_attempts_ b =? 0)%Z then double_of_int 0
  else double_div (double_of_int (Z.of_nat (length (successful_bootstrap_nodes_ b)))) (double_of_int (bootstrap_attempts_ b)).
(** The sum is a [long]; the division is unsigned. *)
Definition getAverageResponseTime b : Z :=
  match successful_bootstrap_nodes_ b with
  | [] => 0
  | nodes => size_t_of_int (sumZ bn_response_time nodes) / Z.of_nat (length nodes)
  end%Z.
Definition bootstrapStateToString (state : BootstrapState) : string :=
  match state with
  | NOT_STARTED => "NOT_STARTED" | IN_PROGRESS => "IN_PROGRESS" | SUCCESS => "SUCCESS" | FAILED => "FAILED"
  | EXPIRED => "EXPIRED"
  end.

Inductive bootstrap_op :=
  | BAdd ip port | BRemove ip port | BBootstrap | BValidate | BCleanup | BClear.
Definition run_bootstrap_op (st : bootstrap * W) (op : bootstrap_op) : bootstrap * W :=
  let '(b, w) := st in
  match op with
  | BAdd ip port => let '(_, b, w) := addBootstrapNode ip port b w in (b, w)
  | BRemove ip port => let '(_, b) := removeBootstrapNode ip port b in (b, w)
  | BBootstrap => let '(_, b, w) := bootstrapDHT b w in (b, w)
  | BValidate => let '(_, b, w) := validateBootstrap b w in (b, w)
  | BCleanup => cleanupExpiredNodes b w
  | BClear => (clearAllNodes b, w)
  end.
Definition run_bootstrap (ops : list bootstrap_op) (st : bootstrap * W) : bootstrap * W := foldl run_bootstrap_op st ops.
End Operations.

Section Facts.
Context `{BootstrapWorld W}.
Implicit Types (b : bootstrap) (n : BootstrapNode) (w : W) (config : BootstrapConfig).

(** ** One round of attempts *)

Definition same_node n n' : Prop :=
  bn_ip_address n' = bn_ip_address n ∧ bn_port n' = bn_port n ∧ bn_node_id n' = bn_node_id n.

(** What an attempt does to a node: whether it succeeds depends on the node's
    failures so far and on nothing else. *)
Definition attempted config n n' : Prop :=
  same_node n n'
  ∧ ((failure_count n < max_node_failures config)%Z ∧ bn_status n' = GOOD ∧ failure_count n' = failure_count n
       ∧ success_count n' = (success_count n + 1)%Z ∧ (100 ≤ bn_response_time n' < 600)%Z
     ∨ (max_node_failures config ≤ failure_count n)%Z ∧ bn_status n' = BAD ∧ failure_count n' = (failure_count n + 1)%Z
       ∧ success_count n' = success_count n).

Definition is_good n : bool := match bn_status n with GOOD => true | _ => false end.

Lemma attempt_spec config n w :
  let '(ok, n', w') := attemptBootstrap config n w in attempted config n n' ∧ ok = is_good n'.
Proof.
  unfold attemptBootstrap. destruct (Z.ltb_spec (failure_count n) (max_node_failures config)).
  - destruct (boot_now w) as [t w1], (random_word w1) as [r w2]. split; [split; [done|left]|done].
    pose proof (Z.mod_pos_bound r 500). split_all; simpl; done || lia.
  - destruct (boot_now w) as [t w1]. split; [split; [done|right]|done]. split_all; simpl; done || lia.
Qed.

Lemma bootstrap_loop_spec config nodes attempts successful failed w :
  let '(nodes', attempts', successful', failed', w') := bootstrap_loop config nodes attempts successful failed w in
  ∃ tried tried' untried, nodes = tried ++ untried ∧ nodes' = tried' ++ untried
    ∧ length tried = Nat.min (length nodes) (Z.to_nat (max_bootstrap_attempts config - attempts))
    ∧ Forall2 (attempted config) tried tried' ∧ attempts' = (attempts + Z.of_nat (length tried))%Z
    ∧ successful' = successful ++ List.filter is_good tried'
    ∧ failed' = failed ++ List.filter (negb ∘ is_good) tried'.
Proof.
  revert attempts successful failed w. induction nodes as [|node rest IH]; intros attempts successful failed w; simpl.
  { exists [], [], []. rewrite !app_nil_r. split_all; try done. simpl. lia. }
  destruct (Z.leb_spec (max_bootstrap_attempts config) attempts) as [Hmax|Hmax].
  { exists [], [], (node :: rest). rewrite !app_nil_r. split_all; try done; simpl; [|lia].
    replace (Z.to_nat (max_bootstrap_attempts config - attempts)) with 0 by lia. lia. }
  pose proof (attempt_spec config node w) as Ha. destruct (attemptBootstrap config node w) as [[ok node'] w1].
  destruct Ha as [Ha ->]. destruct (is_good node') eqn:Hg.
  1: specialize (IH (attempts + 1)%Z (successful ++ [node']) failed w1).
  2: specialize (IH (attempts + 1)%Z successful (failed ++ [node']) w1).
  all: destruct (bootstrap_loop config rest _ _ _ w1) as [[[[rest' attempts'] s'] f'] w2];
    destruct IH as (tried & tried' & untried & -> & -> & Hlen & Hall & -> & -> & ->);
    replace (Z.to_nat (max_bootstrap_attempts config - attempts))
      with (S (Z.to_nat (max_bootstrap_attempts config - (attempts + 1)))) by lia;
    exists (node :: tried), (node' :: tried'), untried; split_all; try done;
    try (by constructor); try (simpl length in *; lia); unfold compose; simpl; rewrite ?Hg, <-?(assoc_L app); done.
Qed.

(** A bootstrap tries the nodes in order, at most
    [max_bootstrap_attempts] of them; it sorts the ones it tried into
    successes and failures, leaves the others as they are, and succeeds
    exactly if there are enough successes. *)
Theorem bootstrap_outcome b w :
  bootstrap_nodes_ b ≠ [] →
  let '(ok, b', _) := bootstrapDHT b w in
  ∃ tried tried' untried, bootstrap_nodes_ b = tried ++ untried ∧ bootstrap_nodes_ b' = tried' ++ untried
    ∧ length tried = Nat.min (length (bootstrap_nodes_ b)) (Z.to_nat (max_bootstrap_attempts (boot_config b)))
    ∧ Forall2 (attempted (boot_config b)) tried tried'
    ∧ bootstrap_attempts_ b' = Z.of_nat (length tried)
    ∧ successful_bootstrap_nodes_ b' = List.filter is_good tried'
    ∧ failed_bootstrap_nodes_ b' = List.filter (negb ∘ is_good) tried'
    ∧ ok = enough (boot_config b) (successful_bootstrap_nodes_ b')
    ∧ bootstrap_state_ b' = (if ok then SUCCESS else FAILED).
Proof.
  intros Hne. unfold bootstrapDHT. destruct (bootstrap_nodes_ b) as [|node rest] eqn:Hnodes; [done|].
  pose proof (bootstrap_loop_spec (boot_config b) (node :: rest) 0 [] [] w) as Hloop.
  destruct (bootstrap_loop _ _ _ _ _ w) as [[[[nodes' attempts] s] f] w'].
  destruct Hloop as (tried & tried' & untried & Heq & -> & Hlen & Hall & -> & -> & ->).
  exists tried, tried', untried. rewrite Z.sub_0_r in Hlen. split_all; done.
Qed.

(** ** Reachable states *)

Record boot_inv config b : Prop := {
  bi_config : boot_config b = config;
  bi_time : last_bootstrap_time_ b = 0%Z;
  bi_failures : Forall (λ n, (0 ≤ failure_count n)%Z ∧ ((0 < max_node_failures config)%Z → failure_count n = 0%Z))
    (bootstrap_nodes_ b);
}.

Lemma attempted_failures config n n' : attempted config n n' →
  (0 ≤ failure_count n)%Z ∧ ((0 < max_node_failures config)%Z → failure_count n = 0%Z) →
  ((0 ≤ failure_count n')%Z ∧ ((0 < max_node_failures config)%Z → failure_count n' = 0%Z))
  ∧ is_good n' = (0 <? max_node_failures config)%Z.
Proof.
  unfold is_good. intros [_ [(Hlt & -> & -> & _)|(Hle & -> & -> & _)]] [Hpos Hzero].
  - split; [done|]. symmetry. apply Z.ltb_lt. lia.
  - assert (max_node_failures config ≤ 0)%Z by (destruct (decide (0 < max_node_failures config)%Z); [rewrite Hzero in Hle by done|]; lia).
    split; [split; lia|]. symmetry. apply Z.ltb_ge. lia.
Qed.

Lemma add_inv config ip port b w : boot_inv config b → boot_inv config (addBootstrapNode ip port b w).1.2.
Proof.
  intros [Hc Ht Hf]. unfold addBootstrapNode. destruct (generateNodeId w) as [node_id w1]. split; simpl; [done|done|].
  apply Forall_app. split; [done|]. by repeat constructor.
Qed.

Lemma new_inv config w : boot_inv config (new_bootstrap config w).1.
Proof.
  unfold new_bootstrap, addDefaultBootstrapNodes.
  assert (Hgen : ∀ l b w, boot_inv config b →
    boot_inv config (foldl (λ '(b, w) p, let '(_, b, w) := addBootstrapNode p.1 p.2 b w in (b, w)) (b, w) l).1).
  { intros l. induction l as [|[ip port] l IH]; intros b w' Hb; simpl; [done|].
    pose proof (add_inv config ip port b w' Hb). destruct (addBootstrapNode ip port b w') as [[ok b1] w1]. by apply IH. }
  by apply Hgen.
Qed.

Lemma bootstrap_inv config b w : boot_inv config b → boot_inv config (bootstrapDHT b w).1.2.
Proof.
  intros Hb. destruct (bootstrap_nodes_ b) as [|node rest] eqn:Hnodes; [unfold bootstrapDHT; by rewrite Hnodes|].
  pose proof (bootstrap_outcome b w) as Hout. rewrite Hnodes in Hout. specialize (Hout ltac:(done)).
  assert (Hsame : boot_config (bootstrapDHT b w).1.2 = boot_config b
    ∧ last_bootstrap_time_ (bootstrapDHT b w).1.2 = last_bootstrap_time_ b).
  { unfold bootstrapDHT. rewrite Hnodes. by destruct (bootstrap_loop _ _ _ _ _ w) as [[[[]]]]. }
  destruct Hb as [Hc Ht Hf], Hsame as [Hsc Hst]. split; [congruence..|].
  destruct (bootstrapDHT b w) as [[ok b'] w']. cbn [fst snd] in *.
  destruct Hout as (tried & tried' & untried & Heq & -> & _ & Hall & _).
  rewrite Hnodes, Heq, Hc in *. apply Forall_app in Hf as [Hf1 Hf2]. apply Forall_app. split; [|done].
  clear -Hall Hf1. induction Hall as [|n n' tried tried' Hn _ IH]; [constructor|].
  apply Forall_cons in Hf1 as [Hf Hf1]. constructor; [|by apply IH]. by apply (attempted_failures config n n').
Qed.

Lemma run_bootstrap_op_inv config st op : boot_inv config st.1 → boot_inv config (run_bootstrap_op st op).1.
Proof.
  destruct st as [b w]. intros Hb. destruct op as [ip port|ip port| | | |]; simpl.
  - pose proof (add_inv config ip port b w Hb). by destruct (addBootstrapNode ip port b w) as [[]].
  - unfold removeBootstrapNode. destruct (list_find _ _) as [[i n]|]; [|done]. destruct Hb as [Hc Ht Hf].
    split; simpl; [done|done|]. by apply Forall_delete.
  - pose proof (bootstrap_inv config b w Hb). by destruct (bootstrapDHT b w) as [[]].
  - unfold validateBootstrap. destruct (decide _); [|done]. destruct (negb _); [done|].
    destruct (boot_now w) as [now w1]. destruct (_ <? _)%Z; [|done]. by destruct Hb.
  - unfold cleanupExpiredNodes. destruct (boot_now w) as [now w1]. destruct Hb as [Hc Ht Hf].
    split; simpl; [done|done|].
    rewrite Forall_forall in *. intros n [_ Hin]%list_elem_of_filter. by apply Hf.
  - destruct Hb. split; [done|done|constructor].
Qed.

Lemma run_bootstrap_inv config ops w : boot_inv config (run_bootstrap ops (new_bootstrap config w)).1.
Proof.
  generalize (new_inv config w). generalize (new_bootstrap config w). unfold run_bootstrap.
  induction ops as [|op ops IH]; intros st Hst; simpl; [done|]. by apply IH, run_bootstrap_op_inv.
Qed.

(** The result of a bootstrap is decided by the configuration and the
    number of nodes alone: whatever was done before, if any failure is allowed
    every node that is tried counts as a success and none as a failure, and if
    none is allowed it is the other way round. *)
Theorem bootstrap_ignores_network config (ops : list bootstrap_op) w :
  let '(b, w) := run_bootstrap ops (new_bootstrap config w) in
  bootstrap_nodes_ b ≠ [] →
  let tried := Nat.min (length (bootstrap_nodes_ b)) (Z.to_nat (max_bootstrap_attempts config)) in
  let '(ok, b', _) := bootstrapDHT b w in
  length (successful_bootstrap_nodes_ b') = (if (0 <? max_node_failures config)%Z then tried else 0)
  ∧ length (failed_bootstrap_nodes_ b') = (if (0 <? max_node_failures config)%Z then 0 else tried)
  ∧ ok = (size_t_of_int (min_successful_nodes config)
           <=? Z.of_nat (if (0 <? max_node_failures config)%Z then tried else 0))%Z.
Proof.
  pose proof (run_bootstrap_inv config ops w) as [Hc _ Hf]. destruct (run_bootstrap ops _) as [b w1]. simpl in *.
  intros Hne. pose proof (bootstrap_outcome b w1 Hne) as Hout. destruct (bootstrapDHT b w1) as [[ok b'] w2].
  destruct Hout as (tried & tried' & untried & Heq & _ & Hlen & Hall & _ & Hs & Hfa & Hok & _).
  rewrite Hc in *. rewrite <-Hlen. unfold enough in Hok. rewrite Heq in Hf. apply Forall_app in Hf as [Hf _].
  assert (Hgood : Forall (λ n', is_good n' = (0 <? max_node_failures config)%Z) tried').
  { clear -Hall Hf. induction Hall as [|n n' tried tried' Hn _ IH]; [constructor|].
    apply Forall_cons in Hf as [Hn0 Hf]. constructor; [by apply (attempted_failures config n n')|by apply IH]. }
  apply Forall2_length in Hall. rewrite Hok, Hs, Hfa, Hall. clear -Hgood.
  assert (Hfil : ∀ (f : BootstrapNode → bool) v l, Forall (λ n, f n = v) l →
    length (List.filter f l) = if v then length l else 0).
  { intros f v. clear. induction 1 as [|n l Hn Hl IH]; simpl; [by destruct v|]. rewrite Hn. destruct v; simpl in *; congruence. }
  rewrite (Hfil is_good _ _ Hgood), (Hfil (negb ∘ is_good) (negb (0 <? max_node_failures config)%Z)).
  - by destruct (0 <? max_node_failures config)%Z.
  - eapply Forall_impl; [exact Hgood|]. unfold compose. by intros n ->.
Qed.

(** No operation records when a bootstrap happened.  Once the clock has
    passed the bootstrap timeout, counted from its epoch, a bootstrap that has
    just succeeded is declared expired by the next validation; and once it has
    passed the node timeout, a clean-up removes every node that was not tried
    yet. *)
Theorem uptime_expires config (ops : list bootstrap_op) w :
  let '(b, w) := run_bootstrap ops (new_bootstrap config w) in
  (let '(ok, b', w') := bootstrapDHT b w in
   ok = true → (milliseconds (bootstrap_timeout config) < (boot_now w').1)%Z →
   (validateBootstrap b' w').1.1 = false ∧ bootstrap_state_ (validateBootstrap b' w').1.2 = EXPIRED)
  ∧ ((milliseconds (node_timeout config) < (boot_now w).1)%Z →
     ∀ n, n ∈ bootstrap_nodes_ (cleanupExpiredNodes b w).1 → last_attempt n ≠ 0%Z).
Proof.
  pose proof (run_bootstrap_inv config ops w) as Hinv. destruct (run_bootstrap ops _) as [b w1]. simpl in Hinv.
  split.
  - pose proof (bootstrap_inv config b w1 Hinv) as [Hc Ht _].
    destruct (bootstrap_nodes_ b) as [|node rest] eqn:Hnodes; [unfold bootstrapDHT; by rewrite Hnodes|].
    pose proof (bootstrap_outcome b w1 ltac:(congruence)) as Hout.
    destruct (bootstrapDHT b w1) as [[ok b'] w2]. cbn [fst snd] in *.
    destruct Hout as (_ & _ & _ & _ & _ & _ & _ & _ & _ & _ & Hok & Hst). intros -> Hlate.
    unfold validateBootstrap. rewrite Hst, decide_True by done.
    replace (boot_config b) with (boot_config b') in Hok by (destruct Hinv; congruence). rewrite <-Hok. simpl.
    destruct (boot_now w2) as [now w3]. simpl in Hlate. rewrite Ht, Hc.
    by rewrite (proj2 (Z.ltb_lt (milliseconds (bootstrap_timeout config)) (now - 0))) by lia.
  - intros Hlate n. unfold cleanupExpiredNodes. destruct (boot_now w1) as [now w2]. simpl in *.
    intros [Hn _]%list_elem_of_filter Hzero. apply Hn. unfold expired_node. rewrite Hzero, (bi_config _ _ Hinv). lia.
Qed.
End Facts.

(** ** Witnesses *)

#[export] Instance ticking_world : BootstrapWorld Z := {|
  boot_now w := (w, (w + 1000000)%Z);
  random_byte w := (w mod 256, w + 7)%Z;
  random_word w := (w, (w + 13)%Z);
|}.
Definition some_bootstrap_config : BootstrapConfig := mk_BootstrapConfig 10 3 60000 3 3600000.
(** Two hours after the epoch of the clock. *)
Definition started : bootstrap * Z := new_bootstrap some_bootstrap_config 7200000000000%Z.

Lemma bootstrap_outcome_witness :
  bootstrap_nodes_ started.1 ≠ []
  ∧ (bootstrapDHT started.1 started.2).1.1 = true
  ∧ bootstrap_attempts_ (bootstrapDHT started.1 started.2).1.2 = 5%Z.
Proof.
  assert (Hne : bootstrap_nodes_ started.1 ≠ []) by (vm_compute; congruence).
  pose proof (bootstrap_outcome started.1 started.2 Hne) as Hout.
  destruct (bootstrapDHT started.1 started.2) as [[ok b'] w'] eqn:Hb.
  destruct Hout as (tried & tried' & untried & _ & _ & Hlen & _ & Hattempts & _).
  split; [exact Hne|]. split; [vm_compute in Hb; by injection Hb as <- _ _|].
  cbn [fst snd]. rewrite Hattempts, Hlen. reflexivity.
Defined.

Lemma bootstrap_ignores_network_witness :
  let '(b, w) := run_bootstrap [BRemove "dht.aelitis.com" 6881; BBootstrap] started in
  (bootstrapDHT b w).1.1 = true ∧ failed_bootstrap_nodes_ (bootstrapDHT b w).1.2 = [].
Proof.
  pose proof (bootstrap_ignores_network some_bootstrap_config [BRemove "dht.aelitis.com" 6881; BBootstrap] 7200000000000%Z) as Hall.
  change (new_bootstrap some_bootstrap_config 7200000000000%Z) with started in Hall.
  destruct (run_bootstrap [BRemove "dht.aelitis.com" 6881; BBootstrap] started) as [b w] eqn:Hrun.
  assert (Hb : length (bootstrap_nodes_ b) = 4) by (vm_compute in Hrun; by injection Hrun as <- _).
  specialize (Hall ltac:(by intros Heq; rewrite Heq in Hb)). rewrite Hb in Hall.
  destruct (bootstrapDHT b w) as [[ok b'] w']. destruct Hall as (_ & Hfailed & Hok).
  split; [exact Hok|by apply nil_length_inv].
Defined.

Lemma uptime_expires_witness :
  (bootstrapDHT started.1 started.2).1.1 = true
  ∧ bootstrap_state_ (validateBootstrap (bootstrapDHT started.1 started.2).1.2 (bootstrapDHT started.1 started.2).2).1.2 = EXPIRED
  ∧ bootstrap_nodes_ (cleanupExpiredNodes started.1 started.2).1 = [].
Proof.
  pose proof (uptime_expires some_bootstrap_config [] 7200000000000%Z) as Hup.
  change (run_bootstrap [] (new_bootstrap some_bootstrap_config 7200000000000%Z)) with started in Hup.
  destruct started as [b w] eqn:Hst. destruct Hup as [Hvalid _].
  assert (Hok : (bootstrapDHT b w).1.1 = true
    ∧ (milliseconds (bootstrap_timeout some_bootstrap_config) < (boot_now (bootstrapDHT b w).2).1)%Z
    ∧ bootstrap_nodes_ (cleanupExpiredNodes b w).1 = [])
    by (vm_compute in Hst; injection Hst as <- <-; vm_compute; done).
  cbn [fst snd]. destruct (bootstrapDHT b w) as [[ok b'] w']. cbn [fst snd] in *.
  destruct Hok as (Hok & Hlate & Hclean). split; [exact Hok|]. split; [by apply Hvalid|exact Hclean].
Defined.
