(* ===== verification/DatabasePool.v ===== *)
(** * The database manager

    Models [DatabaseManager] ([src/src/database_manager.cpp]): a pool of MySQL
    connections and the statements sent over them, one transaction each.  The
    structures are those the source file uses; the header declares others.

    The classes of MySQL Connector/C++ are the fields of [Connector]; each call
    may throw an [sql::SQLException].  A prepared statement is a value: its
    connection, text and parameters.  A result set is the list of what
    successive calls of [next()] give, a row or an exception.  An exception
    that no handler of the manager catches is the result [Threw]. *)

From S2P Require Import Prelude Numeric.

Inductive param :=
  | PString (s : string) | PUInt64 (n : Z) | PInt (n : Z) | PDouble (d : double) | PDateTime (s : string).

(** [statement C]: the query, and the parameters in the order they were set,
    with their indices. *)
Record statement (C : Type) := mk_statement {
  st_conn : C;
  st_query : string;
  st_params : list (nat * param);
}.
Arguments mk_statement {_} _ _ _.
Arguments st_conn {_} _.
Arguments st_query {_} _.
Arguments st_params {_} _.

Class Connector (W C Row : Type) := {
  (** [get_driver_instance()->connect(url, user, password)] *)
  driver_connect : string → string → string → W → outcome C * W;
  set_schema : C → string → W → outcome unit * W;
  set_auto_commit : C → bool → W → outcome unit * W;
  prepare_statement : C → string → W → outcome unit * W;
  create_statement : C → W → outcome unit * W;
  (** whether a [set...] call on the statement throws *)
  set_parameter : statement C → nat → param → W → outcome unit * W;
  execute : statement C → W → outcome unit * W;
  execute_update : statement C → W → outcome Z * W;
  execute_query : statement C → W → outcome (list (outcome Row)) * W;
  get_int : Row → string → outcome Z;
  get_uint64 : Row → string → outcome Z;
  get_string : Row → string → outcome string;
  commit : C → W → outcome unit * W;
  rollback : C → W → outcome unit * W;
  close_connection : C → W → outcome unit * W;
  system_now : W → Z * W;
  db_steady_now : W → Z * W;
  (** [std::put_time(std::localtime(&t), "%Y-%m-%d %H:%M:%S")] *)
  format_time : Z → string;
}.

(** ** Code between [try] and [catch] *)

Section Monad.
Context {W : Type}.
Definition attempt (A : Type) : Type := W → outcome A * W.
Definition ret {A} (a : A) : attempt A := λ w, (Returned a, w).
Definition bind {A B} (m : attempt A) (f : A → attempt B) : attempt B := λ w,
  match m w with (Returned a, w) => f a w | (Threw e, w) => (Threw e, w) end.
Definition get {A} (o : outcome A) : attempt A := λ w, (o, w).
Definition tick (clock : W → Z * W) : attempt Z := λ w, let '(t, w) := clock w in (Returned t, w).
End Monad.
Arguments attempt : clear implicits.
Notation "x <- m ;; k" := (bind m (λ x, k)) (at level 100, m at next level, right associativity) : crawler_scope.
Notation "m ;;; k" := (bind m (λ _, k)) (at level 100, right associativity) : crawler_scope.

(** ** Records and configuration *)

Record DatabaseConfig := mk_DatabaseConfig {
  db_host : string; db_database : string; db_username : string; db_password : string;
  db_port : Z; db_max_connections : Z;
  db_connection_timeout : Z; db_auto_reconnect : bool; db_ssl_enabled : bool; db_charset : string;
}.

Record TorrentMetadata := mk_TorrentMetadata {
  tm_id : Z; tm_infohash : string; tm_name : string; tm_size : Z; tm_piece_length : Z;
  tm_pieces_count : Z; tm_files_count : Z; tm_created_at : Z; tm_updated_at : Z;
}.
#[export] Instance eta_TorrentMetadata : Eta TorrentMetadata := λ m,
  mk_TorrentMetadata (tm_id m) (tm_infohash m) (tm_name m) (tm_size m) (tm_piece_length m) (tm_pieces_count m)
    (tm_files_count m) (tm_created_at m) (tm_updated_at m).
(** [TorrentMetadata{}] *)
Definition no_metadata : TorrentMetadata := mk_TorrentMetadata 0 "" "" 0 0 0 0 0 0.

Record TrackerState := mk_TrackerState {
  ts_infohash : string; ts_tracker_url : string; ts_status : string; ts_last_announce : Z; ts_next_announce : Z;
  ts_seeders : Z; ts_leechers : Z; ts_downloaded : Z;
}.
Record PeerState := mk_PeerState {
  ps_infohash : string; ps_peer_id : string; ps_ip_address : string; ps_port : Z; ps_status : string;
  ps_last_seen : Z; ps_uploaded : Z; ps_downloaded : Z; ps_left_bytes : Z;
}.
Record DHTNodeState := mk_DHTNodeState {
  ns_node_id : string; ns_ip_address : string; ns_port : Z; ns_status : string; ns_last_seen : Z;
  ns_quality_score : double; ns_response_time : Z;
}.
Record CrawlSession := mk_CrawlSession {
  cs_session_id : string; cs_start_time : Z; cs_end_time : Z; cs_status : string;
  cs_torrents_discovered : Z; cs_torrents_processed : Z; cs_errors_count : Z;
}.
Record MetadataRequest := mk_MetadataRequest {
  mr_request_id : string; mr_infohash : string; mr_peer_ip : string; mr_peer_port : Z; mr_status : string;
  mr_created_at : Z; mr_completed_at : Z; mr_error_message : string;
}.
Record BEP9ExtensionProtocol := mk_BEP9ExtensionProtocol {
  bp_infohash : string; bp_peer_ip : string; bp_peer_port : Z; bp_extension_name : string; bp_status : string;
  bp_created_at : Z; bp_completed_at : Z; bp_error_message : string;
}.

Record database_manager (C : Type) := mk_database_manager {
  db_config : DatabaseConfig;
  (** front first *)
  connection_pool_ : list C;
}.
Arguments mk_database_manager {_} _ _.
Arguments db_config {_} _.
Arguments connection_pool_ {_} _.
#[export] Instance eta_database_manager {C} : Eta (database_manager C) := λ d,
  mk_database_manager (db_config d) (connection_pool_ d).

(** ** The statements

    The texts, and the values bound to the placeholders in order. *)

Inductive binding :=
  | BString (s : string) | BUInt64 (n : Z) | BInt (n : Z) | BDouble (d : double) | BDateTime (time_point : Z).

Definition insert_torrent_query : string :=
  "INSERT INTO TorrentMetadata (infohash, name, size, piece_length, pieces_count, files_count, created_at, updated_at) VALUES (?, ?, ?, ?, ?, ?, ?, ?)".
Definition insert_torrent_bindings (m : TorrentMetadata) : list binding :=
  [BString (tm_infohash m); BString (tm_name m); BUInt64 (tm_size m); BUInt64 (tm_piece_length m);
   BInt (tm_pieces_count m); BInt (tm_files_count m); BDateTime (tm_created_at m); BDateTime (tm_updated_at m)].
Definition update_torrent_query : string :=
  "UPDATE TorrentMetadata SET name = ?, size = ?, piece_length = ?, pieces_count = ?, files_count = ?, updated_at = ? WHERE infohash = ?".
Definition update_torrent_bindings (m : TorrentMetadata) : list binding :=
  [BString (tm_name m); BUInt64 (tm_size m); BUInt64 (tm_piece_length m); BInt (tm_pieces_count m);
   BInt (tm_files_count m); BDateTime (tm_updated_at m); BString (tm_infohash m)].
Definition delete_torrent_query : string := "DELETE FROM TorrentMetadata WHERE infohash = ?".
Definition select_torrent_query : string := "SELECT * FROM TorrentMetadata WHERE infohash = ?".
Definition select_all_query : string := "SELECT * FROM TorrentMetadata ORDER BY created_at DESC".
Definition insert_tracker_query : string :=
  "INSERT INTO TrackerState (infohash, tracker_url, status, last_announce, next_announce, seeders, leechers, downloaded) VALUES (?, ?, ?, ?, ?, ?, ?, ?)".
Definition insert_tracker_bindings (t : TrackerState) : list binding :=
  [BString (ts_infohash t); BString (ts_tracker_url t); BString (ts_status t); BDateTime (ts_last_announce t);
   BDateTime (ts_next_announce t); BInt (ts_seeders t); BInt (ts_leechers t); BInt (ts_downloaded t)].
Definition insert_peer_query : string :=
  "INSERT INTO PeerState (infohash, peer_id, ip_address, port, status, last_seen, uploaded, downloaded, left_bytes) VALUES (?, ?, ?, ?, ?, ?, ?, ?, ?)".
Definition insert_peer_bindings (p : PeerState) : list binding :=
  [BString (ps_infohash p); BString (ps_peer_id p); BString (ps_ip_address p); BInt (ps_port p); BString (ps_status p);
   BDateTime (ps_last_seen p); BUInt64 (ps_uploaded p); BUInt64 (ps_downloaded p); BUInt64 (ps_left_bytes p)].
Definition insert_node_query : string :=
  "INSERT INTO DHTNodeState (node_id, ip_address, port, status, last_seen, quality_score, response_time) VALUES (?, ?, ?, ?, ?, ?, ?)".
Definition insert_node_bindings (n : DHTNodeState) : list binding :=
  [BString (ns_node_id n); BString (ns_ip_address n); BInt (ns_port n); BString (ns_status n);
   BDateTime (ns_last_seen n); BDouble (ns_quality_score n); BInt (ns_response_time n)].
Definition insert_session_query : string :=
  "INSERT INTO CrawlSession (session_id, start_time, end_time, status, torrents_discovered, torrents_processed, errors_count) VALUES (?, ?, ?, ?, ?, ?, ?)".
Definition insert_session_bindings (s : CrawlSession) : list binding :=
  [BString (cs_session_id s); BDateTime (cs_start_time s); BDateTime (cs_end_time s); BString (cs_status s);
   BInt (cs_torrents_discovered s); BInt (cs_torrents_processed s); BInt (cs_errors_count s)].
Definition insert_request_query : string :=
  "INSERT INTO MetadataRequest (request_id, infohash, peer_ip, peer_port, status, created_at, completed_at, error_message) VALUES (?, ?, ?, ?, ?, ?, ?, ?)".
Definition insert_request_bindings (r : MetadataRequest) : list binding :=
  [BString (mr_request_id r); BString (mr_infohash r); BString (mr_peer_ip r); BInt (mr_peer_port r);
   BString (mr_status r); BDateTime (mr_created_at r); BDateTime (mr_completed_at r); BString (mr_error_message r)].
Definition insert_bep9_query : string :=
  "INSERT INTO BEP9ExtensionProtocol (infohash, peer_ip, peer_port, extension_name, status, created_at, completed_at, error_message) VALUES (?, ?, ?, ?, ?, ?, ?, ?)".
Definition insert_bep9_bindings (p : BEP9ExtensionProtocol) : list binding :=
  [BString (bp_infohash p); BString (bp_peer_ip p); BInt (bp_peer_port p); BString (bp_extension_name p);
   BString (bp_status p); BDateTime (bp_created_at p); BDateTime (bp_completed_at p); BString (bp_error_message p)].

Section Operations.
Context `{Connector W C Row}.
Implicit Types (d : database_manager C) (c : C) (w : W) (query : string).
Local Abbreviation manager := (database_manager C).

(** ** The pool *)

(** [None] is a null pointer. *)
Definition createConnection d w : option C * W :=
  let config := db_config d in
  match (c <- driver_connect ("tcp://" +:+ db_host config +:+ ":" +:+ to_string (db_port config))
                (db_username config) (db_password config);;
         set_schema c (db_database config);;; set_auto_commit c false;;; ret c) w
  with (Returned c, w) => (Some c, w) | (Threw _, w) => (None, w) end.

Definition returnConnection c d : manager := d <| connection_pool_ ::= λ pool, pool ++ [c] |>.

Definition create_one d w : manager * W :=
  let '(connection, w) := createConnection d w in
  (match connection with Some c => returnConnection c d | None => d end, w).
Definition initializeConnectionPool d w : manager * W :=
  Nat.iter (Z.to_nat (db_max_connections (db_config d))) (λ '(d, w), create_one d w) (d, w).
Definition new_database_manager (config : DatabaseConfig) w : manager * W :=
  initializeConnectionPool (mk_database_manager config []) w.

Definition getConnection d w : option C * manager * W :=
  match connection_pool_ d with
  | c :: pool => (Some c, d <| connection_pool_ := pool |>, w)
  | [] => let '(connection, w) := createConnection d w in (connection, d, w)
  end.

(** The loop of [closeAllConnections]: the front is popped before it is closed,
    and an exception leaves the rest. *)
Fixpoint close_pool (pool : list C) w : outcome unit * list C * W :=
  match pool with
  | [] => (Returned tt, [], w)
  | c :: pool =>
    match close_connection c w with
    | (Returned _, w) => close_pool pool w
    | (Threw e, w) => (Threw e, pool, w)
    end
  end.
Definition closeAllConnections d w : outcome unit * manager * W :=
  let '(r, pool, w) := close_pool (connection_pool_ d) w in (r, d <| connection_pool_ := pool |>, w).

(** ** Statements *)

(** The argument is not used. *)
Definition formatDateTime (time_point : Z) : attempt W string :=
  now <- tick system_now;; ret (format_time (duration_cast_seconds now)).
Definition parseDateTime (datetime : string) : attempt W Z := tick db_steady_now.

Definition binding_value (b : binding) : attempt W param :=
  match b with
  | BString s => ret (PString s) | BUInt64 n => ret (PUInt64 n) | BInt n => ret (PInt n) | BDouble x => ret (PDouble x)
  | BDateTime t => s <- formatDateTime t;; ret (PDateTime s)
  end.
Fixpoint bind_all (st : statement C) (i : nat) (bs : list binding) : attempt W (statement C) :=
  match bs with
  | [] => ret st
  | b :: bs =>
    p <- binding_value b;; set_parameter st i p;;;
    bind_all (mk_statement (st_conn st) (st_query st) (st_params st ++ [(i, p)])) (S i) bs
  end.
Definition prepare_bound c query (bs : list binding) : attempt W (statement C) :=
  prepare_statement c query;;; bind_all (mk_statement c query []) 1 bs.

(** The body of the [try] block of an insertion, and of an update or deletion. *)
Definition insert_body query bs c : attempt W bool :=
  st <- prepare_bound c query bs;; execute st;;; commit c;;; ret true.
Definition update_body query bs c : attempt W bool :=
  st <- prepare_bound c query bs;; rows_affected <- execute_update st;; commit c;;; ret (0 <? rows_affected)%Z.

(** The handler rolls back, where the operation changes data, and returns the
    connection; an exception of [rollback] itself is not caught. *)
Definition with_connection {A} (failed : A) (rolls_back : bool) (body : C → attempt W A) d w : outcome A * manager * W :=
  let '(connection, d, w) := getConnection d w in
  match connection with
  | None => (Returned failed, d, w)
  | Some c =>
    match body c w with
    | (Returned a, w) => (Returned a, returnConnection c d, w)
    | (Threw _, w) =>
      if rolls_back then
        match rollback c w with
        | (Returned _, w) => (Returned failed, returnConnection c d, w)
        | (Threw e, w) => (Threw e, d, w)
        end
      else (Returned failed, returnConnection c d, w)
    end
  end.

Definition insertTorrentMetadata (m : TorrentMetadata) :=
  with_connection false true (insert_body insert_torrent_query (insert_torrent_bindings m)).
Definition updateTorrentMetadata (m : TorrentMetadata) :=
  with_connection false true (update_body update_torrent_query (update_torrent_bindings m)).
Definition deleteTorrentMetadata (infohash : string) :=
  with_connection false true (update_body delete_torrent_query [BString infohash]).
Definition insertTrackerState (t : TrackerState) :=
  with_connection false true (insert_body insert_tracker_query (insert_tracker_bindings t)).
Definition insertPeerState (p : PeerState) :=
  with_connection false true (insert_body insert_peer_query (insert_peer_bindings p)).
Definition insertDHTNodeState (n : DHTNodeState) :=
  with_connection false true (insert_body insert_node_query (insert_node_bindings n)).
Definition insertCrawlSession (s : CrawlSession) :=
  with_connection false true (insert_body insert_session_query (insert_session_bindings s)).
Definition insertMetadataRequest (r : MetadataRequest) :=
  with_connection false true (insert_body insert_request_query (insert_request_bindings r)).
Definition insertBEP9ExtensionProtocol (p : BEP9ExtensionProtocol) :=
  with_connection false true (insert_body insert_bep9_query (insert_bep9_bindings p)).

(** ** Reading *)

Definition read_metadata (row : Row) : attempt W TorrentMetadata :=
  id <- get (get_int row "id");; infohash <- get (get_string row "infohash");; name <- get (get_string row "name");;
  size <- get (get_uint64 row "size");; piece_length <- get (get_uint64 row "piece_length");;
  pieces_count <- get (get_int row "pieces_count");; files_count <- get (get_int row "files_count");;
  created <- get (get_string row "created_at");; created_at <- parseDateTime created;;
  updated <- get (get_string row "updated_at");; updated_at <- parseDateTime updated;;
  ret (mk_TorrentMetadata id infohash name size piece_length pieces_count files_count created_at updated_at).

Definition select_body (infohash : string) c : attempt W TorrentMetadata :=
  st <- prepare_bound c select_torrent_query [BString infohash];; rows <- execute_query st;;
  match rows with
  | [] => ret no_metadata
  | next :: _ => row <- get next;; read_metadata row
  end.
Definition getTorrentMetadata (infohash : string) := with_connection no_metadata false (select_body infohash).

Fixpoint read_rows (rows : list (outcome Row)) : attempt W (list TorrentMetadata) :=
  match rows with
  | [] => ret []
  | next :: rows => row <- get next;; m <- read_metadata row;; ms <- read_rows rows;; ret (m :: ms)
  end.
Definition select_all_body c : attempt W (list TorrentMetadata) :=
  create_statement c;;; rows <- execute_query (mk_statement c select_all_query []);; read_rows rows.
Definition getAllTorrentMetadata := with_connection [] false select_all_body.

Definition updateConfig (config : DatabaseConfig) d : manager := d <| db_config := config |>.

(** ** Operations as data *)

Inductive write_op :=
  | InsertTorrent (m : TorrentMetadata) | UpdateTorrent (m : TorrentMetadata) | DeleteTorrent (infohash : string)
  | InsertTracker (t : TrackerState) | InsertPeer (p : PeerState) | InsertNode (n : DHTNodeState)
  | InsertSession (s : CrawlSession) | InsertRequest (r : MetadataRequest) | InsertBEP9 (p : BEP9ExtensionProtocol).
Definition run_write (op : write_op) : manager → W → outcome bool * manager * W :=
  match op with
  | InsertTorrent m => insertTorrentMetadata m | UpdateTorrent m => updateTorrentMetadata m
  | DeleteTorrent infohash => deleteTorrentMetadata infohash | InsertTracker t => insertTrackerState t
  | InsertPeer p => insertPeerState p | InsertNode n => insertDHTNodeState n
  | InsertSession s => insertCrawlSession s | InsertRequest r => insertMetadataRequest r
  | InsertBEP9 p => insertBEP9ExtensionProtocol p
  end.
Definition write_query (op : write_op) : string :=
  match op with
  | InsertTorrent _ => insert_torrent_query | UpdateTorrent _ => update_torrent_query
  | DeleteTorrent _ => delete_torrent_query | InsertTracker _ => insert_tracker_query
  | InsertPeer _ => insert_peer_query | InsertNode _ => insert_node_query
  | InsertSession _ => insert_session_query | InsertRequest _ => insert_request_query
  | InsertBEP9 _ => insert_bep9_query
  end.
Definition write_bindings (op : write_op) : list binding :=
  match op with
  | InsertTorrent m => insert_torrent_bindings m | UpdateTorrent m => update_torrent_bindings m
  | DeleteTorrent infohash => [BString infohash] | InsertTracker t => insert_tracker_bindings t
  | InsertPeer p => insert_peer_bindings p | InsertNode n => insert_node_bindings n
  | InsertSession s => insert_session_bindings s | InsertRequest r => insert_request_bindings r
  | InsertBEP9 p => insert_bep9_bindings p
  end.

Inductive db_op := DWrite (op : write_op) | DGet (infohash : string) | DGetAll | DConfig (config : DatabaseConfig).
(** A run goes on after an operation that ends with an exception. *)
Definition run_db_op (d : manager) (w : W) (op : db_op) : outcome unit * manager * W :=
  match op with
  | DWrite op => let '(r, d, w) := run_write op d w in
      (match r with Returned _ => Returned tt | Threw e => Threw e end, d, w)
  | DGet infohash => let '(r, d, w) := getTorrentMetadata infohash d w in
      (match r with Returned _ => Returned tt | Threw e => Threw e end, d, w)
  | DGetAll => let '(r, d, w) := getAllTorrentMetadata d w in
      (match r with Returned _ => Returned tt | Threw e => Threw e end, d, w)
  | DConfig config => (Returned tt, updateConfig config d, w)
  end.
Fixpoint run_db (ops : list db_op) (d : manager) (w : W) : manager * W :=
  match ops with [] => (d, w) | op :: ops => let '(_, d, w) := run_db_op d w op in run_db ops d w end.
End Operations.
