(* ===== verification/DatabaseFacts.v ===== *)
(** * The database manager: transactions and the pool

    The theorems about [DatabasePool].  [ConnectorLaws] states what the MySQL
    server promises about transactions, over a view of the world: the
    connections created so far, what each has executed and not committed, what
    is committed, and the snapshot each reads from.  The operations of several
    threads interleave as [pool_step]. *)

From S2P Require Import Prelude Numeric DatabasePool.

Record view (C : Type) `{Countable C} := mk_view {
  created : gset C;
  pending : gmap C (list (statement C));
  committed : list (statement C);
  (** what a consistent read sees, from the first read of a transaction on *)
  snapshot : gmap C (list (statement C));
}.
Arguments mk_view {_ _ _} _ _ _ _.
Arguments created {_ _ _} _.
Arguments pending {_ _ _} _.
Arguments committed {_ _ _} _.
Arguments snapshot {_ _ _} _.

Section View.
Context `{Countable C}.
Implicit Types (v : view C) (c : C).
Definition connected c v : view C :=
  mk_view ({[c]} ∪ created v) (delete c (pending v)) (committed v) (delete c (snapshot v)).
Definition executed (st : statement C) v : view C :=
  mk_view (created v) (<[st_conn st := default [] (pending v !! st_conn st) ++ [st]]> (pending v)) (committed v) (snapshot v).
Definition finished c v : view C := mk_view (created v) (delete c (pending v)) (committed v) (delete c (snapshot v)).
Definition transacted c v : view C :=
  mk_view (created v) (delete c (pending v)) (committed v ++ default [] (pending v !! c)) (delete c (snapshot v)).
Definition reading c v : view C :=
  mk_view (created v) (pending v) (committed v) (<[c := default (committed v) (snapshot v !! c)]> (snapshot v)).
End View.

(** Autocommit is off and the isolation level is the server's default,
    REPEATABLE READ.  A commit that throws may or may not have been done. *)
Class ConnectorLaws (W C Row : Type) `{Countable C} `{Connector W C Row} := {
  db_view : W → view C;
  answer : string → list (nat * param) → list (statement C) → list (statement C) → list (outcome Row);
  connect_law url user password w :
    match driver_connect url user password w with
    | (Returned c, w') => (c ∉ created (db_view w)) ∧ db_view w' = connected c (db_view w)
    | (Threw _, w') => db_view w' = db_view w
    end;
  set_schema_law c s w : db_view (set_schema c s w).2 = db_view w;
  set_auto_commit_law c b w : db_view (set_auto_commit c b w).2 = db_view w;
  prepare_law c q w : db_view (prepare_statement c q w).2 = db_view w;
  create_law c w : db_view (create_statement c w).2 = db_view w;
  set_parameter_law st i p w : db_view (set_parameter st i p w).2 = db_view w;
  system_now_law w : db_view (system_now w).2 = db_view w;
  steady_now_law w : db_view (db_steady_now w).2 = db_view w;
  execute_law st w :
    db_view (execute st w).2 = match (execute st w).1 with Returned _ => executed st (db_view w) | Threw _ => db_view w end;
  execute_update_law st w :
    db_view (execute_update st w).2
    = match (execute_update st w).1 with Returned _ => executed st (db_view w) | Threw _ => db_view w end;
  query_law st w :
    match execute_query st w with
    | (Returned rows, w') => db_view w' = reading (st_conn st) (db_view w)
        ∧ rows = answer (st_query st) (st_params st) (default (committed (db_view w)) (snapshot (db_view w) !! st_conn st))
                   (default [] (pending (db_view w) !! st_conn st))
    | (Threw _, w') => db_view w' = db_view w
    end;
  commit_law c w :
    match commit c w with
    | (Returned _, w') => db_view w' = transacted c (db_view w)
    | (Threw _, w') => db_view w' = db_view w ∨ db_view w' = transacted c (db_view w)
    end;
  rollback_law c w :
    match rollback c w with
    | (Returned _, w') => db_view w' = finished c (db_view w)
    | (Threw _, w') => db_view w' = db_view w ∨ db_view w' = finished c (db_view w)
    end;
}.

Create HintDb quiet.

Section Facts.
Context `{ConnectorLaws W C Row}.
Implicit Types (d : database_manager C) (c : C) (w : W) (v : view C).

(** ** Code that leaves the view as it is *)

Definition quiet {A} (m : attempt W A) : Prop := ∀ w, db_view (m w).2 = db_view w.

Lemma quiet_ret {A} (a : A) : quiet (ret a).
Proof. done. Qed.
Lemma quiet_get {A} (o : outcome A) : quiet (get o).
Proof. done. Qed.
Lemma quiet_bind {A B} (m : attempt W A) (f : A → attempt W B) : quiet m → (∀ a, quiet (f a)) → quiet (bind m f).
Proof.
  intros Hm Hf w. unfold bind. pose proof (Hm w) as Hw. destruct (m w) as [[a|e] w1]; simpl in *; [|done].
  by rewrite (Hf a w1).
Qed.
Lemma quiet_tick clock : (∀ w, db_view (clock w).2 = db_view w) → quiet (tick clock).
Proof. intros Hc w. unfold tick. pose proof (Hc w). by destruct (clock w). Qed.
Lemma quiet_format t : quiet (formatDateTime t).
Proof. apply quiet_bind; [apply quiet_tick, system_now_law|intros; apply quiet_ret]. Qed.
Lemma quiet_parse s : quiet (parseDateTime s).
Proof. apply quiet_tick, steady_now_law. Qed.
Lemma quiet_set st i p : quiet (set_parameter st i p).
Proof. intros w. apply set_parameter_law. Qed.
Lemma quiet_prepare c q : quiet (prepare_statement c q).
Proof. intros w. apply prepare_law. Qed.
Lemma quiet_create c : quiet (create_statement c).
Proof. intros w. apply create_law. Qed.
Hint Resolve quiet_ret quiet_get quiet_format quiet_parse quiet_set quiet_prepare quiet_create : quiet.
Hint Extern 1 (quiet (bind _ _)) => apply quiet_bind; [|intros ?] : quiet.

Lemma quiet_value b : quiet (binding_value b).
Proof. destruct b; simpl; auto with quiet. Qed.
Hint Resolve quiet_value : quiet.
Lemma quiet_bind_all st i bs : quiet (bind_all st i bs).
Proof. revert st i. induction bs as [|b bs IH]; intros st i; simpl; auto 6 with quiet. Qed.
Hint Resolve quiet_bind_all : quiet.
Lemma quiet_prepare_bound c q bs : quiet (prepare_bound c q bs).
Proof. unfold prepare_bound. auto with quiet. Qed.
Lemma quiet_read_metadata row : quiet (read_metadata row).
Proof. unfold read_metadata. auto 40 with quiet. Qed.
Lemma quiet_read_rows rows : quiet (read_rows rows).
Proof. pose proof quiet_read_metadata. induction rows; simpl; auto 10 with quiet. Qed.

(** ** The statement a write sends *)

(** The value of a placeholder.  A time point is not looked at: the text is
    that of some reading of the system clock. *)
Definition fits (b : binding) (p : param) : Prop :=
  match b with
  | BString s => p = PString s | BUInt64 n => p = PUInt64 n | BInt n => p = PInt n | BDouble x => p = PDouble x
  | BDateTime _ => ∃ w, p = PDateTime (format_time (duration_cast_seconds (system_now w).1))
  end.
Definition statement_for (query : string) (bs : list binding) c (st : statement C) : Prop :=
  st_conn st = c ∧ st_query st = query
  ∧ ∃ ps, Forall2 fits bs ps ∧ st_params st = zip (seq 1 (length bs)) ps.

Lemma binding_value_fits b w p w' : binding_value b w = (Returned p, w') → fits b p.
Proof.
  destruct b; simpl; try (intros [= <- <-]; done).
  unfold formatDateTime, bind, tick, ret. destruct (system_now w) as [now w1] eqn:Hnow. intros [= <- <-].
  exists w. by rewrite Hnow.
Qed.

(** Two values that differ, if at all, as time points. *)
Definition same_but_date (b b' : binding) : Prop :=
  match b, b' with BDateTime _, BDateTime _ => True | _, _ => b = b' end.

Lemma bind_all_dates bs bs' : Forall2 same_but_date bs bs' → ∀ st i w, bind_all st i bs w = bind_all st i bs' w.
Proof.
  induction 1 as [|b b' bs bs' Hb _ IH]; intros st i w; [done|]. cbn [bind_all]. unfold bind at 1 3.
  assert (binding_value b w = binding_value b' w) as -> by (destruct b, b'; by simplify_eq/=).
  destruct (binding_value b' w) as [[p|e] w1]; [|done]. unfold bind. by destruct (set_parameter st i p w1) as [[[]|e] w2].
Qed.

Lemma bind_step {A B} (m : attempt W A) (f : A → attempt W B) w :
  bind m f w = match m w with (Returned a, w) => f a w | (Threw e, w) => (Threw e, w) end.
Proof. done. Qed.

Lemma bind_Returned {A B} (m : attempt W A) (f : A → attempt W B) w b w' : bind m f w = (Returned b, w') →
  ∃ a w1, m w = (Returned a, w1) ∧ f a w1 = (Returned b, w').
Proof. unfold bind. destruct (m w) as [[a|e] w1]; [eauto|done]. Qed.

Lemma bind_all_spec st i bs w st' w' : bind_all st i bs w = (Returned st', w') →
  st_conn st' = st_conn st ∧ st_query st' = st_query st
  ∧ ∃ ps, Forall2 fits bs ps ∧ st_params st' = st_params st ++ zip (seq i (length bs)) ps.
Proof.
  revert st i w. induction bs as [|b bs IH]; intros st i w; cbn [bind_all].
  { intros [= <- <-]. split_all; [done..|]. exists []. by rewrite app_nil_r. }
  intros (p & w1 & Hp & (_ & w2 & _ & Hrest)%bind_Returned)%bind_Returned.
  apply IH in Hrest as (Hc & Hq & ps & Hps & Hst). split_all; [done..|].
  exists (p :: ps). split; [constructor; [by eapply binding_value_fits|done]|].
  rewrite Hst. simpl. by rewrite <-(assoc_L app).
Qed.

Lemma prepare_bound_spec c query bs w st w' : prepare_bound c query bs w = (Returned st, w') →
  statement_for query bs c st.
Proof.
  intros (_ & w1 & _ & Hb)%bind_Returned. apply bind_all_spec in Hb as (Hc & Hq & ps & Hps & Hst).
  unfold statement_for. split_all; [done..|]. by exists ps.
Qed.

(** How the body of a write can end. *)
Definition write_outcome (query : string) (bs : list binding) c v (r : outcome bool) v' : Prop :=
  (v' = v ∧ ∃ e, r = Threw e)
  ∨ ∃ st, statement_for query bs c st
      ∧ ((v' = executed st v ∧ ∃ e, r = Threw e) ∨ v' = transacted c (executed st v)).

Lemma commit_outcome {A} query bs c st w (r : A) v :
  statement_for query bs c st → db_view w = executed st v →
  let res := (commit c;;; ret r) w in
  match res.1 with Returned a => a = r ∧ db_view res.2 = transacted c (executed st v)
  | Threw _ => db_view res.2 = executed st v ∨ db_view res.2 = transacted c (executed st v) end.
Proof.
  intros Hst Hw. cbv zeta. unfold bind, ret. pose proof (commit_law c w) as Hl. rewrite Hw in Hl.
  by destruct (commit c w) as [[[]|e] w'].
Qed.

Lemma insert_body_outcome query bs c w :
  write_outcome query bs c (db_view w) (insert_body query bs c w).1 (db_view (insert_body query bs c w).2).
Proof.
  unfold insert_body. rewrite bind_step. pose proof (quiet_prepare_bound c query bs w) as Hq.
  destruct (prepare_bound c query bs w) as [[st|e] w1] eqn:Hp; simpl in Hq; [|left; simpl; eauto].
  apply prepare_bound_spec in Hp. rewrite bind_step. pose proof (execute_law st w1) as He.
  destruct (execute st w1) as [[[]|e] w2]; simpl in He; [|left; simpl; split; [congruence|eauto]].
  right. exists st. split; [done|]. rewrite Hq in He.
  pose proof (commit_outcome query bs c st w2 true (db_view w) Hp He) as Hc.
  destruct ((commit c;;; ret true) w2) as [[b|e] w3]; simpl in *; [right; tauto|].
  destruct Hc as [Hc|Hc]; [left; eauto|by right].
Qed.

Lemma update_body_outcome query bs c w :
  write_outcome query bs c (db_view w) (update_body query bs c w).1 (db_view (update_body query bs c w).2).
Proof.
  unfold update_body. rewrite bind_step. pose proof (quiet_prepare_bound c query bs w) as Hq.
  destruct (prepare_bound c query bs w) as [[st|e] w1] eqn:Hp; simpl in Hq; [|left; simpl; eauto].
  apply prepare_bound_spec in Hp. rewrite bind_step. pose proof (execute_update_law st w1) as He.
  destruct (execute_update st w1) as [[n|e] w2]; simpl in He; [|left; simpl; split; [congruence|eauto]].
  right. exists st. split; [done|]. rewrite Hq in He.
  pose proof (commit_outcome query bs c st w2 (0 <? n)%Z (db_view w) Hp He) as Hc.
  destruct ((commit c;;; ret (0 <? n)%Z) w2) as [[b|e] w3]; simpl in *; [right; tauto|].
  destruct Hc as [Hc|Hc]; [left; eauto|by right].
Qed.

(** ** The pool *)

(** A connection in the pool is there once, was created by the driver and has
    no open changes. *)
Record pool_ok (pool : list C) v : Prop := {
  po_nodup : NoDup pool;
  po_created : ∀ c, c ∈ pool → c ∈ created v;
  po_clean : ∀ c, c ∈ pool → pending v !! c = None;
}.

Lemma create_view d w :
  let r := createConnection d w in
  match r.1 with
  | Some c => (c ∉ created (db_view w)) ∧ db_view r.2 = connected c (db_view w)
  | None => db_view r.2 = db_view w
      ∨ ∃ c, (c ∉ created (db_view w)) ∧ db_view r.2 = connected c (db_view w)
  end.
Proof.
  cbv zeta. unfold createConnection. rewrite bind_step.
  pose proof (connect_law ("tcp://" +:+ db_host (db_config d) +:+ ":" +:+ to_string (db_port (db_config d)))
    (db_username (db_config d)) (db_password (db_config d)) w) as Hc.
  destruct (driver_connect _ _ _ w) as [[c|e] w1]; [|by left].
  destruct Hc as [Hfresh Hw1].
  assert (Hq : quiet (set_schema c (db_database (db_config d));;; set_auto_commit c false;;; ret c)).
  { apply quiet_bind; [intros w'; apply set_schema_law|intros _].
    apply quiet_bind; [intros w'; apply set_auto_commit_law|intros _; apply quiet_ret]. }
  specialize (Hq w1). destruct ((set_schema c _;;; set_auto_commit c false;;; ret c) w1) as [[c'|e] w2] eqn:Hr;
    simpl in Hq |- *; [|right; exists c; split; [done|congruence]].
  apply bind_Returned in Hr as (_ & w3 & _ & (_ & w4 & _ & [= <- <-])%bind_Returned).
  split; [done|congruence].
Qed.

(** Taking a connection: the front of the pool, or a new one. *)
Lemma get_connection_cases d w :
  let r := getConnection d w in
  match r.1.1 with
  | Some c =>
      (connection_pool_ d = c :: connection_pool_ r.1.2 ∧ db_view r.2 = db_view w)
      ∨ (connection_pool_ d = [] ∧ connection_pool_ r.1.2 = [] ∧ (c ∉ created (db_view w))
         ∧ db_view r.2 = connected c (db_view w))
  | None => connection_pool_ d = [] ∧ connection_pool_ r.1.2 = [] ∧ committed (db_view r.2) = committed (db_view w)
  end.
Proof.
  cbv zeta. unfold getConnection. destruct (connection_pool_ d) as [|c pool] eqn:Hp; [|by left].
  pose proof (create_view d w) as Hv. destruct (createConnection d w) as [[c|] w']; simpl in *; [right; tauto|].
  split_all; [done..|]. destruct Hv as [->|(c & _ & ->)]; done.
Qed.

Lemma pool_ok_take d w c : pool_ok (connection_pool_ d) (db_view w) → (getConnection d w).1.1 = Some c →
  pool_ok (c :: connection_pool_ (getConnection d w).1.2) (db_view (getConnection d w).2)
  ∧ committed (db_view (getConnection d w).2) = committed (db_view w).
Proof.
  intros [Hnd Hcr Hcl] Hc. pose proof (get_connection_cases d w) as Hcases. cbv zeta in Hcases. rewrite Hc in Hcases.
  destruct Hcases as [(Hp & ->)|(_ & -> & Hfresh & ->)]; [rewrite <-Hp; split; [by split|done]|].
  split; [|done]. split; simpl; [apply NoDup_singleton|set_solver|].
  intros c' ->%list_elem_of_singleton. apply lookup_delete_eq.
Qed.

(** Giving it back after changes to it alone that left nothing open. *)
Lemma pool_ok_return c pool v v' : pool_ok (c :: pool) v → created v ⊆ created v' →
  (∀ c', c' ≠ c → pending v' !! c' = pending v !! c') → pending v' !! c = None → pool_ok (pool ++ [c]) v'.
Proof.
  intros [Hnd Hcr Hcl] Hsub Hother Hc. apply NoDup_cons in Hnd as [Hnin Hnd]. split.
  - apply NoDup_app. split; [done|]. split; [|apply NoDup_singleton]. intros c' Hin ->%list_elem_of_singleton. done.
  - intros c' [Hin|Heq%list_elem_of_singleton]%elem_of_app; apply Hsub, Hcr; subst; set_solver.
  - intros c' [Hin|Heq%list_elem_of_singleton]%elem_of_app; [|by subst].
    rewrite Hother; [apply Hcl; set_solver|]. intros ->. done.
Qed.

Lemma pool_ok_drop c pool v v' : pool_ok (c :: pool) v → created v ⊆ created v' →
  (∀ c', c' ≠ c → pending v' !! c' = pending v !! c') → pool_ok pool v'.
Proof.
  intros [Hnd Hcr Hcl] Hsub Hother. apply NoDup_cons in Hnd as [Hnin Hnd]. split; [done|set_solver|].
  intros c' Hin. rewrite Hother; [apply Hcl; set_solver|]. intros ->. done.
Qed.

(** Changes to one connection. *)
Definition touches c v v' : Prop := created v' = created v ∧ ∀ c', c' ≠ c → pending v' !! c' = pending v !! c'.

Lemma touches_refl c v : touches c v v.
Proof. done. Qed.
Lemma touches_executed c st v : st_conn st = c → touches c v (executed st v).
Proof. intros <-. split; [done|]. intros c' Hne. simpl. by rewrite lookup_insert_ne. Qed.
Lemma touches_finished c v v' : touches c v v' → touches c v (finished c v').
Proof. intros [Hcr Hp]. split; [done|]. intros c' Hne. simpl. rewrite lookup_delete_ne by done. auto. Qed.
Lemma touches_transacted c v v' : touches c v v' → touches c v (transacted c v').
Proof. intros [Hcr Hp]. split; [done|]. intros c' Hne. simpl. rewrite lookup_delete_ne by done. auto. Qed.

Lemma rollback_touches c v w : touches c v (db_view w) →
  touches c v (db_view (rollback c w).2) ∧ committed (db_view (rollback c w).2) = committed (db_view w)
  ∧ match (rollback c w).1 with Returned _ => pending (db_view (rollback c w).2) !! c = None | Threw _ => True end.
Proof.
  intros Ht. pose proof (rollback_law c w) as Hl.
  destruct (rollback c w) as [[[]|e] w']; simpl in *.
  - rewrite Hl. split; [by apply touches_finished|]. split; [done|]. apply lookup_delete_eq.
  - split; [|by destruct Hl as [->| ->]]. destruct Hl as [->| ->]; [done|by apply touches_finished].
Qed.

(** What a write body leaves, when nothing was pending before: the statement
    is committed once or not at all. *)
Lemma write_outcome_view query bs c v r v' : write_outcome query bs c v r v' → pending v !! c = None →
  touches c v v' ∧ ∃ written, committed v' = committed v ++ written
  ∧ (written = [] ∨ ∃ st, statement_for query bs c st ∧ written = [st])
  ∧ (∀ b, r = Returned b → written ≠ [] ∧ pending v' !! c = None).
Proof.
  intros [(-> & e & ->)|(st & Hst & Hv)] Hclean.
  { split; [done|]. exists []. rewrite app_nil_r. split_all; [done|by left|done]. }
  pose proof (proj1 Hst) as Hconn. destruct Hv as [(-> & e & ->)| ->].
  - split; [by apply touches_executed|]. exists []. rewrite app_nil_r. split_all; [done|by left|done].
  - split; [by apply touches_transacted, touches_executed|]. exists [st]. split_all.
    + simpl. by rewrite Hconn, lookup_insert_eq, Hclean.
    + right. by exists st.
    + intros b _. split; [done|]. apply lookup_delete_eq.
Qed.

Definition one_write (query : string) (bs : list binding) (before after : list (statement C)) (r : outcome bool) : Prop :=
  ∃ written, after = before ++ written
  ∧ (written = [] ∨ ∃ c st, statement_for query bs c st ∧ written = [st])
  ∧ (r = Returned true → written ≠ []).

Lemma with_connection_write query bs body d w :
  (∀ c w, write_outcome query bs c (db_view w) (body c w).1 (db_view (body c w).2)) →
  pool_ok (connection_pool_ d) (db_view w) →
  let res := with_connection false true body d w in
  pool_ok (connection_pool_ res.1.2) (db_view res.2)
  ∧ one_write query bs (committed (db_view w)) (committed (db_view res.2)) res.1.1.
Proof.
  intros Hbody Hok. cbv zeta. unfold with_connection.
  pose proof (get_connection_cases d w) as Hcases. pose proof (pool_ok_take d w) as Htake.
  destruct (getConnection d w) as [[[c|] d1] w1]; simpl in *; cycle 1.
  { destruct Hcases as (_ & -> & Hcom). split; [split; [constructor|set_solver..]|]. exists []. rewrite app_nil_r, Hcom.
    split_all; [done|by left|done]. }
  clear Hcases. destruct (Htake c Hok eq_refl) as [Hok1 <-]. specialize (Hbody c w1).
  destruct (body c w1) as [r w2]; simpl in Hbody.
  destruct (write_outcome_view _ _ _ _ _ _ Hbody) as ([Hcr Hother] & written & Hcom & Hw & Hret);
    [apply (po_clean _ _ Hok1); set_solver|].
  assert (Hone : ∀ r', (r' = Returned true → r = Returned true) →
    one_write query bs (committed (db_view w1)) (committed (db_view w2)) r').
  { intros r' Hr'. exists written. split; [done|]. split; [naive_solver|]. intros ->. by eapply Hret, Hr'. }
  destruct r as [b|e].
  - split; [|by apply Hone]. simpl. apply (pool_ok_return _ _ _ _ Hok1); [by rewrite Hcr|done|by eapply Hret].
  - destruct (rollback_touches c (db_view w1) w2 (conj Hcr Hother)) as ([Hcr' Hother'] & Hcom' & Hend).
    destruct (rollback c w2) as [[[]|e'] w3]; simpl in *; rewrite Hcom'; (split; [|by apply Hone]).
    + apply (pool_ok_return _ _ _ _ Hok1); [by rewrite Hcr'|done|done].
    + apply (pool_ok_drop _ _ _ _ Hok1); [by rewrite Hcr'|done].
Qed.

(** ** Reading *)

(** A body that reads over [c] at most opens a snapshot. *)
Definition reads {A} (body : C → attempt W A) : Prop :=
  ∀ c w, db_view (body c w).2 = db_view w ∨ db_view (body c w).2 = reading c (db_view w).

Lemma reads_query {A} c st (k : list (outcome Row) → attempt W A) w : st_conn st = c → (∀ rows, quiet (k rows)) →
  let r := (rows <- execute_query st;; k rows) w in
  db_view r.2 = db_view w ∨ db_view r.2 = reading c (db_view w).
Proof.
  intros Hc Hk. cbv zeta. rewrite bind_step. pose proof (query_law st w) as Hq.
  destruct (execute_query st w) as [[rows|e] w1]; [|by left]. destruct Hq as [Hw1 _]. right.
  by rewrite (Hk rows w1), Hw1, Hc.
Qed.

Lemma select_reads infohash : reads (select_body infohash).
Proof.
  intros c w. unfold select_body. rewrite bind_step.
  pose proof (quiet_prepare_bound c select_torrent_query [BString infohash] w) as Hq.
  destruct (prepare_bound c _ _ w) as [[st|e] w1] eqn:Hp; [|by left]. simpl in Hq. rewrite <-Hq.
  apply reads_query; [apply (prepare_bound_spec _ _ _ _ _ _ Hp)|].
  intros [|next rows]; [apply quiet_ret|]. apply quiet_bind; [apply quiet_get|]. intros row. apply quiet_read_metadata.
Qed.

Lemma select_all_reads : reads select_all_body.
Proof.
  intros c w. unfold select_all_body. rewrite bind_step. pose proof (quiet_create c w) as Hq.
  destruct (create_statement c w) as [[[]|e] w1]; [|by left]. simpl in Hq. rewrite <-Hq.
  apply reads_query; [done|]. apply quiet_read_rows.
Qed.

Lemma with_connection_read {A} (failed : A) body d w : reads body → pool_ok (connection_pool_ d) (db_view w) →
  let res := with_connection failed false body d w in
  pool_ok (connection_pool_ res.1.2) (db_view res.2) ∧ committed (db_view res.2) = committed (db_view w).
Proof.
  intros Hbody Hok. cbv zeta. unfold with_connection.
  pose proof (get_connection_cases d w) as Hcases. pose proof (pool_ok_take d w) as Htake.
  destruct (getConnection d w) as [[[c|] d1] w1]; simpl in *; cycle 1.
  { destruct Hcases as (_ & -> & Hcom). split; [split; [constructor|set_solver..]|done]. }
  clear Hcases. destruct (Htake c Hok eq_refl) as [Hok1 <-].
  pose proof (po_clean _ _ Hok1 c ltac:(set_solver)) as Hclean.
  specialize (Hbody c w1). destruct (body c w1) as [r w2]; simpl in Hbody.
  assert (Hres : pool_ok (connection_pool_ d1 ++ [c]) (db_view w2) ∧ committed (db_view w2) = committed (db_view w1)).
  { destruct Hbody as [->| ->]; (split; [by apply (pool_ok_return _ _ _ _ Hok1)|done]). }
  by destruct r.
Qed.

(** ** Runs *)

Lemma run_write_one op d w : pool_ok (connection_pool_ d) (db_view w) →
  let res := run_write op d w in
  pool_ok (connection_pool_ res.1.2) (db_view res.2)
  ∧ one_write (write_query op) (write_bindings op) (committed (db_view w)) (committed (db_view res.2)) res.1.1.
Proof.
  intros Hok. pose proof insert_body_outcome. pose proof update_body_outcome.
  destruct op; (apply with_connection_write; [|exact Hok]); intros c0 w0; first [apply insert_body_outcome|apply update_body_outcome].
Qed.

Lemma run_db_op_ok op d w : pool_ok (connection_pool_ d) (db_view w) →
  pool_ok (connection_pool_ (run_db_op d w op).1.2) (db_view (run_db_op d w op).2).
Proof.
  intros Hok. destruct op as [op|infohash| |config]; simpl; [| | |exact Hok].
  - destruct (run_write_one op d w Hok) as [Hw _]. by destruct (run_write op d w) as [[[]]].
  - destruct (with_connection_read no_metadata _ d w (select_reads infohash) Hok) as [Hr _].
    unfold getTorrentMetadata. by destruct (with_connection no_metadata false _ d w) as [[[]]].
  - destruct (with_connection_read [] _ d w select_all_reads Hok) as [Hr _].
    unfold getAllTorrentMetadata. by destruct (with_connection [] false _ d w) as [[[]]].
Qed.

Lemma run_db_ok ops d w : pool_ok (connection_pool_ d) (db_view w) →
  pool_ok (connection_pool_ (run_db ops d w).1) (db_view (run_db ops d w).2).
Proof.
  revert d w. induction ops as [|op ops IH]; intros d w Hok; simpl; [done|].
  pose proof (run_db_op_ok op d w Hok) as Hop. destruct (run_db_op d w op) as [[r d1] w1]. by apply IH.
Qed.

Lemma create_one_ok d w : pool_ok (connection_pool_ d) (db_view w) →
  pool_ok (connection_pool_ (create_one d w).1) (db_view (create_one d w).2).
Proof.
  intros [Hnd Hcr Hcl]. unfold create_one. pose proof (create_view d w) as Hv.
  assert (Hother : ∀ c', c' ∉ created (db_view w) → pool_ok (connection_pool_ d) (connected c' (db_view w))).
  { intros c' Hfresh. split; simpl; [done|set_solver|]. intros c Hin.
    rewrite lookup_delete_ne; [by apply Hcl|]. intros ->. by apply Hfresh, Hcr. }
  destruct (createConnection d w) as [[c|] w1]; simpl in *.
  - destruct Hv as [Hfresh ->]. destruct (Hother c Hfresh) as [_ Hcr' Hcl']. split.
    + apply NoDup_app. split; [done|]. split; [|apply NoDup_singleton]. intros c' Hin ->%list_elem_of_singleton. by apply Hfresh, Hcr.
    + intros c' [Hin|Heq%list_elem_of_singleton]%elem_of_app; [by apply Hcr'|]. subst. simpl. set_solver.
    + intros c' [Hin|Heq%list_elem_of_singleton]%elem_of_app; [by apply Hcl'|]. subst. apply lookup_delete_eq.
  - destruct Hv as [->|(c & Hfresh & ->)]; [done|by apply Hother].
Qed.

Lemma new_database_manager_ok config w :
  pool_ok (connection_pool_ (new_database_manager config w).1) (db_view (new_database_manager config w).2).
Proof.
  unfold new_database_manager, initializeConnectionPool. set (n := Z.to_nat _). clearbody n.
  induction n as [|n IH]; simpl; [split; [constructor|set_solver..]|].
  destruct (Nat.iter n _ _) as [d1 w1]. by apply create_one_ok.
Qed.

(** Records that differ in nothing but dates are written the same way. *)
Lemma prepare_bound_dates c query bs bs' w : Forall2 same_but_date bs bs' → prepare_bound c query bs w = prepare_bound c query bs' w.
Proof.
  intros Hbs. unfold prepare_bound, bind. destruct (prepare_statement c query w) as [[[]|e] w1]; [|done]. by apply bind_all_dates.
Qed.

Lemma with_connection_ext {A} (failed : A) rolls_back (body body' : C → attempt W A) d w :
  (∀ c w, body c w = body' c w) → with_connection failed rolls_back body d w = with_connection failed rolls_back body' d w.
Proof. intros Hbody. unfold with_connection. destruct (getConnection d w) as [[[c|] d1] w1]; [|done]. by rewrite Hbody. Qed.

Lemma run_write_dates op op' d w : write_query op' = write_query op →
  Forall2 same_but_date (write_bindings op') (write_bindings op) → run_write op' d w = run_write op d w.
Proof.
  intros Hquery Hbs.
  assert (∀ query c w, insert_body query (write_bindings op') c w = insert_body query (write_bindings op) c w) as Hins.
  { intros query c w'. unfold insert_body. rewrite !bind_step. by rewrite (prepare_bound_dates c query _ _ w' Hbs). }
  assert (∀ query c w, update_body query (write_bindings op') c w = update_body query (write_bindings op) c w) as Hupd.
  { intros query c w'. unfold update_body. rewrite !bind_step. by rewrite (prepare_bound_dates c query _ _ w' Hbs). }
  destruct op, op'; try (vm_compute in Hquery; discriminate Hquery); apply with_connection_ext; intros c w'; apply Hins || apply Hupd.
Qed.

(** C19: Every write is one transaction: whatever ran before and whichever
    calls throw, afterwards the statement of the write is committed once or not
    at all, and once if the write reported success; nothing else is committed
    and no connection goes back to the pool with changes that are not.  The
    strings and numbers of its record are bound to the placeholders in order.
    The dates are not: each is bound to a reading of the system clock, and
    records that differ in their dates only are written the same way. *)
Theorem write_transaction config (ops : list db_op) op w :
  let '(d, w) := run_db ops (new_database_manager config w).1 (new_database_manager config w).2 in
  let '(r, d', w') := run_write op d w in
  (∃ written, committed (db_view w') = committed (db_view w) ++ written
    ∧ (written = [] ∨ ∃ c st, statement_for (write_query op) (write_bindings op) c st ∧ written = [st])
    ∧ (r = Returned true → written ≠ []))
  ∧ (∀ c, c ∈ connection_pool_ d' → pending (db_view w') !! c = None)
  ∧ ∀ op', write_query op' = write_query op → Forall2 same_but_date (write_bindings op') (write_bindings op) →
      run_write op' d w = (r, d', w').
Proof.
  pose proof (run_db_ok ops _ _ (new_database_manager_ok config w)) as Hok.
  destruct (run_db ops _ _) as [d w1]. destruct (run_write_one op d w1 Hok) as [Hok' Hone].
  pose proof (λ op' Hq Hbs, run_write_dates op op' d w1 Hq Hbs) as Hdates.
  destruct (run_write op d w1) as [[r d'] w2]. split; [exact Hone|]. split; [apply (po_clean _ _ Hok')|exact Hdates].
Qed.

(** ** Snapshots *)

(** What a read returns from given rows: nothing found, an error, or the first
    row with two readings of the clock for its dates. *)
Definition metadata_of (rows : list (outcome Row)) (m : TorrentMetadata) : Prop :=
  m = no_metadata ∨ ∃ row rest w w', rows = Returned row :: rest ∧ read_metadata row w = (Returned m, w').

Lemma select_body_snapshot infohash c w s : snapshot (db_view w) !! c = Some s → pending (db_view w) !! c = None →
  snapshot (db_view (select_body infohash c w).2) !! c = Some s
  ∧ ∀ m, (select_body infohash c w).1 = Returned m →
      metadata_of (answer select_torrent_query [(1, PString infohash)] s []) m.
Proof.
  intros Hs Hp. split.
  { destruct (select_reads infohash c w) as [->| ->]; [done|]. simpl. by rewrite lookup_insert_eq, Hs. }
  intros m. destruct (select_body infohash c w) as [r w'] eqn:Hb. simpl. intros ->. unfold select_body in Hb.
  apply bind_Returned in Hb as (st & w1 & Hst & (rows & w2 & Hq & Hm)%bind_Returned).
  pose proof (quiet_prepare_bound c select_torrent_query [BString infohash] w) as Hw1. rewrite Hst in Hw1. simpl in Hw1.
  apply prepare_bound_spec in Hst as (Hc & Hquery & ps & Hps & Hparams).
  inversion Hps as [|? p ? ps' Hfit Hnil]; subst. inversion Hnil; subst. simpl in Hfit. subst p.
  pose proof (query_law st w1) as Hl. rewrite Hq in Hl. destruct Hl as [_ Hrows].
  rewrite Hquery, Hparams, Hw1, Hs, Hp in Hrows. simpl in Hrows. rewrite <-Hrows.
  destruct rows as [|next rest]; [left; by injection Hm|]. right.
  apply bind_Returned in Hm as (row & w3 & Hrow & Hread). injection Hrow as -> ->. eauto 10.
Qed.

Lemma with_connection_snapshots {A} (failed : A) body d w : reads body →
  let res := with_connection failed false body d w in
  ∀ c s, c ∈ connection_pool_ d → snapshot (db_view w) !! c = Some s →
    c ∈ connection_pool_ res.1.2 ∧ snapshot (db_view res.2) !! c = Some s.
Proof.
  intros Hbody. cbv zeta. intros c s Hc Hs. unfold with_connection, getConnection.
  destruct (connection_pool_ d) as [|c1 pool] eqn:Hp; [by apply elem_of_nil in Hc|].
  specialize (Hbody c1 w). destruct (body c1 w) as [r w1]. simpl in Hbody.
  assert (Hres : c ∈ pool ++ [c1] ∧ snapshot (db_view w1) !! c = Some s).
  { split; [set_solver|]. destruct Hbody as [->| ->]; [done|]. simpl.
    destruct (decide (c1 = c)) as [->|Hne]; [by rewrite lookup_insert_eq, Hs|by rewrite lookup_insert_ne]. }
  by destruct r.
Qed.

(** The manager reads while other processes commit. *)
Inductive read_step : database_manager C * W → database_manager C * W → Prop :=
  | read_get infohash d w : read_step (d, w) ((getTorrentMetadata infohash d w).1.2, (getTorrentMetadata infohash d w).2)
  | read_all d w : read_step (d, w) ((getAllTorrentMetadata d w).1.2, (getAllTorrentMetadata d w).2)
  | others_commit d w w' : created (db_view w') = created (db_view w) → pending (db_view w') = pending (db_view w) →
      snapshot (db_view w') = snapshot (db_view w) → read_step (d, w) (d, w').

Lemma read_steps_snapshot st st' c s : rtc read_step st st' →
  pool_ok (connection_pool_ st.1) (db_view st.2) → c ∈ connection_pool_ st.1 → snapshot (db_view st.2) !! c = Some s →
  pool_ok (connection_pool_ st'.1) (db_view st'.2) ∧ c ∈ connection_pool_ st'.1 ∧ snapshot (db_view st'.2) !! c = Some s.
Proof.
  induction 1 as [|st1 st2 st3 Hstep _ IH]; [done|]. intros Hok Hc Hs.
  assert (Hnext : pool_ok (connection_pool_ st2.1) (db_view st2.2) ∧ c ∈ connection_pool_ st2.1
    ∧ snapshot (db_view st2.2) !! c = Some s); [|apply IH; apply Hnext].
  destruct Hstep as [infohash d w|d w|d w w' Hcr Hpe Hsn]; simpl in *.
  - destruct (with_connection_read no_metadata _ d w (select_reads infohash) Hok).
    destruct (with_connection_snapshots no_metadata _ d w (select_reads infohash) c s Hc Hs). done.
  - destruct (with_connection_read [] _ d w select_all_reads Hok).
    destruct (with_connection_snapshots [] _ d w select_all_reads c s Hc Hs). done.
  - destruct Hok as [Hnd Hcre Hcl]. split; [|by rewrite Hsn].
    split; [done|intros; rewrite Hcr; auto|intros; rewrite Hpe; auto].
Qed.

(** Reads do not end their transaction.  A connection that was used to
    read goes back to the pool with its snapshot, and as long as only reads
    follow, however many and whatever other processes commit meanwhile, a
    record read over it is the one of the snapshot. *)
Theorem reads_see_old_snapshot d w c s infohash d' w' :
  pool_ok (connection_pool_ d) (db_view w) → c ∈ connection_pool_ d → snapshot (db_view w) !! c = Some s →
  rtc read_step (d, w) (d', w') → head (connection_pool_ d') = Some c →
  let res := getTorrentMetadata infohash d' w' in
  last (connection_pool_ res.1.2) = Some c ∧ snapshot (db_view res.2) !! c = Some s
  ∧ ∀ m, res.1.1 = Returned m → metadata_of (answer select_torrent_query [(1, PString infohash)] s []) m.
Proof.
  intros Hok Hc Hs Hrun Hhead. destruct (read_steps_snapshot _ _ c s Hrun Hok Hc Hs) as (Hok' & Hc' & Hs'). simpl in *.
  cbv zeta. unfold getTorrentMetadata, with_connection, getConnection.
  destruct (connection_pool_ d') as [|c1 pool] eqn:Hp; [done|]. injection Hhead as ->.
  destruct (select_body_snapshot infohash c w' s Hs') as [Hkeep Hm]; [apply (po_clean _ _ Hok'); set_solver|].
  destruct (select_body infohash c w') as [[m|e] w1]; simpl in *; rewrite last_snoc.
  - split_all; [done..|]. intros m' [= <-]. by apply Hm.
  - split_all; [done..|]. intros m' [= <-]. by left.
Qed.

(** ** Several threads *)

(** The lock is held while a connection is taken or returned, not while it is
    used.  A state has the pool, the connection each thread uses, and the
    world; a thread that works changes the world in any way that does not
    create connections, and one that leaves with an exception drops its
    connection. *)
Definition pool_state : Type := database_manager C * gmap nat C * W.

Inductive pool_step : pool_state → pool_state → Prop :=
  | thread_takes t d held w c d' w' : held !! t = None → getConnection d w = (Some c, d', w') →
      pool_step (d, held, w) (d', <[t := c]> held, w')
  | thread_fails t d held w d' w' : held !! t = None → getConnection d w = (None, d', w') →
      pool_step (d, held, w) (d', held, w')
  | thread_works d held w w' : created (db_view w') = created (db_view w) → pool_step (d, held, w) (d, held, w')
  | thread_returns t d held w c : held !! t = Some c →
      pool_step (d, held, w) (returnConnection c d, delete t held, w)
  | thread_drops t d held w c : held !! t = Some c → pool_step (d, held, w) (d, delete t held, w).

Record unshared (st : pool_state) : Prop := {
  us_pool : NoDup (connection_pool_ st.1.1);
  us_held : ∀ t1 t2 c, st.1.2 !! t1 = Some c → st.1.2 !! t2 = Some c → t1 = t2;
  us_apart : ∀ t c, st.1.2 !! t = Some c → c ∉ connection_pool_ st.1.1;
  us_created : ∀ c, (c ∈ connection_pool_ st.1.1 ∨ ∃ t, st.1.2 !! t = Some c) → c ∈ created (db_view st.2);
}.

Lemma get_connection_created d w :
  created (db_view w) ⊆ created (db_view (getConnection d w).2)
  ∧ ∀ c, (getConnection d w).1.1 = Some c → c ∈ created (db_view (getConnection d w).2) ∨ c ∈ connection_pool_ d.
Proof.
  unfold getConnection. destruct (connection_pool_ d) as [|c pool] eqn:Hp; simpl.
  - pose proof (create_view d w) as Hv. destruct (createConnection d w) as [[c|] w1]; simpl in *.
    + destruct Hv as [_ ->]. simpl. split; [set_solver|]. intros c' [= ->]. set_solver.
    + split; [|done]. destruct Hv as [->|(c & _ & ->)]; set_solver.
  - split; [done|]. intros c' [= ->]. right. set_solver.
Qed.

Lemma unshared_take t d held w c d' w' : held !! t = None → getConnection d w = (Some c, d', w') →
  unshared (d, held, w) → unshared (d', <[t := c]> held, w').
Proof.
  intros Ht Hget [Hpool Hheld Hapart Hcr]. simpl in *.
  pose proof (get_connection_created d w) as [Hmono Hnew]. pose proof (get_connection_cases d w) as Hcases.
  rewrite Hget in Hmono, Hnew, Hcases. simpl in *.
  assert (Hc : (∀ t', held !! t' ≠ Some c) ∧ c ∉ connection_pool_ d' ∧ NoDup (connection_pool_ d')
    ∧ connection_pool_ d' ⊆ connection_pool_ d).
  { destruct Hcases as [(Hp & _)|(Hp & Hp' & Hfresh & _)]; rewrite Hp in *.
    - apply NoDup_cons in Hpool as [Hnin Hnd]. split_all; [|done|done|set_solver].
      intros t' Hl. apply (Hapart t' c Hl). set_solver.
    - rewrite Hp'. split_all; [|set_solver|constructor|done].
      intros t' Hl. apply Hfresh, Hcr. right. by exists t'. }
  destruct Hc as (Hnot & Hnin & Hnd & Hsub). split; simpl.
  - done.
  - intros t1 t2 c' [[Ht1 Hc1]|[Hne1 Hl1]]%lookup_insert_Some [[Ht2 Hc2]|[Hne2 Hl2]]%lookup_insert_Some; subst.
    + done.
    + by destruct (Hnot t2).
    + by destruct (Hnot t1).
    + by eapply Hheld.
  - intros t' c' [[<- <-]|[? Hl]]%lookup_insert_Some; [done|]. intros Hin. by apply (Hapart t' c' Hl), Hsub.
  - intros c' [Hin|[t' [[<- <-]|[? Hl]]%lookup_insert_Some]].
    + apply Hmono, Hcr. left. by apply Hsub.
    + destruct (Hnew c eq_refl) as [?|Hin]; [done|]. apply Hmono, Hcr. by left.
    + apply Hmono, Hcr. right. by exists t'.
Qed.

Lemma unshared_drop t d held w : unshared (d, held, w) → unshared (d, delete t held, w).
Proof.
  intros [Hpool Hheld Hapart Hcr]. simpl in *. split; simpl; [done|..].
  - intros t1 t2 c [_ Hl1]%lookup_delete_Some [_ Hl2]%lookup_delete_Some. by eapply Hheld.
  - intros t' c [_ Hl]%lookup_delete_Some. by eapply Hapart.
  - intros c [Hin|[t' [_ Hl]%lookup_delete_Some]]; apply Hcr; [by left|right; by exists t'].
Qed.

Lemma unshared_return t d held w c : held !! t = Some c → unshared (d, held, w) →
  unshared (returnConnection c d, delete t held, w).
Proof.
  intros Ht [Hpool Hheld Hapart Hcr]. simpl in *. split; simpl.
  - apply NoDup_app. split; [done|]. split; [|apply NoDup_singleton].
    intros c' Hin ->%list_elem_of_singleton. by apply (Hapart t c).
  - intros t1 t2 c' [_ Hl1]%lookup_delete_Some [_ Hl2]%lookup_delete_Some. by eapply Hheld.
  - intros t' c' [Hne Hl]%lookup_delete_Some [Hin|Heq%list_elem_of_singleton]%elem_of_app; [by apply (Hapart t' c')|].
    subst c'. apply Hne. by eapply Hheld.
  - intros c' [[Hin|Heq%list_elem_of_singleton]%elem_of_app|[t' [_ Hl]%lookup_delete_Some]]; apply Hcr.
    + by left.
    + subst. right. by exists t.
    + right. by exists t'.
Qed.

Lemma unshared_step st st' : pool_step st st' → unshared st → unshared st'.
Proof.
  destruct 1 as [t d held w c d' w' Ht Hget|t d held w d' w' Ht Hget|d held w w' Hcr|t d held w c Ht|t d held w c Ht].
  - by apply unshared_take.
  - intros [Hpool Hheld Hapart Hcre]. simpl in *. pose proof (get_connection_created d w) as [Hmono _].
    pose proof (get_connection_cases d w) as Hcases. rewrite Hget in Hmono, Hcases. simpl in *.
    destruct Hcases as (Hp & Hp' & _). split; simpl; rewrite ?Hp'; [constructor|done|set_solver|].
    intros c [Hin|Hl]; [set_solver|]. apply Hmono, Hcre. by right.
  - intros [Hpool Hheld Hapart Hcre]. split; [done..|]. simpl. rewrite Hcr. exact Hcre.
  - by apply unshared_return.
  - by apply unshared_drop.
Qed.

Lemma unshared_steps st st' : rtc pool_step st st' → unshared st → unshared st'.
Proof. induction 1 as [|st1 st2 st3 Hstep _ IH]; [done|]. intros Hun. apply IH. by eapply unshared_step. Qed.

Lemma unshared_initial config w :
  unshared ((new_database_manager config w).1, ∅, (new_database_manager config w).2).
Proof. destruct (new_database_manager_ok config w) as [Hnd Hcr _]. split; simpl; [done|done|done|]. intros c [?|[? ?]]; [auto|done]. Qed.

(** C36: However threads interleave, a connection is used by at most one of
    them, is not in the pool while it is used, and is in the pool at most
    once. *)
Theorem connections_not_shared config w st :
  rtc pool_step ((new_database_manager config w).1, ∅, (new_database_manager config w).2) st →
  NoDup (connection_pool_ st.1.1)
  ∧ (∀ t1 t2 c, st.1.2 !! t1 = Some c → st.1.2 !! t2 = Some c → t1 = t2)
  ∧ ∀ t c, st.1.2 !! t = Some c → c ∉ connection_pool_ st.1.1.
Proof.
  intros Hrun. destruct (unshared_steps _ _ Hrun (unshared_initial config w)) as [Hpool Hheld Hapart _]. done.
Qed.

(** ** The size of the pool *)

Lemma with_connection_length {A} (failed : A) rolls_back body d w :
  length (connection_pool_ (with_connection failed rolls_back body d w).1.2) ≤ Nat.max 1 (length (connection_pool_ d)).
Proof.
  unfold with_connection. pose proof (get_connection_cases d w) as Hcases.
  destruct (getConnection d w) as [[[c|] d1] w1]; simpl in *; [|destruct Hcases as (_ & -> & _); simpl; lia].
  assert (length (connection_pool_ d1 ++ [c]) ≤ Nat.max 1 (length (connection_pool_ d))) as Hlen.
  { rewrite length_app. destruct Hcases as [[-> _]|(_ & -> & _)]; simpl; lia. }
  rewrite length_app in Hlen.
  destruct (body c w1) as [[a|e] w2]; simpl; rewrite ?length_app; [done|].
  destruct rolls_back; simpl; rewrite ?length_app; [|done].
  destruct (rollback c w2) as [[[]|e'] w3]; simpl; rewrite ?length_app; simpl in *; lia.
Qed.

Lemma run_db_op_length op d w :
  length (connection_pool_ (run_db_op d w op).1.2) ≤ Nat.max 1 (length (connection_pool_ d)).
Proof.
  destruct op as [op|infohash| |config]; simpl; [| | |lia].
  - assert (Hw : length (connection_pool_ (run_write op d w).1.2) ≤ Nat.max 1 (length (connection_pool_ d)))
      by (destruct op; apply with_connection_length).
    by destruct (run_write op d w) as [[]].
  - pose proof (with_connection_length no_metadata false (select_body infohash) d w) as Hr. unfold getTorrentMetadata.
    by destruct (with_connection no_metadata false _ d w) as [[]].
  - pose proof (with_connection_length [] false select_all_body d w) as Hr. unfold getAllTorrentMetadata.
    by destruct (with_connection [] false _ d w) as [[]].
Qed.

Lemma new_manager_length config w :
  length (connection_pool_ (new_database_manager config w).1) ≤ Z.to_nat (db_max_connections config).
Proof.
  unfold new_database_manager, initializeConnectionPool. simpl db_config.
  induction (Z.to_nat (db_max_connections config)) as [|n IH]; simpl; [lia|].
  destruct (Nat.iter n _ _) as [d1 w1]. simpl in IH. unfold create_one.
  destruct (createConnection d1 w1) as [[c|] w2]; simpl; rewrite ?length_app; simpl; lia.
Qed.

Lemma takes n d w : (∀ d w, is_Some (createConnection d w).1) →
  ∃ d' held w', rtc pool_step (d, ∅, w) (d', held, w') ∧ size held = n ∧ ∀ t, is_Some (held !! t) → t < n.
Proof.
  intros Hconn. induction n as [|n (d1 & held & w1 & Hrun & Hsize & Hbound)].
  { exists d, ∅, w. split; [done|]. split; [done|]. intros t. rewrite lookup_empty. by intros [? ?]. }
  assert (Hn : held !! n = None). { apply eq_None_not_Some. intros Hl%Hbound. lia. }
  destruct (getConnection d1 w1) as [[[c|] d2] w2] eqn:Hget.
  - exists d2, (<[n := c]> held), w2. split; [eapply rtc_r; [exact Hrun|by eapply thread_takes]|].
    split; [rewrite map_size_insert_None by done; lia|].
    intros t [c' [[<- _]|[_ Hl]]%lookup_insert_Some]; [lia|]. assert (t < n) by (apply Hbound; eauto). lia.
  - exfalso. revert Hget. unfold getConnection. destruct (connection_pool_ d1); [|done].
    destruct (Hconn d1 w1) as [c Hc]. destruct (createConnection d1 w1) as [[c'|] w']; [done|]. by intros.
Qed.

Lemma returns n d held w : size held = n →
  ∃ d', rtc pool_step (d, held, w) (d', ∅, w) ∧ length (connection_pool_ d') = length (connection_pool_ d) + n.
Proof.
  revert d held. induction n as [|n IH]; intros d held Hsize.
  { apply map_size_empty_inv in Hsize as ->. exists d. split; [done|lia]. }
  destruct (map_choose held) as (t & c & Ht). { intros ->. done. }
  destruct (IH (returnConnection c d) (delete t held)) as (d' & Hrun & Hlen).
  { rewrite map_size_delete_Some by eauto. lia. }
  exists d'. split; [eapply rtc_l; [by eapply thread_returns|done]|].
  rewrite Hlen. simpl. rewrite length_app. simpl. lia.
Qed.

(** The pool keeps to its limit only while one thread uses the manager: a
    sequence of operations leaves at most [max_connections] connections (or
    one) in it, but with enough threads it ends up with any number of open
    connections, whatever the limit, as long as the server accepts them. *)
Theorem pool_limit config w :
  (∀ d w, is_Some (createConnection d w).1) →
  (∀ ops, let d := (run_db ops (new_database_manager config w).1 (new_database_manager config w).2).1 in
     length (connection_pool_ d) ≤ Nat.max 1 (Z.to_nat (db_max_connections config)))
  ∧ ∀ n, ∃ d w', rtc pool_step ((new_database_manager config w).1, ∅, (new_database_manager config w).2) (d, ∅, w')
      ∧ n ≤ length (connection_pool_ d).
Proof.
  intros Hconn. split.
  - intros ops. cbv zeta. pose proof (new_manager_length config w) as Hlen.
    destruct (new_database_manager config w) as [d0 w0]. simpl in *.
    assert (Hgen : ∀ d w, length (connection_pool_ (run_db ops d w).1) ≤ Nat.max 1 (length (connection_pool_ d))).
    { induction ops as [|op ops IH]; intros d1 w1; simpl; [lia|].
      pose proof (run_db_op_length op d1 w1). destruct (run_db_op d1 w1 op) as [[r d2] w2]. simpl in *.
      specialize (IH d2 w2). lia. }
    specialize (Hgen d0 w0). lia.
  - intros n. destruct (takes n (new_database_manager config w).1 (new_database_manager config w).2 Hconn)
      as (d1 & held & w1 & Hrun & Hsize & _).
    destruct (returns n d1 held w1 Hsize) as (d2 & Hrun2 & Hlen). exists d2, w1. split; [by etrans|lia].
Qed.
End Facts.

(** ** A server for the witnesses

    Handles are numbers, a row is the parameters of the insertion that made
    it. *)
Record server := mk_server { sv_view : view Z; sv_clock : Z }.

Definition row_text (row : list (nat * param)) (i : nat) : outcome string :=
  match (list_to_map row : gmap nat param) !! i with
  | Some (PString s) | Some (PDateTime s) => Returned s
  | _ => Threw "no such column"
  end.
Definition row_number (row : list (nat * param)) (i : nat) : outcome Z :=
  match (list_to_map row : gmap nat param) !! i with
  | Some (PInt n) | Some (PUInt64 n) => Returned n
  | _ => Threw "no such column"
  end.
Definition column_index (column : string) : nat :=
  S (default 0 (fst <$> list_find (eq column)
    ["infohash"; "name"; "size"; "piece_length"; "pieces_count"; "files_count"; "created_at"; "updated_at"])).
Definition server_answer (query : string) (ps : list (nat * param)) (seen own : list (statement Z))
    : list (outcome (list (nat * param))) :=
  Returned <$> filter (λ row, query = select_all_query ∨ row_text row 1 = row_text ps 1)
    (st_params <$> filter (λ st, st_query st = insert_torrent_query) (seen ++ own)).

Definition server_do (f : view Z → view Z) (w : server) : server := mk_server (f (sv_view w)) (sv_clock w).
Definition server_clock (w : server) : Z * server := (sv_clock w, mk_server (sv_view w) (sv_clock w + 1000000000)).
Definition next_handle (w : server) : Z := (1 + largest (elements (created (sv_view w))))%Z.

#[export] Instance server_connector : Connector server Z (list (nat * param)) := {|
  driver_connect _ _ _ w := (Returned (next_handle w), server_do (connected (next_handle w)) w);
  set_schema _ _ w := (Returned tt, w);
  set_auto_commit _ _ w := (Returned tt, w);
  prepare_statement _ _ w := (Returned tt, w);
  create_statement _ w := (Returned tt, w);
  set_parameter _ _ _ w := (Returned tt, w);
  execute st w := if decide (st_query st = insert_bep9_query) then (Threw "no such table", w)
    else (Returned tt, server_do (executed st) w);
  execute_update st w := (Returned 1%Z, server_do (executed st) w);
  execute_query st w :=
    (Returned (server_answer (st_query st) (st_params st)
      (default (committed (sv_view w)) (snapshot (sv_view w) !! st_conn st)) (default [] (pending (sv_view w) !! st_conn st))),
     server_do (reading (st_conn st)) w);
  get_int row column := if decide (column = "id") then Returned 1%Z else row_number row (column_index column);
  get_uint64 row column := row_number row (column_index column);
  get_string row column := row_text row (column_index column);
  commit c w := (Returned tt, server_do (transacted c) w);
  rollback c w := (Returned tt, server_do (finished c) w);
  close_connection _ w := (Returned tt, w);
  system_now := server_clock;
  db_steady_now := server_clock;
  format_time t := to_string t;
|}.

#[export, refine] Instance server_laws : ConnectorLaws server Z (list (nat * param)) :=
  {| db_view := sv_view; answer := server_answer |}.
Proof.
  - intros url user password w. simpl. split; [|done].
    intros Hin%elem_of_elements%largest_ge. unfold next_handle in Hin. lia.
  - done.
  - done.
  - done.
  - done.
  - done.
  - done.
  - done.
  - intros st w. simpl. by destruct (decide _).
  - done.
  - done.
  - done.
  - done.
Defined.

Definition server_config : DatabaseConfig := mk_DatabaseConfig "localhost" "Torrents" "crawler" "secret" 3306 2 30 true false "utf8mb4".
Definition server_start : server := mk_server (mk_view ∅ ∅ [] ∅) 5.
Definition server_manager : database_manager Z * server := new_database_manager server_config server_start.
Definition some_torrent : TorrentMetadata := mk_TorrentMetadata 0 "abcd" "name" 1000 16 63 1 7 8.

(** A record is read back, with other dates. *)
Example insert_then_get :
  let '(r, d, w) := insertTorrentMetadata some_torrent server_manager.1 server_manager.2 in
  r = Returned true
  ∧ (getTorrentMetadata "abcd" d w).1.1
    = Returned (some_torrent <| tm_id := 1%Z |> <| tm_created_at := 2000000005%Z |> <| tm_updated_at := 3000000005%Z |>).
Proof. vm_compute. split; reflexivity. Qed.

(** An insertion that fails is rolled back. *)
Example failed_insert :
  let '(r, d, w) := insertBEP9ExtensionProtocol (mk_BEP9ExtensionProtocol "" "" 0 "" "" 0 0 "") server_manager.1 server_manager.2 in
  r = Returned false ∧ connection_pool_ d = [2; 1]%Z ∧ committed (db_view w) = [].
Proof. vm_compute. split_all; reflexivity. Qed.

Lemma write_transaction_witness :
  let '(d, w) := run_db [DGetAll] server_manager.1 server_manager.2 in
  let '(r, d', w') := run_write (InsertTorrent some_torrent) d w in
  r = Returned true ∧ (∃ st, committed (db_view w') = [st]) ∧ (∀ c, c ∈ connection_pool_ d' → pending (db_view w') !! c = None)
  ∧ run_write (InsertTorrent (some_torrent <| tm_created_at := 70%Z |>)) d w = (r, d', w').
Proof.
  pose proof (write_transaction server_config [DGetAll] (InsertTorrent some_torrent) server_start) as Hwrite.
  change (new_database_manager server_config server_start) with server_manager in Hwrite.
  destruct (run_db [DGetAll] server_manager.1 server_manager.2) as [d w] eqn:Hrun.
  destruct (run_write (InsertTorrent some_torrent) d w) as [[r d'] w'] eqn:Hw.
  assert (Hr : r = Returned true ∧ committed (db_view w) = []).
  { vm_compute in Hrun. injection Hrun as <- <-. vm_compute in Hw. injection Hw as <- <- <-. done. }
  destruct Hr as [Hr Hc]. destruct Hwrite as [(written & Hcom & [->|(c & st & _ & ->)] & Hne) [Hclean Hdates]].
  - by destruct (Hne Hr).
  - rewrite Hcom, Hc. split; [done|]. split; [by exists st|]. split; [done|].
    apply Hdates; [done|]. vm_compute. repeat constructor.
Defined.

(** The manager reads, another process commits a record, and the manager reads
    twice more: over the other connection, which sees the record, and over the
    first, which does not. *)
Definition after_read : database_manager Z * server :=
  ((getTorrentMetadata "abcd" server_manager.1 server_manager.2).1.2, (getTorrentMetadata "abcd" server_manager.1 server_manager.2).2).
Definition foreign_commit : database_manager Z * server :=
  (after_read.1, server_do (λ v, mk_view (created v) (pending v)
     [mk_statement 77%Z insert_torrent_query (zip (seq 1 8) [PString "abcd"; PString "name"; PUInt64 1000; PUInt64 16;
        PInt 63; PInt 1; PDateTime "7"; PDateTime "8"])] (snapshot v)) after_read.2).
Definition before_stale_read : database_manager Z * server :=
  ((getTorrentMetadata "abcd" foreign_commit.1 foreign_commit.2).1.2, (getTorrentMetadata "abcd" foreign_commit.1 foreign_commit.2).2).

Lemma reads_see_old_snapshot_witness :
  let res := getTorrentMetadata "abcd" before_stale_read.1 before_stale_read.2 in
  (getTorrentMetadata "abcd" foreign_commit.1 foreign_commit.2).1.1 ≠ Returned no_metadata
  ∧ last (connection_pool_ res.1.2) = Some 1%Z
  ∧ ∀ m, res.1.1 = Returned m → metadata_of (answer select_torrent_query [(1, PString "abcd")] [] []) m.
Proof.
  cbv zeta. split; [vm_compute; congruence|].
  destruct (reads_see_old_snapshot after_read.1 after_read.2 1%Z [] "abcd" before_stale_read.1 before_stale_read.2)
    as (Hlast & _ & Hread).
  - split; [apply (bool_decide_unpack _); vm_compute; exact I| |].
    + intros c Hc. change (connection_pool_ after_read.1) with [2; 1]%Z in Hc.
      revert c Hc. apply Forall_forall. apply (bool_decide_unpack _). vm_compute. exact I.
    + intros c _. vm_compute. by destruct c as [|[]|].
  - apply (bool_decide_unpack _). vm_compute. exact I.
  - vm_compute. reflexivity.
  - eapply rtc_l; [exact (others_commit after_read.1 after_read.2 foreign_commit.2 eq_refl eq_refl eq_refl)|].
    eapply rtc_l; [exact (read_get "abcd" foreign_commit.1 foreign_commit.2)|]. apply rtc_refl.
  - vm_compute. reflexivity.
  - split; [exact Hlast|exact Hread].
Defined.

Lemma pool_limit_witness :
  length (connection_pool_ (run_db [DGetAll; DWrite (InsertTorrent some_torrent)] server_manager.1 server_manager.2).1) ≤ 2
  ∧ ∃ d w', rtc pool_step (server_manager.1, ∅, server_manager.2) (d, ∅, w') ∧ 50 ≤ length (connection_pool_ d).
Proof.
  assert (Hconn : ∀ (d : database_manager Z) (w : server), is_Some (createConnection d w).1) by (intros; by eexists).
  destruct (pool_limit server_config server_start Hconn) as [Hseq Hmany].
  split; [exact (Hseq [DGetAll; DWrite (InsertTorrent some_torrent)])|exact (Hmany 50)].
Defined.

(** Three threads take connections, the pool has two. *)
Definition three_threads : pool_state :=
  let '(c1, d1, w1) := getConnection server_manager.1 server_manager.2 in
  let '(c2, d2, w2) := getConnection d1 w1 in
  let '(c3, d3, w3) := getConnection d2 w2 in
  (d3, <[2 := default 0%Z c3]> (<[1 := default 0%Z c2]> (<[0 := default 0%Z c1]> ∅)), w3).

Lemma connections_not_shared_witness :
  three_threads.1.2 !! 2 = Some 3%Z ∧ ∀ t, three_threads.1.2 !! t = Some 3%Z → t = 2.
Proof.
  assert (Hrun : rtc pool_step ((new_database_manager server_config server_start).1, ∅,
    (new_database_manager server_config server_start).2) three_threads).
  { eapply rtc_l; [eapply (thread_takes 0); [apply lookup_empty|vm_compute; reflexivity]|].
    eapply rtc_l; [eapply (thread_takes 1); [vm_compute; reflexivity|vm_compute; reflexivity]|].
    eapply rtc_l; [eapply (thread_takes 2); [vm_compute; reflexivity|vm_compute; reflexivity]|].
    apply rtc_refl. }
  destruct (connections_not_shared server_config server_start three_threads Hrun) as (_ & Honly & _).
  split; [reflexivity|]. intros t Ht. exact (Honly t 2 3%Z Ht eq_refl).
Defined.
