(* ===== verification/ConfigFile.v ===== *)
(** * The performance configuration and its file

    Models [PerformanceConfig] ([src/src/performance_config.cpp]): static maps
    of settings, thresholds and limits, the optimization profiles and the file
    of "key=value" lines.  The performance optimizer reads its file with the
    same loop, so the loop is here, over the function that stores an entry.
    Console output is not modelled, except the warnings of [validateConfig]. *)

From S2P Require Import Prelude Numeric.

(** ** Lines of text *)

Definition newline : ascii := ascii_of_nat 10.
Definition tab : ascii := ascii_of_nat 9.

(** [std::getline] until it fails: the text after the last newline is a line
    unless it is empty. *)
Fixpoint getlines (s : list ascii) : list (list ascii) :=
  match s with
  | [] => []
  | c :: s =>
    if decide (c = newline) then [] :: getlines s
    else match getlines s with [] => [[c]] | l :: ls => (c :: l) :: ls end
  end.

(** The continuation of a line: what follows [l] up to the newline. *)
Lemma getlines_line l s : newline ∉ l → getlines (l ++ newline :: s) = l :: getlines s.
Proof.
  induction l as [|c l IH]; intros Hl; simpl; [done|].
  apply not_elem_of_cons in Hl as [Hc Hl]. destruct (decide (c = newline)); [congruence|]. by rewrite IH.
Qed.

Lemma getlines_lines (ls : list (list ascii)) :
  Forall (λ l, newline ∉ l) ls → getlines (concat ((λ l, l ++ [newline]) <$> ls)) = ls.
Proof.
  induction 1 as [|l ls Hl Hls IH]; [done|]. rewrite fmap_cons. simpl concat. rewrite <-(assoc_L app). simpl.
  by rewrite getlines_line, IH.
Qed.

(** ** One line of the file *)

(** [s.erase(0, s.find_first_not_of(" \t"))] erases everything when there is
    no such position ([npos]); [s.erase(s.find_last_not_of(" \t") + 1)] does
    likewise, since [npos + 1] is 0. *)
Definition blank (c : ascii) : bool := bool_decide (c = " "%char) || bool_decide (c = tab).
Fixpoint drop_blanks (l : list ascii) : list ascii :=
  match l with [] => [] | c :: l' => if blank c then drop_blanks l' else l end.
Definition trim_blanks (l : list ascii) : list ascii := rev (drop_blanks (rev (drop_blanks l))).

Definition skipped (line : list ascii) : bool :=
  match line with [] => true | c :: _ => bool_decide (c = "#"%char) end.

Definition parse_line (line : list ascii) : option (string * string) :=
  if skipped line then None
  else pos ← find_char "="%char line;
    Some (of_chars (trim_blanks (take pos line)), of_chars (trim_blanks (drop (S pos) line))).

Section Loading.
Context {S : Type} (store : string → string → S → S).

Definition load_line (s : S) (line : list ascii) : S :=
  match parse_line line with Some (key, value) => store key value s | None => s end.
Definition load_lines (text : string) (s : S) : S := foldl load_line s (getlines (chars text)).
End Loading.

Definition entry_line (p : string * string) : list ascii := chars p.1 ++ "="%char :: chars p.2.

(** The entries whose line reads back as the entry. *)
Definition plain_text (s : string) : bool := bool_decide (newline ∉ chars s) && bool_decide (trim_blanks (chars s) = chars s).
Definition plain_entry (p : string * string) : bool :=
  plain_text p.1 && plain_text p.2 && bool_decide ("="%char ∉ chars p.1)
  && negb (match chars p.1 with "#"%char :: _ => true | _ => false end).

Lemma find_char_first c l s : c ∉ l → find_char c (l ++ c :: s) = Some (length l).
Proof.
  induction l as [|d l IH]; intros Hl; simpl; [by rewrite decide_True|].
  apply not_elem_of_cons in Hl as [Hd Hl]. destruct (decide (d = c)); [congruence|]. by rewrite IH.
Qed.

Lemma parse_entry_line p : plain_entry p = true → parse_line (entry_line p) = Some p.
Proof.
  destruct p as [k v]. unfold plain_entry, plain_text, entry_line. simpl.
  rewrite !andb_true_iff, !bool_decide_eq_true, negb_true_iff.
  intros [[[[_ Hk] [_ Hv]] Heq] Hhash]. unfold parse_line.
  assert (skipped (chars k ++ "="%char :: chars v) = false) as ->.
  { destruct (chars k) as [|c l]; [done|]. simpl. apply bool_decide_eq_false. by intros ->. }
  rewrite find_char_first by done. simpl. f_equal. f_equal.
  - by rewrite take_app_length, Hk, of_chars_chars.
  - rewrite (cons_middle "="%char). rewrite (assoc_L app), drop_app_length'; [|rewrite length_app; simpl; lia].
    by rewrite Hv, of_chars_chars.
Qed.

(** ** [PerformanceConfig] *)

Inductive OptimizationProfile := BALANCED | HIGH_THROUGHPUT | LOW_LATENCY | LOW_MEMORY | LOW_CPU.
#[export] Instance OptimizationProfile_eq_dec : EqDecision OptimizationProfile.
Proof. solve_decision. Defined.

Record performance_settings := mk_performance_settings {
  pc_config : gmap string string;
  performance_thresholds_ : gmap string double;
  resource_limits_ : gmap string Z;
  current_profile_ : OptimizationProfile;
  performance_monitoring_enabled_ : bool;
}.
#[export] Instance eta_performance_settings : Eta performance_settings := λ c,
  mk_performance_settings (pc_config c) (performance_thresholds_ c) (resource_limits_ c) (current_profile_ c)
    (performance_monitoring_enabled_ c).
Definition initial_settings : performance_settings := mk_performance_settings ∅ ∅ ∅ BALANCED true.

Implicit Types (c : performance_settings) (key value : string) (profile : OptimizationProfile).

Definition setConfig key value c : performance_settings := c <| pc_config ::= <[key := value]> |>.
Definition getConfig key c : string := default "" (pc_config c !! key).

Definition enablePerformanceMonitoring (enable : bool) c : performance_settings :=
  c <| performance_monitoring_enabled_ := enable |>.
Definition isPerformanceMonitoringEnabled c : bool := performance_monitoring_enabled_ c.
Definition setPerformanceThreshold (metric : string) (threshold : double) c : performance_settings :=
  c <| performance_thresholds_ ::= <[metric := threshold]> |>.
Definition getPerformanceThreshold (metric : string) c : double :=
  default (double_of_int 0) (performance_thresholds_ c !! metric).
(** The limit is a [size_t]. *)
Definition setResourceLimit (resource : string) (limit : Z) c : performance_settings :=
  c <| resource_limits_ ::= <[resource := limit]> |>.
Definition getResourceLimit (resource : string) c : Z := default 0%Z (resource_limits_ c !! resource).

(** The calls of [setConfig] in [applyProfileSettings]. *)
Definition profile_settings profile : list (string * string) :=
  match profile with
  | BALANCED => [("max_connections", "200"); ("max_active_connections", "1000"); ("connection_timeout_ms", "30000");
      ("metadata_timeout_ms", "120000"); ("max_worker_threads", "8"); ("cache_size", "10000");
      ("db_connection_pool_size", "10")]
  | HIGH_THROUGHPUT => [("max_connections", "500"); ("max_active_connections", "2000");
      ("connection_timeout_ms", "60000"); ("metadata_timeout_ms", "300000"); ("max_worker_threads", "16");
      ("cache_size", "50000"); ("db_connection_pool_size", "20"); ("db_batch_size", "5000")]
  | LOW_LATENCY => [("max_connections", "100"); ("max_active_connections", "500"); ("connection_timeout_ms", "10000");
      ("metadata_timeout_ms", "30000"); ("max_worker_threads", "4"); ("cache_size", "5000");
      ("db_connection_pool_size", "5"); ("db_batch_size", "100")]
  | LOW_MEMORY => [("max_connections", "50"); ("max_active_connections", "200"); ("connection_timeout_ms", "15000");
      ("metadata_timeout_ms", "60000"); ("max_worker_threads", "2"); ("cache_size", "1000");
      ("db_connection_pool_size", "3"); ("db_batch_size", "50")]
  | LOW_CPU => [("max_connections", "100"); ("max_active_connections", "500"); ("connection_timeout_ms", "45000");
      ("metadata_timeout_ms", "180000"); ("max_worker_threads", "2"); ("cache_size", "2000");
      ("db_connection_pool_size", "5"); ("db_batch_size", "200")]
  end.
Definition applyProfileSettings profile c : performance_settings :=
  foldl (λ c p, setConfig p.1 p.2 c) c (profile_settings profile).
Definition setOptimizationProfile profile c : performance_settings :=
  applyProfileSettings profile (c <| current_profile_ := profile |>).
Definition getOptimizationProfile c : OptimizationProfile := current_profile_ c.
Definition optimizeForHighThroughput c : performance_settings := setOptimizationProfile HIGH_THROUGHPUT c.
Definition optimizeForLowLatency c : performance_settings := setOptimizationProfile LOW_LATENCY c.
Definition optimizeForMemoryUsage c : performance_settings := setOptimizationProfile LOW_MEMORY c.
Definition optimizeForCPUUsage c : performance_settings := setOptimizationProfile LOW_CPU c.

(** The lines [validateConfig] writes to [std::cerr]. *)
Definition validateInt key (min_val max_val : Z) c : list string :=
  match pc_config c !! key with
  | None => []
  | Some text =>
    match stoi 10 text with
    | Returned value =>
      if (value <? min_val)%Z || (max_val <? value)%Z then
        ["Warning: " +:+ key +:+ " value " +:+ to_string value +:+ " is outside valid range ["
          +:+ to_string min_val +:+ ", " +:+ to_string max_val +:+ "]"]
      else []
    | Threw _ => ["Error: Invalid value for " +:+ key +:+ ": " +:+ text]
    end
  end.
Definition validateConfig c : list string :=
  validateInt "max_connections" 1 1000 c ++ validateInt "max_active_connections" 1 10000 c
  ++ validateInt "connection_timeout_ms" 1000 300000 c ++ validateInt "metadata_timeout_ms" 5000 600000 c
  ++ validateInt "max_worker_threads" 1 32 c ++ validateInt "cache_size" 100 100000 c
  ++ validateInt "db_connection_pool_size" 1 50 c ++ validateInt "db_batch_size" 10 10000 c.

(** The file's text, [None] when it does not open; with the warnings. *)
Definition loadConfigFromFile (file : option string) c : performance_settings * list string :=
  match file with
  | None => (c, [])
  | Some text =>
    let c := load_lines (λ key value c, c <| pc_config ::= <[key := value]> |>) text c in (c, validateConfig c)
  end.

Definition config_header : list (list ascii) :=
  [chars "# Performance Configuration File"; chars "# Generated automatically"; []].
(** What is written to a file that opens. *)
Definition file_text (lines : list (list ascii)) : string := of_chars (concat ((λ l, l ++ [newline]) <$> lines)).
Definition saveConfigToFile c : string := file_text (config_header ++ (entry_line <$> map_iter (pc_config c))).

(** ** What is saved is read back *)

Lemma plain_entry_no_newline p : plain_entry p = true → newline ∉ entry_line p.
Proof.
  unfold plain_entry, plain_text. rewrite !andb_true_iff, !bool_decide_eq_true.
  intros [[[[Hk _] [Hv _]] _] _]. unfold entry_line. rewrite elem_of_app, elem_of_cons. naive_solver.
Qed.

(** Loading a file of entries under a header of comments stores the entries
    one after the other. *)
Lemma load_entries {S} (store : string → string → S → S) header (es : list (string * string)) s :
  Forall (λ l, newline ∉ l ∧ skipped l = true) header → Forall (λ p, plain_entry p = true) es →
  load_lines store (file_text (header ++ (entry_line <$> es))) s = foldl (λ s p, store p.1 p.2 s) s es.
Proof.
  intros Hheader Hes. unfold load_lines, file_text. rewrite chars_of_chars, getlines_lines.
  - rewrite foldl_app. assert (foldl (load_line store) s header = s) as ->.
    { clear Hes. induction Hheader as [|l header [_ Hl] Hheader IH]; [done|]. simpl.
      assert (load_line store s l = s) as ->; [|done]. unfold load_line, parse_line. by rewrite Hl. }
    revert s. induction Hes as [|p es Hp Hes IH]; intros s; [done|]. rewrite fmap_cons. simpl foldl. rewrite <-IH.
    f_equal. unfold load_line. rewrite (parse_entry_line p Hp). by destruct p.
  - apply Forall_app. split; [by eapply Forall_impl; [exact Hheader|]; intros l []|].
    apply Forall_fmap. eapply Forall_impl; [exact Hes|]. intros p. apply plain_entry_no_newline.
Qed.

Lemma foldl_entries (es : list (string * string)) c : NoDup es.*1 →
  foldl (λ c p, c <| pc_config ::= <[p.1 := p.2]> |>) c es = c <| pc_config := list_to_map es ∪ pc_config c |>.
Proof.
  revert c. induction es as [|[k v] es IH]; intros c Hnd; simpl.
  { rewrite (left_id_L ∅ (∪)). by destruct c. }
  apply NoDup_cons in Hnd as [Hk Hnd]. rewrite IH by done. unfold set_field. simpl. f_equal.
  by rewrite <-insert_union_l, insert_union_r by (by apply not_elem_of_list_to_map).
Qed.

Lemma list_to_map_iter {A} (m : gmap string A) : list_to_map (map_iter m) = m.
Proof.
  rewrite (list_to_map_proper (map_iter m) (map_to_list m)); [apply list_to_map_to_list|apply NoDup_map_iter|].
  apply map_iter_perm.
Qed.

(** A configuration whose entries are plain (no newline, no blanks at the
    ends, no "=" in a key and no "#" at its start) is read back unchanged from
    the file it was saved to: loading adds exactly the saved entries, over
    whatever the configuration held, and changes nothing else. *)
Theorem config_roundtrip c c0 :
  map_Forall (λ key value, plain_entry (key, value) = true) (pc_config c) →
  (loadConfigFromFile (Some (saveConfigToFile c)) c0).1 = c0 <| pc_config := pc_config c ∪ pc_config c0 |>.
Proof.
  intros Hplain. simpl. unfold saveConfigToFile. rewrite load_entries; [| |apply Forall_forall].
  - rewrite foldl_entries, list_to_map_iter; [done|apply NoDup_map_iter].
  - apply (bool_decide_unpack _). vm_compute. exact I.
  - intros [key value] Hin. apply elem_of_map_iter in Hin. by apply Hplain.
Qed.

(** The settings of a profile. *)
Definition profile_map profile : gmap string string := list_to_map (profile_settings profile).

Lemma profile_settings_keys profile : NoDup (profile_settings profile).*1.
Proof. apply (bool_decide_unpack _). destruct profile; vm_compute; exact I. Qed.

Lemma set_profile_spec profile c :
  setOptimizationProfile profile c
  = c <| current_profile_ := profile |> <| pc_config := profile_map profile ∪ pc_config c |>.
Proof.
  unfold setOptimizationProfile, applyProfileSettings, setConfig.
  by rewrite foldl_entries by apply profile_settings_keys.
Qed.

(** What a profile leaves in the configuration depends on the profiles set
    before: BALANCED does not set the database batch size, so it stays what
    the last other profile made it, through any number of further calls with
    BALANCED; the other profiles decide every setting. *)
Theorem profiles_depend_on_history profile c :
  profile ≠ BALANCED →
  let c' := setOptimizationProfile BALANCED (setOptimizationProfile profile c) in
  getConfig "db_batch_size" c' = default "" (profile_map profile !! "db_batch_size")
  ∧ getConfig "db_batch_size" c' ≠ ""
  ∧ ∀ key, key ∈ (profile_settings profile).*1 →
      getConfig key (setOptimizationProfile profile c) = default "" (profile_map profile !! key).
Proof.
  intros Hp. cbv zeta. rewrite !set_profile_spec. unfold getConfig, set_field. simpl.
  rewrite !lookup_union. change (profile_map BALANCED !! "db_batch_size") with (@None string).
  assert (Hsome : is_Some (profile_map profile !! "db_batch_size") ∧ profile_map profile !! "db_batch_size" ≠ Some "").
  { destruct profile; [done|..]; (split; [eexists; vm_compute; reflexivity|vm_compute; congruence]). }
  destruct Hsome as [[v Hv] Hne]. rewrite Hv in *. split; [by destruct (pc_config c !! "db_batch_size")|].
  split; [intros Heq; apply Hne; by destruct (pc_config c !! "db_batch_size"); simpl in *; congruence|].
  intros key Hkey. rewrite lookup_union. destruct (profile_map profile !! key) eqn:Hl.
  - by destruct (pc_config c !! key).
  - by apply not_elem_of_list_to_map_2 in Hl.
Qed.

Lemma validateInt_profile key min_val max_val profile c :
  validateInt key min_val max_val (initial_settings <| pc_config := profile_map profile |>) = [] →
  validateInt key min_val max_val c = [] → validateInt key min_val max_val (setOptimizationProfile profile c) = [].
Proof.
  rewrite set_profile_spec. unfold validateInt, set_field. simpl. rewrite lookup_union.
  destruct (profile_map profile !! key) as [v|]; destruct (pc_config c !! key); simpl; done.
Qed.

(** No profile produces a setting [validateConfig] complains about: if it
    is silent about a configuration it is silent after any profile is set. *)
Theorem profiles_valid profile c : validateConfig c = [] → validateConfig (setOptimizationProfile profile c) = [].
Proof.
  unfold validateConfig. rewrite !app_nil. intros Hall. split_all; apply validateInt_profile;
    first [tauto|destruct profile; vm_compute; reflexivity].
Qed.

(** ** Witnesses *)

Definition throughput_settings : performance_settings := optimizeForHighThroughput initial_settings.

Lemma config_roundtrip_witness :
  let c := (loadConfigFromFile (Some (saveConfigToFile throughput_settings)) (setConfig "cache_size" "7" initial_settings)).1 in
  getConfig "cache_size" c = "50000"
  ∧ c = (setConfig "cache_size" "7" initial_settings)
        <| pc_config := pc_config throughput_settings ∪ pc_config (setConfig "cache_size" "7" initial_settings) |>.
Proof.
  cbv zeta. split; [vm_compute; reflexivity|].
  apply (config_roundtrip throughput_settings (setConfig "cache_size" "7" initial_settings)).
  apply (bool_decide_unpack _). vm_compute. exact I.
Defined.

(** A key with an "=" comes back under another name. *)
Example equals_in_key :
  pc_config (loadConfigFromFile (Some (saveConfigToFile (setConfig "a=b" " c" initial_settings))) initial_settings).1
  = {[ "a" := "b= c" ]}.
Proof. vm_compute. reflexivity. Qed.

Lemma profiles_depend_on_history_witness :
  let c' := setOptimizationProfile BALANCED (setOptimizationProfile HIGH_THROUGHPUT initial_settings) in
  (getConfig "db_batch_size" (setOptimizationProfile BALANCED initial_settings) = "")
  ∧ getConfig "db_batch_size" c' = "5000".
Proof.
  split; [vm_compute; reflexivity|].
  rewrite (proj1 (profiles_depend_on_history HIGH_THROUGHPUT initial_settings ltac:(discriminate))).
  vm_compute. reflexivity.
Defined.

Lemma profiles_valid_witness :
  validateConfig (setOptimizationProfile LOW_CPU throughput_settings) = []
  ∧ validateConfig (setConfig "max_worker_threads" "64" initial_settings) ≠ [].
Proof.
  split; [|vm_compute; congruence].
  apply (profiles_valid LOW_CPU throughput_settings). vm_compute. reflexivity.
Defined.
