(* ===== verification/Optimizer.v ===== *)
(** * The performance optimizer

    Models [PerformanceOptimizer]
    ([src/src/performance_optimizer.cpp]): the metrics it keeps, its alerts,
    the values it tunes and its configuration file, whose lines [ConfigFile]
    reads.  The callbacks of alerts, the clock and the number of processors
    are parameters; a callback does not use the optimizer.  Lines written by
    [logOptimization] are not modelled. *)

From S2P Require Import Prelude Numeric ConfigFile DoubleText.

Class OptimizerWorld (W C : Type) := {
  optimizer_now : W → Z * W;
  (** [static_cast<int>(std::thread::hardware_concurrency())], 0 when it is
      not computable *)
  hardware_concurrency : Z;
  call_alert : C → W → W;
}.

Inductive OptimizationStrategy := ADAPTIVE | MANUAL | PROFILE_BASED | ML_BASED.

Record PerformanceMetrics := mk_PerformanceMetrics {
  cpu_usage_percent : double;
  memory_usage_mb : double;
  network_throughput_mbps : double;
  average_response_time_ms : double;
  success_rate_percent : double;
  pm_active_connections : Z;
  pm_queued_requests : Z;
  pm_timestamp : Z;
}.

Record optimizer (C : Type) := mk_optimizer {
  monitoring_enabled_ : bool;
  adaptive_optimization_enabled_ : bool;
  profiling_enabled_ : bool;
  optimizer_strategy_ : OptimizationStrategy;
  metrics_history_ : list PerformanceMetrics;
  last_optimization_ : Z;
  adaptive_thresholds_ : gmap string double;
  performance_alerts_ : gmap string C;
  current_thread_count_ : Z;
  current_max_connections_ : Z;
  current_cache_size_ : Z;
  current_batch_size_ : Z;
}.
Arguments mk_optimizer {C}. Arguments monitoring_enabled_ {C}. Arguments adaptive_optimization_enabled_ {C}.
Arguments profiling_enabled_ {C}. Arguments optimizer_strategy_ {C}. Arguments metrics_history_ {C}.
Arguments last_optimization_ {C}. Arguments adaptive_thresholds_ {C}. Arguments performance_alerts_ {C}.
Arguments current_thread_count_ {C}. Arguments current_max_connections_ {C}. Arguments current_cache_size_ {C}.
Arguments current_batch_size_ {C}.
#[export] Instance eta_optimizer C : Eta (optimizer C) := λ o,
  mk_optimizer (monitoring_enabled_ o) (adaptive_optimization_enabled_ o) (profiling_enabled_ o)
    (optimizer_strategy_ o) (metrics_history_ o) (last_optimization_ o) (adaptive_thresholds_ o)
    (performance_alerts_ o) (current_thread_count_ o) (current_max_connections_ o) (current_cache_size_ o)
    (current_batch_size_ o).

Section Operations.
Context `{OptimizerWorld W C}.
Implicit Types (o : optimizer C) (m : PerformanceMetrics) (w : W) (key : string).

Definition loadDefaultConfig o : optimizer C :=
  o <| adaptive_thresholds_ ::= λ t,
    <["success_rate" := double_of_int 70]> (<["response_time" := double_of_int 5000]>
      (<["memory_usage" := double_of_int 800]> (<["cpu_usage" := double_of_int 80]> t))) |>.
Definition new_optimizer : optimizer C :=
  loadDefaultConfig (mk_optimizer false false false ADAPTIVE [] 0 ∅ ∅ 8 200 10000 1000).

Definition startMonitoring o : optimizer C := o <| monitoring_enabled_ := true |>.
Definition stopMonitoring o : optimizer C := o <| monitoring_enabled_ := false |>.
Definition isMonitoring o : bool := monitoring_enabled_ o.
Definition setOptimizationStrategy (strategy : OptimizationStrategy) o : optimizer C := o <| optimizer_strategy_ := strategy |>.
Definition getOptimizationStrategy o : OptimizationStrategy := optimizer_strategy_ o.
Definition enableAdaptiveOptimization (enable : bool) o : optimizer C := o <| adaptive_optimization_enabled_ := enable |>.
Definition isAdaptiveOptimizationEnabled o : bool := adaptive_optimization_enabled_ o.
Definition setAdaptiveThresholds (thresholds : gmap string double) o : optimizer C := o <| adaptive_thresholds_ := thresholds |>.
Definition startProfiling o : optimizer C := o <| profiling_enabled_ := true |>.
Definition stopProfiling o : optimizer C := o <| profiling_enabled_ := false |>.
Definition isProfiling o : bool := profiling_enabled_ o.

(** The code's placeholders. *)
Definition collectSystemMetrics w : PerformanceMetrics * W :=
  let '(t, w) := optimizer_now w in
  (mk_PerformanceMetrics (double_of_int 25) (double_of_int 512) (double_of_int 100) (double_of_int 150)
     (double_of_int 95) 50 10 t, w).
Definition getCurrentMetrics w : PerformanceMetrics * W := collectSystemMetrics w.
Definition getHistoricalMetrics (count : Z) o : list PerformanceMetrics :=
  match metrics_history_ o with
  | [] => []
  | history =>
    if (count <=? 0)%Z then history
    else drop (Z.to_nat (Z.max 0 (int_of_Z (Z.of_nat (length history)) - count))) history
  end.

(** ** Averages and bottlenecks *)

Definition average (field : PerformanceMetrics → double) o : double :=
  match metrics_history_ o with
  | [] => double_of_int 0
  | history => double_div (foldl (λ sum m, double_add sum (field m)) (double_of_int 0) history)
                 (double_of_int (Z.of_nat (length history)))
  end.
Definition getAverageCPUUsage o : double := average cpu_usage_percent o.
Definition getAverageMemoryUsage o : double := average memory_usage_mb o.
Definition getAverageResponseTime o : double := average average_response_time_ms o.
Definition getAverageSuccessRate o : double := average success_rate_percent o.

(** [latest.field > limit] *)
Definition above (limit : Z) (v : double) : bool := double_lt (double_of_int limit) v.
Definition isCPUBottleneck o : bool :=
  match last (metrics_history_ o) with Some latest => above 80 (cpu_usage_percent latest) | None => false end.
Definition isMemoryBottleneck o : bool :=
  match last (metrics_history_ o) with Some latest => above 800 (memory_usage_mb latest) | None => false end.
Definition isNetworkBottleneck o : bool :=
  match last (metrics_history_ o) with Some latest => above 5000 (average_response_time_ms latest) | None => false end.
Definition isDatabaseBottleneck o : bool :=
  match last (metrics_history_ o) with
  | Some latest => double_lt (success_rate_percent latest) (double_of_int 70)
  | None => false
  end.

Definition isPerformanceDegraded o : bool :=
  match last (metrics_history_ o) with
  | None => false
  | Some latest =>
    if above 80 (cpu_usage_percent latest) then true
    else if above 800 (memory_usage_mb latest) then true
    else if above 5000 (average_response_time_ms latest) then true
    else double_lt (success_rate_percent latest) (double_of_int 70)
  end.
Definition getPerformanceBottleneck o : string :=
  match metrics_history_ o with
  | [] => "Unknown"
  | _ =>
    if isCPUBottleneck o then "CPU" else if isMemoryBottleneck o then "Memory"
    else if isNetworkBottleneck o then "Network" else if isDatabaseBottleneck o then "Database" else "None"
  end.
Definition getOptimizationRecommendations o : list string :=
  (if isCPUBottleneck o then
     ["Reduce thread count"; "Optimize CPU-intensive operations"; "Use more efficient algorithms"] else [])
  ++ (if isMemoryBottleneck o then
        ["Reduce cache size"; "Implement memory pooling"; "Optimize data structures"] else [])
  ++ (if isNetworkBottleneck o then
        ["Reduce connection limits"; "Implement connection pooling"; "Optimize network protocols"] else [])
  ++ (if isDatabaseBottleneck o then
        ["Reduce batch size"; "Optimize database queries"; "Implement database connection pooling"] else []).

(** ** The tuned values *)

(** The [double] it is returned as is exact. *)
Definition calculateOptimalThreadCount : Z := Z.max 2 (Z.min hardware_concurrency 16).
Definition calculateOptimalConnectionLimits o : Z * Z :=
  if isMemoryBottleneck o then (100, 500)%Z else if isNetworkBottleneck o then (50, 200)%Z else (200, 1000)%Z.
Definition calculateOptimalCacheSize o : Z :=
  if isMemoryBottleneck o then 5000%Z
  else if double_lt (getAverageMemoryUsage o) (double_of_int 200) then 20000%Z else 10000%Z.
Definition calculateOptimalBatchSize o : Z :=
  if isDatabaseBottleneck o then 500%Z
  else if double_lt (getAverageResponseTime o) (double_of_int 100) then 2000%Z else 1000%Z.

Definition setOptimalThreadCount o : optimizer C := o <| current_thread_count_ := calculateOptimalThreadCount |>.
Definition setOptimalConnectionLimits o : optimizer C :=
  o <| current_max_connections_ := (calculateOptimalConnectionLimits o).1 |>.
Definition setOptimalCacheSize o : optimizer C := o <| current_cache_size_ := calculateOptimalCacheSize o |>.
Definition setOptimalBatchSize o : optimizer C := o <| current_batch_size_ := calculateOptimalBatchSize o |>.
Definition optimizeThreadPool o : optimizer C := setOptimalThreadCount o.
Definition optimizeConnections o : optimizer C := setOptimalConnectionLimits o.
Definition optimizeCache o : optimizer C := setOptimalCacheSize o.
Definition optimizeDatabase o : optimizer C := setOptimalBatchSize o.
Definition getOptimalThreadCount : Z := calculateOptimalThreadCount.
Definition getOptimalConnectionLimits o : Z * Z := calculateOptimalConnectionLimits o.
Definition getOptimalCacheSize o : Z := calculateOptimalCacheSize o.
Definition getOptimalBatchSize o : Z := calculateOptimalBatchSize o.

Definition optimizeMemoryUsage o : optimizer C := if isMemoryBottleneck o then setOptimalCacheSize o else o.
Definition optimizeCPUUsage o : optimizer C := if isCPUBottleneck o then setOptimalThreadCount o else o.
Definition optimizeNetworkUsage o : optimizer C := if isNetworkBottleneck o then setOptimalConnectionLimits o else o.
Definition optimizeDatabaseUsage o : optimizer C := if isDatabaseBottleneck o then setOptimalBatchSize o else o.

Definition analyzePerformance o : optimizer C :=
  match last (metrics_history_ o) with
  | None => o
  | Some latest =>
    let o := if above 80 (cpu_usage_percent latest) then optimizeCPUUsage o else o in
    let o := if above 800 (memory_usage_mb latest) then optimizeMemoryUsage o else o in
    let o := if above 5000 (average_response_time_ms latest) then optimizeNetworkUsage o else o in
    if double_lt (success_rate_percent latest) (double_of_int 70) then optimizeDatabaseUsage o else o
  end.

(** [updateConfiguration], and the two other strategies, have empty bodies. *)
Definition updateConfiguration o : optimizer C := o.
Definition applyOptimizations o : optimizer C := updateConfiguration o.
Definition profileBasedOptimization o : optimizer C := o.
Definition mlBasedOptimization o : optimizer C := o.
Definition adaptiveOptimization o : optimizer C := applyOptimizations (analyzePerformance o).
Definition optimize o w : optimizer C * W :=
  let o := match optimizer_strategy_ o with
           | ADAPTIVE => adaptiveOptimization o
           | MANUAL => o
           | PROFILE_BASED => profileBasedOptimization o
           | ML_BASED => mlBasedOptimization o
           end in
  let '(t, w) := optimizer_now w in (o <| last_optimization_ := t |>, w).

(** ** Metrics and alerts *)

Definition alert_value key m : double :=
  if decide (key = "cpu_usage") then cpu_usage_percent m
  else if decide (key = "memory_usage") then memory_usage_mb m
  else if decide (key = "response_time") then average_response_time_ms m
  else if decide (key = "success_rate") then success_rate_percent m
  else double_of_int 0.
Definition check_alert o m w (alert : string * C) : W :=
  match adaptive_thresholds_ o !! alert.1 with
  | Some threshold => if double_lt threshold (alert_value alert.1 m) then call_alert alert.2 w else w
  | None => w
  end.
Definition checkPerformanceAlerts o m w : W := foldl (check_alert o m) w (map_iter (performance_alerts_ o)).
Definition setPerformanceAlert key (threshold : double) (callback : C) o : optimizer C :=
  o <| adaptive_thresholds_ ::= <[key := threshold]> |> <| performance_alerts_ ::= <[key := callback]> |>.
Definition clearPerformanceAlert key o : optimizer C := o <| performance_alerts_ ::= delete key |>.

Definition recordMetric m o w : optimizer C * W :=
  if negb (monitoring_enabled_ o) then (o, w)
  else
    let o := o <| metrics_history_ ::= push_bounded 1000 m |> in
    let w := checkPerformanceAlerts o m w in
    (if adaptive_optimization_enabled_ o then analyzePerformance o else o, w).

(** ** The configuration file *)

(** The line written to [std::cerr] for a threshold out of range. *)
Definition threshold_warning (p : string * double) : list string :=
  if double_lt p.2 (double_of_int 0) || double_lt (double_of_int 100) p.2 then
    ["Warning: Threshold " +:+ p.1 +:+ " value " +:+ double_text p.2 +:+ " is outside valid range [0, 100]"]
  else [].
Definition validateConfig o : list string := concat (threshold_warning <$> map_iter (adaptive_thresholds_ o)).

(** An entry is stored, or reported with the others' reports so far. *)
Definition store_threshold key (value : string) (st : optimizer C * list string) : optimizer C * list string :=
  match stod value with
  | Returned threshold => (st.1 <| adaptive_thresholds_ ::= <[key := threshold]> |>, st.2)
  | Threw _ => (st.1, st.2 ++ ["Error parsing threshold for " +:+ key +:+ ": " +:+ value])
  end.
(** The file's text, [None] when it does not open. *)
Definition loadOptimizationConfig (filename : string) (file : option string) o : optimizer C * list string :=
  match file with
  | None => (o, ["Failed to open optimization config file: " +:+ filename])
  | Some text =>
    let '(o, errors) := load_lines store_threshold text (o, []) in (o, errors ++ validateConfig o)
  end.

Definition optimization_header : list (list ascii) :=
  [chars "# Performance Optimization Configuration"; chars "# Generated automatically"; []].
Definition threshold_entry (p : string * double) : string * string := (p.1, double_text p.2).
(** What is written to a file that opens. *)
Definition saveOptimizationConfig o : string :=
  file_text (optimization_header ++ (entry_line ∘ threshold_entry <$> map_iter (adaptive_thresholds_ o))).

(** ** The report *)

Definition line (s : string) : string := s +:+ of_chars [newline].
Definition getProfilingReport o : string :=
  if negb (profiling_enabled_ o) || bool_decide (metrics_history_ o = []) then "No profiling data available"
  else
    line "Performance Profiling Report" +:+ line "==========================" +:+ line ""
    +:+ line ("Total Metrics Collected: " +:+ to_string (Z.of_nat (length (metrics_history_ o))))
    +:+ line ("Average CPU Usage: " +:+ double_text (getAverageCPUUsage o) +:+ "%")
    +:+ line ("Average Memory Usage: " +:+ double_text (getAverageMemoryUsage o) +:+ " MB")
    +:+ line ("Average Response Time: " +:+ double_text (getAverageResponseTime o) +:+ " ms")
    +:+ line ("Average Success Rate: " +:+ double_text (getAverageSuccessRate o) +:+ "%") +:+ line ""
    +:+ line ("Current Bottleneck: " +:+ getPerformanceBottleneck o)
    +:+ line ("Performance Degraded: " +:+ (if isPerformanceDegraded o then "Yes" else "No")) +:+ line ""
    +:+ (match getOptimizationRecommendations o with
         | [] => ""
         | recommendations =>
           line "Recommendations:" +:+ foldr (λ rec s, line ("- " +:+ rec) +:+ s) "" recommendations
         end).

(** ** Sequences of calls *)

Inductive optimizer_op :=
  | OMonitoring (enable : bool) | OAdaptive (enable : bool) | OStrategy (strategy : OptimizationStrategy)
  | OProfiling (enable : bool) | OThresholds (thresholds : gmap string double) | ORecord m | OOptimize
  | OThreads | OConnections | OCache | ODatabase
  | OAlert key (threshold : double) (callback : C) | OClearAlert key | OLoad (filename : string) (file : option string).
Definition run_optimizer_op (st : optimizer C * W) (op : optimizer_op) : optimizer C * W :=
  let '(o, w) := st in
  match op with
  | OMonitoring enable => (if enable then startMonitoring o else stopMonitoring o, w)
  | OAdaptive enable => (enableAdaptiveOptimization enable o, w)
  | OStrategy strategy => (setOptimizationStrategy strategy o, w)
  | OProfiling enable => (if enable then startProfiling o else stopProfiling o, w)
  | OThresholds thresholds => (setAdaptiveThresholds thresholds o, w)
  | ORecord m => recordMetric m o w
  | OOptimize => optimize o w
  | OThreads => (optimizeThreadPool o, w)
  | OConnections => (optimizeConnections o, w)
  | OCache => (optimizeCache o, w)
  | ODatabase => (optimizeDatabase o, w)
  | OAlert key threshold callback => (setPerformanceAlert key threshold callback o, w)
  | OClearAlert key => (clearPerformanceAlert key o, w)
  | OLoad filename file => ((loadOptimizationConfig filename file o).1, w)
  end.
Definition run_optimizer (ops : list optimizer_op) (st : optimizer C * W) : optimizer C * W := foldl run_optimizer_op st ops.
End Operations.

Section Facts.
Context `{OptimizerWorld W C}.
Implicit Types (o : optimizer C) (m : PerformanceMetrics) (w : W) (key : string).

(** ** What adaptive optimization changes *)

(** The changes of [analyzePerformance], by the bottlenecks of the latest
    metrics. *)
Definition adapted o : optimizer C :=
  o <| current_thread_count_ ::= λ n, if isCPUBottleneck o then Z.max 2 (Z.min hardware_concurrency 16) else n |>
    <| current_cache_size_ ::= λ n, if isMemoryBottleneck o then 5000%Z else n |>
    <| current_max_connections_ ::= λ n, if isNetworkBottleneck o then if isMemoryBottleneck o then 100%Z else 50%Z else n |>
    <| current_batch_size_ ::= λ n, if isDatabaseBottleneck o then 500%Z else n |>.

(** The bottlenecks depend on the history alone. *)
Lemma bottlenecks_history o o' : metrics_history_ o' = metrics_history_ o →
  isCPUBottleneck o' = isCPUBottleneck o ∧ isMemoryBottleneck o' = isMemoryBottleneck o
  ∧ isNetworkBottleneck o' = isNetworkBottleneck o ∧ isDatabaseBottleneck o' = isDatabaseBottleneck o.
Proof.
  intros Heq. unfold isCPUBottleneck, isMemoryBottleneck, isNetworkBottleneck, isDatabaseBottleneck. by rewrite Heq.
Qed.

(** The guards of [analyzePerformance] are those of the functions it calls. *)
Lemma guarded_cpu o latest : last (metrics_history_ o) = Some latest →
  (if above 80 (cpu_usage_percent latest) then optimizeCPUUsage o else o)
  = o <| current_thread_count_ ::= λ n, if isCPUBottleneck o then Z.max 2 (Z.min hardware_concurrency 16) else n |>.
Proof.
  intros Hlast. unfold optimizeCPUUsage, isCPUBottleneck. rewrite Hlast. destruct (above 80 _); [done|]. by destruct o.
Qed.
Lemma guarded_memory o latest : last (metrics_history_ o) = Some latest →
  (if above 800 (memory_usage_mb latest) then optimizeMemoryUsage o else o)
  = o <| current_cache_size_ ::= λ n, if isMemoryBottleneck o then 5000%Z else n |>.
Proof.
  intros Hlast. unfold optimizeMemoryUsage, setOptimalCacheSize, calculateOptimalCacheSize, isMemoryBottleneck.
  rewrite Hlast. destruct (above 800 _); [done|]. by destruct o.
Qed.
Lemma guarded_network o latest : last (metrics_history_ o) = Some latest →
  (if above 5000 (average_response_time_ms latest) then optimizeNetworkUsage o else o)
  = o <| current_max_connections_ ::=
        λ n, if isNetworkBottleneck o then if isMemoryBottleneck o then 100%Z else 50%Z else n |>.
Proof.
  intros Hlast. unfold optimizeNetworkUsage, setOptimalConnectionLimits, calculateOptimalConnectionLimits,
    isNetworkBottleneck. rewrite Hlast.
  destruct (above 5000 _); [by destruct (isMemoryBottleneck o)|]. by destruct o.
Qed.
Lemma guarded_database o latest : last (metrics_history_ o) = Some latest →
  (if double_lt (success_rate_percent latest) (double_of_int 70) then optimizeDatabaseUsage o else o)
  = o <| current_batch_size_ ::= λ n, if isDatabaseBottleneck o then 500%Z else n |>.
Proof.
  intros Hlast. unfold optimizeDatabaseUsage, setOptimalBatchSize, calculateOptimalBatchSize, isDatabaseBottleneck.
  rewrite Hlast. destruct (double_lt (success_rate_percent latest) _); [done|]. by destruct o.
Qed.

Lemma analyze_adapted o : analyzePerformance o = adapted o.
Proof.
  unfold analyzePerformance, adapted. destruct (last (metrics_history_ o)) as [latest|] eqn:Hlast.
  - rewrite (guarded_cpu o latest Hlast). set (o1 := o <| current_thread_count_ ::= _ |>).
    rewrite (guarded_memory o1 latest Hlast). destruct (bottlenecks_history o o1 eq_refl) as (_ & -> & _).
    set (o2 := o1 <| current_cache_size_ ::= _ |>).
    rewrite (guarded_network o2 latest Hlast). destruct (bottlenecks_history o o2 eq_refl) as (_ & -> & -> & _).
    set (o3 := o2 <| current_max_connections_ ::= _ |>).
    rewrite (guarded_database o3 latest Hlast). by destruct (bottlenecks_history o o3 eq_refl) as (_ & _ & _ & ->).
  - unfold isCPUBottleneck, isMemoryBottleneck, isNetworkBottleneck, isDatabaseBottleneck. rewrite Hlast. by destruct o.
Qed.

Lemma degraded_bottleneck o : isPerformanceDegraded o = isCPUBottleneck o || isMemoryBottleneck o || isNetworkBottleneck o || isDatabaseBottleneck o.
Proof.
  unfold isPerformanceDegraded, isCPUBottleneck, isMemoryBottleneck, isNetworkBottleneck, isDatabaseBottleneck.
  destruct (last (metrics_history_ o)) as [latest|]; [|done].
  by destruct (above 80 _), (above 800 _), (above 5000 _), (double_lt (success_rate_percent latest) _).
Qed.

(** ** The configuration file *)

Lemma drop_blanks_none l : forallb (negb ∘ blank) l = true → drop_blanks l = l.
Proof.
  destruct l as [|c l]; [done|]. unfold compose. simpl. intros [Hc _]%andb_true_iff. by destruct (blank c).
Qed.

Lemma number_plain z : plain_text (to_string z) = true.
Proof.
  destruct (to_string_chars z) as [Hchars _]. unfold plain_text.
  assert (Hc : ∀ c, c ∈ chars (to_string z) → c ≠ newline ∧ blank c = false).
  { rewrite forallb_forall in Hchars. intros c Hin%list_elem_of_In%Hchars.
    destruct c as [[] [] [] [] [] [] [] []]; vm_compute in Hin; try discriminate Hin; vm_compute; done. }
  assert (Hblank : forallb (negb ∘ blank) (chars (to_string z)) = true).
  { apply forallb_forall. unfold compose. intros c Hin%list_elem_of_In. by rewrite (proj2 (Hc c Hin)). }
  apply andb_true_iff. split; apply bool_decide_eq_true.
  - intros Hin. by destruct (Hc newline Hin).
  - unfold trim_blanks. rewrite (drop_blanks_none _ Hblank), drop_blanks_none, rev_involutive; [done|].
    rewrite forallb_forall in *. intros c Hin. apply Hblank. by apply in_rev.
Qed.

(** The names of thresholds a file can hold. *)
Definition plain_key key : bool := plain_entry (key, "").

Lemma threshold_plain key z : plain_key key = true → (- 10 ^ 6 < z < 10 ^ 6)%Z →
  plain_entry (threshold_entry (key, double_of_int z)) = true.
Proof.
  unfold plain_key, plain_entry, threshold_entry. simpl. intros Hk Hz. rewrite double_text_int, number_plain by done.
  rewrite !andb_true_iff in *. tauto.
Qed.

Lemma store_entries (es : list (string * double)) o errors :
  Forall (λ p, ∃ z, p.2 = double_of_int z ∧ (- 10 ^ 6 < z < 10 ^ 6)%Z) es → NoDup es.*1 →
  foldl (λ st p, store_threshold p.1 p.2 st) (o, errors) (threshold_entry <$> es)
  = (o <| adaptive_thresholds_ := list_to_map es ∪ adaptive_thresholds_ o |>, errors).
Proof.
  intros Hes. revert o. induction Hes as [|[k v] es (z & Hv & Hz) Hes IH]; intros o Hnd.
  { simpl. rewrite (left_id_L ∅ (∪)). by destruct o. }
  simpl in Hv. subst v. rewrite fmap_cons in *. apply NoDup_cons in Hnd as [Hk Hnd]. simpl foldl.
  assert (store_threshold k (double_text (double_of_int z)) (o, errors)
    = (o <| adaptive_thresholds_ ::= <[k := double_of_int z]> |>, errors)) as ->.
  { unfold store_threshold. rewrite double_text_int, stod_to_string by lia. done. }
  rewrite IH by done. f_equal. unfold set_field. simpl. f_equal.
  by rewrite <-insert_union_l, insert_union_r by (by apply not_elem_of_list_to_map).
Qed.

(** Thresholds that are integers of up to six digits, under plain names, are
    read back unchanged from the file they were saved to, over whatever
    thresholds there were and with no error but those of the validation;
    nothing else changes. *)
Theorem thresholds_roundtrip o o0 (filename : string) :
  map_Forall (λ key threshold, plain_key key = true ∧ ∃ z, threshold = double_of_int z ∧ (- 10 ^ 6 < z < 10 ^ 6)%Z)
    (adaptive_thresholds_ o) →
  let o' := o0 <| adaptive_thresholds_ := adaptive_thresholds_ o ∪ adaptive_thresholds_ o0 |> in
  loadOptimizationConfig filename (Some (saveOptimizationConfig o)) o0 = (o', validateConfig o').
Proof.
  intros Hall. cbv zeta. unfold loadOptimizationConfig, saveOptimizationConfig.
  rewrite list_fmap_compose, load_entries.
  - rewrite store_entries, list_to_map_iter; [done| |apply NoDup_map_iter].
    apply Forall_forall. intros [k v] Hin%elem_of_map_iter. by destruct (Hall k v Hin).
  - apply (bool_decide_unpack _). vm_compute. exact I.
  - apply Forall_fmap, Forall_forall. intros [k v] Hin%elem_of_map_iter.
    destruct (Hall k v Hin) as (Hk & z & -> & Hz). by apply threshold_plain.
Qed.

(** ** Alerts *)

(** The alerts a recorded metric sets off, in the order of their names. *)
Definition firing o m : list (string * C) :=
  List.filter (λ a, match adaptive_thresholds_ o !! a.1 with
                    | Some threshold => double_lt threshold (alert_value a.1 m)
                    | None => false
                    end) (map_iter (performance_alerts_ o)).

Lemma check_firing o m w : checkPerformanceAlerts o m w = foldl (λ w a, call_alert a.2 w) w (firing o m).
Proof.
  unfold checkPerformanceAlerts, firing. revert w. induction (map_iter (performance_alerts_ o)) as [|a l IH]; intros w; [done|].
  simpl. unfold check_alert at 2. destruct (adaptive_thresholds_ o !! a.1) as [t|]; [|apply IH].
  destruct (double_lt t _); simpl; apply IH.
Qed.

Lemma NoDup_keys_filter {A} (f : string * A → bool) l : NoDup l.*1 → NoDup (List.filter f l).*1.
Proof.
  induction l as [|a l IH]; [done|]. rewrite fmap_cons, NoDup_cons. intros [Ha Hl]. simpl.
  destruct (f a); [|by apply IH]. rewrite fmap_cons, NoDup_cons. split; [|by apply IH].
  intros (b & Heq & [Hb _]%list_elem_of_In%filter_In)%list_elem_of_fmap. apply Ha. rewrite Heq.
  apply list_elem_of_fmap. exists b. split; [done|]. by apply list_elem_of_In.
Qed.

Lemma elem_of_firing o m key callback : (key, callback) ∈ firing o m ↔
  performance_alerts_ o !! key = Some callback
  ∧ ∃ threshold, adaptive_thresholds_ o !! key = Some threshold ∧ double_lt threshold (alert_value key m) = true.
Proof.
  unfold firing. rewrite list_elem_of_In, filter_In, <-list_elem_of_In, elem_of_map_iter. simpl.
  destruct (adaptive_thresholds_ o !! key); naive_solver.
Qed.

(** While monitoring, recording a metric calls the callbacks of the alerts
    whose threshold the metric exceeds, once each and in the order of their
    names; without monitoring nothing happens.  Every alert is on too high a
    value: the one for "success_rate" is called exactly if the rate is above
    its threshold, so never for a rate that has dropped below it; and one for
    a name the code does not know is called exactly if its threshold is
    negative. *)
Theorem alerts_on_high_values o m w key threshold (callback : C) :
  let o' := setPerformanceAlert key threshold callback o in
  (recordMetric m o' w).2
    = (if monitoring_enabled_ o then foldl (λ w a, call_alert a.2 w) w (firing o' m) else w)
  ∧ NoDup (firing o' m).*1
  ∧ ((key, callback) ∈ firing o' m ↔ double_lt threshold (alert_value key m) = true)
  ∧ alert_value "success_rate" m = success_rate_percent m
  ∧ (key ∉ ["cpu_usage"; "memory_usage"; "response_time"; "success_rate"] → alert_value key m = double_of_int 0).
Proof.
  cbv zeta. set (o' := setPerformanceAlert key threshold callback o). split_all.
  - unfold recordMetric. change (monitoring_enabled_ o') with (monitoring_enabled_ o).
    destruct (monitoring_enabled_ o); [|done]. simpl. by rewrite check_firing.
  - apply NoDup_keys_filter, NoDup_map_iter.
  - rewrite elem_of_firing. unfold o', setPerformanceAlert. simpl. rewrite !lookup_insert_eq. naive_solver.
  - done.
  - intros Hkey. unfold alert_value. rewrite !not_elem_of_cons in Hkey. by rewrite !decide_False by naive_solver.
Qed.

(** ** Every sequence of calls *)

Lemma load_line_only (st : optimizer C * list string) l :
  ∃ thresholds, (load_line store_threshold st l).1 = st.1 <| adaptive_thresholds_ := thresholds |>.
Proof.
  unfold load_line, store_threshold. destruct (parse_line l) as [[key value]|]; [destruct (stod value)|]; simpl.
  - by eexists.
  - exists (adaptive_thresholds_ st.1). by destruct st as [[]].
  - exists (adaptive_thresholds_ st.1). by destruct st as [[]].
Qed.

Lemma load_thresholds_only text (st : optimizer C * list string) :
  ∃ thresholds, (load_lines store_threshold text st).1 = st.1 <| adaptive_thresholds_ := thresholds |>.
Proof.
  unfold load_lines. revert st. induction (getlines (chars text)) as [|l ls IH]; intros st; simpl.
  { exists (adaptive_thresholds_ st.1). by destruct st as [[]]. }
  destruct (IH (load_line store_threshold st l)) as [t1 ->], (load_line_only st l) as [t2 ->]. by exists t1.
Qed.

Lemma load_only filename file o :
  ∃ thresholds, (loadOptimizationConfig filename file o).1 = o <| adaptive_thresholds_ := thresholds |>.
Proof.
  unfold loadOptimizationConfig. destruct file as [text|]; [|exists (adaptive_thresholds_ o); by destruct o].
  destruct (load_thresholds_only text (o, [])) as [thresholds Hth]. exists thresholds.
  by destruct (load_lines store_threshold text (o, [])).
Qed.

(** The calls with which a caller asks for new values. *)
Definition explicit_tuning (op : optimizer_op (C := C)) : bool :=
  match op with OThreads | OConnections | OCache | ODatabase => true | _ => false end.

(** The metrics a sequence of calls hands over while monitoring. *)
Fixpoint recorded (monitoring : bool) (ops : list (optimizer_op (C := C))) : list PerformanceMetrics :=
  match ops with
  | [] => []
  | OMonitoring enable :: ops => recorded enable ops
  | ORecord m :: ops => if monitoring then m :: recorded monitoring ops else recorded monitoring ops
  | _ :: ops => recorded monitoring ops
  end.

Record tuned o : Prop := {
  tn_threads : current_thread_count_ o = 8%Z ∨ current_thread_count_ o = Z.max 2 (Z.min hardware_concurrency 16);
  tn_connections : current_max_connections_ o ∈ [50; 100; 200]%Z;
  tn_cache : current_cache_size_ o ∈ [5000; 10000; 20000]%Z;
  tn_batch : current_batch_size_ o ∈ [500; 1000; 2000]%Z;
}.

(** The values after an operation of the optimizer's own: each is kept or
    reduced to the one for its bottleneck. *)
Definition reduced o o' : Prop :=
  (current_thread_count_ o' = current_thread_count_ o ∨ current_thread_count_ o' = Z.max 2 (Z.min hardware_concurrency 16))
  ∧ (current_max_connections_ o' = current_max_connections_ o ∨ current_max_connections_ o' = 100%Z ∨ current_max_connections_ o' = 50%Z)
  ∧ (current_cache_size_ o' = current_cache_size_ o ∨ current_cache_size_ o' = 5000%Z)
  ∧ (current_batch_size_ o' = current_batch_size_ o ∨ current_batch_size_ o' = 500%Z).

#[export] Instance reduced_refl : Reflexive reduced.
Proof. intros o. unfold reduced. split_all; by left. Qed.
#[export] Instance reduced_trans : Transitive reduced.
Proof. intros o1 o2 o3 (H1 & H2 & H3 & H4) (H1' & H2' & H3' & H4'). unfold reduced. split_all; intuition congruence. Qed.

Lemma adapted_reduced o : reduced o (adapted o).
Proof.
  unfold reduced, adapted. simpl. destruct (isCPUBottleneck o), (isMemoryBottleneck o), (isNetworkBottleneck o),
    (isDatabaseBottleneck o); tauto.
Qed.

Lemma reduced_tuned o o' : reduced o o' → tuned o → tuned o'.
Proof.
  intros (H1 & H2 & H3 & H4) [T1 T2 T3 T4]. split.
  - destruct H1 as [->| ->]; [done|by right].
  - destruct H2 as [->|[->| ->]]; [done|set_solver..].
  - destruct H3 as [->| ->]; [done|set_solver].
  - destruct H4 as [->| ->]; [done|set_solver].
Qed.

Ltac kept Hsuff := split; [done|split; [done|apply Hsuff; unfold reduced; simpl; tauto]].

Lemma optimizer_op_step o w op :
  let o' := (run_optimizer_op (o, w) op).1 in
  metrics_history_ o' = (match op with
                         | ORecord m => if monitoring_enabled_ o then push_bounded 1000 m (metrics_history_ o) else metrics_history_ o
                         | _ => metrics_history_ o
                         end)
  ∧ monitoring_enabled_ o' = (match op with OMonitoring enable => enable | _ => monitoring_enabled_ o end)
  ∧ (explicit_tuning op = false → reduced o o') ∧ (tuned o → tuned o').
Proof.
  assert (Hsuff : ∀ o', reduced o o' → (explicit_tuning op = false → reduced o o') ∧ (tuned o → tuned o'))
    by (intros o' Hred; split; [done|by apply reduced_tuned]).
  destruct op as [enable|enable|strategy|enable|thresholds|m| | | | | |key t cb|key|filename file]; simpl.
  1, 4: destruct enable; kept Hsuff.
  1, 2, 3: kept Hsuff.
  - unfold recordMetric. destruct (monitoring_enabled_ o) eqn:Hm; simpl; [|kept Hsuff].
    destruct (adaptive_optimization_enabled_ o); simpl; [|kept Hsuff].
    rewrite analyze_adapted. split; [done|]. split; [done|]. apply Hsuff.
    etrans; [|apply adapted_reduced]. unfold reduced. simpl. tauto.
  - unfold optimize, adaptiveOptimization, applyOptimizations, updateConfiguration. destruct (optimizer_now w) as [t w'].
    simpl. destruct (optimizer_strategy_ o); [rewrite analyze_adapted|..]; (split; [done|]; split; [done|]; apply Hsuff);
      first [apply adapted_reduced|unfold reduced; simpl; tauto].
  - split_all; try done. intros [T1 T2 T3 T4]. split; try done. by right.
  - split_all; try done. intros [T1 T2 T3 T4]. split; try done. simpl. unfold calculateOptimalConnectionLimits.
    destruct (isMemoryBottleneck o), (isNetworkBottleneck o); set_solver.
  - split_all; try done. intros [T1 T2 T3 T4]. split; try done. simpl. unfold calculateOptimalCacheSize.
    destruct (isMemoryBottleneck o); [set_solver|]. destruct (double_lt _ _); set_solver.
  - split_all; try done. intros [T1 T2 T3 T4]. split; try done. simpl. unfold calculateOptimalBatchSize.
    destruct (isDatabaseBottleneck o); [set_solver|]. destruct (double_lt _ _); set_solver.
  - kept Hsuff.
  - kept Hsuff.
  - destruct (load_only filename file o) as [thresholds ->]. kept Hsuff.
Qed.

Lemma run_optimizer_spec (ops : list (optimizer_op (C := C))) o w : length (metrics_history_ o) ≤ 1000 →
  let o' := (run_optimizer ops (o, w)).1 in
  metrics_history_ o' = last_n 1000 (metrics_history_ o ++ recorded (monitoring_enabled_ o) ops)
  ∧ (forallb (negb ∘ explicit_tuning) ops = true → reduced o o') ∧ (tuned o → tuned o').
Proof.
  revert o w. induction ops as [|op ops IH]; intros o w Hlen.
  { simpl. rewrite app_nil_r, last_n_all by done. by split_all. }
  unfold run_optimizer in *. cbn [foldl]. pose proof (optimizer_op_step o w op) as (Hh & Hm & Hred & Htuned).
  destruct (run_optimizer_op (o, w) op) as [o1 w1]. cbn [fst] in *.
  assert (length (metrics_history_ o1) ≤ 1000) as Hlen1.
  { rewrite Hh. destruct op; try done. destruct (monitoring_enabled_ o); [|done].
    rewrite (push_bounded_last_n 1000) by (done || lia). apply last_n_length. }
  destruct (IH o1 w1 Hlen1) as (IHh & IHred & IHtuned). split_all.
  - rewrite IHh, Hh, Hm. destruct op; try done. simpl. destruct (monitoring_enabled_ o); [|done].
    rewrite (push_bounded_last_n 1000) by (done || lia). change (Z.to_nat 1000) with 1000.
    by rewrite last_n_last_n_app, <-(assoc_L app).
  - unfold compose in *. cbn [forallb]. intros [Hop%negb_true_iff Hops]%andb_true_iff.
    etrans; [by apply Hred|by apply IHred].
  - auto.
Qed.

(** C37: In every state the optimizer can reach, the history holds the last
    thousand metrics recorded while monitoring, and each tuned value is one of
    a fixed few: 8 threads or as many as there are processors, between 2 and
    16; 50, 100 or 200 connections; and so on.  The values the optimizer
    chooses by itself are those for a bottleneck: as long as no caller asks
    for new ones, none of them returns to its initial value once it was
    changed, however healthy the metrics are after it: a cache or a batch that
    was reduced is never enlarged again, the number of threads stays the one
    computed, and the connections stay below 200.  These may still go up, from
    50 to 100, which [connections_grow] shows. *)
Theorem tuning_never_recovers (ops : list (optimizer_op (C := C))) (later : list (optimizer_op (C := C))) w :
  let st := run_optimizer ops (new_optimizer, w) in
  let o := st.1 in
  let o' := (run_optimizer later st).1 in
  metrics_history_ o = last_n 1000 (recorded false ops) ∧ tuned o
  ∧ (forallb (negb ∘ explicit_tuning) later = true →
     reduced o o'
     ∧ (current_thread_count_ o = Z.max 2 (Z.min hardware_concurrency 16) → current_thread_count_ o' = current_thread_count_ o)
     ∧ (current_max_connections_ o ∈ [50; 100]%Z → current_max_connections_ o' ∈ [50; 100]%Z)
     ∧ (current_cache_size_ o = 5000%Z → current_cache_size_ o' = 5000%Z)
     ∧ (current_batch_size_ o = 500%Z → current_batch_size_ o' = 500%Z)).
Proof.
  cbv zeta. pose proof (run_optimizer_spec ops new_optimizer w) as Hspec. simpl in Hspec.
  destruct Hspec as (Hh & _ & Ht); [lia|]. destruct (run_optimizer ops (new_optimizer, w)) as [o w1]. simpl in *.
  split; [done|]. split.
  { apply Ht. split; simpl; [by left|set_solver..]. }
  intros Hlater. pose proof (run_optimizer_spec later o w1) as Hspec. cbv zeta in Hspec.
  destruct Hspec as (_ & Hred & _); [rewrite Hh; apply last_n_length|].
  specialize (Hred Hlater). split; [done|]. destruct Hred as (H1 & H2 & H3 & H4). split_all.
  - intros Hthreads. destruct H1 as [?|?]; congruence.
  - intros Hlimit. destruct H2 as [->|[->| ->]]; set_solver.
  - intuition congruence.
  - intuition congruence.
Qed.
End Facts.

(** ** Witnesses *)

(** Callbacks are numbers; the world is the clock and the calls made. *)
#[export] Instance listening_world : OptimizerWorld (Z * list Z) Z := {|
  optimizer_now w := (w.1, (w.1 + 1, w.2)%Z);
  hardware_concurrency := 4;
  call_alert callback w := (w.1, w.2 ++ [callback]);
|}.
Definition metrics_of (memory rate : Z) : PerformanceMetrics :=
  mk_PerformanceMetrics (double_of_int 25) (double_of_int memory) (double_of_int 100) (double_of_int 150)
    (double_of_int rate) 50 10 0.
Definition watching : optimizer Z := startMonitoring new_optimizer.

Definition depth_alert : optimizer Z := setPerformanceAlert "queue depth" (double_of_int (-12)) 1%Z new_optimizer.

Lemma thresholds_roundtrip_witness :
  let o0 : optimizer Z := new_optimizer in
  let o' := o0 <| adaptive_thresholds_ := adaptive_thresholds_ depth_alert ∪ adaptive_thresholds_ o0 |> in
  loadOptimizationConfig "optimizer.conf" (Some (saveOptimizationConfig depth_alert)) o0 = (o', validateConfig o').
Proof.
  cbv zeta. apply (thresholds_roundtrip depth_alert new_optimizer "optimizer.conf").
  change (adaptive_thresholds_ depth_alert) with
    (<["queue depth" := double_of_int (-12)]> (adaptive_thresholds_ (new_optimizer (C := Z)))).
  change (adaptive_thresholds_ (new_optimizer (C := Z))) with
    (<["success_rate" := double_of_int 70]> (<["response_time" := double_of_int 5000]>
      (<["memory_usage" := double_of_int 800]> (<["cpu_usage" := double_of_int 80]> (∅ : gmap string double))))).
  repeat (apply map_Forall_insert_2; [split; [reflexivity|eexists; split; [reflexivity|lia]]|]).
  intros key threshold Hkey. destruct (lookup_empty_Some (M := gmap string) key threshold Hkey).
Defined.

(** Seven digits are not read back, and the defaults are reported. *)
Example seven_digits_lost :
  let o := setPerformanceAlert "bytes" (double_of_int 1234567) 1%Z new_optimizer in
  adaptive_thresholds_ (loadOptimizationConfig "f" (Some (saveOptimizationConfig o)) (new_optimizer (C := Z))).1 !! "bytes"
  = Some (double_of_int 1234570).
Proof. vm_compute. reflexivity. Qed.
Example defaults_reported :
  validateConfig (new_optimizer (C := Z))
  = ["Warning: Threshold memory_usage value 800 is outside valid range [0, 100]";
     "Warning: Threshold response_time value 5000 is outside valid range [0, 100]"].
Proof. vm_compute. reflexivity. Qed.

Lemma alerts_on_high_values_witness :
  let o := setPerformanceAlert "success_rate" (double_of_int 70) 7%Z watching in
  (recordMetric (metrics_of 512 95) o (0%Z, [])).2 = (0%Z, [7%Z])
  ∧ (recordMetric (metrics_of 512 10) o (0%Z, [])).2 = (0%Z, [])
  ∧ alert_value "queue" (metrics_of 512 10) = double_of_int 0.
Proof.
  cbv zeta. split_all.
  - rewrite (proj1 (alerts_on_high_values watching (metrics_of 512 95) (0%Z, []) "success_rate" (double_of_int 70) 7%Z)).
    vm_compute. reflexivity.
  - rewrite (proj1 (alerts_on_high_values watching (metrics_of 512 10) (0%Z, []) "success_rate" (double_of_int 70) 7%Z)).
    vm_compute. reflexivity.
  - destruct (alerts_on_high_values watching (metrics_of 512 10) (0%Z, []) "queue" (double_of_int 70) 7%Z)
      as (_ & _ & _ & _ & Hunknown). apply Hunknown. apply (bool_decide_unpack _). vm_compute. exact I.
Defined.

(** Slow answers reduce the connections to 50; slow answers and much memory
    together then set them to 100. *)
Definition slow_metrics (memory : Z) : PerformanceMetrics :=
  mk_PerformanceMetrics (double_of_int 25) (double_of_int memory) (double_of_int 100) (double_of_int 6000)
    (double_of_int 95) 50 10 0.
Definition slow_start : list (optimizer_op (C := Z)) := [OMonitoring true; OAdaptive true; ORecord (slow_metrics 900)].
Example connections_grow :
  let run ops := current_max_connections_ (run_optimizer ops (new_optimizer (C := Z), (0%Z, []))).1 in
  run [] = 200%Z ∧ run [OMonitoring true; OAdaptive true; ORecord (slow_metrics 100)] = 50%Z
  ∧ run [OMonitoring true; OAdaptive true; ORecord (slow_metrics 100); ORecord (slow_metrics 900)] = 100%Z.
Proof. vm_compute. by split_all. Qed.

Lemma tuning_never_recovers_witness :
  let st := run_optimizer slow_start (new_optimizer, (0%Z, [])) in
  let st' := run_optimizer [ORecord (metrics_of 100 95); OOptimize] st in
  current_cache_size_ (new_optimizer (C := Z)) = 10000%Z ∧ current_max_connections_ (new_optimizer (C := Z)) = 200%Z
  ∧ current_cache_size_ st.1 = 5000%Z ∧ current_max_connections_ st.1 ∈ [50; 100]%Z
  ∧ current_cache_size_ st'.1 = 5000%Z ∧ current_max_connections_ st'.1 ∈ [50; 100]%Z.
Proof.
  intros st st'. assert (Hcache : current_cache_size_ st.1 = 5000%Z) by (vm_compute; reflexivity).
  assert (Hlimit : current_max_connections_ st.1 ∈ [50; 100]%Z) by (apply (bool_decide_unpack _); vm_compute; exact I).
  split; [reflexivity|]. split; [reflexivity|]. split; [exact Hcache|]. split; [exact Hlimit|].
  destruct (tuning_never_recovers slow_start [ORecord (metrics_of 100 95); OOptimize] (0%Z, [])) as (_ & _ & Hlater).
  destruct (Hlater eq_refl) as (_ & _ & Hconnections & Hcaches & _).
  split; [exact (Hcaches Hcache)|exact (Hconnections Hlimit)].
Defined.
