(* ===== verification/HybridConnection.v ===== *)
(** * The hybrid connection manager

    Models [HybridConnectionManager] as
    [src/src/hybrid_connection_manager.cpp] defines it, with the structures
    that file uses (the header declares others).  Both kinds of attempt are
    simulated by the code: they count, compare and read the clock.  The value
    of a [ConnectionInfo] before its members are assigned is a parameter,
    since no file declares the structure; so are the performance metrics,
    which the code only hands out. *)

From S2P Require Import Prelude Numeric.

Class HybridClock (W : Type) := hybrid_now : W → Z * W.

(** The strategies the source names, and any other one. *)
Inductive ConnectionStrategy := DIRECT_FIRST | LIBTORRENT_FIRST | DIRECT_ONLY | LIBTORRENT_ONLY | OTHER_STRATEGY.
Inductive ConnectionType := DIRECT | LIBTORRENT | UNKNOWN_CONNECTION.
#[export] Instance ConnectionType_eq_dec : EqDecision ConnectionType.
Proof. solve_decision. Defined.

Record HybridConfig := mk_HybridConfig {
  prefer_direct_connections : bool;
  max_connection_attempts : Z;
  (** in milliseconds *)
  hc_connection_timeout : Z;
}.

(** The metrics are of some type [M]; a time not assigned is in the default
    value. *)
Record ConnectionInfo (M : Type) := mk_ConnectionInfo {
  ci_peer_ip : string;
  ci_peer_port : Z;
  ci_info_hash : string;
  ci_strategy : ConnectionStrategy;
  ci_connection_type : ConnectionType;
  ci_is_connected : bool;
  created_at : Z;
  connected_at : Z;
  disconnected_at : Z;
  ci_last_activity : Z;
  connection_attempts : Z;
  performance_score : double;
  ci_performance_metrics : M;
}.
Arguments mk_ConnectionInfo {M}.
Arguments ci_peer_ip {M}. Arguments ci_peer_port {M}. Arguments ci_info_hash {M}. Arguments ci_strategy {M}.
Arguments ci_connection_type {M}. Arguments ci_is_connected {M}. Arguments created_at {M}.
Arguments connected_at {M}. Arguments disconnected_at {M}. Arguments ci_last_activity {M}.
Arguments connection_attempts {M}. Arguments performance_score {M}. Arguments ci_performance_metrics {M}.
#[export] Instance eta_ConnectionInfo M : Eta (ConnectionInfo M) := λ c,
  mk_ConnectionInfo (ci_peer_ip c) (ci_peer_port c) (ci_info_hash c) (ci_strategy c) (ci_connection_type c)
    (ci_is_connected c) (created_at c) (connected_at c) (disconnected_at c) (ci_last_activity c)
    (connection_attempts c) (performance_score c) (ci_performance_metrics c).

Record hybrid (M : Type) := mk_hybrid {
  hybrid_config : HybridConfig;
  hybrid_connections_ : gmap string (ConnectionInfo M);
}.
Arguments mk_hybrid {M}. Arguments hybrid_config {M}. Arguments hybrid_connections_ {M}.
#[export] Instance eta_hybrid M : Eta (hybrid M) := λ h, mk_hybrid (hybrid_config h) (hybrid_connections_ h).

Definition new_hybrid {M} (config : HybridConfig) : hybrid M := mk_hybrid config ∅.
Definition hybrid_key (ip : string) (port : Z) : string := ip +:+ ":" +:+ to_string port.

Section Operations.
Context `{HybridClock W} {M : Type} (default_info : ConnectionInfo M).
Implicit Types (h : hybrid M) (c : ConnectionInfo M) (w : W) (ip hash : string) (port : Z) (config : HybridConfig).

Definition determineStrategy config : ConnectionStrategy :=
  if prefer_direct_connections config then DIRECT_FIRST else LIBTORRENT_FIRST.
Definition type_of_strategy (strategy : ConnectionStrategy) : ConnectionType :=
  match strategy with
  | DIRECT_FIRST | DIRECT_ONLY => DIRECT
  | LIBTORRENT_FIRST | LIBTORRENT_ONLY => LIBTORRENT
  | OTHER_STRATEGY => UNKNOWN_CONNECTION
  end.

(** [connection_attempts] is an [int]; it is at most 2 above its first value. *)
Definition attemptDirectConnection config c w : bool * ConnectionInfo M * W :=
  let c := c <| ci_connection_type := DIRECT |> <| connection_attempts ::= λ n, (n + 1)%Z |> in
  if (connection_attempts c <=? max_connection_attempts config)%Z then
    let '(t, w) := hybrid_now w in
    (true, c <| connected_at := t |> <| performance_score := double_lit 8 10 |>, w)
  else (false, c, w).
Definition attemptLibtorrentConnection config c w : bool * ConnectionInfo M * W :=
  let c := c <| ci_connection_type := LIBTORRENT |> <| connection_attempts ::= λ n, (n + 1)%Z |> in
  if (connection_attempts c <=? max_connection_attempts config)%Z then
    let '(t, w) := hybrid_now w in
    (true, c <| connected_at := t |> <| performance_score := double_lit 6 10 |>, w)
  else (false, c, w).

Definition attempt_connection config (strategy : ConnectionStrategy) c w : bool * ConnectionInfo M * W :=
  match strategy with
  | DIRECT_FIRST =>
    let '(ok, c, w) := attemptDirectConnection config c w in
    if ok then (ok, c, w) else attemptLibtorrentConnection config c w
  | LIBTORRENT_FIRST =>
    let '(ok, c, w) := attemptLibtorrentConnection config c w in
    if ok then (ok, c, w) else attemptDirectConnection config c w
  | DIRECT_ONLY => attemptDirectConnection config c w
  | LIBTORRENT_ONLY => attemptLibtorrentConnection config c w
  | OTHER_STRATEGY => (false, c, w)
  end.

Definition fresh_info (strategy : ConnectionStrategy) ip port hash (now : Z) : ConnectionInfo M :=
  default_info <| ci_peer_ip := ip |> <| ci_peer_port := port |> <| ci_info_hash := hash |>
    <| ci_strategy := strategy |> <| ci_connection_type := type_of_strategy strategy |>
    <| ci_is_connected := false |> <| created_at := now |> <| ci_last_activity := now |>
    <| performance_score := double_of_int 0 |>.

Definition is_connected_to h ip port : bool :=
  match hybrid_connections_ h !! hybrid_key ip port with Some c => ci_is_connected c | None => false end.

Definition connectPeer ip port hash h w : bool * hybrid M * W :=
  if is_connected_to h ip port then (true, h, w)
  else
    let strategy := determineStrategy (hybrid_config h) in
    let '(now, w) := hybrid_now w in
    let '(ok, c, w) :=
      attempt_connection (hybrid_config h) strategy (fresh_info strategy ip port hash now) w in
    (ok, h <| hybrid_connections_ ::= <[hybrid_key ip port := c <| ci_is_connected := ok |>]> |>, w).

Definition disconnectDirectConnection c w : ConnectionInfo M * W :=
  let '(t, w) := hybrid_now w in (c <| ci_is_connected := false |> <| disconnected_at := t |>, w).
Definition disconnectLibtorrentConnection c w : ConnectionInfo M * W :=
  let '(t, w) := hybrid_now w in (c <| ci_is_connected := false |> <| disconnected_at := t |>, w).
Definition disconnect_info c w : ConnectionInfo M * W :=
  match ci_connection_type c with
  | DIRECT => disconnectDirectConnection c w
  | LIBTORRENT => disconnectLibtorrentConnection c w
  | UNKNOWN_CONNECTION => (c, w)
  end.

(** The record that was marked disconnected is erased. *)
Definition disconnectPeer ip port h w : bool * hybrid M * W :=
  match hybrid_connections_ h !! hybrid_key ip port with
  | Some c =>
    let '(_, w) := disconnect_info c w in
    (true, h <| hybrid_connections_ ::= delete (hybrid_key ip port) |>, w)
  | None => (false, h, w)
  end.

Definition getConnectionType ip port h : ConnectionType :=
  match hybrid_connections_ h !! hybrid_key ip port with
  | Some c => ci_connection_type c
  | None => UNKNOWN_CONNECTION
  end.
Definition getPerformanceMetrics ip port h : M :=
  ci_performance_metrics (default default_info (hybrid_connections_ h !! hybrid_key ip port)).
Definition setStrategy ip port (strategy : ConnectionStrategy) h : hybrid M :=
  match hybrid_connections_ h !! hybrid_key ip port with
  | Some c =>
    h <| hybrid_connections_ ::= <[hybrid_key ip port := c <| ci_strategy := strategy |>]> |>
  | None => h
  end.
Definition getConnectionInfo ip port h : ConnectionInfo M :=
  default default_info (hybrid_connections_ h !! hybrid_key ip port).

Definition connected_as (type : ConnectionType) c : bool := ci_is_connected c && bool_decide (ci_connection_type c = type).
Definition peers_where (p : ConnectionInfo M → bool) h : list string :=
  (List.filter (λ e, p e.2) (map_iter (hybrid_connections_ h))).*1.
Definition getConnectedPeers h : list string := peers_where ci_is_connected h.
Definition getDirectConnections h : list string := peers_where (connected_as DIRECT) h.
Definition getLibtorrentConnections h : list string := peers_where (connected_as LIBTORRENT) h.
(** The counters are [int]s counted up from 0. *)
Definition count_where (p : ConnectionInfo M → bool) h : Z :=
  foldl (λ n e, if p e.2 then n + 1 else n)%Z 0%Z (map_iter (hybrid_connections_ h)).
Definition getConnectionCount h : Z := count_where ci_is_connected h.
Definition getDirectConnectionCount h : Z := count_where (connected_as DIRECT) h.
Definition getLibtorrentConnectionCount h : Z := count_where (connected_as LIBTORRENT) h.

Definition inactive config (now : Z) c : Prop := (milliseconds (hc_connection_timeout config) < now - ci_last_activity c)%Z.
#[export] Instance inactive_dec config now c : Decision (inactive config now c).
Proof. unfold inactive. apply _. Defined.

(** One entry of the loop: the entry is kept, or disconnected and erased. *)
Definition cleanup_entry config (now : Z) (st : gmap string (ConnectionInfo M) * W) (e : string * ConnectionInfo M)
    : gmap string (ConnectionInfo M) * W :=
  let '(m, w) := st in
  if decide (inactive config now e.2) then
    let w := if ci_is_connected e.2 then (disconnect_info e.2 w).2 else w in
    (delete e.1 m, w)
  else (m, w).
Definition cleanupInactiveConnections h w : hybrid M * W :=
  let '(now, w) := hybrid_now w in
  let '(m, w) := foldl (cleanup_entry (hybrid_config h) now) (hybrid_connections_ h, w)
    (map_iter (hybrid_connections_ h)) in
  (h <| hybrid_connections_ := m |>, w).

Definition updateConfig config h : hybrid M := h <| hybrid_config := config |>.
Definition getConfig h : HybridConfig := hybrid_config h.

Inductive hybrid_op :=
  | HConnect ip port hash | HDisconnect ip port | HStrategy ip port (strategy : ConnectionStrategy)
  | HCleanup | HConfig config.
Definition run_hybrid_op (st : hybrid M * W) (op : hybrid_op) : hybrid M * W :=
  let '(h, w) := st in
  match op with
  | HConnect ip port hash => let '(_, h, w) := connectPeer ip port hash h w in (h, w)
  | HDisconnect ip port => let '(_, h, w) := disconnectPeer ip port h w in (h, w)
  | HStrategy ip port strategy => (setStrategy ip port strategy h, w)
  | HCleanup => cleanupInactiveConnections h w
  | HConfig config => (updateConfig config h, w)
  end.
Definition run_hybrid (ops : list hybrid_op) (st : hybrid M * W) : hybrid M * W := foldl run_hybrid_op st ops.
End Operations.

Section Facts.
Context `{HybridClock W} {M : Type} (default_info : ConnectionInfo M).
Implicit Types (h : hybrid M) (c : ConnectionInfo M) (w : W) (ip hash : string) (port : Z) (config : HybridConfig).

(** ** One connection *)

Definition preferred_type config : ConnectionType := if prefer_direct_connections config then DIRECT else LIBTORRENT.
Definition fallback_type config : ConnectionType := if prefer_direct_connections config then LIBTORRENT else DIRECT.

(** What the attempts leave of the record they are given: the caller's
    identification of the peer and the times of creation. *)
Definition same_peer c c' : Prop :=
  ci_peer_ip c' = ci_peer_ip c ∧ ci_peer_port c' = ci_peer_port c ∧ ci_info_hash c' = ci_info_hash c
  ∧ created_at c' = created_at c ∧ ci_last_activity c' = ci_last_activity c
  ∧ ci_performance_metrics c' = ci_performance_metrics c.

Lemma attempt_connection_spec config c w :
  let '(ok, c', _) := attempt_connection config (determineStrategy config) c w in
  ok = (connection_attempts c <? max_connection_attempts config)%Z ∧ same_peer c c'
  ∧ (if ok then ci_connection_type c' = preferred_type config ∧ connection_attempts c' = (connection_attempts c + 1)%Z
     else ci_connection_type c' = fallback_type config ∧ connection_attempts c' = (connection_attempts c + 2)%Z).
Proof.
  unfold attempt_connection, determineStrategy, preferred_type, fallback_type.
  destruct (prefer_direct_connections config);
    unfold attemptDirectConnection, attemptLibtorrentConnection; simpl;
    destruct (Z.leb_spec (connection_attempts c + 1) (max_connection_attempts config)) as [Hle|Hgt];
    try destruct (hybrid_now w) as [t w']; simpl.
  1, 3: split; [symmetry; apply Z.ltb_lt; lia|done].
  all: rewrite (proj2 (Z.leb_gt (connection_attempts c + 1 + 1) _)) by lia; simpl.
  all: split; [symmetry; apply Z.ltb_ge; lia|]; split; [done|]; split; [done|lia].
Qed.

(** Connecting to a peer that is not connected makes a new record of it
    under "ip:port" and touches no other.  It succeeds exactly if a first
    attempt is allowed, and is then of the preferred kind: the fallback
    compares the same counter with the same limit after one more attempt, so
    it never succeeds where the first attempt failed. *)
Theorem connect_outcome ip port hash h w :
  is_connected_to h ip port = false →
  let '(ok, h', _) := connectPeer default_info ip port hash h w in
  ok = (connection_attempts default_info <? max_connection_attempts (hybrid_config h))%Z
  ∧ hybrid_config h' = hybrid_config h
  ∧ delete (hybrid_key ip port) (hybrid_connections_ h') = delete (hybrid_key ip port) (hybrid_connections_ h)
  ∧ ∃ c, hybrid_connections_ h' !! hybrid_key ip port = Some c
    ∧ ci_is_connected c = ok ∧ ci_peer_ip c = ip ∧ ci_peer_port c = port ∧ ci_info_hash c = hash
    ∧ created_at c = (hybrid_now w).1 ∧ ci_last_activity c = (hybrid_now w).1
    ∧ ci_connection_type c = (if ok then preferred_type (hybrid_config h) else fallback_type (hybrid_config h)).
Proof.
  intros Hno. unfold connectPeer. rewrite Hno. destruct (hybrid_now w) as [now w1].
  set (c0 := fresh_info _ _ _ _ _ _). pose proof (attempt_connection_spec (hybrid_config h) c0 w1) as Ha.
  destruct (attempt_connection _ _ c0 w1) as [[ok c'] w2]. destruct Ha as (Hok & Hsame & Htype).
  split; [exact Hok|]. split; [done|]. split; [simpl; by rewrite delete_insert_eq|].
  eexists. split; [simpl; by rewrite lookup_insert_eq|].
  simpl. destruct Hsame as (-> & -> & -> & -> & -> & _). split_all; try done. by destruct ok, Htype.
Qed.

(** ** Strategies *)

Definition forget_strategy c : ConnectionInfo M := c <| ci_strategy := DIRECT_FIRST |>.
Definition forget h : hybrid M := h <| hybrid_connections_ ::= fmap forget_strategy |>.

Lemma map_iter_fmap {A B} (f : A → B) (m : gmap string A) : map_iter (f <$> m) = prod_map id f <$> map_iter m.
Proof.
  apply (StronglySorted_unique_strong key_le).
  - intros [k1 v1] [k2 v2] H1%elem_of_map_iter H2 Hle Hge.
    assert (k1 = k2) as -> by (by apply (anti_symm String.le)).
    apply list_elem_of_fmap in H2 as ([k v] & Heq & H2%elem_of_map_iter). simplify_eq/=.
    rewrite lookup_fmap, H2 in H1. simpl in H1. congruence.
  - apply Sorted_map_iter.
  - induction (Sorted_map_iter m) as [|e l Hl IH Hall]; [constructor|]. rewrite fmap_cons. constructor; [done|].
    apply Forall_fmap. eapply Forall_impl; [exact Hall|]. done.
  - by rewrite !map_iter_perm, map_to_list_fmap.
Qed.

Lemma forget_idemp (m : gmap string (ConnectionInfo M)) : forget_strategy <$> (forget_strategy <$> m) = forget_strategy <$> m.
Proof. rewrite <-map_fmap_compose. by apply map_fmap_ext. Qed.

Lemma forget_forget h : forget (forget h) = forget h.
Proof. destruct h as [config m]. unfold forget, set_field. simpl. f_equal. apply forget_idemp. Qed.

Lemma is_connected_forget h ip port : is_connected_to (forget h) ip port = is_connected_to h ip port.
Proof. unfold is_connected_to, forget. simpl. rewrite lookup_fmap. by destruct (_ !! _). Qed.

Lemma disconnect_info_forget c w : (disconnect_info (forget_strategy c) w).2 = (disconnect_info c w).2.
Proof.
  unfold disconnect_info, disconnectDirectConnection, disconnectLibtorrentConnection. simpl.
  destruct (ci_connection_type c); try done; by destruct (hybrid_now w).
Qed.

Lemma cleanup_fold_forget config now es m w :
  let '(m1, w1) := foldl (cleanup_entry config now) (m, w) es in
  let '(m2, w2) := foldl (cleanup_entry config now) (forget_strategy <$> m, w) (prod_map id forget_strategy <$> es) in
  m2 = forget_strategy <$> m1 ∧ w2 = w1.
Proof.
  revert m w. induction es as [|[k c] es IH]; intros m w; [done|]. rewrite fmap_cons. simpl foldl.
  unfold inactive. simpl. destruct (decide _); [|apply IH]. rewrite disconnect_info_forget, <-fmap_delete. apply IH.
Qed.

Lemma cleanup_forget h w :
  let '(h1, w1) := cleanupInactiveConnections h w in
  cleanupInactiveConnections (forget h) w = (forget h1, w1).
Proof.
  unfold cleanupInactiveConnections. destruct (hybrid_now w) as [now w']. simpl.
  pose proof (cleanup_fold_forget (hybrid_config h) now (map_iter (hybrid_connections_ h)) (hybrid_connections_ h) w') as Hc.
  rewrite map_iter_fmap. destruct (foldl _ (hybrid_connections_ h, w') _) as [m1 w1].
  destruct (foldl _ (forget_strategy <$> _, w') _) as [m2 w2]. by destruct Hc as [-> ->].
Qed.

(** An operation cannot tell a state from one with other strategies. *)
Lemma op_forget (op : hybrid_op) h w :
  let '(h1, w1) := run_hybrid_op default_info (h, w) op in
  let '(h2, w2) := run_hybrid_op default_info (forget h, w) op in
  forget h2 = forget h1 ∧ w2 = w1.
Proof.
  destruct op as [ip port hash|ip port|ip port strategy| |config]; simpl.
  - unfold connectPeer. rewrite is_connected_forget. destruct (is_connected_to h ip port); [by rewrite forget_forget|].
    destruct (hybrid_now w) as [now w']. simpl. destruct (attempt_connection _ _ _ w') as [[ok c] w2].
    split; [|done]. unfold forget, set_field. simpl. by rewrite !fmap_insert, forget_idemp.
  - unfold disconnectPeer. simpl. rewrite lookup_fmap. destruct (hybrid_connections_ h !! _) as [c|]; simpl; [|by rewrite forget_forget].
    pose proof (disconnect_info_forget c w) as Hw.
    destruct (disconnect_info (forget_strategy c) w) as [c1 w1], (disconnect_info c w) as [c2 w2]. simpl in Hw. subst.
    split; [|done]. unfold forget, set_field. simpl. by rewrite !fmap_delete, forget_idemp.
  - unfold setStrategy. simpl. rewrite lookup_fmap. split; [|done].
    destruct (hybrid_connections_ h !! _) as [c|]; simpl; [|by rewrite forget_forget].
    unfold forget, set_field. simpl. by rewrite !fmap_insert, forget_idemp.
  - pose proof (cleanup_forget h w) as Hc. destruct (cleanupInactiveConnections h w) as [h1 w1]. rewrite Hc.
    by rewrite forget_forget.
  - split; [|done]. unfold updateConfig, forget, set_field. simpl. f_equal. apply forget_idemp.
Qed.

Lemma strategy_forget ip port (strategy : ConnectionStrategy) h : forget (setStrategy ip port strategy h) = forget h.
Proof.
  unfold setStrategy. destruct (hybrid_connections_ h !! _) as [c|] eqn:Hc; [|done].
  unfold forget, set_field. simpl. f_equal. rewrite fmap_insert. apply insert_id. by rewrite lookup_fmap, Hc.
Qed.

Definition sets_strategy (op : hybrid_op) : bool := match op with HStrategy _ _ _ => true | _ => false end.

Lemma run_forget (ops : list hybrid_op) h1 h2 w : forget h1 = forget h2 →
  let '(h1', w1) := run_hybrid default_info ops (h1, w) in
  let '(h2', w2) := run_hybrid default_info (List.filter (negb ∘ sets_strategy) ops) (h2, w) in
  forget h1' = forget h2' ∧ w1 = w2.
Proof.
  revert h1 h2 w. induction ops as [|op ops IH]; intros h1 h2 w Heq; [done|].
  unfold compose, run_hybrid in *. cbn [foldl List.filter].
  destruct (sets_strategy op) eqn:Hop; cbn [negb foldl].
  - destruct op; try done. apply IH. by rewrite strategy_forget.
  - pose proof (op_forget op h1 w) as Ho1. pose proof (op_forget op h2 w) as Ho2. rewrite Heq in Ho1.
    destruct (run_hybrid_op default_info (h1, w) op) as [h1' w1], (run_hybrid_op default_info (h2, w) op) as [h2' w2].
    destruct (run_hybrid_op default_info (forget h2, w) op) as [h3 w3].
    destruct Ho1 as [Ho1 ->], Ho2 as [Ho2 ->]. apply IH. congruence.
Qed.

(** Setting a strategy has no effect on anything but the strategy that is
    read back: after any sequence of operations the state is, but for the
    stored strategies, the one of the same sequence without its calls of
    [setStrategy], and the same number of times was the clock read; so are the
    answers to every later connection. *)
Theorem strategies_ignored (ops : list hybrid_op) h w ip port hash :
  let ops' := List.filter (negb ∘ sets_strategy) ops in
  let '(h1, w1) := run_hybrid default_info ops (h, w) in
  let '(h2, w2) := run_hybrid default_info ops' (h, w) in
  forget h1 = forget h2 ∧ w1 = w2
  ∧ getConnectedPeers h1 = getConnectedPeers h2
  ∧ (connectPeer default_info ip port hash h1 w1).1.1 = (connectPeer default_info ip port hash h2 w2).1.1
  ∧ getConnectionType ip port h1 = getConnectionType ip port h2.
Proof.
  pose proof (run_forget ops h h w eq_refl) as Hrun. simpl.
  destruct (run_hybrid _ ops _) as [h1 w1], (run_hybrid _ (List.filter _ ops) _) as [h2 w2].
  destruct Hrun as [Heq ->]. split; [done|]. split; [done|].
  assert (Hconfig : hybrid_config h1 = hybrid_config h2) by (by apply (f_equal hybrid_config) in Heq).
  assert (Hconn : forget_strategy <$> hybrid_connections_ h1 = forget_strategy <$> hybrid_connections_ h2)
    by (by apply (f_equal hybrid_connections_) in Heq).
  split_all.
  - assert (Hp : ∀ h, getConnectedPeers h = getConnectedPeers (forget h)).
    { intros h'. unfold getConnectedPeers, peers_where, forget. simpl. rewrite map_iter_fmap.
      induction (map_iter (hybrid_connections_ h')) as [|[k c] l IH]; [done|]. rewrite fmap_cons.
      cbn [List.filter snd prod_map forget_strategy]. simpl. destruct (ci_is_connected c); simpl; [f_equal|]; exact IH. }
    by rewrite Hp, Heq, <-Hp.
  - unfold connectPeer. rewrite <-(is_connected_forget h1), <-(is_connected_forget h2), Heq, Hconfig.
    destruct (is_connected_to (forget h2) ip port); [done|]. destruct (hybrid_now w2) as [now w'].
    by destruct (attempt_connection _ _ _ w') as [[ok c] w3].
  - unfold getConnectionType. pose proof (f_equal (lookup (hybrid_key ip port)) Hconn) as Hl. rewrite !lookup_fmap in Hl.
    destruct (hybrid_connections_ h1 !! _), (hybrid_connections_ h2 !! _); simpl in Hl; try done. by injection Hl.
Qed.
End Facts.

(** ** Witnesses *)

#[export] Instance ticking_hybrid : HybridClock Z := λ w, (w, (w + 1000000)%Z).
Definition no_info : ConnectionInfo unit :=
  mk_ConnectionInfo "" 0 "" LIBTORRENT_FIRST UNKNOWN_CONNECTION false 0 0 0 0 0 (double_of_int 0) ().
Definition some_hybrid : hybrid unit := new_hybrid (mk_HybridConfig true 3 30000).

Lemma connect_outcome_witness :
  is_connected_to some_hybrid "192.0.2.1" 6881 = false
  ∧ (connectPeer no_info "192.0.2.1" 6881 "aa" some_hybrid 0%Z).1.1 = true.
Proof.
  split; [vm_compute; reflexivity|].
  pose proof (connect_outcome no_info "192.0.2.1" 6881 "aa" some_hybrid 0%Z ltac:(vm_compute; reflexivity)) as Hout.
  destruct (connectPeer no_info "192.0.2.1" 6881 "aa" some_hybrid 0%Z) as [[ok h'] w']. destruct Hout as [-> _].
  vm_compute. reflexivity.
Defined.
