(* ===== verification/PeerConnector.v ===== *)
(** * The direct peer connector

    Models [DirectPeerConnector] as [src/src/direct_peer_connector.cpp]
    defines it: non-blocking TCP connections under the key "address:port".
    The structures are those the source file uses; the header of the same name
    declares others.  The system calls are the fields of [Sockets], with
    [errno] as a second result; [SocketLaws] states what POSIX promises about
    open file descriptors, for the theorems that need it. *)

From S2P Require Import Prelude.

Class Sockets (W : Type) := {
  socket : W → Z * W;
  setsockopt_reuseaddr : Z → W → Z * W;
  fcntl_getfl : Z → W → Z * W;
  fcntl_setfl : Z → Z → W → Z * W;
  inet_pton : string → option Z;
  connect_socket : Z → Z → Z → W → Z * Z * W;
  send : Z → list ascii → W → Z * Z * W;
  recv : Z → Z → W → Z * Z * list ascii * W;
  close : Z → W → W;
  steady_now : W → Z * W;
  O_NONBLOCK : Z;
  EINPROGRESS : Z;
  EAGAIN : Z;
  EWOULDBLOCK : Z;
}.

Record ConnectionInfo := mk_ConnectionInfo {
  socket_fd : Z;
  c_ip_address : string;
  c_port : Z;
  is_connected : bool;
  c_created_at : Z;
  last_activity : Z;
}.
#[export] Instance eta_ConnectionInfo : Eta ConnectionInfo :=
  λ c, mk_ConnectionInfo (socket_fd c) (c_ip_address c) (c_port c) (is_connected c) (c_created_at c) (last_activity c).

(** [connection_timeout] is in milliseconds. *)
Record connector := mk_connector {
  connection_timeout : Z;
  connections_ : gmap string ConnectionInfo;
}.
#[export] Instance eta_connector : Eta connector := λ c, mk_connector (connection_timeout c) (connections_ c).
Definition new_connector (timeout : Z) : connector := mk_connector timeout ∅.

Definition connection_id (ip : string) (port : Z) : string := ip +:+ ":" +:+ to_string port.

Section Operations.
Context `{Sockets W}.
Implicit Types (c : connector) (w : W) (ip : string) (port : Z).

(** [htons] takes the low sixteen bits. *)
Definition uint16_of_int (port : Z) : Z := (port mod 2 ^ 16)%Z.

(** The steps of [connect] up to the system call, on a fresh socket: the
    address, or [None] when a step failed. *)
Definition prepare_socket (fd : Z) ip w : option Z * W :=
  let '(r, w) := setsockopt_reuseaddr fd w in
  if (r <? 0)%Z then (None, w) else
  let '(flags, w) := fcntl_getfl fd w in
  if (flags <? 0)%Z then (None, w) else
  let '(r, w) := fcntl_setfl fd (Z.lor flags O_NONBLOCK) w in
  if (r <? 0)%Z then (None, w) else (inet_pton ip, w).

Definition connect ip port c w : bool * connector * W :=
  let id := connection_id ip port in
  if decide (is_connected <$> connections_ c !! id = Some true) then (true, c, w)
  else
    let '(fd, w) := socket w in
    if (fd <? 0)%Z then (false, c, w)
    else
      let '(addr, w) := prepare_socket fd ip w in
      match addr with
      | None => (false, c, close fd w)
      | Some addr =>
        let '(result, errno, w) := connect_socket fd addr (uint16_of_int port) w in
        if (result <? 0)%Z && negb (errno =? EINPROGRESS)%Z then (false, c, close fd w)
        else
          let '(t, w) := steady_now w in
          let info := mk_ConnectionInfo fd ip port (result =? 0)%Z t t in
          (true, c <| connections_ ::= <[id := info]> |>, w)
      end.

Definition close_if_open (fd : Z) w : W := if (0 <=? fd)%Z then close fd w else w.

Definition disconnect ip port c w : bool * connector * W :=
  match connections_ c !! connection_id ip port with
  | Some info => (true, c <| connections_ ::= delete (connection_id ip port) |>, close_if_open (socket_fd info) w)
  | None => (false, c, w)
  end.

Definition close_all (l : list (string * ConnectionInfo)) w : W :=
  foldl (λ w p, close_if_open (socket_fd p.2) w) w l.

Definition disconnectAll c w : connector * W :=
  (c <| connections_ := ∅ |>, close_all (map_iter (connections_ c)) w).

Definition transient (errno : Z) : bool := (errno =? EAGAIN)%Z || (errno =? EWOULDBLOCK)%Z.

Definition sendData ip port (data : list ascii) c w : bool * connector * W :=
  match connections_ c !! connection_id ip port with
  | Some info =>
    if negb (is_connected info) then (false, c, w)
    else
      let '(bytes_sent, errno, w) := send (socket_fd info) data w in
      if (bytes_sent <? 0)%Z then
        if transient errno then (false, c, w)
        else (false, c <| connections_ ::= <[connection_id ip port := info <| is_connected := false |>]> |>, w)
      else
        let '(t, w) := steady_now w in
        (bool_decide (bytes_sent = Z.of_nat (length data)),
         c <| connections_ ::= <[connection_id ip port := info <| last_activity := t |>]> |>, w)
  | None => (false, c, w)
  end.

Definition receiveData ip port (max_size : Z) c w : list ascii * connector * W :=
  match connections_ c !! connection_id ip port with
  | Some info =>
    if negb (is_connected info) then ([], c, w)
    else
      let '(bytes_received, errno, buffer, w) := recv (socket_fd info) max_size w in
      let lost := c <| connections_ ::= <[connection_id ip port := info <| is_connected := false |>]> |> in
      if (bytes_received <? 0)%Z then if transient errno then ([], c, w) else ([], lost, w)
      else if (bytes_received =? 0)%Z then ([], lost, w)
      else
        let '(t, w) := steady_now w in
        (take (Z.to_nat bytes_received) buffer,
         c <| connections_ ::= <[connection_id ip port := info <| last_activity := t |>]> |>, w)
  | None => ([], c, w)
  end.

Definition isConnected ip port c : bool :=
  bool_decide (is_connected <$> connections_ c !! connection_id ip port = Some true).
Definition getConnectedPeers c : list string :=
  (List.filter (λ p, is_connected p.2) (map_iter (connections_ c))).*1.
Definition getConnectionCount c : Z :=
  sumZ (λ p, if is_connected p.2 then 1 else 0)%Z (map_iter (connections_ c)).
(** [None] is the empty record. *)
Definition getConnectionInfo ip port c : option ConnectionInfo := connections_ c !! connection_id ip port.

Definition inactive (timeout t : Z) (p : string * ConnectionInfo) : Prop :=
  (milliseconds timeout < t - last_activity p.2)%Z.
#[export] Instance inactive_dec timeout t p : Decision (inactive timeout t p).
Proof. unfold inactive. apply _. Defined.

Definition cleanupInactiveConnections c w : connector * W :=
  let '(t, w) := steady_now w in
  (c <| connections_ ::= filter (λ p, ¬ inactive (connection_timeout c) t p) |>,
   close_all (map_iter (filter (inactive (connection_timeout c) t) (connections_ c))) w).

Definition updateConfig (timeout : Z) c : connector := c <| connection_timeout := timeout |>.

Inductive connector_op :=
  | KConnect ip port | KDisconnect ip port | KDisconnectAll | KSend ip port (data : list ascii)
  | KReceive ip port (max_size : Z) | KCleanup | KConfig (timeout : Z).

Definition run_connector_op (st : connector * W) (op : connector_op) : connector * W :=
  let '(c, w) := st in
  match op with
  | KConnect ip port => let '(_, c, w) := connect ip port c w in (c, w)
  | KDisconnect ip port => let '(_, c, w) := disconnect ip port c w in (c, w)
  | KDisconnectAll => disconnectAll c w
  | KSend ip port data => let '(_, c, w) := sendData ip port data c w in (c, w)
  | KReceive ip port n => let '(_, c, w) := receiveData ip port n c w in (c, w)
  | KCleanup => cleanupInactiveConnections c w
  | KConfig timeout => (updateConfig timeout c, w)
  end.
Definition run_connector (ops : list connector_op) (st : connector * W) : connector * W := foldl run_connector_op st ops.
End Operations.

(** ** File descriptors *)

(** What POSIX says about open descriptors: [socket] returns one that is not
    open, [close] closes one, the other calls change none. *)
Class SocketLaws (W : Type) `{Sockets W} := {
  open_fds : W → gset Z;
  socket_law w fd w' : socket w = (fd, w') →
    ((fd < 0)%Z ∧ open_fds w' = open_fds w)
    ∨ ((0 ≤ fd)%Z ∧ fd ∉ open_fds w ∧ open_fds w' = {[fd]} ∪ open_fds w);
  close_law fd w : open_fds (close fd w) = open_fds w ∖ {[fd]};
  setsockopt_law fd w : open_fds (setsockopt_reuseaddr fd w).2 = open_fds w;
  getfl_law fd w : open_fds (fcntl_getfl fd w).2 = open_fds w;
  setfl_law fd flags w : open_fds (fcntl_setfl fd flags w).2 = open_fds w;
  connect_law fd addr port w : open_fds (connect_socket fd addr port w).2 = open_fds w;
  send_law fd data w : open_fds (send fd data w).2 = open_fds w;
  recv_law fd n w : open_fds (recv fd n w).2 = open_fds w;
  now_law w : open_fds (steady_now w).2 = open_fds w;
}.

Section Facts.
Context `{SocketLaws W}.
Implicit Types (c : connector) (w : W) (ip : string) (port fd : Z).

Definition owns c fd : Prop := ∃ id info, connections_ c !! id = Some info ∧ socket_fd info = fd.

(** Every connection has an open descriptor of its own. *)
Record sockets_ok c w : Prop := {
  so_open : ∀ id info, connections_ c !! id = Some info → (0 ≤ socket_fd info)%Z ∧ socket_fd info ∈ open_fds w;
  so_inj : ∀ id1 id2 info1 info2, connections_ c !! id1 = Some info1 → connections_ c !! id2 = Some info2 →
    socket_fd info1 = socket_fd info2 → id1 = id2;
}.

(** An open descriptor that no connection refers to. *)
Definition orphan c w fd : Prop := fd ∈ open_fds w ∧ ¬ owns c fd.

Definition step_ok c w c' w' : Prop := sockets_ok c' w' ∧ ∀ fd, orphan c w fd → orphan c' w' fd.

Lemma step_ok_refl c w w' : sockets_ok c w → open_fds w' = open_fds w → step_ok c w c w'.
Proof. intros [Ho Hi] Hw. split; [split; [by rewrite Hw|done]|]. unfold orphan. by rewrite Hw. Qed.

Lemma step_ok_trans c w c1 w1 c2 w2 : step_ok c w c1 w1 → step_ok c1 w1 c2 w2 → step_ok c w c2 w2.
Proof. intros [_ H1] [H2 H3]. split; [done|]. auto. Qed.

(** A connection whose descriptor stays the same. *)
Lemma step_ok_update c w w' id info info' : sockets_ok c w → connections_ c !! id = Some info →
  socket_fd info' = socket_fd info → open_fds w' = open_fds w →
  step_ok c w (c <| connections_ ::= <[id := info']> |>) w'.
Proof.
  intros [Ho Hi] Hid Hfd Hw.
  assert (Hback : ∀ id2 info2, <[id := info']> (connections_ c) !! id2 = Some info2 →
    ∃ info1, connections_ c !! id2 = Some info1 ∧ socket_fd info1 = socket_fd info2).
  { intros id2 info2 [[<- <-]|[_ Hl]]%lookup_insert_Some; [by exists info|by exists info2]. }
  split; [split; simpl|].
  - intros id2 info2 (info1 & Hl & <-)%Hback. rewrite Hw. by apply (Ho id2).
  - intros id1 id2 i1 i2 (j1 & Hl1 & Hj1)%Hback (j2 & Hl2 & Hj2)%Hback Heq. eapply Hi; [done..|congruence].
  - intros fd [Hopen Hno]. split; [by rewrite Hw|]. intros (id2 & info2 & (info1 & Hl & Hf)%Hback & Heq).
    apply Hno. exists id2, info1. split; [done|congruence].
Qed.

(** Connections that are removed with their descriptors. *)
Lemma step_ok_remove c w m' w' X : sockets_ok c w → m' ⊆ connections_ c → open_fds w' = open_fds w ∖ X →
  (∀ fd, fd ∈ X → ∃ id info, connections_ c !! id = Some info ∧ socket_fd info = fd ∧ m' !! id = None) →
  step_ok c w (c <| connections_ := m' |>) w'.
Proof.
  intros [Ho Hi] Hsub Hw HX. assert (Hback : ∀ id info, m' !! id = Some info → connections_ c !! id = Some info)
    by (intros; by eapply lookup_weaken).
  split; [split; simpl|].
  - intros id info Hl. destruct (Ho id info (Hback _ _ Hl)) as [Hpos Hopen]. split; [done|].
    rewrite Hw. apply elem_of_difference. split; [done|]. intros (id2 & info2 & Hl2 & Heq & Hnone)%HX.
    assert (id2 = id) as -> by (by eapply Hi; [exact Hl2|by apply Hback|]). congruence.
  - intros id1 id2 i1 i2 H1 H2. by eapply Hi; apply Hback.
  - intros fd [Hopen Hno]. split; [|intros (id & info & Hl & Heq); apply Hno; exists id, info; auto].
    rewrite Hw. apply elem_of_difference. split; [done|]. intros (id2 & info2 & Hl2 & Heq & _)%HX.
    apply Hno. by exists id2, info2.
Qed.

Lemma prepare_open fd ip w : open_fds (prepare_socket fd ip w).2 = open_fds w.
Proof.
  unfold prepare_socket. pose proof (setsockopt_law fd w) as H1. destruct (setsockopt_reuseaddr fd w) as [r1 w1].
  simpl in H1. destruct (r1 <? 0)%Z; [done|].
  pose proof (getfl_law fd w1) as H2. destruct (fcntl_getfl fd w1) as [r2 w2]. simpl in H2.
  destruct (r2 <? 0)%Z; [simpl; congruence|].
  pose proof (setfl_law fd (Z.lor r2 O_NONBLOCK) w2) as H3. destruct (fcntl_setfl fd _ w2) as [r3 w3]. simpl in H3.
  destruct (r3 <? 0)%Z; simpl; congruence.
Qed.

(** The descriptors a connect leaves open: as before (it failed or the peer is
    already connected), or one more, fresh and owned by the new connection. *)
Lemma connect_cases ip port c w :
  let r := connect ip port c w in
  (r.1.2 = c ∧ open_fds r.2 = open_fds w ∧ (r.1.1 = true → is_connected <$> connections_ c !! connection_id ip port = Some true))
  ∨ (∃ info, r.1 = (true, c <| connections_ ::= <[connection_id ip port := info]> |>)
       ∧ (0 ≤ socket_fd info)%Z ∧ socket_fd info ∉ open_fds w ∧ open_fds r.2 = {[socket_fd info]} ∪ open_fds w).
Proof.
  cbv zeta. unfold connect. case_decide; [by left|]. destruct (socket w) as [fd w1] eqn:Hs.
  apply socket_law in Hs as [[Hneg Ho]|(Hpos & Hfresh & Ho)].
  { rewrite (proj2 (Z.ltb_lt _ _) Hneg). by left. }
  rewrite (proj2 (Z.ltb_ge _ _) Hpos). pose proof (prepare_open fd ip w1) as Hp.
  assert (Hclosed : ∀ w', open_fds w' = open_fds w1 → open_fds (close fd w') = open_fds w).
  { intros w' Hw'. rewrite close_law, Hw', Ho. set_solver. }
  destruct (prepare_socket fd ip w1) as [[addr|] w2]; simpl in Hp; [|left; simpl; split; [done|split; [by apply Hclosed|done]]].
  pose proof (connect_law fd addr (uint16_of_int port) w2) as Hc.
  destruct (connect_socket fd addr (uint16_of_int port) w2) as [[result errno] w3]. simpl in Hc.
  destruct ((result <? 0)%Z && _); [left; simpl; split; [done|split; [apply Hclosed; congruence|done]]|].
  pose proof (now_law w3) as Hn. destruct (steady_now w3) as [t w4]. simpl in Hn. right.
  eexists. split; [reflexivity|]. simpl. split; [done|]. split; [done|]. congruence.
Qed.

Lemma connect_ok ip port c w : sockets_ok c w →
  step_ok c w (connect ip port c w).1.2 (connect ip port c w).2.
Proof.
  intros Hok. destruct (connect_cases ip port c w) as [(-> & Hw & _)|(info & Hr & Hpos & Hfresh & Hw)].
  - by apply step_ok_refl.
  - rewrite Hr. cbn [snd fst]. destruct Hok as [Ho Hi].
    assert (Hne : ∀ id i, connections_ c !! id = Some i → socket_fd i ≠ socket_fd info).
    { intros id i Hl Heq. apply Ho in Hl as [_ Hopen]. congruence. }
    split; [split; simpl|].
    + intros id i [[<- <-]|[_ Hl]]%lookup_insert_Some; [split; [done|rewrite Hw; set_solver]|].
      destruct (Ho id i Hl). split; [done|]. rewrite Hw. set_solver.
    + intros id1 id2 i1 i2 [[<- <-]|[? Hl1]]%lookup_insert_Some [[<- <-]|[? Hl2]]%lookup_insert_Some Heq; try done.
      * symmetry in Heq. by destruct (Hne _ _ Hl2).
      * by destruct (Hne _ _ Hl1).
      * by eapply Hi.
    + intros fd [Hopen Hno]. split; [rewrite Hw; set_solver|].
      intros (id & i & Hl & Heq). simpl in Hl. apply lookup_insert_Some in Hl as [[<- <-]|[_ Hl]]; [congruence|].
      apply Hno. by exists id, i.
Qed.

Lemma close_if_open_fds fd w : (0 ≤ fd)%Z → open_fds (close_if_open fd w) = open_fds w ∖ {[fd]}.
Proof. intros. unfold close_if_open. rewrite (proj2 (Z.leb_le _ _)) by done. apply close_law. Qed.

Lemma close_all_fds (l : list (string * ConnectionInfo)) w : Forall (λ p, 0 ≤ socket_fd p.2)%Z l →
  open_fds (close_all l w) = open_fds w ∖ list_to_set (socket_fd ∘ snd <$> l).
Proof.
  intros Hl. revert w. induction Hl as [|p l Hp Hl IH]; intros w; simpl; [set_solver|].
  rewrite IH, close_if_open_fds by done. set_solver.
Qed.

Lemma disconnect_ok ip port c w : sockets_ok c w →
  step_ok c w (disconnect ip port c w).1.2 (disconnect ip port c w).2.
Proof.
  intros Hok. unfold disconnect. destruct (connections_ c !! _) as [info|] eqn:Hl; [|by apply step_ok_refl].
  cbn [fst snd]. destruct (so_open _ _ Hok _ _ Hl) as [Hpos _].
  apply (step_ok_remove c w (delete (connection_id ip port) (connections_ c)) _ {[socket_fd info]});
    [done|apply delete_subseteq|by apply close_if_open_fds|].
  intros fd ->%elem_of_singleton. exists (connection_id ip port), info. by rewrite lookup_delete_eq.
Qed.

(** Removing the entries of [closed] with their descriptors. *)
Lemma close_entries_ok c w w1 m' closed : sockets_ok c w → open_fds w1 = open_fds w →
  m' ⊆ connections_ c → closed ⊆ connections_ c → (∀ id, is_Some (closed !! id) → m' !! id = None) →
  step_ok c w (c <| connections_ := m' |>) (close_all (map_iter closed) w1).
Proof.
  intros Hok Hw Hm Hcl Hdisj.
  apply (step_ok_remove _ _ _ _ (list_to_set (socket_fd ∘ snd <$> map_iter closed))); [done..| |].
  - rewrite close_all_fds, Hw; [done|]. apply Forall_forall. intros [id info] Hin. apply elem_of_map_iter in Hin.
    apply (so_open _ _ Hok id info). by eapply lookup_weaken.
  - intros fd Hfd. apply elem_of_list_to_set, list_elem_of_fmap in Hfd as ([id info] & -> & Hin).
    apply elem_of_map_iter in Hin. exists id, info. split; [by eapply lookup_weaken|].
    split; [done|]. apply Hdisj. by exists info.
Qed.

Lemma disconnectAll_ok c w : sockets_ok c w → step_ok c w (disconnectAll c w).1 (disconnectAll c w).2.
Proof. intros Hok. apply close_entries_ok; [done..|apply map_empty_subseteq|done|intros; apply lookup_empty]. Qed.

Lemma cleanup_ok c w : sockets_ok c w →
  step_ok c w (cleanupInactiveConnections c w).1 (cleanupInactiveConnections c w).2.
Proof.
  intros Hok. unfold cleanupInactiveConnections. pose proof (now_law w) as Hn. destruct (steady_now w) as [t w1].
  simpl in Hn. cbn [fst snd].
  apply close_entries_ok; [done|done|apply map_filter_subseteq|apply map_filter_subseteq|].
  intros id [info Hl]. apply map_lookup_filter_Some in Hl as [Hl Hin].
  apply map_lookup_filter_None. right. intros i Hi Hnot.
  assert (i = info) as -> by congruence. by apply Hnot.
Qed.

Lemma send_ok ip port data c w : sockets_ok c w →
  step_ok c w (sendData ip port data c w).1.2 (sendData ip port data c w).2.
Proof.
  intros Hok. unfold sendData. destruct (connections_ c !! _) as [info|] eqn:Hl; [|by apply step_ok_refl].
  destruct (negb _); [by apply step_ok_refl|]. pose proof (send_law (socket_fd info) data w) as Hs.
  destruct (send _ data w) as [[n errno] w1]. simpl in Hs. destruct (n <? 0)%Z.
  - destruct (transient errno); [by apply step_ok_refl|]. by apply (step_ok_update _ _ _ _ info).
  - pose proof (now_law w1) as Hn. destruct (steady_now w1) as [t w2]. simpl in Hn.
    apply (step_ok_update _ _ _ _ info); [done..|simpl; congruence].
Qed.

Lemma receive_ok ip port n c w : sockets_ok c w →
  step_ok c w (receiveData ip port n c w).1.2 (receiveData ip port n c w).2.
Proof.
  intros Hok. unfold receiveData. destruct (connections_ c !! _) as [info|] eqn:Hl; [|by apply step_ok_refl].
  destruct (negb _); [by apply step_ok_refl|]. pose proof (recv_law (socket_fd info) n w) as Hs.
  destruct (recv _ n w) as [[[r errno] buffer] w1]. simpl in Hs. cbv zeta. destruct (r <? 0)%Z.
  { destruct (transient errno); [by apply step_ok_refl|]. by apply (step_ok_update _ _ _ _ info). }
  destruct (r =? 0)%Z; [by apply (step_ok_update _ _ _ _ info)|].
  pose proof (now_law w1) as Hn. destruct (steady_now w1) as [t w2]. simpl in Hn.
  apply (step_ok_update _ _ _ _ info); [done..|simpl; congruence].
Qed.

Lemma run_op_ok st op : sockets_ok st.1 st.2 →
  step_ok st.1 st.2 (run_connector_op st op).1 (run_connector_op st op).2.
Proof.
  destruct st as [c w]. simpl. intros Hok. destruct op as [ip port|ip port| |ip port data|ip port n| |timeout]; simpl.
  - pose proof (connect_ok ip port c w Hok). by destruct (connect ip port c w) as [[]].
  - pose proof (disconnect_ok ip port c w Hok). by destruct (disconnect ip port c w) as [[]].
  - by apply disconnectAll_ok.
  - pose proof (send_ok ip port data c w Hok). by destruct (sendData ip port data c w) as [[]].
  - pose proof (receive_ok ip port n c w Hok). by destruct (receiveData ip port n c w) as [[]].
  - by apply cleanup_ok.
  - by destruct Hok.
Qed.

Lemma run_ok ops st : sockets_ok st.1 st.2 →
  step_ok st.1 st.2 (run_connector ops st).1 (run_connector ops st).2.
Proof.
  revert st. induction ops as [|op ops IH]; intros st Hok; simpl; [by apply step_ok_refl|].
  pose proof (run_op_ok st op Hok) as Hstep. eapply step_ok_trans; [exact Hstep|]. by apply IH, Hstep.
Qed.

Lemma new_connector_ok timeout w : sockets_ok (new_connector timeout) w.
Proof. by split; intros until 0; simpl; rewrite lookup_empty. Qed.

(** A run that connects to no peer under the key [id]. *)
Definition connects_to (id : string) (op : connector_op) : bool :=
  match op with KConnect ip port => bool_decide (connection_id ip port = id) | _ => false end.

Definition pending (id : string) c : Prop := ∀ info, connections_ c !! id = Some info → is_connected info = false.

Lemma pending_update id id' info info' c : pending id c → connections_ c !! id' = Some info →
  (is_connected info' = true → is_connected info = true) →
  pending id (c <| connections_ ::= <[id' := info']> |>).
Proof.
  intros Hp Hl Himp i. simpl. intros [[<- <-]|[_ Hi]]%lookup_insert_Some; [|by apply Hp].
  apply Hp in Hl. destruct (is_connected info'); [|done]. by rewrite Himp in Hl.
Qed.

Lemma pending_submap id m c : pending id c → m ⊆ connections_ c → pending id (c <| connections_ := m |>).
Proof. intros Hp Hm i. simpl. intros Hl. apply Hp. by eapply lookup_weaken. Qed.

Lemma pending_connect id ip port c w : connection_id ip port ≠ id → pending id c →
  pending id (connect ip port c w).1.2.
Proof.
  intros Hid Hp. destruct (connect_cases ip port c w) as [(-> & _)|(info & -> & _)]; [done|].
  intros i. simpl. rewrite lookup_insert_ne by done. apply Hp.
Qed.

Lemma pending_send id ip port data c w : pending id c → pending id (sendData ip port data c w).1.2.
Proof.
  intros Hp. unfold sendData. destruct (connections_ c !! _) as [info|] eqn:Hl; [|done].
  destruct (negb _); [done|]. destruct (send _ data w) as [[n errno] w1]. destruct (n <? 0)%Z.
  - destruct (transient errno); [done|]. by eapply pending_update.
  - destruct (steady_now w1). by eapply pending_update.
Qed.

Lemma pending_receive id ip port n c w : pending id c → pending id (receiveData ip port n c w).1.2.
Proof.
  intros Hp. unfold receiveData. destruct (connections_ c !! _) as [info|] eqn:Hl; [|done].
  destruct (negb _); [done|]. destruct (recv _ n w) as [[[r errno] buffer] w1]. cbv zeta.
  destruct (r <? 0)%Z; [destruct (transient errno); [done|by eapply pending_update]|].
  destruct (r =? 0)%Z; [by eapply pending_update|]. destruct (steady_now w1). by eapply pending_update.
Qed.

Lemma pending_op id op st : connects_to id op = false → pending id st.1 → pending id (run_connector_op st op).1.
Proof.
  destruct st as [c w]. intros Hop Hp. destruct op as [ip port|ip port| |ip port data|ip port n| |timeout]; simpl in *.
  - apply bool_decide_eq_false in Hop. pose proof (pending_connect id ip port c w Hop Hp).
    by destruct (connect ip port c w) as [[]].
  - unfold disconnect. destruct (connections_ c !! _); [|done]. apply (pending_submap id _ c); [done|].
    apply delete_subseteq.
  - apply (pending_submap id ∅ c); [done|]. apply map_empty_subseteq.
  - pose proof (pending_send id ip port data c w Hp). by destruct (sendData ip port data c w) as [[]].
  - pose proof (pending_receive id ip port n c w Hp). by destruct (receiveData ip port n c w) as [[]].
  - unfold cleanupInactiveConnections. destruct (steady_now w). simpl.
    apply (pending_submap id _ c); [done|]. apply map_filter_subseteq.
  - exact Hp.
Qed.

Lemma pending_run id ops st : forallb (negb ∘ connects_to id) ops = true → pending id st.1 →
  pending id (run_connector ops st).1.
Proof.
  revert st. induction ops as [|op ops IH]; intros st; simpl; [done|].
  intros [Hop Hops]%andb_true_iff Hp. apply IH; [done|]. apply pending_op; [|done]. by apply negb_true_iff.
Qed.

Definition connector_inv (st : connector * W) : Prop :=
  (∀ id info, connections_ st.1 !! id = Some info → (0 ≤ socket_fd info)%Z ∧ socket_fd info ∈ open_fds st.2)
  ∧ (∀ id1 id2 info1 info2, connections_ st.1 !! id1 = Some info1 → connections_ st.1 !! id2 = Some info2 →
       socket_fd info1 = socket_fd info2 → id1 = id2).

(** C35: Every connection of a connector that started empty refers to an open
    socket, whatever operations ran since and whatever the calls returned, and
    no two connections refer to the same socket: no connection ever sends on a
    closed descriptor or on the socket of another peer. *)
Theorem sockets_owned_open timeout (ops : list connector_op) w :
  connector_inv (run_connector ops (new_connector timeout, w)).
Proof. destruct (run_ok ops (new_connector timeout, w) (new_connector_ok timeout w)) as [[Ho Hi] _]. by split. Qed.

(** A connect to a peer whose entry is not connected (a connection in
    progress, or one that failed) replaces the entry without closing its
    socket: the old descriptor stays open and no connection refers to it, and
    so it stays through every later run, disconnecting everything included. *)
Theorem replaced_socket_leaks ip port c w c' w' old (ops : list connector_op) :
  connector_inv (c, w) →
  connections_ c !! connection_id ip port = Some old → is_connected old = false →
  connect ip port c w = (true, c', w') →
  let st := run_connector ops (c', w') in
  socket_fd old ∈ open_fds st.2 ∧ ∀ id info, connections_ st.1 !! id = Some info → socket_fd info ≠ socket_fd old.
Proof.
  intros [Ho Hi] Hold Hoff Hc. assert (Hok : sockets_ok c w) by done.
  pose proof (connect_ok ip port c w Hok) as [Hok' _].
  destruct (connect_cases ip port c w) as [(_ & _ & Hyes)|(info & Hr & _ & Hfresh & Hw)]; rewrite Hc in *; cbn [fst snd] in *.
  { rewrite Hold in Hyes. simpl in Hyes. destruct (is_connected old); [done|]. by specialize (Hyes eq_refl). }
  injection Hr as ->. destruct (Ho _ _ Hold) as [_ Hopen].
  assert (Horphan : orphan (c <| connections_ ::= <[connection_id ip port := info]> |>) w' (socket_fd old)).
  { split; [rewrite Hw; set_solver|]. intros (id & i & Hl & Heq). simpl in Hl.
    apply lookup_insert_Some in Hl as [[<- <-]|[Hne Hl]]; [congruence|]. apply Hne. symmetry. by eapply Hi. }
  destruct (run_ok ops (_, w') Hok') as [_ Hkeep]. apply Hkeep in Horphan as [Hstill Hno]. split; [done|].
  intros id i Hl Heq. apply Hno. by exists id, i.
Qed.

(** A connection that [connect] left in progress (it returns true on
    [EINPROGRESS] and records the entry as not connected) is never completed:
    whatever operations run, as long as none connects to the peer again, the
    peer counts as not connected, sending to it is refused without a system
    call, and receiving from it gives nothing. *)
Theorem pending_never_ready ip port data n (ops : list connector_op) (st : connector * W) :
  is_connected <$> connections_ st.1 !! connection_id ip port ≠ Some true →
  forallb (negb ∘ connects_to (connection_id ip port)) ops = true →
  let st' := run_connector ops st in
  isConnected ip port st'.1 = false ∧ sendData ip port data st'.1 st'.2 = (false, st'.1, st'.2)
  ∧ receiveData ip port n st'.1 st'.2 = ([], st'.1, st'.2).
Proof.
  intros Hp Hops. assert (Hpend : pending (connection_id ip port) st.1).
  { intros info Hl. rewrite Hl in Hp. simpl in Hp. by destruct (is_connected info). }
  pose proof (pending_run _ _ _ Hops Hpend) as Hpend'. cbv zeta. unfold isConnected, sendData, receiveData.
  destruct (connections_ (run_connector ops st).1 !! connection_id ip port) as [info|] eqn:Hl; [|done].
  rewrite (Hpend' _ Hl). split; [|done]. apply bool_decide_eq_false. simpl. rewrite (Hpend' _ Hl). done.
Qed.
End Facts.

(** ** A machine for the witnesses

    A new descriptor is larger than the open ones; the address "1.2.3.4"
    answers at once, the others later ([EINPROGRESS] is 115). *)
Record machine := mk_machine { m_open : gset Z; m_clock : Z }.

Definition next_fd (w : machine) : Z := (1 + largest (elements (m_open w)))%Z.

#[export] Instance machine_sockets : Sockets machine := {|
  socket w := (next_fd w, mk_machine ({[next_fd w]} ∪ m_open w) (m_clock w));
  setsockopt_reuseaddr _ w := (0%Z, w);
  fcntl_getfl _ w := (2%Z, w);
  fcntl_setfl _ _ w := (0%Z, w);
  inet_pton s := if decide (s = "1.2.3.4") then Some 16909060%Z else Some 84281096%Z;
  connect_socket _ addr _ w := if (addr =? 16909060)%Z then (0%Z, 0%Z, w) else ((-1)%Z, 115%Z, w);
  send _ data w := (Z.of_nat (length data), 0%Z, w);
  recv _ _ w := ((-1)%Z, 11%Z, [], w);
  close fd w := mk_machine (m_open w ∖ {[fd]}) (m_clock w);
  steady_now w := (m_clock w, mk_machine (m_open w) (m_clock w + 1));
  O_NONBLOCK := 2048%Z;
  EINPROGRESS := 115%Z;
  EAGAIN := 11%Z;
  EWOULDBLOCK := 11%Z;
|}.

#[export, refine] Instance machine_laws : SocketLaws machine := {| open_fds := m_open |}.
Proof.
  - intros w fd w' [= <- <-]. right. unfold next_fd. split; [pose proof (largest_nonneg (elements (m_open w))); lia|].
    split; [|done]. intros Hin%elem_of_elements%largest_ge. lia.
  - done.
  - done.
  - done.
  - done.
  - intros fd addr port w. simpl. by destruct (addr =? _)%Z.
  - done.
  - done.
  - done.
Defined.

Definition machine_start : connector * machine := (new_connector 5000, mk_machine {[0; 1; 2]}%Z 100).
Definition machine_pending : connector * machine := run_connector [KConnect "5.6.7.8" 6881] machine_start.
Definition machine_again : bool * connector * machine :=
  connect "5.6.7.8" 6881 machine_pending.1 machine_pending.2.

Lemma machine_pending_inv : connector_inv machine_pending.
Proof. destruct (run_ok [KConnect "5.6.7.8" 6881] machine_start (new_connector_ok 5000 _)) as [[Ho Hi] _]. by split. Qed.

Example machine_sends :
  let st := run_connector [KConnect "1.2.3.4" 80] machine_start in
  (sendData "1.2.3.4" 80 (String.list_ascii_of_string "hello") st.1 st.2).1.1 = true.
Proof. vm_compute. reflexivity. Qed.

Lemma replaced_socket_leaks_witness :
  let st := run_connector [KDisconnectAll] (machine_again.1.2, machine_again.2) in
  m_open st.2 = {[0; 1; 2; 3]}%Z ∧ 3%Z ∈ m_open st.2
  ∧ ∀ id info, connections_ st.1 !! id = Some info → socket_fd info ≠ 3%Z.
Proof.
  cbv zeta. split; [vm_compute; reflexivity|].
  exact (replaced_socket_leaks "5.6.7.8" 6881 machine_pending.1 machine_pending.2 machine_again.1.2 machine_again.2
    (mk_ConnectionInfo 3 "5.6.7.8" 6881 false 100 100) [KDisconnectAll] machine_pending_inv
    ltac:(vm_compute; reflexivity) ltac:(reflexivity) ltac:(vm_compute; reflexivity)).
Defined.

Lemma pending_never_ready_witness :
  let st := run_connector [KSend "5.6.7.8" 6881 []; KCleanup; KConnect "1.2.3.4" 80] machine_pending in
  (connect "5.6.7.8" 6881 machine_start.1 machine_start.2).1.1 = true
  ∧ isConnected "5.6.7.8" 6881 st.1 = false
  ∧ sendData "5.6.7.8" 6881 ["x"%char] st.1 st.2 = (false, st.1, st.2)
  ∧ receiveData "5.6.7.8" 6881 10 st.1 st.2 = ([], st.1, st.2).
Proof.
  cbv zeta. split; [vm_compute; reflexivity|].
  apply (pending_never_ready "5.6.7.8" 6881 ["x"%char] 10
    [KSend "5.6.7.8" 6881 []; KCleanup; KConnect "1.2.3.4" 80] machine_pending);
    [vm_compute; congruence|vm_compute; reflexivity].
Defined.

Lemma sockets_owned_open_witness :
  connector_inv (run_connector [KConnect "1.2.3.4" 80; KConnect "5.6.7.8" 6881; KCleanup] machine_start).
Proof. apply (sockets_owned_open 5000 _ (mk_machine {[0; 1; 2]}%Z 100)). Defined.
