(* ===== verification/Performance.v ===== *)
(** * The performance monitor

    Models [PerformanceMonitor] of [src/src/performance_monitor.cpp] and
    [src/src/performance_monitor.hpp]: bounded series of metrics under their
    names, the thresholds and alerts of the monitor thread, expiry, statistics
    in binary64 arithmetic, and the integrity check with its repair.

    The code takes different mutexes for the metrics and the statistics and
    none for the alerts; the model has one step per method, which is what the
    code does when its data races are left aside.  The clock is read as often
    and in the order in which the code reads it. *)

From S2P Require Import Prelude Numeric.

Inductive MetricType := COUNTER | GAUGE | HISTOGRAM | TIMER | RATE | PERCENTILE.
#[export] Instance MetricType_eq_dec : EqDecision MetricType.
Proof. solve_decision. Defined.
Inductive AlertLevel := A_INFO | A_WARNING | A_ERROR | A_CRITICAL.
#[export] Instance AlertLevel_eq_dec : EqDecision AlertLevel.
Proof. solve_decision. Defined.

(** The members the source file reads; [metrics_retention] in milliseconds. *)
Record PerformanceConfig := mk_PerformanceConfig {
  metrics_retention : Z;
  performance_threshold : double;
  max_metrics_per_type : Z;
  max_alerts_per_level : Z;
}.
Definition default_PerformanceConfig : PerformanceConfig := mk_PerformanceConfig 3600000 (double_lit 8 10) 1000 100.

Record PerformanceMetric := mk_PerformanceMetric {
  pf_name : string;
  pf_type : MetricType;
  pf_value : double;
  pf_timestamp : Z;
  pf_labels : gmap string string;
  pf_metadata : gmap string string;
}.
#[export] Instance eta_PerformanceMetric : Eta PerformanceMetric :=
  λ m, mk_PerformanceMetric (pf_name m) (pf_type m) (pf_value m) (pf_timestamp m) (pf_labels m) (pf_metadata m).

Record PerformanceAlert := mk_PerformanceAlert {
  al_id : string;
  al_level : AlertLevel;
  al_message : string;
  al_metric_name : string;
  al_threshold : double;
  al_current_value : double;
  al_timestamp : Z;
  al_labels : gmap string string;
  al_metadata : gmap string string;
}.

(** The members the source file writes; ages in milliseconds. *)
Record PerformanceStatistics := mk_PerformanceStatistics {
  ps_total_metrics : Z;
  ps_metrics_of : MetricType → Z;
  ps_total_alerts : Z;
  ps_alerts_of : AlertLevel → Z;
  avg_metric_value : double;
  min_metric_value : double;
  max_metric_value : double;
  avg_metric_age : Z;
  min_metric_age : Z;
  max_metric_age : Z;
  ps_last_update : Z;
}.
#[export] Instance eta_PerformanceStatistics : Eta PerformanceStatistics :=
  λ s, mk_PerformanceStatistics (ps_total_metrics s) (ps_metrics_of s) (ps_total_alerts s) (ps_alerts_of s)
         (avg_metric_value s) (min_metric_value s) (max_metric_value s) (avg_metric_age s) (min_metric_age s)
         (max_metric_age s) (ps_last_update s).
Definition empty_PerformanceStatistics : PerformanceStatistics :=
  mk_PerformanceStatistics 0 (λ _, 0%Z) 0 (λ _, 0%Z) (double_of_int 0) (double_of_int 0) (double_of_int 0) 0 0 0 0.

(** [pm_counter] is the static counter of [generateAlertId], an [int]. *)
Record performance_monitor := mk_performance_monitor {
  perf_config : PerformanceConfig;
  metrics_ : gmap string (list PerformanceMetric);
  alerts_ : list PerformanceAlert;
  perf_stats : PerformanceStatistics;
  pm_counter : Z;
}.
#[export] Instance eta_performance_monitor : Eta performance_monitor :=
  λ m, mk_performance_monitor (perf_config m) (metrics_ m) (alerts_ m) (perf_stats m) (pm_counter m).
Definition new_performance_monitor (config : PerformanceConfig) : performance_monitor :=
  mk_performance_monitor config ∅ [] empty_PerformanceStatistics 0.

(** [std::numeric_limits<double>::max()] and [min()], the latter the smallest
    positive normal number. *)
Definition DBL_MAX : double := SpecFloat.S754_finite false (2 ^ 53 - 1) 971.
Definition DBL_MIN : double := SpecFloat.S754_finite false (2 ^ 52) (-1074).
Definition LONG_MAX : Z := (2 ^ 63 - 1)%Z.

Section Monitor.
Context {W : Type} (now : W → Z * W).
Implicit Types (m : performance_monitor) (w : W) (name : string).

(** *** Recording *)

(** The body the six [record] methods share. *)
Definition record_metric (type : MetricType) name (value : double) (labels metadata : gmap string string) m w
    : bool * performance_monitor * W :=
  let '(t, w) := now w in
  let metric := mk_PerformanceMetric name type value t labels metadata in
  (true, m <| metrics_ ::= λ ms,
     <[name := push_bounded (max_metrics_per_type (perf_config m)) metric (default [] (ms !! name))]> ms |>, w).

Definition recordCounter name value labels m w := record_metric COUNTER name value labels ∅ m w.
Definition recordGauge name value labels m w := record_metric GAUGE name value labels ∅ m w.
Definition recordHistogram name value labels m w := record_metric HISTOGRAM name value labels ∅ m w.
Definition recordTimer name (duration : Z) labels m w := record_metric TIMER name (double_of_int duration) labels ∅ m w.
Definition recordRate name value labels m w := record_metric RATE name value labels ∅ m w.
Definition recordPercentile name value percentile labels m w :=
  record_metric PERCENTILE name value labels {["percentile" := double_to_string percentile]} m w.

(** *** Queries *)

Definition series name m : list PerformanceMetric := default [] (metrics_ m !! name).
Definition getMetrics name m : list PerformanceMetric := series name m.
Definition latest name m : option PerformanceMetric := last (series name m).
Definition zero : double := double_of_int 0.

Definition getLatestMetricValue name m : double := match latest name m with Some x => pf_value x | None => zero end.
Definition sum_values (l : list PerformanceMetric) : double := foldl (λ s x, double_add s (pf_value x)) zero l.
Definition getMetricSumValue name m : double := sum_values (series name m).
Definition getMetricAverageValue name m : double :=
  match series name m with
  | [] => zero
  | l => double_div (sum_values l) (double_of_int (Z.of_nat (length l)))
  end.
Definition getMetricMinimumValue name m : double :=
  match series name m with [] => zero | x :: l => foldl (λ v y, double_min v (pf_value y)) (pf_value x) (x :: l) end.
Definition getMetricMaximumValue name m : double :=
  match series name m with [] => zero | x :: l => foldl (λ v y, double_max v (pf_value y)) (pf_value x) (x :: l) end.
Definition getMetricCount name m : Z := Z.of_nat (length (series name m)).
Definition getMetricType name m : MetricType := match latest name m with Some x => pf_type x | None => COUNTER end.
Definition getMetricLabels name m : gmap string string := match latest name m with Some x => pf_labels x | None => ∅ end.
Definition getMetricMetadata name m : gmap string string := match latest name m with Some x => pf_metadata x | None => ∅ end.
Definition hasMetric name m : bool := bool_decide (is_Some (metrics_ m !! name)).
Definition getAllMetricNames m : list string := (map_iter (metrics_ m)).*1.

(** The names whose latest metric satisfies [p]. *)
Definition names_where (p : PerformanceMetric → bool) m : list string :=
  (List.filter (λ q, match last q.2 with Some x => p x | None => false end) (map_iter (metrics_ m))).*1.

Definition getMetricsByType type m : list string := names_where (λ x, bool_decide (pf_type x = type)) m.
Definition matches (wanted actual : gmap string string) : bool :=
  forallb (λ q, bool_decide (actual !! q.1 = Some q.2)) (map_iter wanted).
Definition getMetricsByLabels labels m : list string := names_where (λ x, matches labels (pf_labels x)) m.
Definition getMetricsByMetadata metadata m : list string := names_where (λ x, matches metadata (pf_metadata x)) m.
Definition getMetricCountByType type m : Z :=
  sumZ (λ q, match last q.2 with Some x => if decide (pf_type x = type) then 1 else 0 | None => 0 end)%Z
    (map_iter (metrics_ m)).
Definition getMetricCountByLabels labels m : Z := Z.of_nat (length (getMetricsByLabels labels m)).
Definition getMetricCountByMetadata metadata m : Z := Z.of_nat (length (getMetricsByMetadata metadata m)).
Definition getTotalMetricCount m : Z := sumZ (λ q, Z.of_nat (length q.2)) (map_iter (metrics_ m)).

(** *** Metadata of the latest metric *)

Definition alter_latest (f : gmap string string → gmap string string) name m : bool * performance_monitor :=
  match metrics_ m !! name with
  | Some l =>
    match last l with
    | Some x => (true, m <| metrics_ ::= <[name := removelast l ++ [x <| pf_metadata ::= f |>]]> |>)
    | None => (false, m)
    end
  | None => (false, m)
  end.
Definition setMetricMetadata name (key value : string) m := alter_latest <[key := value]> name m.
Definition removeMetricMetadata name (key : string) m := alter_latest (delete key) name m.
Definition clearMetricMetadata name m := alter_latest (λ _, ∅) name m.

(** *** The monitor's passes *)

Definition generateAlertId m w : string * performance_monitor * W :=
  let '(t, w) := now w in
  ("ALERT_" +:+ to_string (duration_cast_ms t) +:+ "_" +:+ to_string (pm_counter m),
   m <| pm_counter ::= (λ n, int_of_Z (n + 1)) |>, w).

(** [latest_metric.value > config_.performance_threshold] *)
Definition exceeds (config : PerformanceConfig) (x : PerformanceMetric) : bool :=
  double_lt (performance_threshold config) (pf_value x).

Definition check_series (st : performance_monitor * W) (q : string * list PerformanceMetric) : performance_monitor * W :=
  let '(m, w) := st in
  match last q.2 with
  | Some x =>
    if exceeds (perf_config m) x then
      let '(id, m, w) := generateAlertId m w in
      let '(t, w) := now w in
      let alert := mk_PerformanceAlert id A_WARNING ("Performance threshold exceeded for metric: " +:+ q.1) q.1
                     (performance_threshold (perf_config m)) (pf_value x) t (pf_labels x) (pf_metadata x) in
      (m <| alerts_ ::= (λ l, l ++ [alert]) |>, w)
    else (m, w)
  | None => (m, w)
  end.

Definition checkPerformanceThresholds m w : performance_monitor * W := foldl check_series (m, w) (map_iter (metrics_ m)).

Definition generatePerformanceAlerts m w : performance_monitor * W :=
  if (max_metrics_per_type (perf_config m) <? ps_total_metrics (perf_stats m))%Z then
    let '(id, m, w) := generateAlertId m w in
    let '(t, w) := now w in
    let alert := mk_PerformanceAlert id A_CRITICAL "Too many metrics collected" "system"
                   (double_of_int (max_metrics_per_type (perf_config m)))
                   (double_of_int (ps_total_metrics (perf_stats m))) t ∅ ∅ in
    (m <| alerts_ ::= (λ l, l ++ [alert]) |>, w)
  else (m, w).

(** Reads the clock. *)
Definition isMetricExpired (config : PerformanceConfig) (x : PerformanceMetric) w : bool * W :=
  let '(t, w) := now w in ((milliseconds (metrics_retention config) <? t - pf_timestamp x)%Z, w).

(** The loop over one series: what stays, and how many were erased. *)
Fixpoint unexpired (config : PerformanceConfig) (l : list PerformanceMetric) w : list PerformanceMetric * Z * W :=
  match l with
  | [] => ([], 0%Z, w)
  | x :: l =>
    let '(expired, w) := isMetricExpired config x w in
    let '(l, n, w) := unexpired config l w in
    if expired then (l, (n + 1)%Z, w) else (x :: l, n, w)
  end.

Fixpoint unexpired_series (config : PerformanceConfig) (ms : list (string * list PerformanceMetric)) w
    : list (string * list PerformanceMetric) * Z * W :=
  match ms with
  | [] => ([], 0%Z, w)
  | (name, l) :: ms =>
    let '(l, n, w) := unexpired config l w in
    let '(ms, n', w) := unexpired_series config ms w in
    ((name, l) :: ms, (n + n')%Z, w)
  end.

(** The clock is read once more before the loops. *)
Definition clearExpiredMetrics m w : Z * performance_monitor * W :=
  let '(_, w) := now w in
  let '(ms, n, w) := unexpired_series (perf_config m) (map_iter (metrics_ m)) w in
  (n, m <| metrics_ := list_to_map ms |>, w).

Definition cleanupExpiredMetrics m w : performance_monitor * W :=
  let '(_, m, w) := clearExpiredMetrics m w in (m, w).
(** Both only call [clearExpiredMetrics]. *)
Definition forceCleanup m w : performance_monitor * W := cleanupExpiredMetrics m w.
Definition optimizePerformanceMonitor m w : performance_monitor * W := cleanupExpiredMetrics m w.

(** *** Statistics *)

(** What the loops accumulate. *)
Record totals := mk_totals {
  tot_count : Z;
  tot_types : MetricType → Z;
  tot_value : double;
  tot_min : double;
  tot_max : double;
  tot_age : Z;
  tot_min_age : Z;
  tot_max_age : Z;
}.
Definition no_totals : totals := mk_totals 0 (λ _, 0%Z) zero DBL_MAX DBL_MIN 0 LONG_MAX 0.

Definition count_metric (t : Z) (s : totals) (x : PerformanceMetric) : totals :=
  let age := duration_cast_ms (t - pf_timestamp x) in
  mk_totals (tot_count s + 1) (λ ty, if decide (ty = pf_type x) then (tot_types s ty + 1)%Z else tot_types s ty)
    (double_add (tot_value s) (pf_value x)) (double_min (tot_min s) (pf_value x)) (double_max (tot_max s) (pf_value x))
    (tot_age s + age) (Z.min (tot_min_age s) age) (Z.max (tot_max_age s) age).

(** All metrics, series by series. *)
Definition all_metrics m : list PerformanceMetric := mjoin (map_iter (metrics_ m)).*2.

Definition count_alert (c : Z * (AlertLevel → Z)) (a : PerformanceAlert) : Z * (AlertLevel → Z) :=
  ((c.1 + 1)%Z, λ lv, if decide (lv = al_level a) then (c.2 lv + 1)%Z else c.2 lv).

Definition updateStatistics m w : performance_monitor * W :=
  let '(t, w) := now w in
  let s := foldl (count_metric t) no_totals (all_metrics m) in
  let st := (perf_stats m) <| ps_total_metrics := tot_count s |> <| ps_metrics_of := tot_types s |> in
  let st :=
    if (0 <? tot_count s)%Z then
      st <| avg_metric_value := double_div (tot_value s) (double_of_int (tot_count s)) |>
         <| min_metric_value := tot_min s |> <| max_metric_value := tot_max s |>
         <| avg_metric_age := Z.quot (tot_age s) (tot_count s) |>
         <| min_metric_age := tot_min_age s |> <| max_metric_age := tot_max_age s |>
    else st in
  let c := foldl count_alert (0%Z, λ _, 0%Z) (alerts_ m) in
  let st := st <| ps_total_alerts := c.1 |> <| ps_alerts_of := c.2 |> <| ps_last_update := t |> in
  (m <| perf_stats := st |>, w).

Definition resetStatistics m : performance_monitor := m <| perf_stats := empty_PerformanceStatistics |>.
Definition updateConfig (config : PerformanceConfig) m : performance_monitor := m <| perf_config := config |>.

(** [analyzePerformanceTrends] and [optimizePerformance] have empty bodies. *)
Definition monitorPerformance m w : performance_monitor * W :=
  let '(m, w) := checkPerformanceThresholds m w in generatePerformanceAlerts m w.

(** One round of [monitorLoop] that is not stopped. *)
Definition performance_round m w : performance_monitor * W :=
  let '(m, w) := monitorPerformance m w in
  let '(m, w) := cleanupExpiredMetrics m w in
  updateStatistics m w.

(** *** Clearing and repair *)

Definition clearMetrics name m : Z * performance_monitor :=
  match metrics_ m !! name with
  | Some l => (Z.of_nat (length l), m <| metrics_ ::= delete name |>)
  | None => (0%Z, m)
  end.
Definition clearAllMetrics m : Z * performance_monitor := (getTotalMetricCount m, m <| metrics_ := ∅ |>).
Definition forceMetricCleanup name m : bool * performance_monitor :=
  let '(n, m) := clearMetrics name m in ((0 <? n)%Z, m).

(** [metric.value < 0 || metric.value > 1e9] *)
Definition out_of_bounds (x : PerformanceMetric) : bool :=
  double_lt (pf_value x) zero || double_lt (double_of_int (10 ^ 9)) (pf_value x).
Definition validatePerformanceMonitorIntegrity m : bool := negb (existsb out_of_bounds (all_metrics m)).

Definition crowded m : bool := (max_metrics_per_type (perf_config m) * 10 <? getTotalMetricCount m)%Z.

Definition repairPerformanceMonitor m w : Z * performance_monitor * W :=
  let '(repaired, m) := if validatePerformanceMonitorIntegrity m then (0%Z, m) else clearAllMetrics m in
  if crowded m then
    let '(n, m, w) := clearExpiredMetrics m w in ((repaired + n)%Z, m, w)
  else (repaired, m, w).

Definition getPerformanceMonitorRecommendations m : list string :=
  (if crowded m then ["Consider reducing metric collection frequency"] else [])
  ++ (if (max_alerts_per_level (perf_config m) * 5 <? ps_total_alerts (perf_stats m))%Z
      then ["High alert count, consider adjusting thresholds"] else [])
  ++ (if double_lt (double_mul (performance_threshold (perf_config m)) (double_of_int 2)) (avg_metric_value (perf_stats m))
      then ["Performance metrics are consistently high"] else []).

Definition getPerformanceMonitorIssues m : list string :=
  (if validatePerformanceMonitorIntegrity m then [] else ["Performance monitor integrity check failed"])
  ++ (if crowded m then ["Too many metrics collected"] else [])
  ++ (if (max_alerts_per_level (perf_config m) * 5 <? ps_total_alerts (perf_stats m))%Z
      then ["Too many alerts generated"] else []).

(** ** Runs under one configuration *)

Inductive performance_op :=
  | PmRecord (type : MetricType) name (value : double) (labels metadata : gmap string string)
  | PmSetMetadata name (key value : string)
  | PmRound
  | PmClear name
  | PmClearAll
  | PmClearExpired
  | PmRepair
  | PmResetStatistics.

Definition run_performance_op (st : performance_monitor * W) (op : performance_op) : performance_monitor * W :=
  let '(m, w) := st in
  match op with
  | PmRecord type name value labels metadata => let '(_, m, w) := record_metric type name value labels metadata m w in (m, w)
  | PmSetMetadata name key value => ((setMetricMetadata name key value m).2, w)
  | PmRound => performance_round m w
  | PmClear name => ((clearMetrics name m).2, w)
  | PmClearAll => ((clearAllMetrics m).2, w)
  | PmClearExpired => let '(_, m, w) := clearExpiredMetrics m w in (m, w)
  | PmRepair => let '(_, m, w) := repairPerformanceMonitor m w in (m, w)
  | PmResetStatistics => (resetStatistics m, w)
  end.
Definition run_performance (ops : list performance_op) (st : performance_monitor * W) : performance_monitor * W :=
  foldl run_performance_op st ops.
End Monitor.
