(* ===== verification/PerformanceFacts.v ===== *)
(** * Correctness of the performance monitor

    Series stay within their bound under every sequence of operations, alerts
    only accumulate, the statistics are a recount, clearing and repair do what
    they say; and where the maximum of the statistics is wrong. *)

From S2P Require Import Prelude Numeric Performance.

(** ** Expiry *)

Section Expiry.
Context {W : Type} (now : W → Z * W) (config : PerformanceConfig).

Lemma unexpired_spec l w :
  (unexpired now config l w).1.1 `sublist_of` l
  ∧ (unexpired now config l w).1.2 = (Z.of_nat (length l) - Z.of_nat (length (unexpired now config l w).1.1))%Z.
Proof.
  revert w. induction l as [|x l IH]; intros w; [done|]. simpl. unfold isMetricExpired. destruct (now w) as [t w1].
  destruct (IH w1) as [Hs Hn]. destruct (unexpired now config l w1) as [[l' n] w2]. simpl in *.
  case_match; simpl; (split; [by constructor|lia]).
Qed.

Definition series_sublist (q q' : string * list PerformanceMetric) : Prop := q'.1 = q.1 ∧ q'.2 `sublist_of` q.2.
Definition metric_total (ms : list (string * list PerformanceMetric)) : Z := sumZ (λ q, Z.of_nat (length q.2)) ms.

Lemma unexpired_series_spec ms w :
  Forall2 series_sublist ms (unexpired_series now config ms w).1.1
  ∧ (unexpired_series now config ms w).1.2 = (metric_total ms - metric_total (unexpired_series now config ms w).1.1)%Z.
Proof.
  revert w. induction ms as [|[name l] ms IH]; intros w; [by split|]. simpl.
  destruct (unexpired_spec l w) as [Hs Hn]. destruct (unexpired now config l w) as [[l' n] w1].
  destruct (IH w1) as [Hs' Hn']. destruct (unexpired_series now config ms w1) as [[ms' n'] w2]. simpl in *.
  split; [by constructor|]. unfold metric_total in *. simpl. lia.
Qed.
End Expiry.

Lemma series_sublist_keys ms ms' : Forall2 series_sublist ms ms' → ms'.*1 = ms.*1.
Proof. induction 1 as [|q q' ms ms' [Hk _] _ IH]; [done|]. rewrite !fmap_cons. by rewrite Hk, IH. Qed.

Lemma series_sublist_elem ms ms' k l' : Forall2 series_sublist ms ms' → (k, l') ∈ ms' →
  ∃ l, (k, l) ∈ ms ∧ l' `sublist_of` l.
Proof.
  induction 1 as [|[k1 l1] [k2 l2] ms ms' [Hk Hs] _ IH]; [by intros ?%elem_of_nil|].
  simpl in *. subst k2. intros [[= -> ->]|Hin]%elem_of_cons.
  - exists l1. split; [by left|done].
  - destruct (IH Hin) as (l & Hl & Hsub). exists l. split; [by right|done].
Qed.

(** The total does not depend on how the map was built. *)
Lemma metric_total_perm l l' : l ≡ₚ l' → metric_total l = metric_total l'.
Proof. unfold metric_total. induction 1; simpl; lia. Qed.

Section Clearing.
Context {W : Type} (now : W → Z * W).
Implicit Types (m : performance_monitor) (w : W) (name : string).

(** What a clean-up leaves: every name, with part of its series; and the number
    it returns. *)
Lemma clearExpired_spec m w :
  let r := clearExpiredMetrics now m w in
  (∀ name, is_Some (metrics_ r.1.2 !! name) ↔ is_Some (metrics_ m !! name))
  ∧ (∀ name l', metrics_ r.1.2 !! name = Some l' → ∃ l, metrics_ m !! name = Some l ∧ l' `sublist_of` l)
  ∧ r.1.1 = (getTotalMetricCount m - getTotalMetricCount r.1.2)%Z
  ∧ alerts_ r.1.2 = alerts_ m ∧ perf_config r.1.2 = perf_config m.
Proof.
  cbv zeta. unfold clearExpiredMetrics. destruct (now w) as [t w1].
  destruct (unexpired_series_spec now (perf_config m) (map_iter (metrics_ m)) w1) as [Hs Hn].
  destruct (unexpired_series now (perf_config m) (map_iter (metrics_ m)) w1) as [[ms n] w2]. simpl in *.
  pose proof (series_sublist_keys _ _ Hs) as Hkeys.
  assert (Hnd : NoDup ms.*1) by (rewrite Hkeys; apply NoDup_map_iter).
  assert (Hlook : ∀ name l', (list_to_map ms : gmap string _) !! name = Some l' ↔ (name, l') ∈ ms)
    by (intros; by rewrite <-elem_of_list_to_map).
  split_and!.
  - intros name. split.
    + intros [l' Hl']. apply Hlook in Hl'. destruct (series_sublist_elem _ _ _ _ Hs Hl') as (l & Hl & _).
      exists l. by apply elem_of_map_iter.
    + intros [l Hl]. apply elem_of_map_iter in Hl.
      assert (name ∈ ms.*1) as Hin by (rewrite Hkeys; apply list_elem_of_fmap; by exists (name, l)).
      apply list_elem_of_fmap in Hin as ([? l'] & -> & Hin). exists l'. by apply Hlook.
  - intros name l' Hl'%Hlook. destruct (series_sublist_elem _ _ _ _ Hs Hl') as (l & Hl & Hsub).
    exists l. split; [by apply elem_of_map_iter|done].
  - rewrite Hn. unfold getTotalMetricCount. simpl. f_equal. apply metric_total_perm.
    rewrite map_iter_perm. symmetry. by apply map_to_list_to_map.
  - done.
  - done.
Qed.

(** A clean-up keeps every name, removes metrics without reordering the
    others, and returns how many it removed: a series all of whose metrics
    expired stays as an empty one, so that [hasMetric] is still true. *)
Theorem clear_expired_metrics_spec m w :
  let r := clearExpiredMetrics now m w in
  (∀ name, hasMetric name r.1.2 = hasMetric name m)
  ∧ (∀ name, getMetrics name r.1.2 `sublist_of` getMetrics name m)
  ∧ (r.1.1 + getTotalMetricCount r.1.2)%Z = getTotalMetricCount m.
Proof.
  cbv zeta. destruct (clearExpired_spec m w) as (H1 & H2 & H3 & _).
  destruct (clearExpiredMetrics now m w) as [[n m'] w']. simpl in *. split_and!.
  - intros name. unfold hasMetric. apply bool_decide_ext. apply H1.
  - intros name. unfold getMetrics, series. destruct (metrics_ m' !! name) as [l'|] eqn:Hl'; [|apply sublist_nil_l].
    by destruct (H2 _ _ Hl') as (l & -> & Hsub).
  - lia.
Qed.
End Clearing.

(** ** Series *)

Section Series.
Context {W : Type} (now : W → Z * W) (config : PerformanceConfig).
Implicit Types (m : performance_monitor) (w : W) (name : string).

Definition series_ok (name : string) (l : list PerformanceMetric) : Prop :=
  length l ≤ Z.to_nat (max_metrics_per_type config) ∧ Forall (λ x, pf_name x = name) l.

Record performance_ok m : Prop := {
  po_config : perf_config m = config;
  po_series : map_Forall series_ok (metrics_ m);
}.

Lemma series_ok_sublist name l l' : series_ok name l → l' `sublist_of` l → series_ok name l'.
Proof.
  intros [Hl Hf] Hs. split.
  - apply sublist_length in Hs. lia.
  - rewrite Forall_forall in *. intros x Hx. apply Hf. eapply elem_of_submseteq; [done|]. by apply sublist_submseteq.
Qed.

Lemma record_ok type name value labels metadata m w : (0 ≤ max_metrics_per_type config < 2 ^ 64)%Z →
  performance_ok m → performance_ok (record_metric now type name value labels metadata m w).1.2.
Proof.
  intros Hn [Hc Hs]. unfold record_metric. destruct (now w) as [t w1]. split; simpl; [done|].
  apply map_Forall_insert_2; [|done]. rewrite Hc.
  assert (Hok : series_ok name (default [] (metrics_ m !! name))).
  { destruct (metrics_ m !! name) eqn:Hl; simpl; [by apply Hs|]. split; [simpl; lia|constructor]. }
  destruct Hok as [Hl Hf]. rewrite push_bounded_last_n by done. split; [apply last_n_length|].
  unfold last_n. apply Forall_drop, Forall_app. split; [done|by constructor].
Qed.

Lemma clear_ok m w : performance_ok m → performance_ok (clearExpiredMetrics now m w).1.2.
Proof.
  intros [Hc Hs]. destruct (clearExpired_spec now m w) as (_ & H2 & _ & _ & Hc'). split; [by rewrite Hc'|].
  intros name l' Hl'. destruct (H2 _ _ Hl') as (l & Hl & Hsub). eapply series_ok_sublist; [by apply Hs|done].
Qed.

(** The passes over the thresholds change alerts only. *)
Lemma check_series_fields q m w :
  metrics_ (check_series now (m, w) q).1 = metrics_ m ∧ perf_config (check_series now (m, w) q).1 = perf_config m
  ∧ perf_stats (check_series now (m, w) q).1 = perf_stats m
  ∧ ∃ new, alerts_ (check_series now (m, w) q).1 = alerts_ m ++ new
    ∧ al_metric_name <$> new
      = match last q.2 with Some x => if exceeds (perf_config m) x then [q.1] else [] | None => [] end.
Proof.
  unfold check_series, generateAlertId. destruct (last q.2) as [x|]; [|].
  - destruct (exceeds (perf_config m) x).
    + destruct (now w) as [t w1], (now w1) as [t' w2]. simpl. split_and!; try done. by eexists.
    + split_and!; try done. exists []. by rewrite app_nil_r.
  - split_and!; try done. exists []. by rewrite app_nil_r.
Qed.

Lemma check_all_fields qs : ∀ m w,
  let r := foldl (check_series now) (m, w) qs in
  metrics_ r.1 = metrics_ m ∧ perf_config r.1 = perf_config m ∧ perf_stats r.1 = perf_stats m
  ∧ ∃ new, alerts_ r.1 = alerts_ m ++ new
    ∧ al_metric_name <$> new
      = (List.filter (λ q, match last q.2 with Some x => exceeds (perf_config m) x | None => false end) qs).*1.
Proof.
  induction qs as [|q qs IH]; intros m w; cbv zeta; [split_and!; try done; exists []; by rewrite app_nil_r|].
  change (foldl (check_series now) (m, w) (q :: qs)) with (foldl (check_series now) (check_series now (m, w) q) qs).
  destruct (check_series_fields q m w) as (H1 & H2 & H3 & new & Hn & Hm).
  destruct (check_series now (m, w) q) as [m1 w1]. cbn [fst snd] in *.
  destruct (IH m1 w1) as (G1 & G2 & G3 & new' & Gn & Gm). rewrite G1, G2, G3, H1, H2, H3. split_and!; try done.
  exists (new ++ new'). rewrite Gn, Hn, <-app_assoc. split; [done|]. rewrite fmap_app, Hm, Gm, H2. cbn [List.filter].
  destruct (last q.2) as [x|]; [|done]. by destruct (exceeds (perf_config m) x).
Qed.

Lemma generate_fields m w :
  let r := (generatePerformanceAlerts now m w).1 in
  metrics_ r = metrics_ m ∧ perf_config r = perf_config m ∧ perf_stats r = perf_stats m
  ∧ ∃ new, alerts_ r = alerts_ m ++ new
    ∧ al_metric_name <$> new
      = if (max_metrics_per_type (perf_config m) <? ps_total_metrics (perf_stats m))%Z then ["system"] else [].
Proof.
  cbv zeta. unfold generatePerformanceAlerts, generateAlertId. case_match.
  - destruct (now w) as [t w1], (now w1) as [t' w2]. simpl. split_and!; try done. by eexists.
  - split_and!; try done. exists []. by rewrite app_nil_r.
Qed.

Lemma updateStatistics_keeps m w :
  metrics_ (updateStatistics now m w).1 = metrics_ m ∧ perf_config (updateStatistics now m w).1 = perf_config m
  ∧ alerts_ (updateStatistics now m w).1 = alerts_ m.
Proof. unfold updateStatistics. by destruct (now w). Qed.

Lemma performance_ok_same m m' : metrics_ m' = metrics_ m → perf_config m' = perf_config m → performance_ok m → performance_ok m'.
Proof. intros H1 H2 [? ?]. split; [by rewrite H2|by rewrite H1]. Qed.

Lemma thresholds_ok m w : performance_ok m → performance_ok (checkPerformanceThresholds now m w).1.
Proof. destruct (check_all_fields (map_iter (metrics_ m)) m w) as (H1 & H2 & _). by apply performance_ok_same. Qed.

Lemma generate_ok m w : performance_ok m → performance_ok (generatePerformanceAlerts now m w).1.
Proof. destruct (generate_fields m w) as (H1 & H2 & _). by apply performance_ok_same. Qed.

Lemma cleanup_metrics_ok m w : performance_ok m → performance_ok (cleanupExpiredMetrics now m w).1.
Proof.
  intros Hm. unfold cleanupExpiredMetrics. pose proof (clear_ok m w Hm). by destruct (clearExpiredMetrics now m w) as [[? ?] ?].
Qed.

Lemma statistics_ok m w : performance_ok m → performance_ok (updateStatistics now m w).1.
Proof. destruct (updateStatistics_keeps m w) as (H1 & H2 & _). by apply performance_ok_same. Qed.

Lemma round_ok m w : performance_ok m → performance_ok (performance_round now m w).1.
Proof.
  intros Hm. unfold performance_round, monitorPerformance.
  apply (thresholds_ok _ w) in Hm. destruct (checkPerformanceThresholds now m w) as [m1 w1].
  apply (generate_ok _ w1) in Hm. destruct (generatePerformanceAlerts now _ w1) as [m2 w2].
  apply (cleanup_metrics_ok _ w2) in Hm. destruct (cleanupExpiredMetrics now _ w2) as [m3 w3].
  by apply statistics_ok.
Qed.

Lemma alter_latest_ok f name m : performance_ok m → performance_ok (alter_latest f name m).2.
Proof.
  intros [Hc Hs]. unfold alter_latest. destruct (metrics_ m !! name) as [l|] eqn:Hl; [|by split].
  destruct (last l) as [x|] eqn:Hx; [|by split]. split; simpl; [done|]. apply map_Forall_insert_2; [|done].
  destruct (Hs _ _ Hl) as [Hlen Hf]. apply last_Some in Hx as [l' ->]. rewrite removelast_last.
  apply Forall_app in Hf as [Hf Hx].
  split; [rewrite length_app in *; cbn [length] in *; exact Hlen|].
  apply Forall_app. split; [done|]. apply Forall_singleton. by inversion_clear Hx.
Qed.

Lemma run_performance_op_ok op m w : (0 ≤ max_metrics_per_type config < 2 ^ 64)%Z →
  performance_ok m → performance_ok (run_performance_op now (m, w) op).1.
Proof.
  intros Hn Hm. destruct op as [ty name v ls md|name k v| |name| | | |]; simpl.
  - pose proof (record_ok ty name v ls md m w Hn Hm). by destruct (record_metric now ty name v ls md m w) as [[? ?] ?].
  - by apply alter_latest_ok.
  - by apply round_ok.
  - destruct Hm as [Hc Hs]. unfold clearMetrics. destruct (metrics_ m !! name); [|by split].
    split; simpl; [done|by apply map_Forall_delete].
  - destruct Hm as [Hc Hs]. split; simpl; [done|apply map_Forall_empty].
  - pose proof (clear_ok m w Hm). by destruct (clearExpiredMetrics now m w) as [[? ?] ?].
  - unfold repairPerformanceMonitor.
    assert (Hm1 : performance_ok (if validatePerformanceMonitorIntegrity m then (0%Z, m) else clearAllMetrics m).2).
    { destruct (validatePerformanceMonitorIntegrity m); [done|]. destruct Hm. split; simpl; [done|apply map_Forall_empty]. }
    destruct (if validatePerformanceMonitorIntegrity m then _ else _) as [r m1]. simpl in Hm1.
    destruct (crowded m1); [|done]. pose proof (clear_ok m1 w Hm1). by destruct (clearExpiredMetrics now m1 w) as [[? ?] ?].
  - destruct Hm. by split.
Qed.

Lemma run_performance_ok ops m w : (0 ≤ max_metrics_per_type config < 2 ^ 64)%Z →
  performance_ok m → performance_ok (run_performance now ops (m, w)).1.
Proof.
  intros Hn. revert m w. induction ops as [|op ops IH]; intros m w Hm; [done|].
  change (run_performance now (op :: ops) (m, w)) with (run_performance now ops (run_performance_op now (m, w) op)).
  pose proof (run_performance_op_ok op m w Hn Hm). destruct (run_performance_op now (m, w) op) as [m' w']. by apply IH.
Qed.
End Series.

(** ** Statistics *)

Lemma fold_metrics_count t l s :
  tot_count (foldl (count_metric t) s l) = (tot_count s + Z.of_nat (length l))%Z
  ∧ ∀ ty, tot_types (foldl (count_metric t) s l) ty
      = (tot_types s ty + Z.of_nat (length (filter (λ x, pf_type x = ty) l)))%Z.
Proof.
  revert s. induction l as [|x l IH]; intros s; [split; [cbn [foldl length]; lia|intros; cbn [foldl]; rewrite filter_nil; simpl; lia]|].
  cbn [foldl]. destruct (IH (count_metric t s x)) as [H1 H2]. rewrite H1. split; [simpl; lia|].
  intros ty. rewrite H2, filter_cons. cbn [count_metric tot_types]. repeat case_decide; simplify_eq; simpl; lia.
Qed.

Lemma fold_alerts_count l c :
  (foldl count_alert c l).1 = (c.1 + Z.of_nat (length l))%Z
  ∧ ∀ lv, (foldl count_alert c l).2 lv = (c.2 lv + Z.of_nat (length (filter (λ a, al_level a = lv) l)))%Z.
Proof.
  revert c. induction l as [|x l IH]; intros c; [split; [cbn [foldl length]; lia|intros; cbn [foldl]; rewrite filter_nil; simpl; lia]|].
  cbn [foldl]. destruct (IH (count_alert c x)) as [H1 H2]. rewrite H1. split; [simpl; lia|].
  intros lv. rewrite H2, filter_cons. cbn [count_alert snd]. repeat case_decide; simplify_eq; simpl; lia.
Qed.

Lemma length_all_metrics m : Z.of_nat (length (all_metrics m)) = getTotalMetricCount m.
Proof.
  unfold all_metrics, getTotalMetricCount. induction (map_iter (metrics_ m)) as [|[k l] ms IH]; [done|].
  change (mjoin ((k, l) :: ms).*2) with (l ++ mjoin ms.*2). by rewrite length_app, Nat2Z.inj_add, IH.
Qed.

Lemma filter_types_sum (l : list PerformanceMetric) :
  sumZ (λ ty, Z.of_nat (length (filter (λ x, pf_type x = ty) l))) [COUNTER; GAUGE; HISTOGRAM; TIMER; RATE; PERCENTILE]
  = Z.of_nat (length l).
Proof.
  induction l as [|x l IH]; [done|]. cbn [sumZ foldr] in *. rewrite !filter_cons.
  destruct (pf_type x); simpl; simpl in IH; lia.
Qed.

(** [DBL_MIN] is a floor: a maximum that starts there stays there when no
    value is above it. *)
Lemma fold_max_floor t l s : Forall (λ x, double_lt (tot_max s) (pf_value x) = false) l →
  tot_max (foldl (count_metric t) s l) = tot_max s.
Proof.
  revert s. induction l as [|x l IH]; intros s Hl; [done|]. inversion_clear Hl as [|?? Hx Hl']. cbn [foldl].
  assert (Hs : tot_max (count_metric t s x) = tot_max s) by (cbn [count_metric tot_max]; unfold double_max; by rewrite Hx).
  rewrite IH; [done|]. by rewrite Hs.
Qed.

Section Theorems.
Context {W : Type} (now : W → Z * W).
Implicit Types (m : performance_monitor) (w : W) (name : string).

(** In every reachable state each series has at most
    [max_metrics_per_type] metrics, all recorded under its name; recording
    keeps the most recent ones, so that the latest value read is the one just
    recorded. *)
Theorem series_bounded config ops w ty name value labels metadata :
  (0 < max_metrics_per_type config < 2 ^ 64)%Z →
  let s := run_performance now ops (new_performance_monitor config, w) in
  let m' := (record_metric now ty name value labels metadata s.1 s.2).1.2 in
  (∀ n, (getMetricCount n s.1 ≤ max_metrics_per_type config)%Z ∧ Forall (λ x, pf_name x = n) (getMetrics n s.1))
  ∧ (∃ x, getMetrics name m' = last_n (Z.to_nat (max_metrics_per_type config)) (getMetrics name s.1 ++ [x])
       ∧ pf_value x = value ∧ pf_type x = ty)
  ∧ getLatestMetricValue name m' = value.
Proof.
  intros Hn. cbv zeta. assert (Hm : performance_ok config (run_performance now ops (new_performance_monitor config, w)).1).
  { apply run_performance_ok; [lia|]. split; [done|apply map_Forall_empty]. }
  destruct (run_performance now ops (new_performance_monitor config, w)) as [m w1]. cbn [fst snd] in *.
  assert (Hok : ∀ n, series_ok config n (series n m)).
  { intros n. unfold series. destruct (metrics_ m !! n) eqn:Hl; simpl; [by apply (po_series _ _ Hm)|].
    split; [simpl; lia|constructor]. }
  split; [|].
  - intros n. destruct (Hok n) as [Hl Hf]. split; [|done]. unfold getMetricCount. lia.
  - unfold record_metric. destruct (now w1) as [t w2]. cbn [fst snd].
    unfold getMetrics, getLatestMetricValue, latest. unfold series at 1 3. simpl. rewrite lookup_insert_eq. simpl.
    rewrite (po_config _ _ Hm), push_bounded_last_n by (lia || apply (Hok name)).
    split; [eexists; by split_and!|]. unfold last_n. rewrite length_app. cbn [length].
    rewrite drop_app_le by (fold (series name m); lia). by rewrite last_snoc.
Qed.

(** After [updateStatistics] the counts are a recount: the total is that of
    [getTotalMetricCount], the six types partition it, and the four levels
    count the alerts. *)
Theorem performance_statistics m w :
  let s := perf_stats (updateStatistics now m w).1 in
  ps_total_metrics s = getTotalMetricCount m
  ∧ sumZ (ps_metrics_of s) [COUNTER; GAUGE; HISTOGRAM; TIMER; RATE; PERCENTILE] = ps_total_metrics s
  ∧ ps_total_alerts s = Z.of_nat (length (alerts_ m))
  ∧ (∀ lv, ps_alerts_of s lv = Z.of_nat (length (filter (λ a, al_level a = lv) (alerts_ m)))).
Proof.
  cbv zeta. unfold updateStatistics. destruct (now w) as [t w1]. cbn [fst].
  destruct (fold_metrics_count t (all_metrics m) no_totals) as [H1 H2].
  destruct (fold_alerts_count (alerts_ m) (0%Z, λ _, 0%Z)) as [H3 H4].
  set (s := foldl (count_metric t) no_totals (all_metrics m)) in *.
  set (c := foldl count_alert (0%Z, λ _, 0%Z) (alerts_ m)) in *.
  assert (Hsum : sumZ (tot_types s) [COUNTER; GAUGE; HISTOGRAM; TIMER; RATE; PERCENTILE] = tot_count s).
  { rewrite H1, <-filter_types_sum. cbn [sumZ foldr]. rewrite !H2. simpl. lia. }
  destruct (0 <? tot_count s)%Z; simpl; (split; [by rewrite H1, length_all_metrics|]);
    (split; [exact Hsum|]); (split; [exact H3|exact H4]).
Qed.

(** The largest value of the statistics starts from
    [numeric_limits<double>::min()], the smallest positive number: when no
    metric exceeds it, the maximum reported is that number, which no metric
    has. *)
Theorem maximum_has_floor m w :
  (0 < getTotalMetricCount m)%Z → Forall (λ x, double_lt DBL_MIN (pf_value x) = false) (all_metrics m) →
  max_metric_value (perf_stats (updateStatistics now m w).1) = DBL_MIN.
Proof.
  intros Hpos Hall. unfold updateStatistics. destruct (now w) as [t w1]. cbn [fst].
  destruct (fold_metrics_count t (all_metrics m) no_totals) as [H1 _].
  pose proof (fold_max_floor t (all_metrics m) no_totals Hall) as Hmax.
  set (s := foldl (count_metric t) no_totals (all_metrics m)) in *.
  assert (Hs : (0 <? tot_count s)%Z = true) by (apply Z.ltb_lt; rewrite H1, length_all_metrics; simpl; lia).
  rewrite Hs. simpl. exact Hmax.
Qed.

(** Every pass over the thresholds appends one alert for each series whose
    latest metric exceeds the threshold, in the order of the names, and one
    more when the last total exceeded the limit of one series; whether the
    same was reported a pass ago does not matter, and no pass removes an
    alert. *)
Theorem alerts_of_a_pass m w :
  let m' := (performance_round now m w).1 in
  ∃ new, alerts_ m' = alerts_ m ++ new
    ∧ al_metric_name <$> new
      = names_where (exceeds (perf_config m)) m
        ++ (if (max_metrics_per_type (perf_config m) <? ps_total_metrics (perf_stats m))%Z then ["system"] else []).
Proof.
  cbv zeta. unfold performance_round, monitorPerformance, checkPerformanceThresholds, names_where.
  destruct (check_all_fields now (map_iter (metrics_ m)) m w) as (_ & H2 & H3 & new & Hn & Hm).
  destruct (foldl (check_series now) (m, w) (map_iter (metrics_ m))) as [m1 w1]. cbn [fst] in *.
  destruct (generate_fields now m1 w1) as (_ & _ & _ & new' & Gn & Gm).
  destruct (generatePerformanceAlerts now m1 w1) as [m2 w2]. cbn [fst] in *.
  unfold cleanupExpiredMetrics. destruct (clearExpired_spec now m2 w2) as (_ & _ & _ & Hc & _).
  destruct (clearExpiredMetrics now m2 w2) as [[n m3] w3]. cbn [fst snd] in *.
  destruct (updateStatistics_keeps now m3 w3) as (_ & _ & ->). rewrite Hc, Gn, Hn, <-app_assoc.
  exists (new ++ new'). split; [done|]. by rewrite fmap_app, Hm, Gm, H2, H3.
Qed.

Lemma run_alerts ops m w : alerts_ m `prefix_of` alerts_ (run_performance now ops (m, w)).1.
Proof.
  revert m w. induction ops as [|op ops IH]; intros m w; [done|].
  change (run_performance now (op :: ops) (m, w)) with (run_performance now ops (run_performance_op now (m, w) op)).
  assert (Hop : alerts_ m `prefix_of` alerts_ (run_performance_op now (m, w) op).1).
  { destruct op as [ty name v ls md|name k v| |name| | | |]; simpl.
    - unfold record_metric. by destruct (now w).
    - unfold setMetricMetadata, alter_latest. destruct (metrics_ m !! name) as [l|]; [|done]. by destruct (last l).
    - unfold performance_round, monitorPerformance, checkPerformanceThresholds.
      destruct (check_all_fields now (map_iter (metrics_ m)) m w) as (_ & _ & _ & new & Hn & _).
      destruct (foldl (check_series now) (m, w) (map_iter (metrics_ m))) as [m1 w1]. cbn [fst] in *.
      destruct (generate_fields now m1 w1) as (_ & _ & _ & new' & Gn & _).
      destruct (generatePerformanceAlerts now m1 w1) as [m2 w2]. cbn [fst] in *.
      unfold cleanupExpiredMetrics. destruct (clearExpired_spec now m2 w2) as (_ & _ & _ & Hc & _).
      destruct (clearExpiredMetrics now m2 w2) as [[n m3] w3]. cbn [fst snd] in *.
      destruct (updateStatistics_keeps now m3 w3) as (_ & _ & ->). rewrite Hc, Gn, Hn, <-app_assoc.
      by apply prefix_app_r.
    - unfold clearMetrics. by destruct (metrics_ m !! name).
    - done.
    - destruct (clearExpired_spec now m w) as (_ & _ & _ & Hc & _).
      destruct (clearExpiredMetrics now m w) as [[n m3] w3]. cbn [fst snd] in *. by rewrite Hc.
    - unfold repairPerformanceMonitor.
      assert (Hm1 : alerts_ (if validatePerformanceMonitorIntegrity m then (0%Z, m) else clearAllMetrics m).2 = alerts_ m)
        by (by destruct (validatePerformanceMonitorIntegrity m)).
      destruct (if validatePerformanceMonitorIntegrity m then _ else _) as [r m1]. cbn [snd] in Hm1. rewrite <-Hm1.
      destruct (crowded m1); [|done]. destruct (clearExpired_spec now m1 w) as (_ & _ & _ & Hc & _).
      destruct (clearExpiredMetrics now m1 w) as [[n m3] w3]. cbn [fst snd] in *. by rewrite Hc.
    - done. }
  destruct (run_performance_op now (m, w) op) as [m1 w1]. etrans; [exact Hop|apply IH].
Qed.

(** No sequence of operations removes an alert or reorders the alerts: the
    configured number of alerts and their retention time are never enforced. *)
Theorem alerts_only_grow ops m w :
  alerts_ m `prefix_of` alerts_ (run_performance now ops (m, w)).1
  ∧ length (alerts_ m) ≤ length (alerts_ (run_performance now ops (m, w)).1).
Proof. split; [apply run_alerts|apply prefix_length, run_alerts]. Qed.

Lemma valid_empty m : metrics_ m = ∅ → validatePerformanceMonitorIntegrity m = true.
Proof. intros Hm. unfold validatePerformanceMonitorIntegrity, all_metrics. by rewrite Hm, map_iter_empty. Qed.

Lemma total_empty m : metrics_ m = ∅ → getTotalMetricCount m = 0%Z.
Proof. intros Hm. unfold getTotalMetricCount. by rewrite Hm, map_iter_empty. Qed.

Lemma elem_of_all_metrics m x : x ∈ all_metrics m ↔ ∃ name l, metrics_ m !! name = Some l ∧ x ∈ l.
Proof.
  unfold all_metrics. rewrite list_elem_of_join. split.
  - intros (l & Hx & Hl). apply list_elem_of_fmap in Hl as ([name l0] & -> & Hin%elem_of_map_iter). by exists name, l0.
  - intros (name & l & Hl & Hx). exists l. split; [done|]. apply list_elem_of_fmap. exists (name, l).
    split; [done|]. by apply elem_of_map_iter.
Qed.

Lemma valid_Forall m : validatePerformanceMonitorIntegrity m = true ↔ ∀ x, x ∈ all_metrics m → out_of_bounds x = false.
Proof.
  unfold validatePerformanceMonitorIntegrity. rewrite negb_true_iff, <-not_true_iff_false, existsb_exists. split.
  - intros H x Hx. apply not_true_iff_false. intros Hb. apply H. exists x. split; [by apply list_elem_of_In|done].
  - intros H (x & Hx & Hb). apply list_elem_of_In in Hx. by rewrite H in Hb.
Qed.

(** Expiry keeps the integrity. *)
Lemma clear_valid m w : validatePerformanceMonitorIntegrity m = true →
  validatePerformanceMonitorIntegrity (clearExpiredMetrics now m w).1.2 = true.
Proof.
  rewrite !valid_Forall. intros Hv x Hx. apply Hv. apply elem_of_all_metrics in Hx as (name & l' & Hl' & Hx).
  destruct (clearExpired_spec now m w) as (_ & H2 & _). destruct (H2 _ _ Hl') as (l & Hl & Hsub).
  apply elem_of_all_metrics. exists name, l. split; [done|].
  eapply elem_of_submseteq; [exact Hx|]. by apply sublist_submseteq.
Qed.

(** The repair returns, establishes the integrity check, and reports how
    many metrics it removed; it removes nothing when the check holds and the
    monitor is not crowded. *)
Theorem repair_performance_monitor m w :
  let r := repairPerformanceMonitor now m w in
  validatePerformanceMonitorIntegrity r.1.2 = true
  ∧ r.1.1 = (getTotalMetricCount m - getTotalMetricCount r.1.2)%Z
  ∧ (validatePerformanceMonitorIntegrity m = true → crowded m = false → r.1.2 = m ∧ r.1.1 = 0%Z).
Proof.
  cbv zeta. unfold repairPerformanceMonitor.
  assert (H1 : validatePerformanceMonitorIntegrity
                 (if validatePerformanceMonitorIntegrity m then (0%Z, m) else clearAllMetrics m).2 = true
    ∧ (if validatePerformanceMonitorIntegrity m then (0%Z, m) else clearAllMetrics m).1
      = (getTotalMetricCount m
         - getTotalMetricCount (if validatePerformanceMonitorIntegrity m then (0%Z, m) else clearAllMetrics m).2)%Z).
  { destruct (validatePerformanceMonitorIntegrity m) eqn:Hv; cbn [fst snd]; [split; [done|lia]|].
    split; [by apply valid_empty|]. unfold clearAllMetrics. cbn [fst snd]. rewrite (total_empty (m <| metrics_ := ∅ |>)) by done. lia. }
  assert (H2 : validatePerformanceMonitorIntegrity m = true → crowded m = false →
    (if validatePerformanceMonitorIntegrity m then (0%Z, m) else clearAllMetrics m) = (0%Z, m)) by (by intros ->).
  destruct (if validatePerformanceMonitorIntegrity m then _ else _) as [n1 m1]. cbn [fst snd] in *. destruct H1 as [Hv Hn].
  destruct (crowded m1) eqn:Hc.
  - pose proof (clear_valid m1 w Hv) as Hv'. destruct (clearExpired_spec now m1 w) as (_ & _ & H3 & _).
    destruct (clearExpiredMetrics now m1 w) as [[n m'] w']. cbn [fst snd] in *. split; [done|]. split; [lia|].
    intros Hvm Hcm. specialize (H2 Hvm Hcm). simplify_eq. congruence.
  - cbn [fst snd]. split; [done|]. split; [lia|]. intros Hvm Hcm. specialize (H2 Hvm Hcm). by simplify_eq.
Qed.
End Theorems.

(** ** Witnesses *)

Definition perf_clock (n : nat) : Z * nat := ((Z.of_nat n * 1000000)%Z, S n).
Definition small_config : PerformanceConfig := mk_PerformanceConfig 3600000 (double_lit 8 10) 2 100.
Definition perf_ops : list performance_op :=
  [PmRecord GAUGE "load" (double_of_int (-3)) ∅ ∅; PmRecord GAUGE "load" (double_of_int (-2)) ∅ ∅; PmRound].
Definition perf_sample : performance_monitor * nat :=
  run_performance perf_clock perf_ops (new_performance_monitor small_config, 0).

Lemma series_bounded_witness :
  getMetricCount "load" perf_sample.1 = 2%Z ∧ (getMetricCount "load" perf_sample.1 ≤ 2)%Z
  ∧ getLatestMetricValue "load" (record_metric perf_clock GAUGE "load" (double_of_int 7) ∅ ∅ perf_sample.1 perf_sample.2).1.2
    = double_of_int 7.
Proof.
  assert (Hn : (0 < max_metrics_per_type small_config < 2 ^ 64)%Z) by (vm_compute; split; reflexivity).
  destruct (series_bounded perf_clock small_config perf_ops 0 GAUGE "load" (double_of_int 7) ∅ ∅ Hn) as (H1 & _ & H3).
  split; [vm_compute; reflexivity|]. split; [exact (proj1 (H1 "load"))|exact H3].
Defined.

Lemma maximum_has_floor_witness :
  max_metric_value (perf_stats (updateStatistics perf_clock perf_sample.1 9).1) = DBL_MIN.
Proof.
  assert (Hpos : (0 < getTotalMetricCount perf_sample.1)%Z) by (vm_compute; reflexivity).
  assert (Hall : Forall (λ x, double_lt DBL_MIN (pf_value x) = false) (all_metrics perf_sample.1))
    by (vm_compute; repeat constructor).
  exact (maximum_has_floor perf_clock perf_sample.1 9 Hpos Hall).
Defined.
