(* ===== verification/Monitor.v ===== *)
(** * The monitor threads

    [RequestCacheManager], [TimeoutManager], [MetadataPieceManager],
    [PerformanceMonitor] and [RoutingTableManager] each own a thread that runs the same loop: test
    [should_stop_], wait for 100 ms or a notification, test the flag again,
    run the manager's passes.  [start], [stop], [isRunning] and the destructor
    are the same code in all five classes.  This file models the thread once,
    over any manager: the interface is [Monitored], the list of passes a round
    runs, each of which is one critical section.  Client calls may come between
    any two transitions of the thread.

    [MonitoredInv] is what a manager promises about its passes; the theorems
    about the interleavings are proved against the interface, and the managers
    discharge it at the end of the file. *)

From S2P Require Import Prelude Registry RequestCache Timeouts Performance PerformanceFacts Pieces PieceFacts.

Class Monitored (A W : Type) := monitor_passes : list (A → W → A * W).

Class MonitoredInv (A W : Type) `{!Monitored A W} (Inv : A → Prop) :=
  monitor_passes_inv : Forall (λ f, ∀ a w, Inv a → Inv (f a w).1) monitor_passes.

(** Where the thread is: there is none; at the loop condition; in [wait_for];
    at the test after it; before the pass [k]; past the loop but not joined. *)
Inductive position := NoThread | AtTest | Waiting | Checking | InRound (k : nat) | Exited.
#[export] Instance position_eq_dec : EqDecision position.
Proof. solve_decision. Defined.

Record monitored (A : Type) := mk_monitored {
  manager : A;
  should_stop_ : bool;
  monitor_thread_ : position;
}.
Arguments mk_monitored {A}.
Arguments manager {A}.
Arguments should_stop_ {A}.
Arguments monitor_thread_ {A}.
#[export] Instance eta_monitored A : Eta (monitored A) :=
  λ m, mk_monitored (manager m) (should_stop_ m) (monitor_thread_ m).

(** The constructor starts the thread. *)
Definition construct {A} (a : A) : monitored A := mk_monitored a false AtTest.

Definition joinable (p : position) : bool := match p with NoThread => false | _ => true end.

Definition start {A} (m : monitored A) : monitored A :=
  let m := m <| should_stop_ := false |> in
  if joinable (monitor_thread_ m) then m else m <| monitor_thread_ := AtTest |>.

(** The notification can only end a wait that may end at any time. *)
Definition stop {A} (m : monitored A) : monitored A := m <| should_stop_ := true |>.

Definition isRunning {A} (m : monitored A) : bool := negb (should_stop_ m) && joinable (monitor_thread_ m).

Section Interleavings.
Context {A W : Type} `{!Monitored A W}.
Implicit Types (m : monitored A) (w : W).

(** One transition of [cacheMonitorLoop], [timeoutMonitorLoop],
    [pieceMonitorLoop], [monitorLoop] or [routingMonitorLoop]. *)
Definition thread_step m w : monitored A * W :=
  match monitor_thread_ m with
  | NoThread | Exited => (m, w)
  | AtTest => (m <| monitor_thread_ := if should_stop_ m then Exited else Waiting |>, w)
  | Waiting => (m <| monitor_thread_ := Checking |>, w)
  | Checking => (m <| monitor_thread_ := if should_stop_ m then Exited else InRound 0 |>, w)
  | InRound k =>
    match monitor_passes !! k with
    | Some f => let '(a, w) := f (manager m) w in
                (m <| manager := a |> <| monitor_thread_ := InRound (S k) |>, w)
    | None => (m <| monitor_thread_ := AtTest |>, w)
    end
  end.

Inductive event := EThread | EStart | EStop | EClient (f : A → W → A * W).

Definition event_step (e : event) (s : monitored A * W) : monitored A * W :=
  let '(m, w) := s in
  match e with
  | EThread => thread_step m w
  | EStart => (start m, w)
  | EStop => (stop m, w)
  | EClient f => let '(a, w) := f (manager m) w in (m <| manager := a |>, w)
  end.

Definition run_events (es : list event) (s : monitored A * W) : monitored A * W := foldl (λ s e, event_step e s) s es.

(** The clients' calls alone. *)
Definition client_step (s : A * W) (e : event) : A * W :=
  match e with EClient f => f s.1 s.2 | _ => s end.
Definition run_clients (es : list event) (s : A * W) : A * W := foldl client_step s es.

Definition is_thread (e : event) : bool := match e with EThread => true | _ => false end.
Definition is_start (e : event) : bool := match e with EStart => true | _ => false end.
Definition thread_events (es : list event) : nat := length (List.filter is_thread es).

Lemma run_events_cons e es s : run_events (e :: es) s = run_events es (event_step e s).
Proof. done. Qed.

(** ** Stopping *)

(** How many transitions a stopped thread has left. *)
Definition remaining (p : position) : nat :=
  match p with
  | NoThread | Exited => 0
  | AtTest | Checking => 1
  | Waiting => 2
  | InRound k => length monitor_passes - k + 2
  end.

Lemma stopped_step m w : should_stop_ m = true →
  let m' := (thread_step m w).1 in
  should_stop_ m' = true ∧ joinable (monitor_thread_ m') = joinable (monitor_thread_ m)
  ∧ remaining (monitor_thread_ m') = remaining (monitor_thread_ m) - 1.
Proof.
  intros Hs. unfold thread_step. destruct (monitor_thread_ m) as [| | | |k|] eqn:Hp; simpl; rewrite ?Hp, ?Hs; try done.
  destruct (monitor_passes !! k) as [f|] eqn:Hf.
  - destruct (f (manager m) w) as [a w']. simpl. apply lookup_lt_Some in Hf. rewrite Hs. split_all; [done..|lia].
  - simpl. apply lookup_ge_None in Hf. rewrite Hs. split_all; [done..|lia].
Qed.

Lemma stopped_run es : ∀ m w, should_stop_ m = true → forallb (negb ∘ is_start) es = true →
  let m' := (run_events es (m, w)).1 in
  joinable (monitor_thread_ m') = joinable (monitor_thread_ m)
  ∧ remaining (monitor_thread_ m') = remaining (monitor_thread_ m) - thread_events es.
Proof.
  induction es as [|e es IH]; intros m w Hs Hes; cbv zeta; [split; [done|symmetry; apply Nat.sub_0_r]|].
  rewrite run_events_cons. simpl in Hes. apply andb_true_iff in Hes as [He Hes].
  destruct e as [| | |f]; simpl.
  - destruct (stopped_step m w Hs) as (Hs' & Hj & Hr). destruct (thread_step m w) as [m' w']. simpl in *.
    destruct (IH m' w' Hs' Hes) as [-> ->]. rewrite Hr. split; [done|]. unfold thread_events. simpl. lia.
  - done.
  - by apply (IH (stop m) w).
  - destruct (f (manager m) w) as [a w']. exact (IH (mk_monitored a (should_stop_ m) (monitor_thread_ m)) w' Hs Hes).
Qed.

Lemma exited_remaining p : joinable p = true → remaining p = 0 → p = Exited.
Proof. destruct p; simpl; try done; lia. Qed.

Lemma remaining_bound p : remaining p ≤ length monitor_passes + 2.
Proof. destruct p; simpl; lia. Qed.

(** C30: Once [stop] was called, and as long as nobody calls [start], the
    thread leaves its loop within the passes of the current round and two more
    transitions, whatever the clients do meanwhile: the destructor's [join]
    returns.  (The wait is bounded, so a missed notification does no harm.) *)
Theorem stop_exits m w es :
  joinable (monitor_thread_ m) = true → forallb (negb ∘ is_start) es = true →
  length monitor_passes + 2 ≤ thread_events es →
  monitor_thread_ (run_events (EStop :: es) (m, w)).1 = Exited.
Proof.
  intros Hj Hes Hn. rewrite run_events_cons. destruct (stopped_run es (stop m) w eq_refl Hes) as [Hj' Hr].
  change (event_step EStop (m, w)) with (stop m, w).
  apply exited_remaining; [by rewrite Hj'|]. rewrite Hr.
  pose proof (remaining_bound (monitor_thread_ (stop m))). lia.
Qed.

(** ** Starting again *)

Lemma exited_step e m w : monitor_thread_ m = Exited →
  let s := event_step e (m, w) in monitor_thread_ s.1 = Exited ∧ (manager s.1, s.2) = client_step (manager m, w) e.
Proof.
  intros Hm. destruct e as [| | |f]; simpl.
  - unfold thread_step. by rewrite Hm.
  - unfold start. simpl. by rewrite Hm.
  - done.
  - by destruct (f (manager m) w).
Qed.

Lemma exited_run es : ∀ m w, monitor_thread_ m = Exited →
  let s := run_events es (m, w) in
  monitor_thread_ s.1 = Exited ∧ (manager s.1, s.2) = run_clients es (manager m, w).
Proof.
  induction es as [|e es IH]; intros m w Hm; [done|]. cbv zeta. rewrite run_events_cons.
  destruct (exited_step e m w Hm) as [Hm' Hc]. destruct (event_step e (m, w)) as [m' w'].
  destruct (IH m' w' Hm') as [H1 H2]. split; [done|]. rewrite H2. unfold run_clients at 2. simpl. by rewrite <-Hc.
Qed.

(** C31: A manager that was stopped and started again has no monitor: the
    thread that left its loop is still joinable, so [start] creates no other
    one.  [isRunning] nevertheless answers [true], and from then on only the
    clients' own calls change the manager. *)
Theorem restart_has_no_monitor m w es :
  monitor_thread_ m = Exited →
  isRunning (start m) = true
  ∧ (let s := run_events (EStart :: es) (m, w) in (manager s.1, s.2) = run_clients es (manager m, w)).
Proof.
  intros Hm. split; [destruct m; simpl in *; by subst|]. cbv zeta.
  by destruct (exited_run (EStart :: es) m w Hm) as [_ ->].
Qed.

(** ** Invariants *)

Context (Inv : A → Prop) `{!MonitoredInv A W Inv}.

Definition client_inv (e : event) : Prop :=
  match e with EClient f => ∀ a w, Inv a → Inv (f a w).1 | _ => True end.

Lemma event_step_inv e m w : client_inv e → Inv (manager m) → Inv (manager (event_step e (m, w)).1).
Proof.
  intros He Hm. destruct e as [| | |f]; simpl.
  - unfold thread_step. destruct (monitor_thread_ m) as [| | | |k|]; simpl; try done.
    destruct (monitor_passes !! k) as [f|] eqn:Hf; [|done].
    pose proof (Forall_lookup_1 _ _ _ _ monitor_passes_inv Hf (manager m) w Hm).
    by destruct (f (manager m) w).
  - unfold start. by destruct (joinable _).
  - done.
  - pose proof (He (manager m) w Hm). by destruct (f (manager m) w).
Qed.

Lemma run_events_inv es m w : Forall client_inv es → Inv (manager m) → Inv (manager (run_events es (m, w)).1).
Proof.
  intros Hes. revert m w. induction Hes as [|e es He Hes IH]; intros m w Hm; [done|].
  rewrite run_events_cons. pose proof (event_step_inv e m w He Hm).
  destruct (event_step e (m, w)) as [m' w']. by apply IH.
Qed.
End Interleavings.
Arguments event : clear implicits.

(** ** The managers *)

Section Managers.
Context {W : Type} (now : W → Z * W).

#[export] Instance cache_monitored : Monitored request_cache W :=
  [checkExpiredRequests now; RequestCache.cleanupExpiredRequests now].
#[export] Instance cache_monitored_inv ids : MonitoredInv request_cache W (λ c, cache_ok c ids).
Proof.
  unfold MonitoredInv, monitor_passes, cache_monitored. rewrite !Forall_cons. split_and!; [| |constructor].
  - intros c w. apply check_expired_ok.
  - intros c w. apply cleanup_expired_ok.
Qed.

#[export] Instance timeouts_monitored : Monitored (timeout_manager W) W :=
  [checkExpiredTimeouts now; cleanupExpiredTimeouts now].

#[export] Instance pieces_monitored : Monitored piece_manager W :=
  [monitorPieces now; cleanupExpiredPieces now; cleanupExpiredAssemblies now; updateStatistics now].
#[export] Instance pieces_monitored_inv sha1 limit : MonitoredInv piece_manager W (manager_ok sha1 limit).
Proof.
  unfold MonitoredInv, monitor_passes, pieces_monitored. rewrite !Forall_cons. split_and!; [| | | |constructor].
  - intros m w. apply monitorPieces_ok.
  - intros m w. apply cleanupExpiredPieces_ok.
  - intros m w. apply cleanupExpiredAssemblies_ok.
  - intros m w. apply updateStatistics_ok.
Qed.

#[export] Instance performance_monitored : Monitored performance_monitor W :=
  [checkPerformanceThresholds now; generatePerformanceAlerts now; cleanupExpiredMetrics now; Performance.updateStatistics now].
#[export] Instance performance_monitored_inv config : MonitoredInv performance_monitor W (performance_ok config).
Proof.
  unfold MonitoredInv, monitor_passes, performance_monitored. rewrite !Forall_cons. split_and!; [| | | |constructor].
  - intros m w. apply thresholds_ok.
  - intros m w. apply generate_ok.
  - intros m w. apply cleanup_metrics_ok.
  - intros m w. apply statistics_ok.
Qed.

(** ** Client calls between the passes *)

(** A sequence of events in which the clients call the piece manager. *)
Inductive piece_event := PThread | PStart | PStop | PCall (op : piece_op).
Definition piece_event_of (sha1 : list ascii → list ascii) (e : piece_event) : event piece_manager W :=
  match e with
  | PThread => EThread | PStart => EStart | PStop => EStop
  | PCall op => EClient (run_piece_op now sha1 op)
  end.

Definition event_within (limit : Z) (e : piece_event) : Prop := match e with PCall op => op_within limit op | _ => True end.

(** However the calls of clients fall between the passes of the monitor
    thread, and however often it is stopped and started, every piece that the
    piece manager stores is filed under its own hash and index, fits the limit,
    carries the checksum of its data, and is never MISSING. *)
Theorem pieces_interleaved sha1 limit config es w h i p :
  (0 ≤ limit)%Z → (max_piece_size config ≤ limit)%Z → Forall (event_within limit) es →
  let m := manager (run_events (piece_event_of sha1 <$> es) (construct (new_piece_manager config), w)).1 in
  getPiece m h i = Some p → piece_ok sha1 limit h i p ∧ p_status p ≠ MISSING.
Proof.
  intros Hlim Hconfig Hes. cbv zeta. assert (Hm : manager_ok sha1 limit
    (manager (run_events (piece_event_of sha1 <$> es) (construct (new_piece_manager config), w)).1)).
  { apply (run_events_inv (manager_ok sha1 limit)).
    - apply Forall_fmap. eapply Forall_impl; [exact Hes|]. intros [| | |op] Hop; try done. simpl. intros m w'. by apply run_piece_op_ok.
    - by apply new_manager_ok. }
  intros (ps & Hps & Hi)%bind_Some. pose proof (ok_pieces _ _ _ Hm _ _ Hps _ _ Hi) as Hp.
  split; [done|]. by destruct Hp as (_ & _ & _ & _ & ? & _).
Qed.
End Managers.

(** ** Witnesses: a request cache that is stopped and started again *)

Definition sample_monitored : Monitored request_cache nat := cache_monitored cache_clock.
Definition sample_cache : monitored request_cache := construct cache_one.1.1.
Definition four_steps : list (event request_cache nat) := [EThread; EThread; EThread; EThread].

Lemma stop_exits_witness :
  monitor_thread_ (run_events (Monitored0 := sample_monitored) (EStop :: four_steps) (sample_cache, 5)).1 = Exited.
Proof.
  exact (stop_exits (Monitored0 := sample_monitored) sample_cache 5 four_steps eq_refl eq_refl (le_n 4)).
Defined.

Definition stopped_cache : monitored request_cache :=
  (run_events (Monitored0 := sample_monitored) (EStop :: four_steps) (sample_cache, 5)).1.
Definition long_after : nat := N.to_nat 100000.

(** The request expires after 30 seconds, and 70 seconds later it is still
    reported as pending. *)
Lemma restart_has_no_monitor_witness :
  isRunning (start stopped_cache) = true
  ∧ (let s := run_events (Monitored0 := sample_monitored) (EStart :: four_steps ++ four_steps) (stopped_cache, long_after) in
     RequestCache.getRequestStatus (manager s.1) "REQ_0_0" = PENDING).
Proof.
  destruct (restart_has_no_monitor (Monitored0 := sample_monitored) stopped_cache long_after (four_steps ++ four_steps)
    eq_refl) as [Hr Hs].
  split; [exact Hr|]. cbv zeta in *. apply (f_equal fst) in Hs. cbn [fst] in Hs. rewrite Hs. vm_compute. reflexivity.
Defined.

Definition sample_sha1 (data : list ascii) : list ascii := data.
Definition piece_events : list piece_event :=
  [PThread; PThread; PCall (OpRequest "aabbccddeeff00112233445566778899aabbccdd" 0); PThread; PThread;
   PCall (OpReceived "aabbccddeeff00112233445566778899aabbccdd" 0 (chars "data")); PThread].
Definition sample_pieces : piece_manager :=
  manager (run_events (Monitored0 := pieces_monitored cache_clock)
    (piece_event_of cache_clock sample_sha1 <$> piece_events) (construct (new_piece_manager default_PieceConfig), 0)).1.

Lemma sample_piece_limit : (0 ≤ max_piece_size default_PieceConfig)%Z.
Proof. vm_compute. discriminate. Qed.

Lemma piece_events_within : Forall (event_within (max_piece_size default_PieceConfig)) piece_events.
Proof. by repeat constructor. Qed.

Lemma pieces_interleaved_witness :
  ∃ p, getPiece sample_pieces "aabbccddeeff00112233445566778899aabbccdd" 0 = Some p ∧ p_status p ≠ MISSING.
Proof.
  destruct (getPiece sample_pieces "aabbccddeeff00112233445566778899aabbccdd" 0) as [p|] eqn:Hp.
  - exists p. split; [reflexivity|].
    exact (proj2 (pieces_interleaved cache_clock sample_sha1 (max_piece_size default_PieceConfig) default_PieceConfig piece_events 0
      "aabbccddeeff00112233445566778899aabbccdd" 0 p sample_piece_limit (Z.le_refl _) piece_events_within Hp)).
  - vm_compute in Hp. discriminate.
Defined.
