(* ===== verification/Usage.v ===== *)
(** * The usage text

    Models, of [src/src/dht_crawler.cpp], [checkLibraries],
    [checkLibrariesTestMode], [printLibraryInstallInstructions] and
    [printUsage], line by line, and when [main] prints it.  The theorems
    compare the text with the parser of [Cli]: it documents exactly the options
    the parser knows, the command lines it gives as examples are accepted, and
    the defaults it states are those of the crawler. *)

From S2P Require Import Prelude World HashFormat Numeric Sql Cli Crawler Program.

(** ** The libraries of a build *)

(** The macros the preprocessor tests: the platform, and the two switches. *)
Inductive platform_macro := __linux__ | __APPLE__ | _WIN32 | other_platform.
Record build := mk_build {
  target : platform_macro;
  DISABLE_LIBTORRENT : bool;
  DISABLE_MYSQL : bool;
}.

Record LibraryStatus := mk_LibraryStatus {
  libtorrent_available : bool;
  mysql_available : bool;
  libtorrent_version : string;
  mysql_version : string;
  ls_platform : string;
}.
#[export] Instance eta_LibraryStatus : Eta LibraryStatus :=
  λ s, mk_LibraryStatus (libtorrent_available s) (mysql_available s) (libtorrent_version s) (mysql_version s) (ls_platform s).

Definition checkLibraries (b : build) : LibraryStatus :=
  let status := mk_LibraryStatus false false "unknown" "unknown"
    match target b with __linux__ => "linux" | __APPLE__ => "macos" | _WIN32 => "windows" | other_platform => "unknown" end in
  let status := if DISABLE_LIBTORRENT b then status
                else status <| libtorrent_available := true |> <| libtorrent_version := "2.0+" |> in
  if DISABLE_MYSQL b then status else status <| mysql_available := true |> <| mysql_version := "available" |>.

Definition checkLibrariesTestMode (b : build) (simulate_missing_libtorrent simulate_missing_mysql : bool) : LibraryStatus :=
  let status := checkLibraries b in
  let status := if simulate_missing_libtorrent
                then status <| libtorrent_available := false |> <| libtorrent_version := "NOT FOUND" |> else status in
  if simulate_missing_mysql then status <| mysql_available := false |> <| mysql_version := "NOT FOUND" |> else status.

(** The lines about one library: how to install it, or its version. *)
Definition library_lines (available : bool) (name version : string) (install : list string) : list string :=
  if available then ["✅ " +:+ name +:+ ": " +:+ version] else ("❌ " +:+ name +:+ ": NOT FOUND") :: install.

Definition printLibraryInstallInstructions (status : LibraryStatus) : list string :=
  if decide (ls_platform status = "linux") then
    [""; "=== LIBRARY INSTALLATION INSTRUCTIONS ==="; "Required libraries for Linux systems:"; ""]
    ++ library_lines (libtorrent_available status) "libtorrent-rasterbar" (libtorrent_version status)
         ["   Install with: sudo apt install -y libtorrent-rasterbar2.0 libtorrent-rasterbar-dev";
          "   Or on CentOS/RHEL: sudo yum install libtorrent-rasterbar-devel"]
    ++ library_lines (mysql_available status) "libmysqlclient" (mysql_version status)
         ["   Install with: sudo apt install -y libmysqlclient21 libmysqlclient-dev";
          "   Or on CentOS/RHEL: sudo yum install mysql-devel"]
    ++ [""; "Complete installation command:";
        "  sudo apt install -y libtorrent-rasterbar2.0 libtorrent-rasterbar-dev libmysqlclient21 libmysqlclient-dev"; ""]
  else if decide (ls_platform status = "macos") then
    [""; "=== LIBRARY INSTALLATION INSTRUCTIONS ==="; "Required libraries for macOS:"; ""]
    ++ library_lines (libtorrent_available status) "libtorrent-rasterbar" (libtorrent_version status)
         ["   Install with: brew install libtorrent-rasterbar"]
    ++ library_lines (mysql_available status) "libmysqlclient" (mysql_version status) ["   Install with: brew install mysql"]
    ++ [""; "Complete installation command:"; "  brew install libtorrent-rasterbar mysql"; ""]
  else [].

(** ** [printUsage] *)

Definition usage_description (program_name : string) : list string := [
  "Usage: " +:+ program_name +:+ " [OPTIONS]";
  "DHT Torrent Discovery Tool with MySQL Storage";
  "";
  "DESCRIPTION:";
  "  A comprehensive DHT (Distributed Hash Table) crawler that discovers torrents";
  "  and peers from the BitTorrent DHT network, storing metadata in MySQL database.";
  "  Supports both continuous crawling and metadata-only modes."; ""].
Definition usage_required : list string := [
  "REQUIRED OPTIONS:";
  "  --user USER       MySQL username for database connection";
  "                    Example: --user myuser";
  "  --password PASS   MySQL password for database connection";
  "                    Example: --password mypassword";
  "  --database DB     MySQL database name to store torrent data";
  "                    Example: --database torrents";
  ""].
Definition usage_optional : list string := [
  "OPTIONAL OPTIONS:";
  "  --server HOST     MySQL server hostname or IP address";
  "                    Default: localhost";
  "                    Example: --server 192.168.1.100";
  "  --port PORT       MySQL server port number";
  "                    Default: 3306";
  "                    Example: --port 3307";
  "  --queries NUM     Maximum number of DHT queries to perform";
  "                    Default: infinite (run until Ctrl+C)";
  "                    Example: --queries 10000";
  "  --metadata HASHES Comma-delimited torrent hashes for metadata-only mode";
  "                    Can also be a file path (.txt or .csv) containing hashes";
  "                    Example: --metadata abc123def456,789xyz012";
  "                    Example: --metadata /path/to/hashes.txt";
  "  --metadata_database Process existing database records with missing metadata";
  "                    Fetches metadata for records where num_files < 1 or NULL";
  "                    Example: --metadata_database";
  "  --debug           Enable detailed debug logging and verbose output";
  "                    Example: --debug";
  "  --verbose         Enable verbose output (default is counter mode)";
  "                    Example: --verbose";
  "  --metadata_log    Enable metadata-only logging (suppress all other logs)";
  "                    Shows only metadata discovery, success, and timeout messages";
  "                    Example: --metadata_log";
  "  --sequential      Disable concurrent DHT worker pool (use sequential mode)";
  "                    Example: --sequential";
  "  --workers NUM     Number of concurrent DHT workers (default: 4)";
  "                    Example: --workers 8";
  "  --no-bep51        Disable BEP51 DHT infohash indexing (use random generation)";
  "                    Example: --no-bep51";
  "  --test-missing-libs Show help with simulated missing libraries (for testing)";
  "                    Example: --test-missing-libs";
  "  --help            Show this help message and exit";
  "                    Example: --help";
  ""].
Definition usage_modes : list string := [
  "OPERATION MODES:";
  "  Normal Mode:      Continuously crawls DHT network discovering new torrents";
  "  Metadata Mode:    Fetches metadata for specific torrent hashes only";
  "  Concurrent Mode:  Uses worker pool for parallel DHT query processing (default)";
  "  Sequential Mode:  Uses single-threaded DHT query processing (legacy)";
  ""].
(** The examples: a title, and the command line after the program's name. *)
Definition usage_titles : list string := [
  "  # Basic usage with local MySQL:";
  "  # Remote MySQL server with query limit:";
  "  # Metadata-only mode for specific hashes:";
  "  # Metadata-only mode from file:";
  "  # Metadata database mode (process existing records with missing metadata):";
  "  # Debug mode for troubleshooting:";
  "  # Metadata logging mode for focused metadata monitoring:";
  "  # Verbose mode for detailed output:";
  "  # High-performance mode with 8 workers:";
  "  # Sequential mode (legacy):"].
Definition usage_commands : list string := [
  " --user admin --password secret --database torrents";
  " --server 192.168.10.100 --user keynetworks --password K3yn3tw0rk5 --database torrents --queries 5000";
  " --user admin --password secret --database torrents --metadata abc123def456,789xyz012";
  " --user admin --password secret --database torrents --metadata /path/to/hashes.txt";
  " --user admin --password secret --database torrents --metadata_database";
  " --user admin --password secret --database torrents --debug --queries 100";
  " --user admin --password secret --database torrents --metadata_log";
  " --user admin --password secret --database torrents --verbose";
  " --user admin --password secret --database torrents --workers 8";
  " --user admin --password secret --database torrents --sequential"].
Definition usage_examples (program_name : string) : list string :=
  "EXAMPLES:" :: mjoin (zip_with (λ title command, [title; "  " +:+ program_name +:+ command; ""]) usage_titles usage_commands).
Definition usage_tables : list string := [
  "DATABASE TABLES:";
  "  The tool creates the following tables automatically:";
  "  - discovered_torrents: Main torrent metadata and statistics";
  "  - discovered_peers: Peer information for each torrent";
  "  - torrent_files: Individual file information within torrents";
  ""].
Definition usage_control : list string := [
  "CONTROL:";
  "  Press Ctrl+C for graceful shutdown";
  "  Press Ctrl+Z to pause (use 'fg' to resume)"].

(** [test_missing_libs] shows the instructions as if both libraries were
    missing. *)
Definition usage_status (b : build) (test_missing_libs : bool) : LibraryStatus :=
  if test_missing_libs then checkLibrariesTestMode b true true else checkLibraries b.
Definition printUsage (b : build) (program_name : string) (test_missing_libs : bool) : list string :=
  usage_description program_name ++ printLibraryInstallInstructions (usage_status b test_missing_libs)
  ++ usage_required ++ usage_optional ++ usage_modes ++ usage_examples program_name ++ usage_tables ++ usage_control.

(** The [main] of a build without libtorrent, which returns 0. *)
Definition stub_main : list string := [
  "DHT Crawler - Windows Build (libtorrent disabled)";
  "This is a placeholder Windows build.";
  "For full functionality, please use the Linux or macOS builds."].

(** What [main] prints before it returns, when it does not run: standard
    output, and standard error. *)
Definition main_prints (b : build) (program_name : string) (r : cli_result) : list string * list string :=
  if DISABLE_LIBTORRENT b then (stub_main, [])
  else match r with
  | ShowUsage test_missing_libs => (printUsage b program_name test_missing_libs, [])
  | BadWorkers => ([], ["Error: Number of workers must be between 1 and 16"])
  | UnknownArgument arg => (printUsage b program_name false, ["Unknown argument: " +:+ arg])
  | Uncaught _ | Run _ _ => ([], [])
  end.

(** ** The text and the parser *)

(** The first word of a line, when it is an option: the line begins with two
    blanks and two dashes. *)
Definition option_of_line (line : string) : option string :=
  if is_prefix (chars "  --") (chars line) then of_chars <$> head (split_on " " (drop 2 (chars line))) else None.
Definition documented_options : list string := omap option_of_line (usage_required ++ usage_optional).

(** The words of a command line, without those that are empty. *)
Definition words_of (line : string) : list string := filter (λ s, s ≠ "") (of_chars <$> split_on " " (chars line)).

(** The command lines behind the word "Example:". *)
Definition example_of_line (line : string) : option (list string) :=
  match words_of line with "Example:" :: command => Some command | _ => None end.
Definition option_examples : list (list string) := omap example_of_line (usage_required ++ usage_optional).

(** The defaults: a line "Default:" is about the option explained before it,
    and the line of an option may end with its default. *)
Definition default_of_line (line : string) : option string :=
  match words_of line with "Default:" :: value => Some (of_chars (join_with " " (chars <$> value))) | _ => None end.
Definition default_in_line (line : string) : option string :=
  match rev (words_of line) with
  | value :: "(default:" :: _ => Some (of_chars (removelast (chars value)))
  | _ => None
  end.
Fixpoint defaults_from (opt : string) (lines : list string) : list (string * string) :=
  match lines with
  | [] => []
  | line :: lines =>
    let opt := default opt (option_of_line line) in
    match default_of_line line, default_in_line line with
    | Some value, _ | None, Some value => [(opt, value)]
    | None, None => []
    end ++ defaults_from opt lines
  end.
Definition documented_defaults : list (string * string) := defaults_from "" (usage_required ++ usage_optional).

Definition is_run (r : cli_result) : bool := match r with Run _ _ => true | _ => false end.
Definition is_usage (r : cli_result) : bool := match r with ShowUsage _ => true | _ => false end.

Lemma documented_options_list : documented_options =
  ["--user"; "--password"; "--database"; "--server"; "--port"; "--queries"; "--metadata"; "--metadata_database"; "--debug";
   "--verbose"; "--metadata_log"; "--sequential"; "--workers"; "--no-bep51"; "--test-missing-libs"; "--help"].
Proof. vm_compute. reflexivity. Qed.

(** A word outside the list is refused, whatever follows it. *)
Lemma undocumented_option opt v : opt ∉ documented_options → parse_args [opt; v] default_MySQLConfig (-1) = UnknownArgument opt.
Proof.
  rewrite documented_options_list. intros Hopt. cbn [parse_args]. rewrite !decide_False by (intros ->; set_solver). done.
Qed.

Lemma documented_defaults_list : documented_defaults =
  [("--server", "localhost"); ("--port", "3306"); ("--queries", "infinite (run until Ctrl+C)"); ("--workers", "4")].
Proof. vm_compute. reflexivity. Qed.

(** What the options do not set stays as it was. *)
Definition unset_kept (args : list string) c (q : Z) c' (q' : Z) : Prop :=
  ("--server" ∉ args → server c' = server c) ∧ ("--port" ∉ args → port c' = port c)
  ∧ ("--workers" ∉ args → num_workers c' = num_workers c) ∧ ("--queries" ∉ args → q' = q)
  ∧ ("--sequential" ∉ args → concurrent_mode c' = concurrent_mode c)
  ∧ ("--verbose" ∉ args → verbose_mode c' = verbose_mode c).

(** An option and its value, if it has one, are taken off in front of
    arguments for which this holds. *)
Lemma unset_kept_app taken rest c0 q0 c q c' q' :
  unset_kept taken c0 q0 c q → unset_kept rest c q c' q' → unset_kept (taken ++ rest) c0 q0 c' q'.
Proof.
  intros (H1 & H2 & H3 & H4 & H5 & H6) (R1 & R2 & R3 & R4 & R5 & R6).
  unfold unset_kept. split_all; intros [Htaken Hrest]%not_elem_of_app;
    [rewrite R1, H1|rewrite R2, H2|rewrite R3, H3|rewrite R4, H4|rewrite R5, H5|rewrite R6, H6]; done.
Qed.

Lemma parse_args_unset args c q c' q' : parse_args args c q = Run c' q' → unset_kept args c q c' q'.
Proof.
  revert c q. induction args as [args IH] using (induction_ltof1 _ (@length string)).
  unfold ltof in IH. intros c q. destruct args as [|arg rest]; [by intros [= <- <-]|].
  assert (IH1 : ∀ c1, unset_kept [arg] c q c1 q → parse_args rest c1 q = Run c' q' → unset_kept (arg :: rest) c q c' q').
  { intros c1 Hfirst Hrun. apply (unset_kept_app [arg] rest _ _ c1 q); [done|]. by apply IH; [simpl; lia|]. }
  cbn [parse_args].
  repeat (case_decide as Harg; [first [discriminate|apply IH1; rewrite Harg; unfold unset_kept; simpl; set_solver]|clear Harg]).
  destruct rest as [|v rest]; [done|].
  assert (IH2 : ∀ c1 q1, unset_kept [arg; v] c q c1 q1 → parse_args rest c1 q1 = Run c' q' →
            unset_kept (arg :: v :: rest) c q c' q').
  { intros c1 q1 Hfirst Hrun. apply (unset_kept_app [arg; v] rest _ _ c1 q1); [done|]. by apply IH; [simpl; lia|]. }
  repeat case_match; subst; try done; apply IH2; unfold unset_kept; simpl; set_solver.
Qed.

Lemma server_with_default c : server (apply_defaults c) = if decide (server c = "") then "localhost" else server c.
Proof. unfold apply_defaults. by destruct (_ || _); simpl; case_decide. Qed.
Lemma other_with_default c :
  port (apply_defaults c) = port c ∧ num_workers (apply_defaults c) = num_workers c
  ∧ concurrent_mode (apply_defaults c) = concurrent_mode c ∧ verbose_mode (apply_defaults c) = verbose_mode c.
Proof. unfold apply_defaults. by destruct (_ || _); simpl; case_decide. Qed.

Lemma accepted_defaults args c q : parse_command_line args = Run c q →
  ("--server" ∉ args → ("--server", server c) ∈ documented_defaults)
  ∧ ("--port" ∉ args → ("--port", to_string (port c)) ∈ documented_defaults)
  ∧ ("--workers" ∉ args → ("--workers", to_string (num_workers c)) ∈ documented_defaults)
  ∧ ("--queries" ∉ args → ("--queries", "infinite (run until Ctrl+C)") ∈ documented_defaults
       ∧ ∀ (H : Type) sent (k : crawler H), crawls_on q sent k = keeps_crawling k)
  ∧ ("--sequential" ∉ args → concurrent_mode c = true) ∧ ("--verbose" ∉ args → verbose_mode c = false).
Proof.
  unfold parse_command_line. destruct args as [|arg args]; [done|].
  destruct (parse_args (arg :: args) default_MySQLConfig (-1)) as [| | | |c0 q0] eqn:Hparse; try done.
  intros [= <- <-]. apply parse_args_unset in Hparse as (H1 & H2 & H3 & H4 & H5 & H6).
  rewrite documented_defaults_list, server_with_default.
  destruct (other_with_default c0) as (-> & -> & -> & ->). split_all; intros Hno.
  - rewrite (H1 Hno). by left.
  - rewrite (H2 Hno). right. left.
  - rewrite (H3 Hno). by repeat (left || right).
  - rewrite (H4 Hno). split; [right; right; left|]. intros H sent k. unfold crawls_on. simpl. by rewrite andb_true_r.
  - by rewrite (H5 Hno).
  - by rewrite (H6 Hno).
Qed.

(** C38: The usage text and the parser of [main] agree: the words the text
    explains as options are exactly the words the parser knows; each example of
    an option, and each command line of the examples, is accepted, that is, the
    crawler runs or the usage text is shown as asked; and the defaults the text
    gives, of server, port, queries and workers, are what the crawler is run
    with when the option is left out, on every accepted command line: an
    infinite number of queries means that the loops never end because of the
    queries sent.  So are the defaults it mentions in passing, concurrent mode
    and the counter. *)
Theorem usage_matches_parser :
  (∀ opt, opt ∈ documented_options ↔ ∃ v, parse_args [opt; v] default_MySQLConfig (-1) ≠ UnknownArgument opt)
  ∧ forallb (λ args, is_run (parse_command_line args) || is_usage (parse_command_line args)) option_examples = true
  ∧ (∀ opt, opt ∈ documented_options → ∃ args, args ∈ option_examples ∧ head args = Some opt)
  ∧ forallb (λ line, is_run (parse_command_line (words_of line))) usage_commands = true
  ∧ documented_defaults.*1 = ["--server"; "--port"; "--queries"; "--workers"]
  ∧ "  --verbose         Enable verbose output (default is counter mode)" ∈ usage_optional
  ∧ "  Concurrent Mode:  Uses worker pool for parallel DHT query processing (default)" ∈ usage_modes
  ∧ (∀ args c q, parse_command_line args = Run c q →
       ("--server" ∉ args → ("--server", server c) ∈ documented_defaults)
       ∧ ("--port" ∉ args → ("--port", to_string (port c)) ∈ documented_defaults)
       ∧ ("--workers" ∉ args → ("--workers", to_string (num_workers c)) ∈ documented_defaults)
       ∧ ("--queries" ∉ args → ("--queries", "infinite (run until Ctrl+C)") ∈ documented_defaults
            ∧ ∀ (H : Type) sent (k : crawler H), crawls_on q sent k = keeps_crawling k)
       ∧ ("--sequential" ∉ args → concurrent_mode c = true) ∧ ("--verbose" ∉ args → verbose_mode c = false)).
Proof.
  split; [|split; [vm_compute; reflexivity|split; [|split; [vm_compute; reflexivity|
    split; [by rewrite documented_defaults_list|split; [by_evaluation|split; [by_evaluation|exact accepted_defaults]]]]]]].
  - intros opt. split.
    + rewrite documented_options_list. intros Hopt. exists "1".
      repeat (apply elem_of_cons in Hopt as [->|Hopt]; [vm_compute; discriminate|]). by apply not_elem_of_nil in Hopt.
    + intros [v Hv]. destruct (decide (opt ∈ documented_options)) as [|Hn]; [done|]. by destruct Hv; apply undocumented_option.
  - intros opt Hopt. assert (Forall (λ o, Exists (λ args, head args = Some o) option_examples) documented_options) as Hall.
    { by_evaluation. }
    rewrite Forall_forall in Hall. specialize (Hall opt Hopt). by apply Exists_exists in Hall.
Qed.

Lemma usage_matches_parser_witness :
  ∃ c q, parse_command_line ["--debug"; "--port"; "3307"] = Run c q ∧ port c = 3307%Z
  ∧ ("--server", server c) ∈ documented_defaults ∧ ("--workers", to_string (num_workers c)) ∈ documented_defaults
  ∧ concurrent_mode c = true ∧ verbose_mode c = false.
Proof.
  destruct (parse_command_line ["--debug"; "--port"; "3307"]) as [| | | |c q] eqn:Hrun;
    [vm_compute in Hrun; discriminate Hrun..|].
  exists c, q. split; [reflexivity|]. split; [vm_compute in Hrun; by inversion Hrun|].
  destruct usage_matches_parser as (_ & _ & _ & _ & _ & _ & _ & Hdefaults).
  destruct (Hdefaults _ c q Hrun) as (Hserver & _ & Hworkers & _ & Hsequential & Hverbose).
  split; [|split; [|split]]; [apply Hserver|apply Hworkers|apply Hsequential|apply Hverbose];
    apply (bool_decide_unpack _); vm_compute; exact I.
Defined.

(** An installation line is shown for a library exactly when it is missing,
    and nothing about libraries on the other platforms. *)
Theorem install_instructions b test :
  let status := usage_status b test in
  let shown := printLibraryInstallInstructions status in
  (target b = __linux__ ∨ target b = __APPLE__ →
     ("❌ libtorrent-rasterbar: NOT FOUND" ∈ shown ↔ test = true ∨ DISABLE_LIBTORRENT b = true)
     ∧ ("❌ libmysqlclient: NOT FOUND" ∈ shown ↔ test = true ∨ DISABLE_MYSQL b = true))
  ∧ (target b = _WIN32 ∨ target b = other_platform → shown = []).
Proof.
  intros status shown. split.
  - destruct b as [[] [] []], test; intros [Ht|Ht]; try discriminate Ht; (split; match goal with |- ?P ↔ _ =>
      let d := eval vm_compute in (bool_decide P) in
      match d with
      | true => split; [simpl; auto|intros _; by_evaluation]
      | false => split; [intros Hin; refute_by_evaluation Hin|simpl; intros [|]; done]
      end
    end).
  - by destruct b as [[] [] []], test; intros [Ht|Ht]; try discriminate Ht.
Qed.

(** [main] cannot report that libtorrent is missing: a build without it has
    another [main], so that the line is shown only when it is asked for by
    [--test-missing-libs], as a simulation. *)
Theorem missing_libtorrent_only_simulated b program_name r :
  "❌ libtorrent-rasterbar: NOT FOUND" ∈ (main_prints b program_name r).1 →
  DISABLE_LIBTORRENT b = false ∧ r = ShowUsage true.
Proof.
  unfold main_prints. destruct (DISABLE_LIBTORRENT b) eqn:Hb; [intros Hin; refute_by_evaluation Hin|].
  assert ("❌ libtorrent-rasterbar: NOT FOUND" ∉ printUsage b program_name false) as Hno.
  { unfold printUsage, usage_status, checkLibraries. rewrite Hb. intros Hin.
    destruct b as [[] [] []]; try discriminate Hb;
      repeat (apply elem_of_app in Hin as [Hin|Hin]); try (refute_by_evaluation Hin);
      repeat (apply elem_of_cons in Hin as [Hin|Hin]; [discriminate Hin|]); by apply not_elem_of_nil in Hin. }
  destruct r as [[]| | | |]; intros Hin; try done; by apply not_elem_of_nil in Hin.
Qed.

(** The usage text speaks of Ctrl-Z as a pause, and the hashes of its examples
    are not info-hashes; the handler of SIGTSTP stops the crawler, and the
    conversion refuses the hashes. *)
Theorem usage_misleads {H} (k : crawler H) :
  "  Press Ctrl+Z to pause (use 'fg' to resume)" ∈ usage_control
  ∧ signalHandler 20 (Some k) = Some (stop k) ∧ m_shutdown_requested (stop k) = true
  ∧ metadata_hash_list (λ _, None) "abc123def456,789xyz012" = ["abc123def456"; "789xyz012"]
  ∧ convert_hash_to_hex "abc123def456" = "" ∧ convert_hash_to_hex "789xyz012" = "".
Proof. split_all; try (vm_compute; reflexivity). by_evaluation. Qed.
