(* ===== verification/Settings.v ===== *)
(** * The settings of the libtorrent session

    Models the settings the constructor of [DHTTorrentCrawler]
    ([src/src/dht_crawler.cpp]) writes into [lt::settings_pack] before it opens
    the session, and the two drafts of a replacement at the repository's root,
    [src/fixed_session_config.cpp] and [src/session_config_replacement.cpp].  A
    pack is the list of the calls of [set_bool], [set_int] and [set_str]; a
    name that is set twice has the value set last.  The bits of
    [lt::alert_category] are the library's, an argument.  The theorems compare
    the drafts with the program: what they keep, and what they add. *)

From S2P Require Import Prelude.

Inductive setting_value := SBool (b : bool) | SInt (n : Z) | SStr (s : string).
#[export] Instance setting_value_eq_dec : EqDecision setting_value.
Proof. solve_decision. Defined.

Abbreviation set_bool n b := (n, SBool b).
Abbreviation set_int n z := (n, SInt z).
Abbreviation set_str n s := (n, SStr s).

Definition effective (calls : list (string * setting_value)) : gmap string setting_value :=
  foldl (λ m c, <[c.1 := c.2]> m) ∅ calls.

Section Settings.
Context (alert_category : string → Z).

Definition mask (categories : list string) : Z := foldl (λ m c, Z.lor m (alert_category c)) 0%Z categories.

(** The constructor of [DHTTorrentCrawler]. *)
Definition session_categories : list string := ["dht"; "peer"; "status"; "connect"; "error"].
Definition session_settings : list (string * setting_value) := [
  set_bool "enable_dht" true; set_int "dht_announce_interval" 15; set_int "dht_bootstrap_nodes" 0;
  set_int "alert_mask" (mask session_categories);
  set_str "listen_interfaces" "0.0.0.0:6881";
  set_int "handshake_timeout" 30; set_int "peer_timeout" 180;
  set_bool "enable_lsd" true;
  set_int "connections_limit" 200; set_int "active_limit" 1000;
  set_bool "enable_outgoing_utp" true; set_bool "enable_incoming_utp" true;
  set_bool "enable_outgoing_tcp" true; set_bool "enable_incoming_tcp" true;
  set_bool "enable_upnp" true; set_bool "enable_natpmp" true].

(** [fixed_session_config.cpp] *)
Definition fixed_categories : list string :=
  ["dht"; "peer"; "status"; "connect"; "error"; "torrent"; "piece_progress"; "port_mapping"].
Definition fixed_settings : list (string * setting_value) := [
  set_bool "enable_extensions" true; set_bool "enable_outgoing_tcp" true; set_bool "enable_incoming_tcp" true;
  set_bool "enable_dht" true; set_int "dht_announce_interval" 15; set_int "dht_bootstrap_nodes" 0;
  set_int "alert_mask" (mask fixed_categories);
  set_str "listen_interfaces" "0.0.0.0:6881";
  set_int "handshake_timeout" 30; set_int "peer_timeout" 180; set_int "inactivity_timeout" 90;
  set_bool "enable_lsd" true; set_bool "enable_peer_exchange" true;
  set_int "connections_limit" 200; set_int "active_limit" 1000;
  set_bool "enable_outgoing_utp" true; set_bool "enable_incoming_utp" true;
  set_bool "enable_outgoing_tcp" true; set_bool "enable_incoming_tcp" true;
  set_bool "enable_upnp" true; set_bool "enable_natpmp" true;
  set_int "max_out_request_queue" 1000; set_int "max_allowed_in_request_queue" 500;
  set_int "request_timeout" 30; set_int "piece_timeout" 60;
  set_bool "enable_extensions" true].

(** [session_config_replacement.cpp] *)
Definition replacement_categories : list string := ["dht"; "peer"; "status"; "connect"; "error"; "torrent"].
Definition replacement_settings : list (string * setting_value) := [
  set_bool "enable_extensions" true;
  set_bool "enable_dht" true; set_int "dht_announce_interval" 15; set_int "dht_bootstrap_nodes" 0;
  set_int "alert_mask" (mask replacement_categories);
  set_str "listen_interfaces" "0.0.0.0:6881";
  set_int "handshake_timeout" 30; set_int "peer_timeout" 180;
  set_bool "enable_lsd" true; set_bool "enable_peer_exchange" true;
  set_int "connections_limit" 200; set_int "active_limit" 1000;
  set_bool "enable_outgoing_utp" true; set_bool "enable_incoming_utp" true;
  set_bool "enable_outgoing_tcp" true; set_bool "enable_incoming_tcp" true;
  set_bool "enable_upnp" true; set_bool "enable_natpmp" true].

(** ** The drafts and the program *)

(** [new] has every setting of [old] but the mask of alerts, a mask with the
    bits of the old one, and the settings [added], no others. *)
Definition extends (old new : list (string * setting_value)) (added : list string) : Prop :=
  (∀ n v, effective old !! n = Some v → n ≠ "alert_mask" → effective new !! n = Some v)
  ∧ (∃ m m', effective old !! "alert_mask" = Some (SInt m) ∧ effective new !! "alert_mask" = Some (SInt m')
             ∧ Z.lor m m' = m')
  ∧ (∀ n, is_Some (effective new !! n) ↔ is_Some (effective old !! n) ∨ n ∈ added).

Lemma mask_app a b : mask (a ++ b) = Z.lor (mask a) (mask b).
Proof.
  unfold mask. rewrite foldl_app. generalize (foldl (λ m c, Z.lor m (alert_category c)) 0%Z a) as m.
  induction b as [|c b IH] using rev_ind; intros m; simpl; [by rewrite Z.lor_0_r|].
  rewrite !foldl_app, IH. simpl. by rewrite Z.lor_assoc.
Qed.

Lemma mask_extends a b : Z.lor (mask a) (mask (a ++ b)) = mask (a ++ b).
Proof. by rewrite mask_app, Z.lor_assoc, Z.lor_diag. Qed.

(** The three facts of [extends], decided by evaluation. *)
Lemma extends_by_evaluation old new added m m' :
  bool_decide (delete "alert_mask" (effective old) ⊆ effective new) = true →
  effective old !! "alert_mask" = Some (SInt m) → effective new !! "alert_mask" = Some (SInt m') → Z.lor m m' = m' →
  bool_decide (dom (effective new) = dom (effective old) ∪ list_to_set (C := gset string) added) = true →
  extends old new added.
Proof.
  intros Hsub%bool_decide_eq_true Hm Hm' Hlor Hdom%bool_decide_eq_true. unfold extends. split_all.
  - intros n v Hn Hne. eapply lookup_weaken; [|exact Hsub]. by rewrite lookup_delete_ne.
  - eauto.
  - intros n. by rewrite <-!elem_of_dom, Hdom, elem_of_union, elem_of_list_to_set.
Qed.

(** Both drafts keep every setting of the program and every bit of its alert
    mask; the settings they add are these. *)
Theorem drafts_extend_settings :
  extends session_settings fixed_settings
    ["enable_extensions"; "inactivity_timeout"; "enable_peer_exchange"; "max_out_request_queue";
     "max_allowed_in_request_queue"; "request_timeout"; "piece_timeout"]
  ∧ extends session_settings replacement_settings ["enable_extensions"; "enable_peer_exchange"].
Proof.
  split; (eapply extends_by_evaluation; [vm_compute; reflexivity|vm_compute; reflexivity|vm_compute; reflexivity| |vm_compute; reflexivity]).
  - exact (mask_extends session_categories ["torrent"; "piece_progress"; "port_mapping"]).
  - exact (mask_extends session_categories ["torrent"]).
Qed.

(** The program and the shorter draft name every setting once; the longer one
    names three settings twice, with the same value, so that the order of its
    calls does not matter either. *)
Theorem settings_order_irrelevant :
  NoDup session_settings.*1 ∧ NoDup replacement_settings.*1
  ∧ ∀ calls n v, calls = session_settings ∨ calls = replacement_settings ∨ calls = fixed_settings →
                 (n, v) ∈ calls → effective calls !! n = Some v.
Proof.
  split; [by_evaluation|]. split; [by_evaluation|]. intros calls n v Hcalls Hin.
  assert (Forall (λ c, effective calls !! c.1 = Some c.2) calls) as Hall.
  { destruct Hcalls as [-> | [-> | ->]]; repeat (apply Forall_cons; split; [vm_compute; reflexivity|]); constructor. }
  rewrite Forall_forall in Hall. exact (Hall _ Hin).
Qed.
End Settings.
