(* ===== verification/Reports.v ===== *)
(** * Reports: rows of comma-separated values, casts, tables

    What the reporting functions of the managers share: a file opened for
    writing, rows whose fields are written with commas between them, the cast
    of a [double] to [int], and [std::to_string] of what a status shows.  The
    functions themselves are in [PieceReports], [RoutingReports] and
    [PerformanceReports]. *)

From S2P Require Import Prelude HashFormat Numeric DoubleText Sql Cli.

(** [static_cast<int>] of a [double] truncates; out of range, and for an
    infinity or a NaN, it is undefined. *)
Definition int_of_double (v : double) : option Z :=
  match v with
  | S754_zero _ => Some 0%Z
  | S754_finite s m e =>
    let magnitude := if (0 <=? e)%Z then (Zpos m * 2 ^ e)%Z else (Zpos m / 2 ^ (- e))%Z in
    let z := if s then (- magnitude)%Z else magnitude in
    if (- 2 ^ 31 <=? z)%Z && (z <? 2 ^ 31)%Z then Some z else None
  | _ => None
  end.

Definition bool_text (b : bool) : string := if b then "true" else "false".

(** [std::ofstream file(filename)]: [opens] tells whether it could be opened;
    the file then holds the lines written, and nothing it held before. *)
Definition export_file (opens : bool) (rows : list string) : bool * option (list string) :=
  if opens then (true, Some rows) else (false, None).

(** [file << a << "," << b << ...] *)
Definition csv_row (fields : list string) : string := of_chars (join_with "," (chars <$> fields)).
(** The reference: the fields of a row are what is between the commas. *)
Definition read_row (row : string) : list string := of_chars <$> split_on "," (chars row).

(** ** Rows without ambiguity *)

Definition comma_free (s : string) : Prop := ","%char ∉ chars s.

Lemma read_csv_row fields : fields ≠ [] → Forall comma_free fields → read_row (csv_row fields) = fields.
Proof.
  intros Hne Hall. unfold read_row, csv_row. rewrite chars_of_chars, split_join.
  - rewrite <-list_fmap_compose. clear Hne. induction Hall as [|f fs _ _ IH]; [done|]. rewrite fmap_cons, IH.
    unfold compose. by rewrite of_chars_chars.
  - by destruct fields.
  - by apply Forall_fmap.
Qed.

Lemma comma_free_append s1 s2 : comma_free s1 → comma_free s2 → comma_free (s1 +:+ s2).
Proof. unfold comma_free. rewrite chars_append, elem_of_app. tauto. Qed.

(** A text all of whose characters pass a test the comma fails. *)
Lemma comma_free_forallb (P : ascii → bool) s : P ","%char = false → forallb P (chars s) = true → comma_free s.
Proof.
  intros Hcomma Hall Hin%list_elem_of_In. rewrite forallb_forall in Hall. by rewrite (Hall _ Hin) in Hcomma.
Qed.

Lemma comma_free_to_string z : comma_free (to_string z).
Proof. by eapply comma_free_forallb; [|apply to_string_chars]. Qed.

Lemma comma_free_pad n s : comma_free s → comma_free (pad_zeros n s).
Proof.
  intros Hs. apply comma_free_append; [|done]. unfold comma_free. rewrite chars_of_chars.
  by intros [? _]%elem_of_replicate.
Qed.

Lemma elem_of_drop_zeros c l : c ∈ drop_zeros l → c ∈ l.
Proof.
  induction l as [|d l IH]; [done|]. destruct (decide (d = "0"%char)) as [->|Hd].
  - simpl. intros Hc. apply elem_of_cons. right. by apply IH.
  - assert (drop_zeros (d :: l) = d :: l) as ->; [|done]. by destruct d as [[] [] [] [] [] [] [] []].
Qed.

Lemma comma_free_fraction k f : comma_free (fraction_text k f).
Proof.
  unfold fraction_text. destruct (rev (drop_zeros _)) as [|c l] eqn:Hl; [by intros ?%not_elem_of_nil|].
  apply comma_free_append; [by apply (comma_free_forallb (λ c, bool_decide (c = "."%char)))|].
  unfold comma_free. rewrite chars_of_chars, <-Hl. intros Hin%list_elem_of_In.
  apply in_rev, list_elem_of_In, elem_of_drop_zeros, list_elem_of_In, in_rev, list_elem_of_In in Hin. revert Hin.
  apply comma_free_pad, comma_free_to_string.
Qed.

#[export] Hint Resolve comma_free_append comma_free_to_string comma_free_pad comma_free_fraction : csv.

(** A literal of the code. *)
Ltac comma_free_literal := apply (comma_free_forallb (λ c, negb (bool_decide (c = ","%char)))); reflexivity.
#[export] Hint Extern 5 (comma_free _) => comma_free_literal : csv.

Lemma comma_free_double v : comma_free (double_text v).
Proof.
  assert (∀ n d, comma_free (magnitude_text n d)) as Hm.
  { intros n d. unfold magnitude_text. destruct (six_digits n d) as [r x]. destruct (_ && _); [eauto with csv|].
    destruct (x <? 0)%Z; eauto 8 with csv. }
  unfold double_text. destruct v as [[]|[]| |[] m e]; eauto with csv; destruct (0 <=? e)%Z; eauto with csv.
Qed.
#[export] Hint Resolve comma_free_double : csv.

Lemma comma_free_hex l : forallb isxdigit l = true → comma_free (of_chars l).
Proof. intros Hl. apply (comma_free_forallb isxdigit); [done|]. by rewrite chars_of_chars. Qed.

(** A row is read back exactly when no field holds a comma. *)
Lemma read_csv_row_iff fields : fields ≠ [] → read_row (csv_row fields) = fields ↔ Forall comma_free fields.
Proof.
  intros Hne. split; [|by apply read_csv_row]. unfold read_row. intros <-. apply Forall_fmap.
  eapply Forall_impl; [apply split_on_no_sep|]. intros l Hl. unfold compose, comma_free. by rewrite chars_of_chars.
Qed.

Lemma read_csv_rows rows : Forall (λ r, r ≠ [] ∧ Forall comma_free r) rows → read_row <$> (csv_row <$> rows) = rows.
Proof. induction 1 as [|r rows [Hne Hr] _ IH]; [done|]. by rewrite !fmap_cons, IH, read_csv_row. Qed.

(** Rows of literals and printed numbers. *)
Ltac plain_rows :=
  apply read_csv_rows;
  repeat (apply List.Forall_cons; [split; [done|repeat (apply List.Forall_cons; [auto with csv|]); apply List.Forall_nil]|]);
  apply List.Forall_nil.
