(* ===== verification/PieceReports.v ===== *)
(** * The reports of the piece manager

    Models the queries of [src/src/metadata_piece_manager.cpp] that only read:
    the lists and the predicates for each status, the fields of a piece, the
    statistics, the exports, the health status, the recommendations, the
    metrics, the capacity and the issues.  The theorems: the lists partition
    the pieces of a hash, the exported rows can be read back, and two of the
    metrics are constant. *)

From S2P Require Import Prelude HashFormat Numeric DoubleText Sql Cli Reports Pieces PieceFacts.

Definition all_statuses : list PieceStatus := [MISSING; REQUESTED; RECEIVED; VALIDATED; INVALID; DUPLICATE; CORRUPTED; EXPIRED].
(** [static_cast<int>] of the enumeration. *)
Definition status_int (s : PieceStatus) : Z :=
  match s with MISSING => 0 | REQUESTED => 1 | RECEIVED => 2 | VALIDATED => 3 | INVALID => 4 | DUPLICATE => 5 | CORRUPTED => 6 | EXPIRED => 7 end.

(** ** Lists, predicates and fields *)

Section Queries.
Implicit Types (m : piece_manager).

Definition getRequestedPieces m (h : string) : list Z := getPiecesByStatus m h REQUESTED.
Definition getReceivedPieces m (h : string) : list Z := getPiecesByStatus m h RECEIVED.
Definition getValidatedPieces m (h : string) : list Z := getPiecesByStatus m h VALIDATED.
Definition getInvalidPieces m (h : string) : list Z := getPiecesByStatus m h INVALID.
Definition getDuplicatePieces m (h : string) : list Z := getPiecesByStatus m h DUPLICATE.
Definition getCorruptedPieces m (h : string) : list Z := getPiecesByStatus m h CORRUPTED.
Definition getExpiredPieces m (h : string) : list Z := getPiecesByStatus m h EXPIRED.

Definition isPieceReceived := piece_has_status RECEIVED.
Definition isPieceInvalid := piece_has_status INVALID.
Definition isPieceDuplicate := piece_has_status DUPLICATE.
Definition isPieceCorrupted := piece_has_status CORRUPTED.
(** The public [isPieceExpired], of a hash and an index. *)
Definition isPieceExpired := piece_has_status EXPIRED.

Definition getPieceQualityScore m h i : double := from_option p_quality_score (double_of_int 0) (getPiece m h i).
Definition getPieceRequestCount m h i : Z := from_option request_count 0%Z (getPiece m h i).
Definition getPieceRetryCount m h i : Z := from_option retry_count 0%Z (getPiece m h i).
Definition getPieceCreationTime m h i : Z := from_option created_at 0%Z (getPiece m h i).
Definition getPieceUpdateTime m h i : Z := from_option updated_at 0%Z (getPiece m h i).
Definition getPieceExpirationTime m h i : Z := from_option expires_at 0%Z (getPiece m h i).
Definition getPieceMetadata m h i : gmap string string := from_option p_metadata ∅ (getPiece m h i).

(** [total_quality / size()], 0 when there are no pieces. *)
Definition getPieceQualityRatio m h : double :=
  match pieces_ m !! h with
  | Some ps =>
    if decide (ps = ∅) then double_of_int 0
    else double_div (foldl double_add (double_of_int 0) (p_quality_score <$> (int_map_iter ps).*2)) (double_of_int (Z.of_nat (size ps)))
  | None => double_of_int 0
  end.

Definition count_table (total : Z) (by_status : PieceStatus → Z) : list (string * Z) :=
  [("total_pieces", total); ("missing_pieces", by_status MISSING); ("requested_pieces", by_status REQUESTED);
   ("received_pieces", by_status RECEIVED); ("validated_pieces", by_status VALIDATED); ("invalid_pieces", by_status INVALID);
   ("duplicate_pieces", by_status DUPLICATE); ("corrupted_pieces", by_status CORRUPTED); ("expired_pieces", by_status EXPIRED)].
Definition getPieceStatistics m h : gmap string Z :=
  list_to_map (count_table (getPieceCount m h) (getPieceCountByStatus m h)).
Definition getPieceStatisticsByInfoHash m : gmap string Z := (λ ps, Z.of_nat (size ps)) <$> pieces_ m.
Definition getPieceStatisticsByStatus m : list (PieceStatus * Z) :=
  (λ s, (s, getTotalPieceCountByStatus m s)) <$> all_statuses.

(** ** Exports *)

Definition piece_fields (p : MetadataPiece) : list string :=
  [to_string (piece_index p); to_string (status_int (p_status p)); to_string (Z.of_nat (length (p_data p))); checksum p;
   double_text (p_quality_score p); to_string (request_count p); to_string (retry_count p)].
Definition piece_header : list string :=
  ["PieceIndex"; "Status"; "DataSize"; "Checksum"; "QualityScore"; "RequestCount"; "RetryCount"].

(** Nothing is written for a hash without an entry; the file is created
    nevertheless, and success reported. *)
Definition exportPieces (opens : bool) m h : bool * option (list string) :=
  export_file opens
    match pieces_ m !! h with
    | Some ps => csv_row piece_header :: ((λ p, csv_row (piece_fields p)) <$> (int_map_iter ps).*2)
    | None => []
    end.

Definition statistics_rows (s : PieceManagerStatistics) : list (list string) :=
  [["TotalPieces"; to_string (s_total s)]; ["MissingPieces"; to_string (s_by_status s MISSING)];
   ["RequestedPieces"; to_string (s_by_status s REQUESTED)]; ["ReceivedPieces"; to_string (s_by_status s RECEIVED)];
   ["ValidatedPieces"; to_string (s_by_status s VALIDATED)]; ["InvalidPieces"; to_string (s_by_status s INVALID)];
   ["DuplicatePieces"; to_string (s_by_status s DUPLICATE)]; ["CorruptedPieces"; to_string (s_by_status s CORRUPTED)];
   ["ExpiredPieces"; to_string (s_by_status s EXPIRED)]; ["AverageQualityScore"; double_text (s_avg_quality_score s)]].
Definition exportStatistics (opens : bool) m : bool * option (list string) :=
  export_file opens (csv_row ["Metric"; "Value"] :: (csv_row <$> statistics_rows (pm_stats m))).

(** ** Health, recommendations, capacity, issues *)

(** [running] is [isRunning()] of the monitor thread. *)
Definition getHealthStatus (running : bool) m : list (string * string) :=
  (prod_map id to_string <$> count_table (getTotalPieceCount m) (getTotalPieceCountByStatus m))
  ++ [("average_quality_score", double_to_string (s_avg_quality_score (pm_stats m)));
      ("piece_timeout", to_string (piece_timeout (pm_config m))); ("assembly_timeout", to_string (assembly_timeout (pm_config m)));
      ("max_piece_size", to_string (max_piece_size (pm_config m))); ("max_total_size", to_string (max_total_size (pm_config m)));
      ("is_running", bool_text running)].

(** [count > total * share], in [double]. *)
Definition more_than_share (count total : Z) (share : double) : bool :=
  double_lt (double_mul (double_of_int total) share) (double_of_int count).
Definition when (b : bool) (message : string) : list string := if b then [message] else [].

(** [None]: the division by [max_piece_size] is undefined. *)
Definition getPieceManagerRecommendations m : option (list string) :=
  many ← too_many_pieces m;
  Some (when many "Consider reducing piece collection frequency"
    ++ when (more_than_share (getTotalPieceCountByStatus m INVALID) (getTotalPieceCount m) (double_lit 3 10))
         "High invalid piece rate, check validation logic"
    ++ when (more_than_share (getTotalPieceCountByStatus m CORRUPTED) (getTotalPieceCount m) (double_lit 1 10))
         "High corruption rate, check data integrity").

Definition getPieceManagerIssues m : option (list string) :=
  many ← too_many_pieces m;
  Some (when (negb (validatePieceManagerIntegrity m)) "Piece manager integrity check failed"
    ++ when many "Too many pieces collected"
    ++ when (more_than_share (getTotalPieceCountByStatus m INVALID) (getTotalPieceCount m) (double_lit 5 10))
         "High invalid piece rate").

Definition getPieceManagerPerformanceMetrics m : list (string * double) :=
  [("total_pieces", double_of_int (getTotalPieceCount m)); ("average_quality_score", s_avg_quality_score (pm_stats m));
   ("completion_ratio", getPieceCompletionRatio m ""); ("validity_ratio", getPieceValidityRatio m "")].

(** The subtraction is in [size_t]; the percentage is [None] where the cast is
    undefined. *)
Definition getPieceManagerCapacity m : list (string * option Z) :=
  let count := getTotalPieceCount m in
  let max_total := max_total_size (pm_config m) in
  [("current_pieces", Some count); ("max_piece_size", Some (int_of_Z (max_piece_size (pm_config m))));
   ("max_total_size", Some (int_of_Z max_total));
   ("available_capacity", Some (int_of_Z (size_t_of_int (max_total - count))));
   ("utilization_percent", int_of_double (double_mul (double_div (double_of_int count) (double_of_int max_total)) (double_of_int 100)))].
End Queries.

(** ** The lists partition the pieces *)

Lemma partition_by_status (l : list (Z * MetadataPiece)) :
  mjoin ((λ s, (filter (λ p, p_status p.2 = s) l).*1) <$> all_statuses) ≡ₚ l.*1.
Proof.
  induction l as [|[i p] l IH]; [done|]. rewrite fmap_cons, <-IH. unfold all_statuses. cbn [fmap list_fmap mjoin list_join].
  rewrite !filter_cons. cbn [snd]. destruct (p_status p); repeat (case_decide; [done || idtac|done || idtac]);
    try congruence; cbn [fmap list_fmap app fst]; by rewrite <-?Permutation_middle.
Qed.

Lemma length_by_status (l : list (Z * MetadataPiece)) :
  Z.of_nat (length l) = sumZ (λ s, Z.of_nat (length (filter (λ p, p_status p.2 = s) l).*1)) all_statuses.
Proof.
  pose proof (Permutation_length (partition_by_status l)) as Hl. rewrite length_fmap in Hl. rewrite <-Hl.
  unfold all_statuses. cbn [fmap list_fmap mjoin list_join sumZ foldr]. rewrite !length_app. simpl length. lia.
Qed.

(** The eight lists of a hash hold every index exactly once; an index is in
    the list of a status exactly when its piece has that status, which is what
    the predicates test; and the counts of [getPieceStatistics] add up. *)
Theorem status_lists_partition m h :
  mjoin (getPiecesByStatus m h <$> all_statuses) ≡ₚ (int_map_iter (getPieces m h)).*1
  ∧ (∀ s i, i ∈ getPiecesByStatus m h s ↔ piece_has_status s m h i = true)
  ∧ getPieceCount m h = sumZ (getPieceCountByStatus m h) all_statuses.
Proof.
  unfold getPieceCountByStatus, getPieceCount, getPieces, getPiecesByStatus, piece_has_status, getPiece.
  destruct (pieces_ m !! h) as [ps|]; cbn [default option_bind mbind].
  - split; [apply partition_by_status|split].
    + intros s i. rewrite list_elem_of_fmap. split.
      * intros ([j p] & -> & [Hs Hin%elem_of_int_map_iter]%list_elem_of_filter). simpl in *. rewrite Hin. by apply bool_decide_eq_true.
      * destruct (ps !! i) as [p|] eqn:Hp; [|done]. intros Hs%bool_decide_eq_true. exists (i, p). split; [done|].
        apply list_elem_of_filter. split; [done|]. by apply elem_of_int_map_iter.
    + rewrite <-length_by_status. unfold int_map_iter. by rewrite merge_sort_Permutation, length_map_to_list.
  - split; [reflexivity|]. split; [|done]. intros s i. split; [by intros ?%not_elem_of_nil|done].
Qed.

(** ** What a run leaves to report *)

Section Reached.
Context {W : Type} (now : W → Z * W) (sha1 : list ascii → list ascii).

Lemma comma_free_checksum data : comma_free (calculatePieceChecksum sha1 data).
Proof.
  apply comma_free_hex. induction (sha1 data) as [|c l IH]; [done|]. rewrite fmap_cons. cbn [mjoin list_join].
  rewrite forallb_app, (proj2 (hex_byte_spec c)). exact IH.
Qed.

Lemma piece_fields_free limit h i p : piece_ok sha1 limit h i p → Forall comma_free (piece_fields p).
Proof.
  intros (_&_&_&_&_&_&Hsum&_). repeat constructor; auto with csv. rewrite Hsum.
  destruct (p_data p); [by intros ?%not_elem_of_nil|apply comma_free_checksum].
Qed.

(** C40: The export can be read back: in every reachable state of the manager,
    splitting the exported lines at their commas gives the header and the
    fields of every piece of the hash, in the order of their indices, and the
    index is the number its first field denotes.  For a hash without pieces the
    file is empty, and the export reports success all the same. *)
Theorem exported_pieces_readable config ops w h :
  let m := (run_piece_ops now sha1 ops (new_piece_manager config, w)).1 in
  ∃ rows, exportPieces true m h = (true, Some rows)
    ∧ (pieces_ m !! h = None → rows = [])
    ∧ (∀ ps, pieces_ m !! h = Some ps → read_row <$> rows = piece_header :: (piece_fields <$> (int_map_iter ps).*2))
    ∧ (∀ i p, getPiece m h i = Some p →
         piece_fields p ∈ read_row <$> rows ∧ (head (piece_fields p) ≫= strtol 10) = Some i).
Proof.
  intros m. destruct (reached_ok now sha1 config ops w : manager_ok sha1 (largest_limit config ops) m) as [_ Hp _].
  unfold exportPieces, export_file. assert (Hread : ∀ ps, pieces_ m !! h = Some ps →
    read_row <$> csv_row piece_header :: ((λ p, csv_row (piece_fields p)) <$> (int_map_iter ps).*2)
    = piece_header :: (piece_fields <$> (int_map_iter ps).*2)).
  { intros ps Hps. rewrite fmap_cons. assert (read_row (csv_row piece_header) = piece_header) as -> by (vm_compute; reflexivity). f_equal. rewrite <-list_fmap_compose. apply list_fmap_ext.
    intros k p Hk. apply read_csv_row; [done|]. apply list_elem_of_lookup_2, list_elem_of_fmap in Hk as ([i q] & -> & Hin).
    apply elem_of_int_map_iter in Hin. exact (piece_fields_free _ _ _ _ (Hp _ _ Hps _ _ Hin)). }
  eexists. split; [reflexivity|]. split_all.
  - by intros ->.
  - intros ps Hps. rewrite Hps. by apply Hread.
  - intros i p (ps & Hps & Hi)%bind_Some. rewrite Hps, Hread by done.
    destruct (Hp _ _ Hps _ _ Hi) as (_ & <- & _). split; [|apply strtol_to_string].
    apply elem_of_cons. right. apply list_elem_of_fmap. exists p. split; [done|]. apply list_elem_of_fmap.
    exists (piece_index p, p). split; [done|]. by apply elem_of_int_map_iter.
Qed.

(** Two of the four performance metrics are asked for the empty hash, under
    which no piece is ever filed: they are zero in every reachable state. *)
Theorem performance_ratios_zero config ops w :
  let m := (run_piece_ops now sha1 ops (new_piece_manager config, w)).1 in
  getPieceManagerPerformanceMetrics m =
    [("total_pieces", double_of_int (getTotalPieceCount m)); ("average_quality_score", s_avg_quality_score (pm_stats m));
     ("completion_ratio", double_of_int 0); ("validity_ratio", double_of_int 0)].
Proof.
  intros m. destruct (reached_ok now sha1 config ops w : manager_ok sha1 (largest_limit config ops) m) as [_ Hp _].
  assert (getPieceCount m "" = 0%Z) as Hc.
  { unfold getPieceCount. destruct (pieces_ m !! "") as [ps|] eqn:Hps; [|done].
    destruct (decide (ps = ∅)) as [->|Hne]; [done|]. apply map_choose in Hne as (i & p & Hi).
    by destruct (Hp _ _ Hps _ _ Hi) as (_ & _ & Hh & _). }
  unfold getPieceManagerPerformanceMetrics, getPieceCompletionRatio, getPieceValidityRatio. by rewrite Hc.
Qed.
End Reached.

(** A configuration without a total size makes the capacity undefined, and one
    without a piece size the recommendations and the issues. *)
Theorem reports_undefined m :
  (max_piece_size (pm_config m) = 0%Z ↔ getPieceManagerRecommendations m = None)
  ∧ (max_piece_size (pm_config m) = 0%Z ↔ getPieceManagerIssues m = None)
  ∧ (pieces_ m = ∅ → max_total_size (pm_config m) = 0%Z → ("utilization_percent", None) ∈ getPieceManagerCapacity m).
Proof.
  unfold getPieceManagerRecommendations, getPieceManagerIssues, too_many_pieces. split_all.
  - by case_decide.
  - by case_decide.
  - intros Hm Hz. unfold getPieceManagerCapacity, getTotalPieceCount. rewrite Hm, Hz, map_iter_empty.
    do 4 (apply elem_of_cons; right). by apply list_elem_of_singleton.
Qed.

(** ** The example run of [PieceFacts] *)

Definition sample_ops : list piece_op := [OpRequest sample_hash 0; OpReceived sample_hash 0 sample_data; OpRequest sample_hash 1].

Lemma exported_pieces_readable_witness :
  ∃ rows, exportPieces true sample_run.1 sample_hash = (true, Some rows) ∧ length rows = 3.
Proof.
  destruct (exported_pieces_readable second_tick toy_sha1 default_PieceConfig sample_ops 0%Z sample_hash)
    as (rows & Hrows & _).
  exists rows. split; [exact Hrows|]. vm_compute in Hrows. by injection Hrows as <-.
Defined.

Lemma performance_ratios_zero_witness :
  getPieceManagerPerformanceMetrics sample_run.1 !! 2 = Some ("completion_ratio", double_of_int 0)
  ∧ getPieceCompletionRatio sample_run.1 sample_hash = double_lit 1 2.
Proof.
  split; [|vm_compute; reflexivity]. change sample_run with (run_piece_ops second_tick toy_sha1 sample_ops (new_piece_manager default_PieceConfig, 0%Z)).
  by rewrite (performance_ratios_zero second_tick toy_sha1 default_PieceConfig sample_ops 0%Z).
Defined.
