(* ===== verification/RoutingReports.v ===== *)
(** * The reports of the routing table

    Models, of [src/src/routing_table_manager.cpp], [exportRoutingTable],
    [exportStatistics], the performance metrics, the capacity and its getters,
    and the names of the states.  The theorems say which rows of the export can
    be read back, and what the capacity report has to do with the table. *)

From S2P Require Import Prelude HashFormat Numeric DoubleText Sql Cli Reports RoutingTable RoutingFacts RoutingRuns.

Definition node_status_int (s : NodeStatus) : Z :=
  match s with GOOD => 0 | UNKNOWN => 1 | BAD => 2 | QUESTIONABLE => 3 | EVICTED => 4 end.
Definition nodeStatusToString (s : NodeStatus) : string :=
  match s with GOOD => "GOOD" | UNKNOWN => "UNKNOWN" | BAD => "BAD" | QUESTIONABLE => "QUESTIONABLE" | EVICTED => "EVICTED" end.
Definition bucketStatusToString (s : BucketStatus) : string :=
  match s with ACTIVE => "ACTIVE" | INACTIVE => "INACTIVE" | FULL => "FULL" | SPLIT => "SPLIT" | MERGED => "MERGED" end.

Section Reports.
Implicit Types (rt : routing_table).

Definition getAverageQualityScore rt : double := st_avg_quality_score (stats_ rt).
Definition getAverageResponseTime rt : Z := st_avg_response_time (stats_ rt).
Definition getMaxRoutingTableSize rt : Z := max_routing_table_size (config_ rt).

Definition getRoutingTablePerformanceMetrics rt : list (string * double) :=
  [("routing_efficiency", getRoutingEfficiency rt); ("node_utilization", getNodeUtilization rt);
   ("average_quality_score", getAverageQualityScore rt); ("response_time_ms", double_of_int (getAverageResponseTime rt))].

(** Sizes are [size_t], cast to [int]; the percentage is [None] where its cast
    is undefined. *)
Definition getRoutingTableCapacity rt : list (string * option Z) :=
  let limit := getMaxRoutingTableSize rt in
  [("current_size", Some (int_of_Z (getRoutingTableSize rt))); ("max_size", Some (int_of_Z limit));
   ("available_capacity", Some (int_of_Z (size_t_sub limit (getRoutingTableSize rt))));
   ("utilization_percent", int_of_double (double_mul (getNodeUtilization rt) (double_of_int 100)))].

(** The identifier is written as its twenty bytes. *)
Definition node_fields (n : DHTNode) : list string :=
  [node_id n; ip_address n; to_string (port n); to_string (node_status_int (n_status n)); double_text (quality_score n);
   to_string (n_avg_response_time n)].
Definition node_header : list string := ["NodeID"; "IP"; "Port"; "Status"; "QualityScore"; "ResponseTime"].
Definition registered_nodes rt : list DHTNode := omap (λ l, node_store rt !! l) (registered rt).
Definition exportRoutingTable (opens : bool) rt : bool * option (list string) :=
  export_file opens (csv_row node_header :: ((λ n, csv_row (node_fields n)) <$> registered_nodes rt)).

Definition routing_statistics_rows (s : RoutingTableStatistics) : list (list string) :=
  [["TotalNodes"; to_string (st_total_nodes s)]; ["GoodNodes"; to_string (st_good_nodes s)];
   ["UnknownNodes"; to_string (st_unknown_nodes s)]; ["BadNodes"; to_string (st_bad_nodes s)];
   ["TotalBuckets"; to_string (st_total_buckets s)]; ["ActiveBuckets"; to_string (st_active_buckets s)];
   ["AverageQualityScore"; double_text (st_avg_quality_score s)]; ["AverageResponseTime"; to_string (st_avg_response_time s)]].
Definition exportStatistics (opens : bool) rt : bool * option (list string) :=
  export_file opens (csv_row ["Metric"; "Value"] :: (csv_row <$> routing_statistics_rows (stats_ rt))).
End Reports.

(** A node's row can be read back exactly when neither its identifier nor its
    address holds a comma. *)
Lemma node_row_readable n :
  read_row (csv_row (node_fields n)) = node_fields n ↔ comma_free (node_id n) ∧ comma_free (ip_address n).
Proof.
  rewrite read_csv_row_iff by done. split.
  - intros Hall. inversion_clear Hall as [|? ? Hid Hrest]. by inversion_clear Hrest.
  - intros [Hid Hip]. repeat constructor; auto with csv.
Qed.

(** The statistics are always read back, and the table when no node has a
    comma in its identifier or address; an identifier is any twenty bytes, so
    that the manager accepts nodes whose row is torn. *)
Theorem exported_table_readable rt :
  (read_row <$> (csv_row <$> routing_statistics_rows (stats_ rt)) = routing_statistics_rows (stats_ rt))
  ∧ (Forall (λ n, comma_free (node_id n) ∧ comma_free (ip_address n)) (registered_nodes rt) →
     ∃ rows, exportRoutingTable true rt = (true, Some rows) ∧ read_row <$> rows = node_header :: (node_fields <$> registered_nodes rt))
  ∧ (isValidNodeId "aaaaaaaaa,aaaaaaaaaa" = true ∧ ¬ comma_free "aaaaaaaaa,aaaaaaaaaa").
Proof.
  split; [|split].
  - plain_rows.
  - intros Hall. unfold exportRoutingTable, export_file. eexists. split; [reflexivity|]. rewrite fmap_cons.
    assert (read_row (csv_row node_header) = node_header) as -> by (vm_compute; reflexivity). f_equal.
    rewrite <-list_fmap_compose. apply list_fmap_ext. intros k n Hn. apply node_row_readable.
    rewrite Forall_forall in Hall. apply Hall. by eapply list_elem_of_lookup_2.
  - split; [by vm_compute|]. unfold comma_free. intros Hno. apply Hno, list_elem_of_In. simpl. tauto.
Qed.

(** The names of the states are different. *)
Lemma status_names_injective (s t : NodeStatus) (b c : BucketStatus) :
  (nodeStatusToString s = nodeStatusToString t → s = t) ∧ (bucketStatusToString b = bucketStatusToString c → b = c).
Proof. by destruct s, t, b, c. Qed.

(** ** The capacity of the table

    Adding nodes, and the two numbers the capacity report gives for how full
    the table is. *)

Definition valid_entry (e : string * string * Z) : Prop :=
  isValidNodeId e.1.1 = true ∧ isValidIPAddress e.1.2 = true ∧ isValidPort e.2 = true.
Definition add_all (es : list (string * string * Z)) : list table_op := (λ e, OpAdd e.1.1 e.1.2 e.2) <$> es.

Section Capacity.
Context {W : Type} (now : W → Z * W).
Implicit Types (w : W) (rt : routing_table).

(** A node that is valid and new is always entered. *)
Lemma addNode_entered id ip p rt w :
  valid_entry (id, ip, p) → node_registry_ rt !! id = None →
  ∃ l, node_registry_ (addNode now id ip p rt w).1.2 = <[id := l]> (node_registry_ rt).
Proof.
  intros (Hid & Hip & Hp) Hnew. exists (next_loc rt). unfold addNode. cbn [fst snd] in *. rewrite Hid, Hip, Hp, Hnew. cbn [negb orb].
  destruct (now w) as [seen w1], (now w1) as [eviction w2]. repeat case_match; done.
Qed.

Lemma add_all_size es rt w :
  Forall valid_entry es → NoDup es.*1.*1 → (∀ e, e ∈ es → node_registry_ rt !! e.1.1 = None) →
  size (node_registry_ (run_ops now (add_all es) (rt, w)).1) = size (node_registry_ rt) + length es.
Proof.
  revert rt w. induction es as [|[[id ip] p] es IH]; intros rt w Hv Hnd Hnew; [simpl; lia|].
  inversion_clear Hv as [|?? He Hes]. cbn in Hnd. apply NoDup_cons in Hnd as [Hid Hnd].
  assert (node_registry_ rt !! id = None) as Hfresh by (apply (Hnew (id, ip, p)); by left).
  destruct (addNode_entered id ip p rt w He Hfresh) as [l Hl].
  change (run_ops now (add_all ((id, ip, p) :: es)) (rt, w))
    with (run_ops now (add_all es) (run_op now (OpAdd id ip p) rt w)). cbn [run_op].
  destruct (addNode now id ip p rt w) as [[added rt'] w']. cbn [fst snd] in Hl. rewrite IH; [|done|done|].
  - rewrite Hl, map_size_insert_None by done. cbn [length]. lia.
  - intros e Hin. rewrite Hl, lookup_insert_ne; [apply Hnew; by right|].
    intros ->. apply Hid. rewrite <-list_fmap_compose. apply list_elem_of_fmap. by exists e.
Qed.

(** The limit of the table is not a limit: whatever the configuration, adding
    [n] different valid nodes to a new table makes it hold [n]. *)
Theorem size_not_limited o config es w :
  Forall valid_entry es → NoDup es.*1.*1 →
  getRoutingTableSize (run_ops now (add_all es) (new_routing_table now o config w)).1 = Z.of_nat (length es).
Proof.
  intros Hv Hnd. unfold getRoutingTableSize.
  assert (node_registry_ (new_routing_table now o config w).1 = ∅) as Hnew.
  { unfold new_routing_table, initializeRoutingBuckets.
    generalize [0; 1; 2; 3; 4; 5; 6; 7]%Z. intros ks.
    assert (∀ rt w, node_registry_ (foldl (λ s i, createBucket now i i s.1 s.2) (rt, w) ks).1 = node_registry_ rt) as Hk; [|by rewrite Hk].
    clear w. induction ks as [|k ks IH]; intros rt w; [done|]. cbn [foldl]. unfold createBucket at 2. cbn [fst snd].
    do 3 destruct (now _). by rewrite IH. }
  destruct (new_routing_table now o config w) as [rt w'] eqn:Hrt. cbn [fst] in Hnew.
  rewrite add_all_size; [by rewrite Hnew, map_size_empty|done..|]. intros e _. by rewrite Hnew, lookup_empty.
Qed.

(** The utilization is computed from the statistics, which count the nodes in
    the buckets: after any run in which our own identifier is not added, and a
    pass of the statistics, it is 0 percent, while the size of the table counts
    the registered nodes; the recommendation for a full table is never given. *)
Theorem utilization_always_zero o config ops w :
  (0 < max_bucket_size config)%Z → Forall (foreign_op o) ops →
  let s := run_ops now ops (new_routing_table now o config w) in
  let rt := (updateStatistics now s.1 s.2).1 in
  (0 ≤ getMaxRoutingTableSize rt < 2 ^ 53)%Z →
  getRoutingTableCapacity rt !! 3 = Some ("utilization_percent", Some 0%Z)
  ∧ getRoutingTablePerformanceMetrics rt !! 1 = Some ("node_utilization", double_of_int 0)
  ∧ "Routing table is nearly full, consider increasing max size or improving eviction" ∉ getRoutingTableRecommendations rt.
Proof.
  intros Hm Hops s rt Hmax. destruct (run_ops_unbucketed now o ops (new_routing_table now o config w)) as [Ho Hs];
    [apply new_routing_table_wf|by apply new_unbucketed|done|].
  assert (st_total_nodes (stats_ rt) = 0%Z) as Ht.
  { pose proof (unbucketed_no_nodes o s.1 (conj Ho Hs)) as Hnil. unfold rt, updateStatistics. destruct (now s.2). simpl. by rewrite Hnil. }
  assert (getNodeUtilization rt = double_of_int 0) as Hu.
  { unfold getNodeUtilization. rewrite Ht. unfold getMaxRoutingTableSize in Hmax.
    destruct (Z.eqb_spec (max_routing_table_size (config_ rt)) 0); [done|]. apply zero_share. lia. }
  split_all.
  - unfold getRoutingTableCapacity. rewrite Hu. reflexivity.
  - unfold getRoutingTablePerformanceMetrics. rewrite Hu. reflexivity.
  - unfold getRoutingTableRecommendations. rewrite Hu. change (double_lt (double_lit 9 10) (double_of_int 0)) with false.
    repeat case_match; by_evaluation.
Qed.
End Capacity.

(** ** A table with room for one node *)

Definition one_node_config : RoutingConfig := default_RoutingConfig <| max_routing_table_size := 1%Z |>.
Definition two_entries : list (string * string * Z) := [(id_b, "10.0.0.1", 6881%Z); (id_p, "10.0.0.2", 6881%Z)].

Lemma size_not_limited_witness :
  getRoutingTableSize (run_ops tick (add_all two_entries) (new_routing_table tick our_id one_node_config 0%Z)).1 = 2%Z.
Proof. apply (size_not_limited tick our_id one_node_config two_entries 0%Z); by_evaluation. Defined.

Lemma utilization_always_zero_witness :
  let s := run_ops tick (add_all two_entries) (new_routing_table tick our_id one_node_config 0%Z) in
  let capacity := getRoutingTableCapacity (updateStatistics tick s.1 s.2).1 in
  capacity !! 2 = Some ("available_capacity", Some (-1)%Z) ∧ capacity !! 3 = Some ("utilization_percent", Some 0%Z).
Proof.
  intros s capacity. split; [by vm_compute|].
  apply (utilization_always_zero tick our_id one_node_config (add_all two_entries) 0%Z); [done| |by vm_compute].
  repeat constructor; discriminate.
Defined.
