(* ===== verification/PerformanceReports.v ===== *)
(** * The reports of the performance monitor

    Models the functions of [src/src/performance_monitor.cpp] that only read:
    the statistics of a metric and their tables, the exports, the health
    status, the capacity, the metrics of the monitor itself and the names of
    the types and levels. *)

From S2P Require Import Prelude HashFormat Numeric DoubleText Sql Cli Reports Performance.

Definition metric_type_int (t : MetricType) : Z :=
  match t with COUNTER => 0 | GAUGE => 1 | HISTOGRAM => 2 | TIMER => 3 | RATE => 4 | PERCENTILE => 5 end.
Definition metricTypeToString (t : MetricType) : string :=
  match t with
  | COUNTER => "COUNTER" | GAUGE => "GAUGE" | HISTOGRAM => "HISTOGRAM" | TIMER => "TIMER" | RATE => "RATE" | PERCENTILE => "PERCENTILE"
  end.
Definition alertLevelToString (l : AlertLevel) : string :=
  match l with A_INFO => "INFO" | A_WARNING => "WARNING" | A_ERROR => "ERROR" | A_CRITICAL => "CRITICAL" end.

Section Reports.
Implicit Types (m : performance_monitor).

Definition getTotalMetricCountByType (type : MetricType) m : Z := getMetricCountByType type m.
Definition getTotalMetricCountByLabels (labels : gmap string string) m : Z := getMetricCountByLabels labels m.
Definition getTotalMetricCountByMetadata (metadata : gmap string string) m : Z := getMetricCountByMetadata metadata m.

Definition getMetricStatistics (name : string) m : list (string * double) :=
  [("latest", getLatestMetricValue name m); ("average", getMetricAverageValue name m); ("minimum", getMetricMinimumValue name m);
   ("maximum", getMetricMaximumValue name m); ("sum", getMetricSumValue name m); ("count", double_of_int (getMetricCount name m))].

Definition getMetricStatisticsByName m : gmap string Z := (λ l, Z.of_nat (length l)) <$> metrics_ m.
(** A type that no series ends with has no entry. *)
Definition getMetricStatisticsByType m : list (MetricType * Z) :=
  filter (λ q, q.2 ≠ 0%Z) ((λ t, (t, getMetricCountByType t m)) <$> [COUNTER; GAUGE; HISTOGRAM; TIMER; RATE; PERCENTILE]).

(** Labels and metadata: "key=value;" for each entry. *)
Definition pairs_text (l : gmap string string) : string :=
  foldl (λ s q, s +:+ q.1 +:+ "=" +:+ q.2 +:+ ";") "" (map_iter l).
Definition metric_fields (x : PerformanceMetric) : list string :=
  [pf_name x; to_string (metric_type_int (pf_type x)); double_text (pf_value x); to_string (pf_timestamp x);
   pairs_text (pf_labels x); pairs_text (pf_metadata x)].
Definition exportMetrics (opens : bool) m : bool * option (list string) :=
  export_file opens (csv_row ["MetricName"; "Type"; "Value"; "Timestamp"; "Labels"; "Metadata"]
                     :: ((λ x, csv_row (metric_fields x)) <$> all_metrics m)).

Definition performance_statistics_rows (s : PerformanceStatistics) : list (list string) :=
  [["TotalMetrics"; to_string (ps_total_metrics s)]; ["CounterMetrics"; to_string (ps_metrics_of s COUNTER)];
   ["GaugeMetrics"; to_string (ps_metrics_of s GAUGE)]; ["HistogramMetrics"; to_string (ps_metrics_of s HISTOGRAM)];
   ["TimerMetrics"; to_string (ps_metrics_of s TIMER)]; ["RateMetrics"; to_string (ps_metrics_of s RATE)];
   ["PercentileMetrics"; to_string (ps_metrics_of s PERCENTILE)]; ["TotalAlerts"; to_string (ps_total_alerts s)];
   ["InfoAlerts"; to_string (ps_alerts_of s A_INFO)]; ["WarningAlerts"; to_string (ps_alerts_of s A_WARNING)];
   ["ErrorAlerts"; to_string (ps_alerts_of s A_ERROR)]; ["CriticalAlerts"; to_string (ps_alerts_of s A_CRITICAL)];
   ["AverageMetricValue"; double_text (avg_metric_value s)]; ["MinMetricValue"; double_text (min_metric_value s)];
   ["MaxMetricValue"; double_text (max_metric_value s)]].
Definition exportStatistics (opens : bool) m : bool * option (list string) :=
  export_file opens (csv_row ["Metric"; "Value"] :: (csv_row <$> performance_statistics_rows (perf_stats m))).

(** [alert_threshold] is the member of the configuration that the record of
    [Performance] leaves out. *)
Definition getHealthStatus (alert_threshold : double) (running : bool) m : list (string * string) :=
  [("total_metrics", to_string (getTotalMetricCount m)); ("total_alerts", to_string (ps_total_alerts (perf_stats m)));
   ("performance_threshold", double_to_string (performance_threshold (perf_config m)));
   ("alert_threshold", double_to_string alert_threshold);
   ("max_metrics_per_type", to_string (max_metrics_per_type (perf_config m)));
   ("max_alerts_per_level", to_string (max_alerts_per_level (perf_config m))); ("is_running", bool_text running)].

Definition getPerformanceMonitorPerformanceMetrics m : list (string * double) :=
  [("total_metrics", double_of_int (getTotalMetricCount m)); ("total_alerts", double_of_int (ps_total_alerts (perf_stats m)));
   ("avg_metric_value", avg_metric_value (perf_stats m)); ("performance_threshold", performance_threshold (perf_config m))].

(** [None]: the cast of the percentage is undefined. *)
Definition getPerformanceMonitorCapacity m : list (string * option Z) :=
  let count := getTotalMetricCount m in
  let most := max_metrics_per_type (perf_config m) in
  [("current_metrics", Some count); ("max_metrics_per_type", Some most); ("available_capacity", Some (most - count)%Z);
   ("utilization_percent", int_of_double (double_mul (double_div (double_of_int count) (double_of_int most)) (double_of_int 100)))].
End Reports.

(** The exported statistics are read back; the metrics are not in general:
    labels are written without escaping, so that two different sets of labels
    give the same text, and a comma in the name of a metric tears its row. *)
Theorem exported_metrics_ambiguous m x :
  (read_row <$> (csv_row <$> performance_statistics_rows (perf_stats m)) = performance_statistics_rows (perf_stats m))
  ∧ (∃ l1 l2, l1 ≠ l2 ∧ pairs_text l1 = pairs_text l2
       ∧ metric_fields (x <| pf_labels := l1 |>) = metric_fields (x <| pf_labels := l2 |>))
  ∧ (read_row (csv_row (metric_fields x)) = metric_fields x → comma_free (pf_name x)).
Proof.
  split_all.
  - plain_rows.
  - exists {["a" := "1;b=2"]}, {["a" := "1"; "b" := "2"]}.
    assert (pairs_text {["a" := "1;b=2"]} = pairs_text {["a" := "1"; "b" := "2"]}) as Htext by (vm_compute; reflexivity).
    split_all; [|exact Htext|].
    + intros Heq. apply (f_equal (λ m : gmap string string, m !! "a")) in Heq. by vm_compute in Heq.
    + unfold metric_fields. simpl. by rewrite Htext.
  - intros Hread%read_csv_row_iff; [|done]. by inversion_clear Hread.
Qed.

(** The share in use of a limit of zero is undefined for an empty monitor. *)
Theorem capacity_undefined m :
  metrics_ m = ∅ → max_metrics_per_type (perf_config m) = 0%Z → ("utilization_percent", None) ∈ getPerformanceMonitorCapacity m.
Proof.
  intros Hm Hz. unfold getPerformanceMonitorCapacity, getTotalMetricCount. rewrite Hm, Hz, map_iter_empty.
  do 3 (apply elem_of_cons; right). by apply list_elem_of_singleton.
Qed.
