(* ===== verification/HealthReports.v ===== *)
(** * The health reports of the managers

    Models the [getHealthStatus] methods of [dht_token_manager.cpp],
    [timeout_manager.cpp], [request_cache_manager.cpp],
    [ut_metadata_protocol.cpp], [bittorrent_protocol.cpp],
    [direct_peer_connector.cpp], [hybrid_connection_manager.cpp],
    [extension_protocol_diagnostics.cpp], [bep9_issue_resolver.cpp],
    [enhanced_bootstrap.cpp], [node_quality_tracker.cpp] and
    [database_manager.cpp].  A report is the list of its entries, the counts
    before the rest.  The theorems: the entries of a report have different
    names, and every count is read back from its text; and four settings the
    database manager reports have no influence on its connections. *)

From S2P Require Import Prelude HashFormat Numeric DatabasePool Reports.
From S2P Require Import Tokens Timeouts RequestCache UtMetadata PeerProtocol PeerConnector HybridConnection.
From S2P Require Import Diagnostics IssueResolver Bootstrap NodeQuality.

(** [status[name] = std::to_string(count)] for each count. *)
Definition counts_text (counts : list (string * Z)) : list (string * string) := prod_map id to_string <$> counts.

Definition token_counts (m : token_manager) : list (string * Z) :=
  [("active_tokens", getActiveTokenCount m); ("expired_tokens", getExpiredTokenCount m);
   ("total_tokens", getTotalTokenCount m); ("token_lifetime", token_lifetime (tk_config m))].
Definition token_health (m : token_manager) : list (string * string) := counts_text (token_counts m).

Definition timeout_counts {W} (m : timeout_manager W) : list (string * Z) :=
  [("active_timeouts", getActiveTimeoutCount m); ("expired_timeouts", getExpiredTimeoutCount m);
   ("total_timeouts", getTotalTimeoutCount m)].
Definition timeout_health {W} (running : bool) (m : timeout_manager W) : list (string * string) :=
  counts_text (timeout_counts m) ++ [("is_running", bool_text running)].

Definition cache_counts (c : request_cache) : list (string * Z) :=
  [("active_requests", RequestCache.getActiveRequestCount c); ("completed_requests", RequestCache.getCompletedRequestCount c);
   ("failed_requests", getFailedRequestCount c); ("expired_requests", getExpiredRequestCount c);
   ("total_requests", RequestCache.getTotalRequestCount c)].
Definition cache_health (running : bool) (c : request_cache) : list (string * string) :=
  counts_text (cache_counts c) ++ [("is_running", bool_text running)].

Definition ut_counts (u : ut_metadata) : list (string * Z) :=
  [("active_requests", UtMetadata.getActiveRequestCount u); ("completed_requests", UtMetadata.getCompletedRequestCount u);
   ("total_requests", UtMetadata.getTotalRequestCount u); ("request_timeout", ut_request_timeout u)].
Definition ut_health (u : ut_metadata) : list (string * string) := counts_text (ut_counts u).

Definition protocol_counts (p : peer_protocol) : list (string * Z) :=
  [("active_handshakes", getActiveHandshakeCount p); ("extensions", getExtensionCount p);
   ("handshake_timeout", handshake_timeout (pp_config p)); ("extension_timeout", extension_timeout (pp_config p))].
Definition protocol_health (p : peer_protocol) : list (string * string) := counts_text (protocol_counts p).

Definition connector_counts (c : connector) : list (string * Z) :=
  [("total_connections", Z.of_nat (size (connections_ c))); ("active_connections", PeerConnector.getConnectionCount c);
   ("connection_timeout", connection_timeout c)].
Definition connector_health (c : connector) : list (string * string) := counts_text (connector_counts c).

Definition hybrid_counts {M} (h : hybrid M) : list (string * Z) :=
  [("total_connections", Z.of_nat (size (hybrid_connections_ h))); ("active_connections", HybridConnection.getConnectionCount h);
   ("direct_connections", getDirectConnectionCount h); ("libtorrent_connections", getLibtorrentConnectionCount h);
   ("connection_timeout", hc_connection_timeout (hybrid_config h))].
Definition hybrid_health {M} (h : hybrid M) : list (string * string) := counts_text (hybrid_counts h).

Definition diagnostics_counts (d : diagnostics) : list (string * Z) :=
  [("handshake_attempts", getHandshakeAttemptCount d); ("capability_negotiations", getCapabilityNegotiationCount d);
   ("protocol_messages", getProtocolMessageCount d); ("data_retention", dg_data_retention (dg_config d));
   ("max_handshake_attempts", max_handshake_attempts (dg_config d)); ("max_negotiations", max_negotiations (dg_config d));
   ("max_messages", max_messages (dg_config d))].
Definition diagnostics_health (d : diagnostics) : list (string * string) :=
  counts_text (diagnostics_counts d)
  ++ [("handshake_success_rate", double_to_string (getHandshakeSuccessRate d));
      ("capability_success_rate", double_to_string (getCapabilityNegotiationSuccessRate d));
      ("message_success_rate", double_to_string (getProtocolMessageSuccessRate d))].

Definition resolver_counts (r : resolver) : list (string * Z) :=
  [("issue_diagnoses", getIssueDiagnosisCount r); ("message_flow_analyses", getMessageFlowAnalysisCount r);
   ("failure_patterns", getFailurePatternCount r); ("disconnection_records", getDisconnectionRecordCount r);
   ("data_retention", rv_data_retention (rv_config r)); ("max_diagnoses", max_diagnoses (rv_config r));
   ("max_analyses", max_analyses (rv_config r)); ("max_patterns", max_patterns (rv_config r));
   ("max_disconnections", max_disconnections (rv_config r))].
Definition resolver_health (r : resolver) : list (string * string) :=
  counts_text (resolver_counts r) ++ [("average_flow_efficiency", double_to_string (getAverageFlowEfficiency r))].

Definition bootstrap_counts (b : bootstrap) : list (string * Z) :=
  [("bootstrap_attempts", bootstrap_attempts_ b); ("successful_nodes", getSuccessfulNodeCount b);
   ("failed_nodes", getFailedNodeCount b); ("total_nodes", getTotalNodeCount b);
   ("avg_response_time", Bootstrap.getAverageResponseTime b)].
Definition bootstrap_health (b : bootstrap) : list (string * string) :=
  counts_text (bootstrap_counts b)
  ++ [("bootstrap_state", bootstrapStateToString (bootstrap_state_ b)); ("success_rate", double_to_string (getSuccessRate b))].

Definition getGoodNodeCount (s : quality_tracker) : Z := getNodeCountByStatus NodeQuality.GOOD s.
Definition getBadNodeCount (s : quality_tracker) : Z := getNodeCountByStatus NodeQuality.BAD s.
Definition getUnknownNodeCount (s : quality_tracker) : Z := getNodeCountByStatus NodeQuality.UNKNOWN s.
Definition quality_counts (s : quality_tracker) : list (string * Z) :=
  [("total_nodes", getNodeCount s); ("good_nodes", getGoodNodeCount s); ("bad_nodes", getBadNodeCount s);
   ("unknown_nodes", getUnknownNodeCount s); ("blacklisted_nodes", getBlacklistedNodeCount s)].
Definition quality_health (s : quality_tracker) : list (string * string) :=
  counts_text (quality_counts s) ++ [("average_quality_score", double_to_string (NodeQuality.getAverageQualityScore s))].

Definition database_counts (config : DatabaseConfig) : list (string * Z) :=
  [("port", db_port config); ("max_connections", db_max_connections config); ("connection_timeout", db_connection_timeout config)].
Definition database_health {C} (d : database_manager C) : list (string * string) :=
  let config := db_config d in
  counts_text (database_counts config)
  ++ [("host", db_host config); ("database", db_database config); ("auto_reconnect", bool_text (db_auto_reconnect config));
      ("ssl_enabled", bool_text (db_ssl_enabled config)); ("charset", db_charset config)].

(** ** Reading a report *)

Definition lookup_status (name : string) (report : list (string * string)) : option string :=
  snd <$> List.find (λ q, bool_decide (q.1 = name)) report.

(** The entries have different names, and every count is found under its name. *)
Definition readable (counts : list (string * Z)) (report : list (string * string)) : Prop :=
  NoDup report.*1 ∧ ∀ name n, (name, n) ∈ counts → (lookup_status name report ≫= strtol 10) = Some n.

Lemma counts_readable counts rest :
  NoDup (counts_text counts ++ rest).*1 → readable counts (counts_text counts ++ rest).
Proof.
  intros Hnd. split; [done|]. intros name n Hin. induction counts as [|[k z] counts IH]; [by apply not_elem_of_nil in Hin|].
  cbn [counts_text fmap list_fmap app] in Hnd |- *. apply NoDup_cons in Hnd as [Hk Hnd]. unfold lookup_status. cbn [List.find fst prod_map].
  unfold id at 1. destruct (decide (k = name)) as [->|Hne].
  - rewrite bool_decide_eq_true_2 by done. apply elem_of_cons in Hin as [[= <-]|Hin]; [simpl; apply strtol_to_string|].
    destruct Hk. rewrite fmap_app. apply elem_of_app. left. apply list_elem_of_fmap. exists (name, to_string n). split; [done|].
    apply list_elem_of_fmap. by exists (name, n).
  - rewrite bool_decide_eq_false_2 by done. apply IH; [done|]. apply elem_of_cons in Hin as [[= <- _]|Hin]; done.
Qed.

Ltac readable_report :=
  first [apply counts_readable | rewrite <-(app_nil_r (counts_text _)); apply counts_readable];
  repeat (apply NoDup_cons; split; [intros Hin; refute_by_evaluation Hin|]); apply NoDup_nil_2.

(** Every report of a manager can be read: by name, and its counts as numbers. *)
Theorem health_reports_readable {W M C} m (t : timeout_manager W) c u p pc (h : hybrid M) d r b q (db : database_manager C) running :
  readable (token_counts m) (token_health m) ∧ readable (timeout_counts t) (timeout_health running t)
  ∧ readable (cache_counts c) (cache_health running c) ∧ readable (ut_counts u) (ut_health u)
  ∧ readable (protocol_counts p) (protocol_health p) ∧ readable (connector_counts pc) (connector_health pc)
  ∧ readable (hybrid_counts h) (hybrid_health h) ∧ readable (diagnostics_counts d) (diagnostics_health d)
  ∧ readable (resolver_counts r) (resolver_health r) ∧ readable (bootstrap_counts b) (bootstrap_health b)
  ∧ readable (quality_counts q) (quality_health q) ∧ readable (database_counts (db_config db)) (database_health db).
Proof.
  unfold token_health, timeout_health, cache_health, ut_health, protocol_health, connector_health, hybrid_health,
    diagnostics_health, resolver_health, bootstrap_health, quality_health, database_health. split_all; readable_report.
Qed.

(** ** Settings that are only reported *)

Section Unused.
Context {W C Row : Type} `{!Connector W C Row}.
Implicit Types (config : DatabaseConfig) (w : W).

(** The settings that [createConnection] and [initializeConnectionPool] look
    at. *)
Definition same_server config config' : Prop :=
  db_host config = db_host config' ∧ db_database config = db_database config' ∧ db_username config = db_username config'
  ∧ db_password config = db_password config' ∧ db_port config = db_port config'
  ∧ db_max_connections config = db_max_connections config'.

(** A manager is its configuration and its pool. *)
Lemma open_pool_agrees n config config' pool w : same_server config config' →
  ∃ pool' w',
    (∀ c, c = config ∨ c = config' →
      Nat.iter n (λ '(d, w), create_one d w) (mk_database_manager c pool, w) = (mk_database_manager c pool', w')).
Proof.
  intros (Hh & Hd & Hu & Hp & Hport & _). induction n as [|n (pool' & w' & IH)].
  - exists pool, w. done.
  - destruct (createConnection (mk_database_manager config pool') w') as [o w2] eqn:Hone.
    assert (∀ c, c = config ∨ c = config' → createConnection (mk_database_manager c pool') w' = (o, w2)) as Hc.
    { intros c [->| ->]; [done|]. rewrite <-Hone. unfold createConnection. cbn [db_config]. by rewrite Hh, Hd, Hu, Hp, Hport. }
    exists (match o with Some c => pool' ++ [c] | None => pool' end), w2. intros c Hin.
    rewrite Nat.iter_succ, (IH c Hin). unfold create_one. rewrite (Hc c Hin). by destruct o.
Qed.

(** The timeout, the reconnection, the encryption and the character set are
    never applied: configurations that differ in them alone open the same
    connections by the same calls.  The health reports differ all the same. *)
Theorem settings_only_reported config config' w :
  same_server config config' → db_ssl_enabled config ≠ db_ssl_enabled config' →
  let d := (new_database_manager config w).1 in let d' := (new_database_manager config' w).1 in
  connection_pool_ d = connection_pool_ d' ∧ (new_database_manager config w).2 = (new_database_manager config' w).2
  ∧ lookup_status "ssl_enabled" (database_health d) ≠ lookup_status "ssl_enabled" (database_health d').
Proof.
  intros Hsame Hssl. destruct (open_pool_agrees (Z.to_nat (db_max_connections config)) config config' [] w Hsame)
    as (pool & w' & Hopen). cbv zeta. unfold new_database_manager, initializeConnectionPool. cbn [db_config].
  destruct Hsame as (_ & _ & _ & _ & _ & <-). rewrite !Hopen by auto. split; [done|]. split; [done|].
  unfold lookup_status. cbn. intros [= Heq]. by destruct (db_ssl_enabled config), (db_ssl_enabled config').
Qed.
End Unused.
