(* ===== verification/Summaries.v ===== *)
(** * What the crawler prints about itself

    Models the statistics the components of the executable print: [print_status]
    of the downloader, [print_statistics] of the rate limiter, the observer, the
    BEP 51 indexer and the concurrent DHT manager, the progress and the final
    summary of [startCrawling], the banner of [main], and the getters they use.
    A component's line goes through the crawler's log callback ([log_line] of
    [Program]) behind the component's prefix. *)

From S2P Require Import Prelude World HashFormat RequestQueue Downloader Numeric SmartCrawler WorkerPool ConcurrentDht Sql Cli Crawler Program.

Definition with_prefix (prefix : string) (lines : list string) : list string := (λ l, prefix +:+ l) <$> lines.

(** ** The downloader *)

Section Downloader.
Context {W H : Type} `{Session W H}.
Implicit Types (d : downloader H MetadataRequestQueue).

Definition can_add_request d : bool := true.
Definition get_timed_out (now : Z) d : list string := tracker_timed_out now (m_request_timeout_seconds d) (m_active_tracker d).
Definition get_active_request_count d : nat := active_requests (m_active_tracker d).
Definition get_max_concurrent_requests d : Z := m_max_concurrent_requests d.
Definition downloader_queue_size d : nat := queue_size (dl_queue d).
(** The counters are [int], returned as [size_t]. *)
Definition get_total_queued d : Z := size_t_of_int (m_total_queued d).
Definition get_total_processed d : Z := size_t_of_int (m_total_processed d).
Definition force_process_queue d (w : W) : downloader H MetadataRequestQueue * W := process_queue d w.

Definition print_status (now : Z) d : list string :=
  let s := RequestQueue.get_stats now (dl_queue d) in
  let n := λ k : nat, to_string (Z.of_nat k) in
  with_prefix "[MetadataDownloader] "
    ["Metadata Downloader Status:"; "  Active requests: " +:+ n (get_active_request_count d);
     "  Max concurrent: " +:+ to_string (m_max_concurrent_requests d);
     "  Available slots: " +:+ to_string (get_available_slots d); "  Queue size: " +:+ n (total_queued s);
     "  Queue breakdown - High: " +:+ n (high_priority_count s) +:+ ", Medium: " +:+ n (medium_priority_count s)
       +:+ ", Low: " +:+ n (low_priority_count s);
     "  Oldest queued: " +:+ to_string (oldest_queue_time s) +:+ "s ago"; "  Total queued: " +:+ to_string (m_total_queued d);
     "  Total processed: " +:+ to_string (m_total_processed d); "  Success count: " +:+ to_string (m_success_count d);
     "  Failure count: " +:+ to_string (m_failure_count d); "  Timeout count: " +:+ to_string (m_timeout_count d)].
End Downloader.

(** ** The smart crawler and the indexer *)

Definition limiter_statistics (r : rate_limiter) : list string :=
  with_prefix "[RateLimiter] "
    ["=== RATE LIMITING STATISTICS ==="; "Total queries sent: " +:+ to_string (rl_total_queries r);
     "Blocked queries: " +:+ to_string (m_blocked_queries r);
     "Block rate: " +:+ double_to_string (double_mul (get_block_rate r) (double_of_int 100)) +:+ "%";
     "Current rate limit: " +:+ to_string (m_queries_per_second r) +:+ " queries/sec";
     "Burst limit: " +:+ to_string (m_burst_limit r) +:+ " queries per " +:+ to_string (m_burst_window_ms r) +:+ "ms";
     "================================"].

Definition observer_statistics (o : observer) : list string :=
  with_prefix "[PassiveObs] "
    (["=== PASSIVE OBSERVATION STATISTICS ==="; "Total observations: " +:+ to_string (m_total_observations o);
      "Unique infohashes: " +:+ to_string (m_unique_infohashes o); "Observations by source:"]
     ++ ((λ q, "  " +:+ q.1 +:+ ": " +:+ to_string q.2) <$> map_iter (source_counts o))
     ++ ["====================================="]).

Definition smart_statistics (s : smart_crawler) : list string :=
  limiter_statistics (m_rate_limiter s) ++ observer_statistics (m_passive_observer s).

Definition get_unique_infohashes (b : BEP51DHTIndexer) : nat := size (m_collected_infohashes b).
Definition get_known_nodes_count (b : BEP51DHTIndexer) : nat := size (m_known_nodes b).
Definition bep51_success_rate (b : BEP51DHTIndexer) : Z :=
  if (0 <? bep_total_queries b)%Z then Z.quot (bep_successful_queries b * 100) (bep_total_queries b) else 0%Z.
Definition bep51_statistics (b : BEP51DHTIndexer) : list string :=
  with_prefix "[BEP51Indexer] "
    ["=== BEP51 DHT INDEXER STATISTICS ==="; "Total queries sent: " +:+ to_string (bep_total_queries b);
     "Successful queries: " +:+ to_string (bep_successful_queries b);
     "Infohashes collected: " +:+ to_string (m_infohashes_collected b);
     "Unique infohashes: " +:+ to_string (Z.of_nat (get_unique_infohashes b));
     "Known DHT nodes: " +:+ to_string (Z.of_nat (get_known_nodes_count b));
     "Success rate: " +:+ to_string (bep51_success_rate b) +:+ "%"; "==================================="].

(** ** The concurrent DHT manager: written to standard output *)

Definition get_total_queries_sent (m : dht_manager) : Z := m_total_queries_sent m.
Definition get_queries_generated (m : dht_manager) : Z := m_queries_generated m.
Definition get_active_workers (m : dht_manager) : Z := m_worker_count m.
(** [queued] is the size of the manager's queue. *)
Definition dht_statistics (queued : nat) (m : dht_manager) : list string :=
  [""; "=== CONCURRENT DHT STATISTICS ===";
   "Active workers: " +:+ to_string (get_active_workers m) +:+ "/" +:+ to_string (Z.of_nat (c_num_workers m));
   "Queries generated: " +:+ to_string (get_queries_generated m); "Queries sent: " +:+ to_string (get_total_queries_sent m);
   "Queue size: " +:+ to_string (Z.of_nat queued); "Query delay: " +:+ to_string (c_query_delay_ms m) +:+ "ms";
   "================================="].

(** ** [startCrawling] and [main] *)

Section Crawler.
Context {H : Type}.
Implicit Types (k : crawler H).

(** [queries / (seconds + 1)]: [None] is a division by zero. *)
Definition rate_of (queries seconds : Z) : option Z :=
  if decide (seconds + 1 = 0)%Z then None else Some (Z.quot queries (seconds + 1)).

Definition total_queries_of k : Z :=
  if m_use_concurrent_mode k then get_total_queries_sent (m_concurrent_dht k) else m_total_queries k.

(** The final summary, after [total_seconds]. *)
Definition final_summary (verbose : bool) (total_seconds : Z) k : option (list string) :=
  if verbose then
    rate ← rate_of (total_queries_of k) total_seconds;
    Some ([""; "=== CRAWLING COMPLETE ==="]
      ++ (if m_use_concurrent_mode k then
            ["Mode: Concurrent DHT Worker Pool"; "Total queries sent: " +:+ to_string (get_total_queries_sent (m_concurrent_dht k));
             "Total queries generated: " +:+ to_string (get_queries_generated (m_concurrent_dht k));
             "Active workers: " +:+ to_string (get_active_workers (m_concurrent_dht k))]
          else ["Mode: Sequential DHT"; "Total queries sent: " +:+ to_string (m_total_queries k)])
      ++ ["Total torrents found: " +:+ to_string (m_torrents_found k); "Total peers found: " +:+ to_string (m_peers_found k);
          "Total metadata fetched: " +:+ to_string (m_metadata_fetched k);
          "Metadata queue size: " +:+ to_string (Z.of_nat (downloader_queue_size (m_metadata_downloader k)));
          "Total metadata queued: " +:+ to_string (get_total_queued (m_metadata_downloader k));
          "Total metadata processed: " +:+ to_string (get_total_processed (m_metadata_downloader k));
          "Total elapsed time: " +:+ to_string total_seconds +:+ " seconds";
          "Average rate: " +:+ to_string rate +:+ " queries/sec"])
  else Some [""; "Hashes found - " +:+ to_string (m_torrents_found k)].
End Crawler.

Definition banner (config : MySQLConfig) (max_queries : Z) : list string :=
  if verbose_mode config then
    ["=== DHT Torrent Discovery Tool ==="; "MySQL Server: " +:+ server config +:+ ":" +:+ to_string (port config);
     "Database: " +:+ database config; "User: " +:+ user config;
     (if (0 <? max_queries)%Z then "Max Queries: " +:+ to_string max_queries else "Running indefinitely (press Ctrl+C to stop)"); ""]
  else ["DHT Crawler started - Press Ctrl+C to stop"].

(** ** Facts *)

Lemma contains_prefix p l : contains_text p (p ++ l) = true.
Proof. apply contains_text_app. by exists [], l. Qed.

(** A line behind one of the words of the metadata log is shown in that mode. *)
Lemma prefixed_line_shown word rest d : word ∈ metadata_words → log_line true d (word +:+ rest) = Some ("[METADATA_LOG] " +:+ (word +:+ rest)).
Proof.
  intros Hw. unfold log_line. assert (is_metadata_log (word +:+ rest) = true) as ->; [|done].
  unfold is_metadata_log. apply orb_true_iff. left. apply existsb_exists. exists word. split; [by apply list_elem_of_In|].
  unfold mentions. rewrite chars_append. apply contains_prefix.
Qed.

(** The metadata log shows the whole status of the downloader. *)
Theorem downloader_status_shown {H} now (d : downloader H MetadataRequestQueue) debug :
  omap (log_line true debug) (print_status now d) = with_prefix "[METADATA_LOG] " (print_status now d).
Proof.
  unfold print_status. cbv zeta. set (l := _ :: _). clearbody l. unfold with_prefix. induction l as [|x l IH]; [done|].
  rewrite !fmap_cons. cbn [omap list_omap]. change ("[MetadataDownloader] " +:+ x) with ("[MetadataDownloader]" +:+ (" " +:+ x)).
  rewrite prefixed_line_shown by by_evaluation. by f_equal.
Qed.

(** The crawl's rate is defined for every time that is not negative; without a
    limit of queries, and with a limit of zero, the banner promises to run
    indefinitely, although a limit of zero ends the crawl before its first
    query. *)
Theorem summary_defined {H} verbose seconds (k : crawler H) : (0 ≤ seconds)%Z → is_Some (final_summary verbose seconds k).
Proof. intros Hs. unfold final_summary, rate_of. destruct verbose; [|by eexists]. rewrite decide_False by lia. by eexists. Qed.

Theorem zero_limit_banner {H} (k : crawler H) config :
  verbose_mode config = true →
  "Running indefinitely (press Ctrl+C to stop)" ∈ banner config 0 ∧ crawls_on 0 0 k = false.
Proof.
  intros Hv. unfold banner. rewrite Hv. split; [|by unfold crawls_on; rewrite andb_false_r].
  change (0 <? 0)%Z with false. cbv iota. do 4 (apply elem_of_cons; right). by apply elem_of_cons; left.
Qed.
