(* ===== verification/Statements.v ===== *)
(** * What reaches the database server

    Composes the whole program ([Program]) with the lexical rules of MySQL
    ([Sql]).  [received] lists the statements a server has got; the class
    [Trace] says that only [mysql_query] adds to it.  The theorems: every
    statement of a run of [main] is read by the server as one of the program's
    own, with the program's values as its literals, whatever the torrents are
    called (of an IPv6 address, what precedes its first colon); and the metadata a session reports is what is stored. *)

From S2P Require Import Prelude World HashFormat RequestQueue Downloader Numeric SmartCrawler WorkerPool ConcurrentDht Sql Cli Crawler Traces Program.

(** A statement that fails may not have reached the server. *)
Class Trace (W H : Type) `{Session W H} `{Alerts W H} `{Database W} `{ProgramWorld W} := {
  received : W → list string;
  received_query q w :
    received (mysql_query q w).2 = received w ++ [q]
    ∨ is_Some (mysql_query q w).1 ∧ received (mysql_query q w).2 = received w;
  received_now w : received (steady_now w).2 = received w;
  received_add p w : received (add_torrent p w).2 = received w;
  received_remove h w : received (remove_torrent h w).2 = received w;
  received_get_peers t w : received (dht_get_peers t w).2 = received w;
  received_get_item t w : received (dht_get_item t w).2 = received w;
  received_pop w : received (pop_alerts (H := H) w).2 = received w;
  received_rand w : received (rand (H := H) w).2 = received w;
  received_result w : received (mysql_store_result w).2 = received w;
  received_connect s u p d n w : received (mysql_real_connect s u p d n w).2 = received w;
  received_sleep ms w : received (sleep_for ms w) = received w;
  received_put q w : received (dht_put q w).2 = received w;
  received_target w : received (random_target w).2 = received w;
}.

(** ** What is meant *)

(** The characters of the text of an IP address, and of its port. *)
Definition ip_char (c : ascii) : bool := bool_decide (c ∈ chars "0123456789abcdef:.").
Definition ip_text (s : string) : Prop := forallb ip_char (chars s) = true.

(** The statements of [Sql] and the insertion of a peer, as the server reads
    them; and the statements of the schema, word for word.  An address without
    a colon is inserted with its port.  Of any other address what precedes the
    first colon is the literal, and the rest, characters of an IP address,
    stands in place of the port. *)
Inductive program_statement `{Database W} (c : MySQLConnection) : list sql_piece → Prop :=
  | ps_statement ps : statement c ps → program_statement c ps
  | ps_peer t address (port : Z) : ":"%char ∉ chars address → program_statement c (peer_pieces t address (to_string port))
  | ps_cut_peer t address rest (port : Z) :
      ":"%char ∉ chars address → ip_text rest → program_statement c (peer_pieces t address (rest +:+ ":" +:+ to_string port)).
Definition meant `{Database W} (q : string) : Prop :=
  q ∈ schema ∨ ∃ c ps, program_statement c ps ∧ sql_lex None (chars q) = Some (tokens ps).

(** The address of a peer is the text of an IP address, of either version, as
    [address().to_string()] of an endpoint writes it; the endpoints in the
    replies of the DHT carry no scope. *)
Definition ip_peer (peer : string) : Prop := ∃ address port, ip_text address ∧ peer = peer_str (address, port).
Definition ip_peers {H} (a : alert H) : Prop :=
  match a with dht_get_peers_reply_alert _ ps => Forall (λ p, ip_text p.1) ps | _ => True end.

(** A connection is only ever connected when it exists. *)
Definition connection_ok (c : MySQLConnection) : Prop := m_connected c = true → m_connection c = true.

Section Meant.
Context {W : Type} `{DocumentedEscaping W}.

Lemma statement_sent_read c ps : m_connection c = true → statement c ps →
  sql_lex None (chars (sent_text c ps)) = Some (tokens ps).
Proof. intros Hc Hst. apply sent_statement; [done|]. by eapply statement_well_formed. Qed.

Lemma ip_port_text rest port : ip_text rest → forallb sql_text_char (chars (rest +:+ ":" +:+ to_string port)) = true.
Proof.
  intros Hrest. rewrite !chars_append, !forallb_app, !andb_true_iff. split_all; [|done|].
  - unfold ip_text in Hrest. rewrite forallb_forall in *. intros c Hc. specialize (Hrest c Hc).
    unfold ip_char in Hrest. apply bool_decide_eq_true in Hrest. clear Hc. revert c Hrest. apply Forall_forall. by repeat constructor.
  - pose proof (well_formed_number port []) as Hn. cbn [well_formed] in Hn. by rewrite andb_true_r in Hn.
Qed.

Lemma statement_meant c ps : m_connection c = true → program_statement c ps → meant (sent_text c ps).
Proof.
  intros Hc Hps. right. exists c, ps. split; [done|]. apply sent_statement; [done|].
  destruct Hps as [ps Hst|t a p _|t a rest p _ Hrest]; [by eapply statement_well_formed|apply peer_well_formed|].
  apply peer_text_well_formed. by apply ip_port_text.
Qed.
End Meant.

Section Runs.
Context {W H : Type} `{Session W H} `{Alerts W H} `{Database W} `{!DocumentedEscaping W} `{ProgramWorld W}.
Context `{!Trace W H}.
Implicit Types (k : crawler H) (w : W).

(** Only such statements are added. *)
Definition sends : relation W := λ w w', ∃ qs, received w' = received w ++ qs ∧ Forall meant qs.
#[export] Instance sends_preorder : PreOrder sends.
Proof.
  split; [intros w; exists []; by rewrite app_nil_r|]. intros w1 w2 w3 (q1 & H12 & Hq1) (q2 & H23 & Hq2).
  exists (q1 ++ q2). rewrite H23, H12, (assoc_L app). split; [done|]. by apply Forall_app.
Qed.

Lemma sends_nothing w w' : received w' = received w → sends w w'.
Proof. intros Heq. exists []. by rewrite app_nil_r. Qed.
Lemma sends_query q w : meant q → sends w (mysql_query q w).2.
Proof.
  intros Hq. destruct (received_query q w) as [Heq|[_ Heq]]; [|by apply sends_nothing].
  exists [q]. split; [done|]. by constructor.
Qed.

Context (Hip : ∀ w, Forall ip_peers (pop_alerts (H := H) w).1).

#[export] Instance sends_steps : Steps (H := H) sends connection_ok ip_peer.
Proof.
  split.
  - apply sends_preorder.
  - intros w. apply sends_nothing, received_now.
  - intros p w. apply sends_nothing, received_add.
  - intros h w. apply sends_nothing, received_remove.
  - intros t w. apply sends_nothing, received_get_peers.
  - intros t w. apply sends_nothing, received_get_item.
  - intros w. apply sends_nothing, (received_pop (H := H)).
  - intros w. eapply Forall_impl; [apply Hip|]. intros [h ps| | | | |]; try done. cbn. intros Hps.
    eapply Forall_impl; [exact Hps|]. intros [address port] Ha. by exists address, port.
  - intros w. apply sends_nothing, received_result.
  - intros c ps w Hc Hcon Hst. apply sends_query, (statement_meant c ps); [by apply Hc|by constructor].
  - intros c t peer address port_str w Hc Hcon (a & p & Ha & ->) Hsplit.
    unfold peer_str in Hsplit. cbn [fst snd] in Hsplit. apply sends_query, (statement_meant c); [by apply Hc|].
    destruct (decide (":"%char ∈ chars a)) as [Hcolon|Hcolon].
    + destruct (proj2 (split_peer_spec a (to_string p)) Hcolon) as (a1 & a2 & Heq & Ha1 & Hpeer).
      rewrite Hpeer in Hsplit. injection Hsplit as <- <-. apply ps_cut_peer; [done|].
      unfold ip_text in *. rewrite Heq, forallb_app in Ha. by apply andb_true_iff in Ha as [_ [_ Ha]%andb_true_iff].
    + rewrite (proj1 (split_peer_spec a (to_string p)) Hcolon) in Hsplit. injection Hsplit as <- <-. by apply ps_peer.
Qed.
Local Abbreviation goes := (goes sends connection_ok ip_peer).

Lemma sends_connect c w : connection_ok c →
  connection_ok (Sql.connect c w).1.2 ∧ sends w (Sql.connect c w).2.
Proof.
  intros Hc. unfold Sql.connect. destruct (m_connection c) eqn:Hcon; cbn [negb].
  - pose proof (received_connect (server (m_config c)) (user (m_config c)) (password (m_config c)) (database (m_config c))
      (port (m_config c)) w) as Hr. destruct (mysql_real_connect _ _ _ _ _ w) as [[[n msg]|] w1]; cbn [fst snd] in *.
    + split; [done|]. etrans; [by apply sends_nothing|]. by apply (R_log_error sends connection_ok ip_peer).
    + split; [intros _; exact Hcon|]. etrans; [by apply sends_nothing|]. unfold createTables. change (m_connected (c <| m_connected := true |>)) with true. cbn [negb snd].
      apply (R_foldl sends connection_ok ip_peer). intros q w' Hq. apply sends_query. by left.
  - split; [done|]. by apply (R_log_error sends connection_ok ip_peer).
Qed.

Lemma new_crawler_good mysql_init config : good connection_ok ip_peer (new_crawler (H := H) mysql_init config).
Proof. split; [by intros|]. intros h t. simpl. by rewrite lookup_empty. Qed.

Lemma sends_bootstrap n w : sends w (wait_for_bootstrap (H := H) n w).2.
Proof.
  revert w. induction n as [|n IH]; intros w; cbn [wait_for_bootstrap]; [reflexivity|].
  pose proof (received_pop w) as Hp. destruct (pop_alerts w) as [alerts w1]. cbn [snd] in Hp.
  destruct (existsb is_bootstrap alerts); [by apply sends_nothing|]. etrans; [by apply sends_nothing|apply IH].
Qed.

Lemma goes_initialize read_file k w : goes (k, w) (initialize read_file k w).
Proof.
  intros Hk. unfold initialize. pose proof (sends_connect (m_mysql k) w (good_connection _ _ k Hk)) as [Hc Hs].
  destruct (Sql.connect (m_mysql k) w) as [[ok c] w1]. cbn [fst snd] in *.
  set (w2 := if ok then w1 else _). assert (sends w1 w2) as Hs2.
  { unfold w2. destruct ok; [reflexivity|]. by apply (R_log_error sends connection_ok ip_peer). }
  pose proof (sends_bootstrap 30 w2) as Hb. destruct (wait_for_bootstrap 30 w2) as [b w3]. cbn [snd] in Hb.
  set (k1 := k <| m_mysql := c |>). assert (good connection_ok ip_peer k1) as Hk1 by (split; [done|apply Hk]).
  set (k2 := if decide _ then k1 else _).
  assert (good connection_ok ip_peer k2) as Hk2 by (unfold k2; case_decide; [done|by apply (good_frame _ _ k1)]).
  assert (sends w w3) as Hw3 by (etrans; [exact Hs|]; by etrans). clearbody k2.
  destruct (metadata_database_mode _); [|done]. unfold setupMetadataDatabaseMode. set (k3 := k2 <| m_metadata_only_mode := true |>).
  pose proof (R_total_missing sends connection_ok ip_peer (m_mysql k3) w3 (good_connection _ _ k2 Hk2)) as Ht.
  destruct (getTotalTorrentsWithMissingMetadata _ w3) as [total w4]. cbn [snd] in Ht.
  destruct (total =? 0)%Z; [split; [by apply (good_frame _ _ k2)|by etrans]|].
  set (k4 := k3 <| m_metadata_db_total_records := total |>).
  destruct (goes_load_batch sends connection_ok ip_peer k4 w4) as [Hg Hl]; [by apply (good_frame _ _ k2)|].
  split; [exact Hg|]. etrans; [exact Hw3|]. by etrans.
Qed.

(** ** The loops *)

Context (x : Z) (between : nat → crawler H * W → crawler H * W) (Hbetween : ∀ i s, goes s (between i s)).

Lemma sends_sleep ms w : sends w (sleep_for ms w).
Proof. apply sends_nothing, received_sleep. Qed.

Lemma goes_metadata_loop fuel i start k w k' w' :
  metadata_loop x between fuel i start k w = Some (k', w') → goes (k, w) (k', w').
Proof.
  revert i k w. induction fuel as [|fuel IH]; intros i k w; [done|]. cbn [metadata_loop].
  pose proof (Hbetween i (k, w)) as Hb. destruct (between i (k, w)) as [k1 w1].
  destruct (negb (keeps_crawling k1)); [by intros [= <- <-]|].
  pose proof (goes_metadata_iteration sends connection_ok ip_peer x start k1 w1) as Hit.
  destruct (metadata_iteration x start k1 w1) as [[[] k2] w2]; intros Hrun.
  - etrans; [exact Hb|]. etrans; [exact Hit|]. etrans; [|by apply (IH (S i))]. apply goes_frame; [done|done|apply sends_sleep].
  - injection Hrun as <- <-. by etrans.
Qed.

Lemma goes_sequential_loop fuel i max_queries count k w k' w' :
  sequential_loop x between fuel i max_queries count k w = Some (k', w') → goes (k, w) (k', w').
Proof.
  revert i count k w. induction fuel as [|fuel IH]; intros i count k w; [done|]. cbn [sequential_loop].
  pose proof (Hbetween i (k, w)) as Hb. destruct (between i (k, w)) as [k1 w1].
  destruct (negb (crawls_on max_queries count k1)); [by intros [= <- <-]|].
  pose proof (received_target w1) as Ht. destruct (random_target w1) as [hash w2]. cbn [snd] in Ht.
  pose proof (goes_sequential_iteration sends connection_ok ip_peer x hash count k1 w2) as Hit.
  destruct (sequential_iteration x hash count k1 w2) as [[count' k2] w3]. intros Hrun.
  etrans; [exact Hb|]. transitivity (k1, w2); [apply goes_frame; [done|done|by apply sends_nothing]|]. etrans; [exact Hit|].
  etrans; [|by apply (IH (S i) count')]. apply goes_frame; [done|done|]. case_bool_decide; [reflexivity|apply sends_sleep].
Qed.

Lemma goes_concurrent_loop fuel i max_queries k w r k' w' :
  concurrent_loop x between fuel i max_queries k w = Some (r, k', w') → goes (k, w) (k', w').
Proof.
  revert i k w. induction fuel as [|fuel IH]; intros i k w; [done|]. cbn [concurrent_loop].
  pose proof (Hbetween i (k, w)) as Hb. destruct (between i (k, w)) as [k1 w1].
  destruct (negb (crawls_on _ _ k1)); [by intros [= <- <- <-]|].
  pose proof (goes_concurrent_iteration sends connection_ok ip_peer dht_put
    ltac:(intros; apply sends_nothing, received_rand) ltac:(intros; apply sends_nothing, received_put) x (Z.of_nat i) k1 w1) as Hit.
  destruct (concurrent_iteration x dht_put (Z.of_nat i) k1 w1) as [[[|what] k2] w2]; intros Hrun.
  - etrans; [exact Hb|]. etrans; [exact Hit|]. etrans; [|by apply (IH (S i))]. apply goes_frame; [done|done|apply sends_sleep].
  - injection Hrun as <- <- <-. by etrans.
Qed.

Lemma goes_graceful i k w k' w' : graceful_shutdown between i k w = Some (k', w') → goes (k, w) (k', w').
Proof.
  unfold graceful_shutdown. destruct (m_metadata_worker_pool k) as [p0|]; [|by intros [= <- <-]].
  pose proof (Hbetween i (k, w)) as Hb0. destruct (between i (k, w)) as [k0 w0]. intros (p & _ & Hrun)%bind_Some.
  destruct (negb _); [done|]. pose proof (Hbetween (1 + i) (k0, w0)) as Hb1. destruct (between (1 + i) (k0, w0)) as [k1 w1].
  apply bind_Some in Hrun as (p1 & _ & Hrun). etrans; [exact Hb0|]. etrans; [exact Hb1|].
  destruct (p_shutdown p1); [injection Hrun as <- <-; by apply goes_frame|]. apply bind_Some in Hrun as (p2 & _ & Hrun).
  match type of Hrun with context [between (2 + i) ?s] => transitivity s; [by apply goes_frame|]; etrans; [apply (Hbetween (2 + i) s)|];
    destruct (between (2 + i) s) as [k2 w2] end.
  apply bind_Some in Hrun as (p3 & _ & Hrun).
  match type of Hrun with context [between (3 + i) ?s] => transitivity s; [by apply goes_frame|]; etrans; [apply (Hbetween (3 + i) s)|];
    destruct (between (3 + i) s) as [k3 w3] end.
  apply bind_Some in Hrun as (p4 & _ & [= <- <-]). by apply goes_frame.
Qed.

Lemma goes_stop_dht i k w k' w' : stop_dht between i k w = Some (k', w') → goes (k, w) (k', w').
Proof.
  unfold stop_dht. set (k1 := k <| m_concurrent_dht ::= _ |>). pose proof (Hbetween i (k1, w)) as Hb.
  destruct (between i (k1, w)) as [k2 w2]. destruct (join_workers _) as [m|]; [|done]. cbn [mbind option_bind].
  intros [= <- <-]. transitivity (k1, w); [by apply goes_frame|]. etrans; [exact Hb|]. by apply goes_frame.
Qed.

Lemma goes_start fuel max_queries k w r k' w' :
  startCrawling x between fuel max_queries k w = Some (r, k', w') → goes (k, w) (k', w').
Proof.
  unfold startCrawling. cbv zeta. set (k1 := k <| m_running := true |>). assert (goes (k, w) (k1, w)) as H1' by by apply goes_frame.
  intros Hrun. etrans; [exact H1'|]. clear H1'. revert Hrun. clearbody k1. destruct (m_metadata_only_mode k1).
  - pose proof (goes_request_hashes sends connection_ok ip_peer (m_metadata_hash_list k1) (k1, w)) as Hreq.
    change (foldl _ (k1, w) _) with (request_all_hashes k1 w) in Hreq. destruct (request_all_hashes k1 w) as [k2 w1].
    pose proof (received_now w1) as Hn. destruct (steady_now w1) as [start w2]. cbn [snd] in Hn.
    destruct (metadata_loop _ _ _ _ _ k2 w2) as [[k3 w3]|] eqn:Hloop; [|done]. cbn [mbind option_bind].
    destruct (graceful_shutdown _ _ k3 w3) as [[k4 w4]|] eqn:Hg; [|done]. cbn [mbind option_bind]. intros [= _ <- <-].
    etrans; [exact Hreq|]. transitivity (k2, w2); [apply goes_frame; [done|done|by apply sends_nothing]|].
    etrans; [by eapply goes_metadata_loop|]. by eapply goes_graceful.
  - pose proof (received_now w) as Hn. destruct (steady_now w) as [start w2]. cbn [snd] in Hn.
    destruct (m_use_concurrent_mode k1).
    + set (k2 := k1 <| m_concurrent_dht ::= _ |>). intros Hrun. transitivity (k2, w2); [apply goes_frame; [done|done|by apply sends_nothing]|].
      destruct (concurrent_loop _ _ _ _ _ k2 w2) as [[[r' k3] w3]|] eqn:Hloop; [|done]. cbn [mbind option_bind] in Hrun.
      apply goes_concurrent_loop in Hloop. etrans; [exact Hloop|]. destruct r' as [|what]; [|by injection Hrun as _ <- <-].
      destruct (stop_dht _ _ k3 w3) as [[k4 w4]|] eqn:Hstop; [|done]. injection Hrun as _ <- <-.
      apply goes_stop_dht in Hstop. etrans; [exact Hstop|]. by apply goes_frame.
    + destruct (sequential_loop _ _ _ _ _ _ k1 w2) as [[k3 w3]|] eqn:Hloop; [|done]. cbn [mbind option_bind]. intros [= _ <- <-].
      apply goes_sequential_loop in Hloop. transitivity (k1, w2); [apply goes_frame; [done|done|by apply sends_nothing]|].
      etrans; [exact Hloop|]. by apply goes_frame.
Qed.
End Runs.

(** ** The program *)

Section Program.
Context {W H : Type} `{Session W H} `{Alerts W H} `{Database W} `{!DocumentedEscaping W} `{ProgramWorld W} `{!Trace W H}.
Implicit Types (k : crawler H) (w : W).

(** The other threads and signals leave the connection, the discovered
    torrents and the server alone. *)
Definition bystander (between : nat → crawler H * W → crawler H * W) : Prop :=
  ∀ i s, m_mysql (between i s).1 = m_mysql s.1 ∧ m_discovered_torrents (between i s).1 = m_discovered_torrents s.1
    ∧ received (between i s).2 = received s.2.

(** C13: No input but the tail of an IPv6 address reaches the server as
    anything but data.  In every run of the program, whatever the command line,
    the files, the names of torrents, files and trackers and the answers of the
    database, each statement the server receives is one of the schema's, or is
    read by the server as one of the program's statements, with the program's
    values as its string literals; the statements of the handler of [main]
    included.  The addresses of peers are texts of IP addresses; of one with a
    colon (IPv6) only what precedes it is the literal, and the rest of it, which
    opens no literal and no comment, is read as text in place of the port.  A
    run that is still going on is covered, too: ended by Ctrl-C at any later
    test of its loop, it is a run as considered here. *)
Theorem every_statement_meant x between fuel mysql_init read_file args w e (left : option (crawler H)) w' :
  (∀ w, Forall ip_peers (pop_alerts (H := H) w).1) → bystander between →
  run_program x between fuel mysql_init read_file args w = Some (e, left, w') →
  ∃ statements, received w' = received w ++ statements ∧ Forall meant statements.
Proof.
  intros Hip Hby. pose proof (sends_steps Hip) as Hsteps. change (run_program x between fuel mysql_init read_file args w = Some (e, left, w') → sends w w').
  assert (∀ i s, goes sends connection_ok ip_peer s (between i s)) as Hbetween.
  { intros i s. destruct (Hby i s) as (Hm & Ht & Hr). intros Hs. split; [by apply (good_frame _ _ s.1)|by apply sends_nothing]. }
  unfold run_program. destruct (parse_command_line args) as [| | | |config max_queries]; try (by intros [= _ _ <-]).
  destruct (goes_initialize Hip read_file (new_crawler mysql_init config) w (new_crawler_good mysql_init config)) as [Hk Hw].
  destruct (initialize read_file _ w) as [k1 w1]. cbn [fst snd] in Hk, Hw.
  destruct (startCrawling x between fuel max_queries k1 w1) as [[[r k2] w2]|] eqn:Hstart; [|done]. cbn [mbind option_bind].
  apply (goes_start Hip x between Hbetween) in Hstart. apply Hstart in Hk as [Hk2 Hw2]. cbn [fst snd] in Hk2, Hw2.
  destruct r as [|what].
  - destruct (graceful_shutdown _ _ k2 w2) as [[k3 w3]|] eqn:Hg; [|done]. cbn [mbind option_bind]. intros [= _ _ <-].
    apply (goes_graceful Hip between Hbetween) in Hg. destruct (Hg Hk2) as [_ Hw3]. etrans; [exact Hw|]. by etrans.
  - intros [= _ _ <-]. etrans; [exact Hw|]. etrans; [exact Hw2|]. unfold log_in_main.
    destruct (sends_connect (H := H) Hip (new_MySQLConnection mysql_init fallback_config) w2 ltac:(done)) as [Hc Hs].
    destruct (Sql.connect _ w2) as [[ok c] w3]. cbn [fst snd] in *. destruct ok; [|done]. etrans; [exact Hs|].
    by apply (R_log_exception (H := H) sends connection_ok ip_peer).
Qed.

(** *** Received metadata *)

(** No statement at all: no connection counts as in order. *)
Definition silent : relation W := λ w w', received w' = received w.
Lemma silent_steps : Steps (H := H) silent (λ _, False) (λ _, True).
Proof.
  unfold silent. split; try done.
  - split; [by intros ?|]. by intros w1 w2 w3 -> ->.
  - apply received_now.
  - apply received_add.
  - apply received_remove.
  - apply received_get_peers.
  - apply received_get_item.
  - apply received_pop.
  - intros w. apply Forall_forall. intros [h ps| | | | |] _; [by apply Forall_true|done..].
  - apply received_result.
Qed.

(** Statements are added, whatever they are. *)
Definition grows : relation W := λ w w', ∃ rest, received w' = received w ++ rest.
Lemma grows_steps : Steps (H := H) grows (λ _, True) (λ _, True).
Proof.
  assert (∀ w w', received w' = received w → grows w w') as Hsame by (intros w w' Heq; exists []; by rewrite app_nil_r).
  assert (∀ q w, grows w (mysql_query q w).2) as Hquery.
  { intros q w. destruct (received_query q w) as [Heq|[_ Heq]]; [by exists [q]|by apply Hsame]. }
  split; intros; try apply Hquery; try apply Hsame, silent_steps.
  - split; [intros w; by apply Hsame|]. intros w1 w2 w3 [r1 H1'] [r2 H2']. exists (r1 ++ r2). by rewrite H2', H1', (assoc_L app).
  - apply Forall_forall. intros [h ps| | | | |] _; [by apply Forall_true|done..].
Qed.

(** C14: The metadata of a torrent that was discovered goes to the database as the
    session reports it: the first statement of its handler, after the reading
    of the clock [now], inserts the record with the name, the size and the
    files of the torrent, and is read by the server with exactly these values.
    When it is not refused, the server has it. *)
Theorem received_metadata_stored x handle k w ti info_hash_ t :
  connection_ok (m_mysql k) → m_connected (m_mysql k) = true → m_metadata_only_mode k = false → m_metadata_database_mode k = false →
  torrent_file handle w = Returned (Some ti) → handle_info_hash handle w = Returned info_hash_ →
  m_discovered_torrents k !! binary_to_hex info_hash_ = Some t →
  let hash := binary_to_hex info_hash_ in
  ∃ now w1, steady_now (Downloader.handle_metadata_received hash (m_metadata_downloader k) w).2 = (now, w1) ∧
    let record := with_metadata t (extract_comprehensive_metadata ti hash) now in
    let q := sent_text (m_mysql k) (store_pieces (m_mysql k) record) in
    received w1 = received w
    ∧ (info_hash record = info_hash t ∧ name record = ti_name ti ∧ dt_size record = size_t_of_int (ti_total_size ti)
       ∧ file_names record = fe_path <$> ti_files ti)
    ∧ sql_lex None (chars q) = Some (tokens (store_pieces (m_mysql k) record))
    ∧ ((mysql_query q w1).1 = None →
       ∃ rest, received (handleMetadataReceived x handle k w).2 = received w ++ q :: rest).
Proof.
  intros Hok Hcon Honly Hmode Hti Hhash Ht. cbv zeta. unfold handleMetadataReceived. rewrite Hti, Hhash. unfold store_received. cbv zeta.
  set (hash := binary_to_hex info_hash_) in *. set (k1 := k <| m_metadata_manager ::= _ |>).
  assert (received (Downloader.handle_metadata_received hash (m_metadata_downloader k1) w).2 = received w) as Hd.
  { pose proof silent_steps as Hsilent. apply (R_process_queue silent (λ _, False) (λ _, True)). }
  change (m_metadata_downloader k1) with (m_metadata_downloader k) in *.
  destruct (Downloader.handle_metadata_received hash _ w) as [d1 w1]. cbn [snd] in Hd.
  set (k2 := on_pool _ (_ <| m_metadata_downloader := _ |>)).
  change (m_metadata_only_mode k2) with (m_metadata_only_mode k). rewrite Honly.
  change (m_discovered_torrents k2) with (m_discovered_torrents k). rewrite Ht. cbn [snd].
  pose proof (received_now w1) as Hn. destruct (steady_now w1) as [now w2]. cbn [snd] in Hn. exists now, w2.
  split; [done|].
  set (record := with_metadata _ _ _). set (c := m_mysql k) in *. split; [by rewrite Hn|].
  split; [by unfold record, with_metadata; destruct (em_trackers _)|].
  split; [apply statement_sent_read; [by apply Hok|constructor]|]. intros Hquery.
  unfold save_metadata. change (m_mysql k2) with c. rewrite Hcon. change (m_metadata_database_mode k2) with (m_metadata_database_mode k).
  rewrite Hmode. cbn [negb]. pose proof grows_steps as Hgrows. unfold storeTorrent. rewrite Hcon. cbn [negb]. unfold run_query.
  fold (sent_text c (store_pieces c record)). set (q := sent_text c (store_pieces c record)) in *.
  destruct (received_query q w2) as [Hreceived|[[? Hrefused] _]]; [|by rewrite Hquery in Hrefused].
  destruct (mysql_query q w2) as [[err|] w3]; cbn [fst snd] in Hquery, Hreceived; [done|]. cbn [snd].
  match goal with |- context [drop_torrent handle ?k' ?w'] =>
    assert (grows w3 (drop_torrent handle k' w')) as [rest Hrest]; [|exists rest; rewrite Hrest] end.
  { etrans; [|by apply (R_drop grows (λ _, True) (λ _, True))]. apply (R_foldl grows (λ _, True) (λ _, True)).
    intros peer w' _. unfold store_peer. destruct (split_peer peer) as [[a p]|] eqn:Hsplit; [|reflexivity].
    by apply (steps_peer (conn_ok := λ _, True) (peer_ok := λ _, True) c record peer a p). }
  rewrite Hreceived, Hn, Hd. by rewrite <-(assoc_L app).
Qed.
End Program.

(** ** Runs on the simulated world *)

#[export] Instance sim_trace : Trace Sim.world string.
Proof. refine {| received := Sim.sql_log |}; intros; simpl; try done; case_match; simpl; eauto. Defined.

(** A session that reports the same peers at every look. *)
Definition peer_alerts : Alerts Sim.world string := {|
  pop_alerts w := ([dht_get_peers_reply_alert sim_binary [("10.0.0.1", 6881%Z); ("2001:db8::1", 6881%Z)]], w);
  torrent_file _ _ := Returned None;
  handle_info_hash _ _ := Returned "";
  rand w := (Sim.time w, w <| Sim.time ::= Z.succ |>);
|}.
Definition peer_trace : @Trace Sim.world string Sim.sim_session peer_alerts Sim.sim_database sim_program.
Proof. refine (@Build_Trace _ _ _ peer_alerts _ _ Sim.sql_log _ _ _ _ _ _ _ _ _ _ _ _ _); intros; simpl; try done; case_match; simpl; eauto. Defined.
Local Abbreviation peer_run := (@run_program _ _ Sim.sim_session peer_alerts Sim.sim_database sim_program 0%Z workers_end 5 true
  (λ _, None) ["--sequential"; "--queries"; "1"] (Sim.initial 0)).

Lemma workers_end_bystander `{!Alerts Sim.world string, !Trace Sim.world string} : bystander workers_end.
Proof.
  intros i [k w]. unfold workers_end. cbn [fst snd]. destruct (m_metadata_worker_pool k) as [p|]; [|done].
  destruct (p_shutdown p); [|done]. destruct (pool_run (EWorker <$> seq 0 10) (p, w)) as [[p' w']|] eqn:Hrun; [|done].
  split; [done|]. split; [done|]. pose proof silent_steps as Hsilent.
  exact (R_workers silent (λ _, False) (λ _, True) _ _ _ _ _ Hrun).
Qed.

Lemma peer_run_seven : (λ r, length (Sim.sql_log r.2)) <$> peer_run = Some 7.
Proof. vm_compute. reflexivity. Qed.

(** The schema, a torrent and its peers, one of IPv4 and one of IPv6. *)
Lemma every_statement_meant_witness :
  ∃ e left w' statements, peer_run = Some (e, left, w') ∧ Sim.sql_log w' = statements ∧ length statements = 7 ∧ Forall meant statements.
Proof.
  pose proof peer_run_seven as Hseven. destruct peer_run as [[[e left] w']|] eqn:Hrun; [|discriminate Hseven].
  destruct (@every_statement_meant _ _ _ peer_alerts _ _ _ peer_trace 0%Z workers_end 5 true (λ _, None)
    ["--sequential"; "--queries"; "1"] (Sim.initial 0) e left w') as (statements & Heq & Hall).
  - intros w. apply List.Forall_cons; [|apply List.Forall_nil].
    repeat (apply List.Forall_cons || apply List.Forall_nil); vm_compute; reflexivity.
  - apply (@workers_end_bystander peer_alerts peer_trace).
  - exact Hrun.
  - change (Sim.sql_log w' = statements) in Heq. exists e, left, w', statements.
    split; [reflexivity|]. split; [exact Heq|]. split; [|exact Hall]. rewrite <-Heq. by injection Hseven.
Defined.

Definition known_torrent : DiscoveredTorrent :=
  default Sql.sim_torrent (m_discovered_torrents sim_crawler !! binary_to_hex sim_binary).

(** The torrent the simulated session reports has the name [film]. *)
Lemma received_metadata_stored_witness :
  ∃ q rest, received (handleMetadataReceived 0 "h" sim_crawler sim_known).2 = received sim_known ++ q :: rest
    ∧ "film" ∈ literals (default [] (sql_lex None (chars q))).
Proof.
  destruct (received_metadata_stored 0 "h" sim_crawler sim_known sim_info sim_binary known_torrent) as (now & w1 & Hw1 & _ & _ & Hlex & Hrec).
  - intros _. vm_compute. reflexivity.
  - vm_compute. reflexivity.
  - vm_compute. reflexivity.
  - vm_compute. reflexivity.
  - vm_compute. reflexivity.
  - vm_compute. reflexivity.
  - vm_compute. reflexivity.
  - cbv zeta in Hlex, Hrec. pose proof (f_equal snd Hw1) as Hworld. pose proof (f_equal fst Hw1) as Hnow.
    change ((now, w1).2) with w1 in Hworld. change ((now, w1).1) with now in Hnow.
    destruct Hrec as [rest Hrest]; [rewrite <-Hworld, <-Hnow; vm_compute; reflexivity|].
    match type of Hrest with _ = _ ++ ?q :: _ => exists q, rest end. split; [exact Hrest|]. rewrite Hlex. cbn [default].
    rewrite <-Hnow. apply (bool_decide_eq_true_1 _). vm_compute. reflexivity.
Defined.
