(* ===== verification/Shutdown.v ===== *)
(** * A shutdown that never ends

    Composes the lost wake-up of the metadata worker pool ([WorkerPool]) with
    the way the program ends ([Program]): Ctrl-C, the end of the loop, and
    [gracefulShutdown], which joins the pool's threads.  The theorem gives a
    schedule of the threads under which [main] never returns; nothing but the
    order of the threads' steps is chosen. *)

From S2P Require Import Prelude World HashFormat RequestQueue Downloader Numeric SmartCrawler WorkerPool ConcurrentDht Sql Cli Crawler Program.

Section Shutdown.
Context {W H : Type} `{Session W H} `{Alerts W H} `{Database W} `{ProgramWorld W}.
Implicit Types (k : crawler H) (w : W).

(** The pool's threads take the steps [es]; when one of them is not possible,
    nothing happens. *)
Definition pool_steps (es : list (pool_event W)) (s : crawler H * W) : crawler H * W :=
  match m_metadata_worker_pool s.1 with
  | Some p => match pool_run es (p, s.2) with Some (p, w) => (s.1 <| m_metadata_worker_pool := Some p |>, w) | None => s end
  | None => s
  end.

(** The schedule.  Ctrl-C arrives at the first test of the loop.  While [main]
    prints the statistics of the pool, the first worker reaches its wait; when
    [get_queue_size] has released the mutex of the queue, the worker takes it and
    evaluates the predicate of its wait.  Nothing happens between setting the
    flag and notifying; then the worker blocks, and whatever steps [rest] the
    threads are given follow. *)
Definition unlucky (rest : list (pool_event W)) (_ : nat) (s : crawler H * W) : crawler H * W :=
  match p_phase <$> m_metadata_worker_pool s.1 with
  | Some Running =>
    if m_running s.1 then (default s.1 (signalHandler 2 (Some s.1)), s.2) else pool_steps [EWorker 0] s
  | Some Joining => pool_steps rest (pool_steps [EWorker 0] s)
  | _ => s
  end.

(** The pool whose first worker is about to take the mutex; to block. *)
Definition first_worker (s : worker_state) (n : nat) (t : Z) : pool := (new_pool (S n) t) <| p_workers := s :: replicate n WIdle |>.

Lemma idle_free n : forallb (λ s, negb (holds_mutex s)) (replicate n WIdle) = true.
Proof. by induction n. Qed.

Lemma first_worker_steps n t w :
  pool_run [EWorker 0] (new_pool (S n) t, w) = Some (first_worker WWant n t, w)
  ∧ queue_mutex_free (first_worker WWant n t) = true
  ∧ pool_run [EWorker 0] (first_worker WWant n t, w) = Some (first_worker WPred n t, w).
Proof. cbn. unfold queue_mutex_free. cbn. rewrite idle_free. by split_all. Qed.

Lemma stays_stuck rest k w p :
  Forall (λ e, ∀ i, e ≠ ESpurious i) rest → m_metadata_worker_pool k = Some p → stuck p →
  ∃ p', m_metadata_worker_pool (pool_steps rest (k, w)).1 = Some p' ∧ stuck p'.
Proof.
  intros Hrest Hp Hst. unfold pool_steps. cbn [fst snd]. rewrite Hp. destruct (pool_run rest (p, w)) as [[p' w']|] eqn:Hrun; [|eauto].
  exists p'. split; [done|]. exact (stuck_run rest p w (p', w') Hrest Hst Hrun).
Qed.

(** The flag is set, the notification finds nobody waiting, the worker blocks. *)
Lemma blocks_after_notification n t w :
  ∃ p1 p2 p3, shutdown_step (first_worker WPred n t) = Some p1 ∧ p_phase p1 = FlagSet ∧ shutdown_step p1 = Some p2 ∧ p_phase p2 = Joining
    ∧ pool_run [EWorker 0] (p2, w) = Some (p3, w) ∧ stuck p3.
Proof.
  eexists _, _, _. split; [reflexivity|]. split; [reflexivity|]. split; [reflexivity|]. split; [reflexivity|].
  split; [cbn; reflexivity|]. by constructor.
Qed.

Lemma stuck_joins p : stuck p → shutdown_step p = None.
Proof.
  intros [_ Hp _ Hw]. unfold shutdown_step. rewrite Hp. destruct (forallb is_stopped (p_workers p)) eqn:Hall; [|done].
  by pose proof (forallb_lookup _ _ _ _ Hall Hw).
Qed.

Lemma unlucky_flag_set rest i k w p :
  m_metadata_worker_pool k = Some p → p_phase p = FlagSet → unlucky rest i (k, w) = (k, w).
Proof. intros Hk Hp. unfold unlucky. cbn [fst]. rewrite Hk. simpl. by rewrite Hp. Qed.

Lemma unlucky_joining rest i k w p p' :
  Forall (λ e, ∀ i, e ≠ ESpurious i) rest → m_metadata_worker_pool k = Some p → p_phase p = Joining →
  pool_run [EWorker 0] (p, w) = Some (p', w) → stuck p' →
  ∃ q, m_metadata_worker_pool (unlucky rest i (k, w)).1 = Some q ∧ stuck q.
Proof.
  intros Hrest Hk Hp Hrun Hst. unfold unlucky. cbn [fst]. rewrite Hk. cbn [fmap option_fmap option_map]. rewrite Hp.
  unfold pool_steps at 2. cbn [fst snd]. rewrite Hk, Hrun. by eapply stays_stuck.
Qed.

Lemma unlucky_running rest i k w p p' :
  m_metadata_worker_pool k = Some p → p_phase p = Running → m_running k = false →
  pool_run [EWorker 0] (p, w) = Some (p', w) → unlucky rest i (k, w) = (k <| m_metadata_worker_pool := Some p' |>, w).
Proof.
  intros Hk Hp Hs Hrun. unfold unlucky. cbn [fst]. rewrite Hk. cbn [fmap option_fmap option_map]. rewrite Hp, Hs.
  unfold pool_steps. cbn [fst snd]. by rewrite Hk, Hrun.
Qed.

Lemma graceful_hangs rest i k w n t :
  Forall (λ e, ∀ i, e ≠ ESpurious i) rest → m_metadata_worker_pool k = Some (new_pool (S n) t) →
  m_running k = false → graceful_shutdown (unlucky rest) i k w = None.
Proof.
  intros Hrest Hk Hreq. destruct (blocks_after_notification n t w) as (p1 & p2 & p3 & Hs1 & Hf & Hs2 & Hj & Hrun & Hst).
  destruct (first_worker_steps n t w) as (Hwant & Hfree & Hpred). unfold graceful_shutdown. rewrite Hk.
  rewrite (unlucky_running rest i k w _ _ Hk eq_refl Hreq Hwant). set (k1 := k <| m_metadata_worker_pool := _ |>).
  change (m_metadata_worker_pool k1) with (Some (first_worker WWant n t)). cbn [mbind option_bind]. rewrite Hfree. cbn [negb].
  rewrite (unlucky_running rest (1 + i) k1 w _ _ eq_refl eq_refl Hreq Hpred). set (k2 := k1 <| m_metadata_worker_pool := _ |>).
  change (m_metadata_worker_pool k2) with (Some (first_worker WPred n t)). cbn [mbind option_bind].
  change (p_shutdown (first_worker WPred n t)) with false. cbv iota. rewrite Hs1. cbn [mbind option_bind].
  erewrite unlucky_flag_set by done. change (m_metadata_worker_pool (k2 <| m_metadata_worker_pool := Some p1 |>)) with (Some p1).
  cbn [mbind option_bind]. rewrite Hs2. cbn [mbind option_bind]. match goal with |- context [unlucky rest (3 + i) (?k3, w)] =>
    destruct (unlucky_joining rest (3 + i) k3 w p2 p3 Hrest eq_refl Hj Hrun Hst) as (q & Hq & Hstuck) end.
  destruct (unlucky rest (3 + i) _) as [k4 w4]. simpl in Hq. rewrite Hq. simpl. by rewrite stuck_joins.
Qed.

(** ** What the start of the program leaves alone *)

Lemma pool_of_requests k w :
  m_metadata_worker_pool (request_all_hashes k w).1 = m_metadata_worker_pool k
  ∧ m_running (request_all_hashes k w).1 = m_running k.
Proof.
  unfold request_all_hashes. generalize (m_metadata_hash_list k) as l. intros l. revert k w.
  induction l as [|h l IH]; intros k w; [done|]. cbn [foldl]. cbn [fst snd].
  assert (m_metadata_worker_pool (requestMetadataForHash h k w).1 = m_metadata_worker_pool k
    ∧ m_running (requestMetadataForHash h k w).1 = m_running k) as [Hp Hr].
  { unfold requestMetadataForHash. cbv zeta. destruct (request_metadata _ _ _ _ _ w) as [[[] d] w1]; done. }
  destruct (requestMetadataForHash h k w) as [k1 w1]. destruct (IH k1 w1) as [-> ->]. done.
Qed.

Definition same_start (k k' : crawler H) : Prop :=
  m_metadata_worker_pool k' = m_metadata_worker_pool k ∧ m_use_concurrent_mode k' = m_use_concurrent_mode k.

Lemma load_batch_start k w : same_start k (loadMetadataDatabaseBatch k w).1.
Proof. unfold loadMetadataDatabaseBatch. by destruct (getTorrentsWithMissingMetadata _ _ _ w) as [[|] w1]. Qed.

Lemma initialize_start read_file k w : same_start k (initialize read_file k w).1.
Proof.
  unfold initialize. destruct (Sql.connect (m_mysql k) w) as [[ok c] w1]. destruct (wait_for_bootstrap 30 _) as [b w2]. cbv zeta.
  set (k1 := if decide (metadata_hashes (m_config c) = "") then _ else _).
  assert (same_start k k1) as [Hp Hc] by (by unfold k1; case_decide). destruct (metadata_database_mode (m_config c)); [|done].
  unfold setupMetadataDatabaseMode. destruct (getTotalTorrentsWithMissingMetadata _ w2) as [total w3]. cbv zeta.
  destruct (total =? 0)%Z; [done|]. destruct (load_batch_start (k1 <| m_metadata_only_mode := true |> <| m_metadata_db_total_records := total |>) w3)
    as [Hp2 Hc2]. split; etrans; [exact Hp2|exact Hp|exact Hc2|exact Hc].
Qed.

(** At the first test the crawler is told to stop. *)
Lemma stops_at_first_test rest fuel i x start max_queries count k w n t :
  m_metadata_worker_pool k = Some (new_pool (S n) t) → m_running k = true →
  metadata_loop x (unlucky rest) (S fuel) i start k w = Some (Crawler.stop k, w)
  ∧ sequential_loop x (unlucky rest) (S fuel) i max_queries count k w = Some (Crawler.stop k, w).
Proof.
  intros Hk Hreq. assert (unlucky rest i (k, w) = (Crawler.stop k, w)) as Hfirst.
  { unfold unlucky. cbn [fst snd]. rewrite Hk. cbn [fmap option_fmap option_map p_phase new_pool]. by rewrite Hreq. }
  cbn [metadata_loop sequential_loop]. rewrite Hfirst, crawls_on_stopped by done. done.
Qed.

(** C17: The program may hang when it is interrupted.  Under the schedule above,
    which respects the mutex of the queue and only orders steps the threads
    take anyway, [main] does not return for any number of iterations granted to
    its loops, on any command line with [--sequential], those of the metadata
    modes included, whatever its other arguments, the files, the session and
    the database; and whatever steps the pool's threads take afterwards,
    short of a spurious wake-up, it is still joining a blocked thread. *)
Theorem unlucky_interrupt_hangs rest fuel x mysql_init read_file args w config max_queries :
  Forall (λ e, ∀ i, e ≠ ESpurious i) rest →
  parse_command_line args = Run config max_queries → concurrent_mode config = false →
  run_program x (unlucky rest) fuel mysql_init read_file args w = None.
Proof.
  intros Hrest Hargs Hmode. unfold run_program. rewrite Hargs.
  destruct (initialize_start read_file (new_crawler mysql_init config) w) as [Hpool Hconc].
  destruct (initialize read_file (new_crawler mysql_init config) w) as [k0 w0]. cbn [fst] in Hpool, Hconc.
  change (m_metadata_worker_pool (new_crawler mysql_init config)) with (Some (new_pool 10 20)) in Hpool.
  change (m_use_concurrent_mode (new_crawler mysql_init config)) with (concurrent_mode config) in Hconc. rewrite Hmode in Hconc.
  unfold startCrawling. cbv zeta. set (k1 := k0 <| m_running := true |>).
  assert (m_running k1 = true) as Hrunning by done.
  change (m_metadata_worker_pool k0) with (m_metadata_worker_pool k1) in Hpool.
  change (m_use_concurrent_mode k0) with (m_use_concurrent_mode k1) in Hconc. rewrite Hconc. clearbody k1.
  destruct (m_metadata_only_mode k1).
  - destruct (pool_of_requests k1 w0) as [Hreq Hrun]. rewrite Hpool in Hreq. rewrite Hrunning in Hrun.
    destruct (request_all_hashes k1 w0) as [k2 w1]. cbn [fst] in Hreq, Hrun.
    destruct (steady_now w1) as [start w2]. destruct fuel as [|fuel]; [done|].
    destruct (stops_at_first_test rest fuel 0 x start max_queries 0 k2 w2 9 20 Hreq Hrun) as [-> _].
    cbn [mbind option_bind]. by rewrite (graceful_hangs rest _ _ _ 9 20).
  - destruct (steady_now w0) as [start w2]. destruct fuel as [|fuel]; [done|].
    destruct (stops_at_first_test rest fuel 0 x start max_queries 0 k1 w2 9 20 Hpool Hrunning) as [_ ->].
    cbn [mbind option_bind]. by rewrite (graceful_hangs rest _ ((Crawler.stop k1) <| m_running := false |>) _ 9 20).
Qed.
End Shutdown.

(** On the simulated world: the same schedule with one spurious wake-up ends
    with exit status 0, so it is nothing but the blocked thread that [main]
    waits for. *)
Definition woken : list (pool_event Sim.world) := ESpurious 0 :: EWorker 0 :: (EWorker <$> seq 0 10).

Lemma unlucky_interrupt_hangs_witness :
  run_program (H := string) 0 (unlucky (EWorker <$> seq 0 10)) 1000 true (λ _, None) ["--sequential"; "--queries"; "2"]
    (Sim.initial 0) = None
  ∧ (λ r, r.1.1) <$> run_program (H := string) 0 (unlucky woken) 1 true (λ _, None) ["--sequential"; "--queries"; "2"]
      (Sim.initial 0) = Some (Exit 0).
Proof.
  destruct (parse_command_line ["--sequential"; "--queries"; "2"]) as [| | | |config q] eqn:Hargs;
    try (vm_compute in Hargs; discriminate Hargs).
  split; [|vm_compute; reflexivity].
  apply (unlucky_interrupt_hangs (EWorker <$> seq 0 10) 1000 0 true (λ _, None) ["--sequential"; "--queries"; "2"]
    (Sim.initial 0) config q).
  - apply Forall_fmap, Forall_forall. intros j _ i. discriminate.
  - exact Hargs.
  - vm_compute in Hargs. by injection Hargs as <- _.
Defined.
