(* ===== verification/ErrorLog.v ===== *)
(** * The log of the error handler

    Models the output side of [src/src/error_handler.cpp], on top of
    [ErrorHandler]: the configuration, the log file opened for appending, the
    lines written to the console and to the file, [updateConfig] and the health
    status.  [wall_date] is [std::put_time] of the system clock's local time,
    [opens] tells which files can be opened.  The theorem: while the
    configuration stays, console and file list exactly the stored errors. *)

From S2P Require Import Prelude Numeric Reports ErrorHandler.

Record ErrorConfig := mk_ErrorConfig {
  log_to_console : bool;
  log_to_file : bool;
  log_filename : string;
}.

(** [el_file] is the file [log_file_] is open on; [el_console] and [el_files]
    are what was written, line by line. *)
Record error_log := mk_error_log {
  el_handler : error_handler;
  el_config : ErrorConfig;
  el_file : option string;
  el_console : list string;
  el_files : gmap string (list string);
}.
#[export] Instance eta_error_log : Eta error_log :=
  λ g, mk_error_log (el_handler g) (el_config g) (el_file g) (el_console g) (el_files g).

(** The two lines of an entry, the second only when there is a context. *)
Definition entry_lines (timestamp : string) (e : ErrorInfo) : list string :=
  ("[" +:+ timestamp +:+ "] [" +:+ severityToString (e_severity e) +:+ "] [" +:+ e_component e +:+ "] " +:+ e_message e
   +:+ (if (1 <? e_count e)%Z then " (count: " +:+ to_string (e_count e) +:+ ")" else ""))
  :: (if bool_decide (e_context e = ∅) then []
      else [foldl (λ s q, s +:+ q.1 +:+ "=" +:+ q.2 +:+ " ") "  Context: " (map_iter (e_context e))]).

Section Log.
Context {W : Type} (now : W → Z * W) (wall_date : W → string * W) (opens : string → bool).
Implicit Types (g : error_log) (w : W).

(** The date is the wall clock's at the time of formatting, the milliseconds
    are those of the steady clock when the error was recorded. *)
Definition formatTimestamp (timestamp : Z) w : string * W :=
  let '(date, w) := wall_date w in
  (date +:+ "." +:+ pad_zeros 3 (to_string (Z.rem (duration_cast_ms timestamp) 1000)), w).

Definition logToConsole (e : ErrorInfo) g w : error_log * W :=
  let '(ts, w) := formatTimestamp (e_timestamp e) w in
  (g <| el_console ::= (λ l, l ++ entry_lines ts e) |>, w).

(** [std::ios::app]: the lines go to the end of the file. *)
Definition append_lines (name : string) (lines : list string) (files : gmap string (list string)) : gmap string (list string) :=
  <[name := default [] (files !! name) ++ lines]> files.
Definition logToFile (name : string) (e : ErrorInfo) g w : error_log * W :=
  let '(ts, w) := formatTimestamp (e_timestamp e) w in
  (g <| el_files ::= append_lines name (entry_lines ts e) |>, w).

(** Opening creates a file that does not exist. *)
Definition open_log (config : ErrorConfig) g : error_log :=
  if log_to_file config && opens (log_filename config)
  then g <| el_file := Some (log_filename config) |> <| el_files ::= append_lines (log_filename config) [] |>
  else g <| el_file := None |>.

Definition new_error_log (config : ErrorConfig) (files : gmap string (list string)) : error_log :=
  open_log config (mk_error_log new_error_handler config None [] files).

(** The output part of [logError], for the error just stored. *)
Definition write_entry (e : ErrorInfo) g w : error_log * W :=
  let '(g, w) := if log_to_console (el_config g) then logToConsole e g w else (g, w) in
  match el_file g with
  | Some name => if log_to_file (el_config g) then logToFile name e g w else (g, w)
  | None => (g, w)
  end.

Definition log_error (message : string) (severity : ErrorSeverity) (component : string) (context : gmap string string)
    g w : error_log * W :=
  let '(h, w) := logError now message severity component context (el_handler g) w in
  let g := g <| el_handler := h |> in
  match last (errors_ h) with Some e => write_entry e g w | None => (g, w) end.

Definition execute_recovery (strategy error_message component : string) g w : error_log * W :=
  if decide (strategy = "restart_component") then
    log_error ("Component restart requested: " +:+ component) INFO "ErrorHandler" ∅ g w
  else if decide (strategy = "retry_operation") then
    log_error ("Operation retry requested: " +:+ error_message) INFO "ErrorHandler" ∅ g w
  else (g, w).

Definition handle_error (message : string) (severity : ErrorSeverity) (component : string) (context : gmap string string)
    g w : string * error_log * W :=
  let '(g, w) := log_error message severity component context g w in
  let strategy := determineRecoveryStrategy severity component in
  let '(g, w) := execute_recovery strategy message component g w in (strategy, g, w).

(** The file is closed and opened again, whatever changed. *)
Definition updateConfig (config : ErrorConfig) g : error_log := open_log config (g <| el_config := config |>).
Definition getConfig g : ErrorConfig := el_config g.

Definition getHealthStatus g : list (string * string) :=
  [("total_errors", to_string (getErrorCount (el_handler g))); ("warning_errors", to_string (getWarningCount (el_handler g)));
   ("critical_errors", to_string (getCriticalCount (el_handler g))); ("log_to_console", bool_text (log_to_console (el_config g)));
   ("log_to_file", bool_text (log_to_file (el_config g)))].

Definition run_log_op (s : error_log * W) (op : error_op) : error_log * W :=
  let '(g, w) := s in
  match op with
  | ELog m s c x => log_error m s c x g w
  | EHandle m s c x => let '(_, g, w) := handle_error m s c x g w in (g, w)
  | EClear => (g <| el_handler ::= clearErrors |>, w)
  end.
Definition run_log (ops : list error_op) (s : error_log * W) : error_log * W := foldl run_log_op s ops.

(** ** The log lists the errors *)

(** The lines of the errors stored, each with some timestamp. *)
Definition lists_errors (lines : list string) (es : list ErrorInfo) : Prop :=
  ∃ tss, length tss = length es ∧ lines = mjoin (zip_with entry_lines tss es).

Lemma lists_errors_snoc lines es ts e : lists_errors lines es → lists_errors (lines ++ entry_lines ts e) (es ++ [e]).
Proof.
  intros (tss & Hlen & ->). exists (tss ++ [ts]). split; [by rewrite !length_app, Hlen|].
  rewrite zip_with_app by done. rewrite join_app. cbn [zip_with mjoin list_join]. by rewrite app_nil_r.
Qed.

(** What holds while the configuration stays: the console and the file hold
    the errors stored, the file after what it held, no other file changes. *)
Record log_ok (config : ErrorConfig) (files : gmap string (list string)) g : Prop := {
  lo_config : el_config g = config;
  lo_file : el_file g = if log_to_file config && opens (log_filename config) then Some (log_filename config) else None;
  lo_console : if log_to_console config then lists_errors (el_console g) (errors_ (el_handler g)) else el_console g = [];
  lo_written : if log_to_file config && opens (log_filename config)
               then ∃ lines, el_files g !! log_filename config = Some (default [] (files !! log_filename config) ++ lines)
                             ∧ lists_errors lines (errors_ (el_handler g))
               else el_files g = files;
  lo_others : ∀ name, name ≠ log_filename config → el_files g !! name = files !! name;
}.

Lemma new_log_ok config files : log_ok config files (new_error_log config files).
Proof.
  unfold new_error_log, open_log. assert (lists_errors [] []) as Hnil by (by exists []).
  split; simpl; destruct (log_to_file config && opens (log_filename config)) eqn:Ho; simpl; try done;
    try (by destruct (log_to_console config)).
  - exists []. unfold append_lines. by rewrite lookup_insert_eq.
  - intros name Hne. unfold append_lines. by rewrite lookup_insert_ne.
Qed.

Lemma logError_stored m s c x h w : ∃ e, errors_ (logError now m s c x h w).1 = errors_ h ++ [e].
Proof. unfold logError, generateErrorId. destruct (now w) as [t w1]. destruct (now w1) as [t2 w2]. by eexists. Qed.

(** Storing an error and writing it keeps the correspondence. *)
Lemma append_lists (files fs : gmap string (list string)) name lines ts es e :
  fs !! name = Some (default [] (files !! name) ++ lines) → lists_errors lines es →
  ∃ lines', append_lines name (entry_lines ts e) fs !! name = Some (default [] (files !! name) ++ lines')
            ∧ lists_errors lines' (es ++ [e]).
Proof.
  intros Hl Hlist. exists (lines ++ entry_lines ts e). split; [|by apply lists_errors_snoc].
  unfold append_lines. rewrite lookup_insert_eq, Hl. cbn [default from_option id]. by rewrite (assoc_L (++)).
Qed.

Lemma write_entry_ok config files g h e w :
  log_ok config files g → errors_ h = errors_ (el_handler g) ++ [e] →
  log_ok config files (write_entry e (g <| el_handler := h |>) w).1.
Proof.
  intros [Hc Hf Hcon Hw Ho] He.
  assert (∀ ts, lists_errors (el_console g) (errors_ (el_handler g)) → lists_errors (el_console g ++ entry_lines ts e) (errors_ h)) as Hsnoc.
  { intros ts Hl. rewrite He. by apply lists_errors_snoc. }
  unfold write_entry, logToConsole, logToFile, formatTimestamp. simpl. rewrite Hc.
  destruct (log_to_console config) eqn:Hlc; [destruct (wall_date w) as [date w1]|]; simpl; rewrite Hf;
    (destruct (log_to_file config) eqn:Hlf; [destruct (opens (log_filename config)) eqn:Hop|]); simpl in *; rewrite ?Hc, ?Hlf;
    try (match goal with |- context [wall_date ?w] => destruct (wall_date w) as [date' w2] end); simpl;
    (split; simpl; rewrite ?Hlc, ?Hlf, ?Hop; simpl; first
      [ done
      | by apply Hsnoc
      | destruct Hw as (lines & Hl & Hlist); rewrite He; by eapply append_lists
      | intros name Hne; unfold append_lines; rewrite lookup_insert_ne by done; by apply Ho ]).
Qed.

Lemma log_error_ok config files m s c x g w : log_ok config files g → log_ok config files (log_error m s c x g w).1.
Proof.
  intros Hg. unfold log_error. destruct (logError_stored m s c x (el_handler g) w) as [e He].
  destruct (logError now m s c x (el_handler g) w) as [h w1]. simpl in He. rewrite He, last_snoc. by apply write_entry_ok.
Qed.

Lemma run_log_ok config files ops g w :
  Forall (λ op, op ≠ EClear) ops → log_ok config files g → log_ok config files (run_log ops (g, w)).1.
Proof.
  intros Hops. revert g w. induction Hops as [|op ops Hop _ IH]; intros g w Hg; [done|]. cbn [run_log foldl].
  assert (log_ok config files (run_log_op (g, w) op).1) as H1.
  { destruct op as [m s c x|m s c x|]; simpl; [by apply log_error_ok| |done]. unfold handle_error.
    pose proof (log_error_ok config files m s c x g w Hg) as H1. destruct (log_error m s c x g w) as [g1 w1].
    unfold execute_recovery. do 2 (case_decide; [by destruct (log_error _ _ _ _ g1 w1) as [g2 w2] eqn:H2;
      replace g2 with (g2, w2).1 by done; rewrite <-H2; apply log_error_ok|]). done. }
  destruct (run_log_op (g, w) op) as [g1 w1]. by apply IH.
Qed.

(** How many entries an operation makes: handling an error or a critical error
    logs the recovery too. *)
Definition entries_of (op : error_op) : nat :=
  match op with
  | ELog _ _ _ _ => 1
  | EHandle _ s _ _ => if decide (s = CRITICAL ∨ s = ERROR) then 2 else 1
  | EClear => 0
  end.

Lemma log_error_count m s c x g w :
  length (errors_ (el_handler (log_error m s c x g w).1)) = S (length (errors_ (el_handler g))).
Proof.
  unfold log_error. destruct (logError_stored m s c x (el_handler g) w) as [e He].
  destruct (logError now m s c x (el_handler g) w) as [h w1]. simpl in He. rewrite He, last_snoc.
  unfold write_entry, logToConsole, logToFile, formatTimestamp.
  assert (length (errors_ h) = S (length (errors_ (el_handler g)))) as Hlen by (rewrite He, length_app; simpl; lia).
  repeat case_match; simplify_eq/=; done.
Qed.

Lemma run_log_count ops g w :
  Forall (λ op, op ≠ EClear) ops →
  length (errors_ (el_handler (run_log ops (g, w)).1)) = length (errors_ (el_handler g)) + sum_list (entries_of <$> ops).
Proof.
  intros Hops. revert g w. induction Hops as [|op ops Hop _ IH]; intros g w; [simpl; lia|]. cbn [run_log foldl].
  assert (length (errors_ (el_handler (run_log_op (g, w) op).1)) = length (errors_ (el_handler g)) + entries_of op) as H1.
  { destruct op as [m s c x|m s c x|]; simpl; [rewrite log_error_count; lia| |done]. unfold handle_error.
    pose proof (log_error_count m s c x g w) as H1. destruct (log_error m s c x g w) as [g1 w1]. simpl in H1.
    unfold execute_recovery, determineRecoveryStrategy.
    destruct s; simpl; try lia;
      match goal with |- context [log_error ?m ?s ?c ?x g1 w1] => pose proof (log_error_count m s c x g1 w1) as H2 end;
      destruct (log_error _ _ _ _ g1 w1) as [g2 w2]; simpl in *; lia. }
  destruct (run_log_op (g, w) op) as [g1 w1]. simpl in H1. fold (run_log ops (g1, w1)). rewrite IH, H1.
  rewrite fmap_cons. simpl. lia.
Qed.

(** C39: While errors are logged and handled under one configuration, the log is
    complete: the console, if enabled, and the log file, if enabled and it
    could be opened, list every stored error exactly once and in order, those
    of the recovery included, the file after what it held before; every other
    file keeps its contents, and nothing is written that is disabled. *)
Theorem log_lists_errors config files ops w :
  Forall (λ op, op ≠ EClear) ops →
  let g := (run_log ops (new_error_log config files, w)).1 in
  let es := errors_ (el_handler g) in
  (if log_to_console config then lists_errors (el_console g) es else el_console g = [])
  ∧ (if log_to_file config && opens (log_filename config)
     then ∃ lines, el_files g !! log_filename config = Some (default [] (files !! log_filename config) ++ lines) ∧ lists_errors lines es
     else el_files g = files)
  ∧ (∀ name, name ≠ log_filename config → el_files g !! name = files !! name)
  ∧ length es = sum_list (entries_of <$> ops).
Proof.
  intros Hops. pose proof (run_log_ok config files ops _ w Hops (new_log_ok config files)) as [_ _ Hcon Hw Ho].
  pose proof (run_log_count ops (new_error_log config files) w Hops) as Hlen. cbv zeta. split_all; [done..|].
  rewrite Hlen. unfold new_error_log, open_log. by destruct (_ && _).
Qed.
End Log.

(** ** A run *)

Definition log_config : ErrorConfig := mk_ErrorConfig false true "errors.log".
Definition sample_errors : list error_op := [ELog "disk full" WARNING "db" ∅; EHandle "disk full" ERROR "db" {["file" := "x"]}].
Definition sample_log : error_log * Z :=
  run_log (λ w, (w, (w + milliseconds 5)%Z)) (λ w, ("2024-01-01 00:00:00", w))
    sample_errors (new_error_log (λ _, true) log_config {["errors.log" := ["old"]]}, 0%Z).

Example sample_log_file : el_files sample_log.1 !! "errors.log" = Some
  ["old"; "[2024-01-01 00:00:00.005] [WARNING] [db] disk full";
   "[2024-01-01 00:00:00.015] [ERROR] [db] disk full (count: 2)"; "  Context: file=x ";
   "[2024-01-01 00:00:00.025] [INFO] [ErrorHandler] Operation retry requested: disk full"].
Proof. vm_compute. reflexivity. Qed.

Lemma log_lists_errors_witness :
  length (errors_ (el_handler sample_log.1)) = 3
  ∧ el_console sample_log.1 = [].
Proof.
  assert (Forall (λ op, op ≠ EClear) sample_errors) as Hops by (repeat (apply List.Forall_cons; [discriminate|]); apply List.Forall_nil).
  destruct (log_lists_errors (λ w, (w, (w + milliseconds 5)%Z)) (λ w, ("2024-01-01 00:00:00", w)) (λ _, true)
    log_config {["errors.log" := ["old"]]} sample_errors 0%Z Hops) as (Hcon & _ & _ & Hlen).
  split; [exact Hlen|exact Hcon].
Defined.
