(* ===== verification/Drafts.v ===== *)
(** * The drafts beside the program

    The repository's root holds source files that are not compiled: texts to
    be copied into the program by hand, as their comments say.  This file models
    [src/tracker_metadata_fix.cpp] (magnet links that name public trackers),
    [src/metadata_fix.cpp] and [src/quick_dht_fix.cpp] (a metadata mode that
    first asks the DHT for peers), on top of the crawler they are drafts for.
    The theorems: the percent encoding is inverted by decoding, the magnet link
    lists the hash and the trackers, and the three phases of the metadata mode
    end.  The drafts of the session's settings are in [Settings]. *)

From S2P Require Import Prelude World HashFormat RequestQueue Downloader Numeric SmartCrawler WorkerPool ConcurrentDht Sql Cli Crawler Program.

(** ** [TrackerBasedMetadataFetcher] *)

Definition m_popular_trackers : list string := [
  "udp://tracker.opentrackr.org:1337/announce"; "udp://tracker.openbittorrent.com:6969/announce";
  "udp://open.stealth.si:80/announce"; "udp://exodus.desync.com:6969/announce";
  "udp://tracker.torrent.eu.org:451/announce"; "udp://explodie.org:6969/announce";
  "udp://tracker1.bt.moack.co.kr:80/announce"; "udp://tracker.theoks.net:6969/announce";
  "udp://opentracker.i2p.rocks:6969/announce"; "udp://tracker.internetwarriors.net:1337/announce"].

(** [std::isalnum] in the "C" locale. *)
Definition isalnum (c : ascii) : bool := in_range "0" "9" c || in_range "a" "z" c || in_range "A" "Z" c.

(** A character the loop copies; the others become a percent sign and two
    digits, [std::uppercase] hexadecimal, padded by [fill('0')] and
    [setw(2)]. *)
Definition unreserved (c : ascii) : bool := isalnum c || bool_decide (c ∈ ["-"; "_"; "."; "~"]%char).
Definition encode_char (c : ascii) : list ascii := if unreserved c then [c] else "%"%char :: (toupper <$> hex_byte c).
Definition url_encode (value : string) : string := of_chars (mjoin (encode_char <$> chars value)).

Definition add_tracker (magnet tracker : string) : string := magnet +:+ "&tr=" +:+ url_encode tracker.
Definition create_enhanced_magnet (info_hash : string) : string :=
  foldl add_tracker (magnet_link info_hash) m_popular_trackers.

(** The reference: the decoding of RFC 3986. *)
Fixpoint percent_decode (l : list ascii) : list ascii :=
  match l with
  | "%"%char :: a :: b :: l => byte_of (hex_val a * 16 + hex_val b) :: percent_decode l
  | c :: l => c :: percent_decode l
  | [] => []
  end.

Lemma hex_pair_byte c : (hex_val (toupper (hex_digit (byte_val c / 16))) * 16 + hex_val (toupper (hex_digit (byte_val c mod 16))) = byte_val c)%Z.
Proof.
  apply Z.eqb_eq, (forall_bytes (λ c, hex_val (toupper (hex_digit (byte_val c / 16))) * 16
    + hex_val (toupper (hex_digit (byte_val c mod 16))) =? byte_val c)%Z). vm_compute. reflexivity.
Qed.

Lemma decode_encode_char c l : percent_decode (encode_char c ++ l) = c :: percent_decode l.
Proof.
  unfold encode_char. destruct (unreserved c) eqn:Hc.
  - assert (c ≠ "%"%char) as Hne by (intros ->; discriminate Hc). by destruct c as [[] [] [] [] [] [] [] []].
  - cbn [hex_byte fmap list_fmap app percent_decode]. by rewrite hex_pair_byte, byte_of_val.
Qed.

Lemma decode_encode_chars l rest : percent_decode (mjoin (encode_char <$> l) ++ rest) = l ++ percent_decode rest.
Proof.
  induction l as [|c l IH]; [done|]. rewrite fmap_cons. cbn [mjoin list_join].
  rewrite <-(assoc_L (++)), decode_encode_char. cbn [app]. f_equal. exact IH.
Qed.

Lemma url_encode_decode s rest : percent_decode (chars (url_encode s) ++ rest) = chars s ++ percent_decode rest.
Proof. unfold url_encode. rewrite chars_of_chars. apply decode_encode_chars. Qed.

(** The characters of an encoded text. *)
Definition encoded_char (d : ascii) : bool := unreserved d || bool_decide (d = "%"%char).

Lemma encode_char_safe c : forallb encoded_char (encode_char c) = true.
Proof. apply (forall_bytes (λ c, forallb encoded_char (encode_char c))). vm_compute. reflexivity. Qed.

Lemma url_encode_safe s : forallb encoded_char (chars (url_encode s)) = true.
Proof.
  unfold url_encode. rewrite chars_of_chars. induction (chars s) as [|c l IH]; [done|]. rewrite fmap_cons.
  cbn [mjoin list_join]. by rewrite forallb_app, encode_char_safe.
Qed.

(** Percent encoding is inverted by decoding, whatever follows the encoded
    text and whatever bytes it holds; the encoded text holds unreserved
    characters and percent signs only; and two texts have the same encoding
    only if they are equal. *)
Theorem url_encode_roundtrip s rest :
  percent_decode (chars (url_encode s) ++ rest) = chars s ++ percent_decode rest
  ∧ forallb encoded_char (chars (url_encode s)) = true
  ∧ (∀ s', url_encode s' = url_encode s ↔ s' = s).
Proof.
  split_all; [apply url_encode_decode|apply url_encode_safe|]. intros s'. split; [|by intros ->]. intros Heq.
  pose proof (url_encode_decode s' []) as H1. rewrite Heq, url_encode_decode, !app_nil_r in H1. by apply (inj chars).
Qed.

(** ** The parameters of the link *)

Lemma encoded_no_ampersand s : "&"%char ∉ chars (url_encode s).
Proof.
  intros Hin%list_elem_of_In. pose proof (url_encode_safe s) as Hsafe. rewrite forallb_forall in Hsafe.
  specialize (Hsafe _ Hin). discriminate Hsafe.
Qed.

(** The texts between the ampersands. *)
Definition link_parts (magnet : string) : list (list ascii) := split_on "&" (chars magnet).
Definition tracker_part (tracker : string) : list ascii := chars "tr=" ++ chars (url_encode tracker).

Lemma split_on_ne_nil sep l : split_on sep l ≠ [].
Proof. destruct l as [|c l]; simpl; [done|]. case_decide; [done|]. by destruct (split_on sep l). Qed.

Lemma split_on_snoc sep l h : sep ∉ h → split_on sep (l ++ sep :: h) = split_on sep l ++ [h].
Proof.
  intros Hh. induction l as [|c l IH]; cbn [app split_on].
  - rewrite decide_True by done. by rewrite split_on_none.
  - rewrite IH. case_decide; [done|]. pose proof (split_on_ne_nil sep l). by destruct (split_on sep l).
Qed.

Lemma add_trackers_parts ts magnet : link_parts (foldl add_tracker magnet ts) = link_parts magnet ++ (tracker_part <$> ts).
Proof.
  revert magnet. induction ts as [|t ts IH]; intros magnet; [by rewrite app_nil_r|]. cbn [foldl fmap list_fmap]. rewrite IH.
  unfold add_tracker, link_parts at 1. rewrite !chars_append. cbn [app].
  change (chars "&tr=" ++ chars (url_encode t)) with ("&"%char :: tracker_part t).
  rewrite split_on_snoc, <-(assoc_L (++)); [done|]. unfold tracker_part. intros [Hin|Hin]%elem_of_app.
  - apply list_elem_of_In in Hin. cbn in Hin. repeat (destruct Hin as [Hin|Hin]; [discriminate Hin|]). done.
  - by apply (encoded_no_ampersand t).
Qed.

(** The link of a hash consists of the plain magnet link and ten parameters,
    and decoding those gives the trackers back. *)
Theorem enhanced_magnet_parts info_hash :
  hex40 info_hash →
  link_parts (create_enhanced_magnet info_hash) = chars (magnet_link info_hash) :: (tracker_part <$> m_popular_trackers)
  ∧ (λ l, of_chars (percent_decode (drop 3 l))) <$> (tracker_part <$> m_popular_trackers) = m_popular_trackers.
Proof.
  intros [_ Hx]. split; [|vm_compute; reflexivity]. unfold create_enhanced_magnet. rewrite add_trackers_parts.
  unfold link_parts. rewrite split_on_none; [done|]. unfold magnet_link. rewrite chars_append. intros [Hin|Hin]%elem_of_app.
  - apply list_elem_of_In in Hin. cbn in Hin. repeat (destruct Hin as [Hin|Hin]; [discriminate Hin|]). done.
  - rewrite forallb_forall in Hx. apply list_elem_of_In, Hx in Hin. discriminate Hin.
Qed.

Section Drafts.
Context {W H : Type} `{Session W H} `{Alerts W H} `{Database W} `{ProgramWorld W}.
Implicit Types (k : crawler H) (w : W).

(** ** The draft of [process_single_request]

    [flag_enable_dht] is [lt::torrent_flags::enable_dht]; the other flags are
    those of the program's version. *)
Section Request.
Context (flag_enable_dht : Z).

Definition configure_enhanced (p : add_torrent_params) : add_torrent_params :=
  let p := configure_params p in p <| flags ::= (λ f, Z.lor f flag_enable_dht) |>.

Definition enhanced_single_request (info_hash : string) (priority : Z) (source : string)
    (d : downloader H MetadataRequestQueue) w : bool * downloader H MetadataRequestQueue * W :=
  let hex_hash := convert_hash_to_hex info_hash in
  if decide (hex_hash = "") then (false, d, w)
  else match parse_magnet_uri (create_enhanced_magnet hex_hash) with
  | None => (false, d, w)
  | Some params =>
    let '(r, w) := add_torrent (configure_enhanced params) w in
    match r with
    | Threw _ => (false, d, w)
    | Returned handle =>
      if is_valid handle w then
        let '(now, w) := steady_now w in
        (true, d <| m_active_tracker ::= add_request info_hash now priority source handle |>, w)
      else (false, d, w)
    end
  end.

(** The draft asks the session for another link and sets one more flag;
    everything else is the program's function: with a session that parses the
    enhanced link to what it parses the plain one to, and without the extra
    flag, both do the same. *)
Lemma enhanced_single_request_agrees info_hash priority source d w :
  (∀ h, hex40 h → parse_magnet_uri (create_enhanced_magnet h) = parse_magnet_uri (magnet_link h)) →
  (∀ f, Z.lor (Z.lor f flag_seed_mode) flag_enable_dht = Z.lor f flag_seed_mode) →
  (convert_hash_to_hex info_hash ≠ "" → hex40 (convert_hash_to_hex info_hash)) →
  enhanced_single_request info_hash priority source d w = process_single_request info_hash priority source d w.
Proof.
  intros Hparse Hflag Hhex. unfold enhanced_single_request, process_single_request. case_decide; [done|].
  rewrite Hparse by auto. destruct (parse_magnet_uri _) as [p|]; [|done].
  assert (configure_enhanced p = configure_params p) as ->; [|done]. destruct p as [u s f].
  unfold configure_enhanced, configure_params. cbv. f_equal. apply Hflag.
Qed.
End Request.

(** ** The drafts of [setupMetadataOnlyMode] *)

(** [std::stoul] in base 16: a minus sign is accepted, and the value negated
    modulo [2^64]. *)
Definition stoul (base : Z) (s : string) : outcome Z :=
  match strtol base s with
  | None => Threw "stoul: no conversion"
  | Some v => if (Z.abs v <? 2 ^ 64)%Z then Returned (v mod 2 ^ 64)%Z else Threw "stoul: out of range"
  end.

(** The loop over the twenty bytes: two characters each. *)
Fixpoint hash_bytes (n i : nat) (hash : string) : outcome (list ascii) :=
  match n with
  | O => Returned []
  | S n =>
    match stoul 16 (substr (i * 2) 2 hash) with
    | Threw e => Threw e
    | Returned v =>
      match hash_bytes n (S i) hash with
      | Threw e => Threw e
      | Returned rest => Returned (byte_of v :: rest)
      end
    end
  end.

(** One hash in [metadata_fix.cpp]: both queries, and a pause of 100 ms; an
    exception skips what is left. *)
Definition discover_peers (s : crawler H * W) (hash : string) : crawler H * W :=
  let '(k, w) := s in
  if String.length hash =? 40 then
    match hash_bytes 20 0 hash with
    | Threw _ => (k, w)
    | Returned bytes =>
      match dht_get_peers (of_chars bytes) w with
      | (Threw _, w) => (k, w)
      | (Returned _, w) =>
        match dht_get_item (of_chars bytes) w with
        | (Threw _, w) => (k, w)
        | (Returned _, w) => (k <| m_total_queries ::= Z.add 2 |>, sleep_for 100 w)
        end
      end
    end
  else (k, w).

(** The part of the function that follows the loading of the hashes. *)
Definition draft_setup k w : crawler H * W :=
  foldl discover_peers (k <| m_metadata_only_mode := true |>, w) (m_metadata_hash_list k).

(** One hash in [quick_dht_fix.cpp]: [dht_get_peers] only, and 200 ms. *)
Definition quick_discover (s : crawler H * W) (hash : string) : crawler H * W :=
  let '(k, w) := s in
  if String.length hash =? 40 then
    match hash_bytes 20 0 hash with
    | Threw _ => (k, w)
    | Returned bytes =>
      match dht_get_peers (of_chars bytes) w with
      | (Threw _, w) => (k, w)
      | (Returned _, w) => (k <| m_total_queries ::= Z.succ |>, sleep_for 200 w)
      end
    end
  else (k, w).

(** The program's loop reads the bytes with [stoi]; on what it accepts, the
    drafts' loop gives the same bytes. *)
Lemma hash_bytes_agree n i s bytes : hex_pairs_to_bytes n i s = Returned bytes → hash_bytes n i s = Returned bytes.
Proof.
  revert i bytes. induction n as [|n IH]; intros i bytes; [done|]. cbn [hex_pairs_to_bytes hash_bytes].
  unfold stoi, stoul. destruct (strtol 16 _) as [v|]; [|done].
  destruct (_ && _) eqn:Hr; [|done]. apply andb_true_iff in Hr as [Hlo%Z.leb_le Hhi%Z.ltb_lt].
  rewrite Nat.add_1_r. destruct (hex_pairs_to_bytes n (S i) s) as [rest|] eqn:Hrest; [|done]. intros [= <-].
  rewrite (IH _ _ Hrest). assert ((Z.abs v <? 2 ^ 64)%Z = true) as -> by (apply Z.ltb_lt; lia).
  do 2 f_equal. unfold byte_of. change (2 ^ 64)%Z with (256 * 2 ^ 56)%Z.
  by rewrite Z.rem_mul_r, Z.mul_comm, Z_mod_plus_full, Z.mod_mod.
Qed.

(** ** The draft of the metadata mode *)

Section Mode.
Context (indeterminate : Z) (between : nat → crawler H * W → crawler H * W).

(** A waiting loop: the alerts are processed, and the loop ends when the time
    is over or [done] holds; [pause] milliseconds between two rounds. *)
Fixpoint wait_loop (limit pause : Z) (done : crawler H → bool) (fuel i : nat) (start_time : Z) k w : option (crawler H * W) :=
  match fuel with
  | O => None
  | S fuel =>
    let '(k, w) := between i (k, w) in
    if negb (keeps_crawling k) then Some (k, w)
    else
      let '(k, w) := processAlerts indeterminate k w in
      let '(now, w) := steady_now w in
      if (limit <=? duration_cast_seconds (now - start_time))%Z || done k then Some (k, w)
      else wait_loop limit pause done fuel (S i) start_time k (sleep_for pause w)
  end.

Definition discovery_timeout : Z := 30.
Definition draft_metadata_timeout : Z := 300.

(** Phase 1: half a minute for the answers of the DHT. *)
Definition phase1 (fuel : nat) k w : option (crawler H * W) :=
  let '(discovery_start, w) := steady_now w in
  wait_loop discovery_timeout 500 (λ _, false) fuel 0 discovery_start k w.

(** Phase 3: five minutes, or until everything is fetched. *)
Definition all_fetched k : bool := (int_of_Z (Z.of_nat (length (m_metadata_hash_list k))) <=? m_metadata_fetched k)%Z.
Definition phase3 (fuel i : nat) k w : option (crawler H * W) :=
  let '(metadata_start, w) := steady_now w in
  wait_loop draft_metadata_timeout 100 all_fetched fuel i metadata_start k w.

(** Phase 2, between them, requests every hash of the list. *)
Definition draft_metadata_mode (fuel : nat) k w : option (crawler H * W) :=
  '(k, w) ← phase1 fuel k w;
  let '(k, w) := request_all_hashes k w in
  '(k, w) ← phase3 fuel fuel k w;
  graceful_shutdown between (fuel + fuel) k w.

(** The wait of [quick_dht_fix.cpp] looks at the clock only: neither
    [m_running] nor [m_shutdown_requested] ends it. *)
Fixpoint quick_wait (fuel i : nat) (start : Z) k w : option (crawler H * W) :=
  match fuel with
  | O => None
  | S fuel =>
    let '(now, w) := steady_now w in
    if (duration_cast_seconds (now - start) <? 30)%Z then
      let '(k, w) := between i (processAlerts indeterminate k w) in
      quick_wait fuel (S i) start k (sleep_for 500 w)
    else Some (k, w)
  end.
Definition quick_setup (fuel : nat) k w : option (crawler H * W) :=
  let '(k, w) := foldl quick_discover (k, w) (m_metadata_hash_list k) in
  let '(start, w) := steady_now w in quick_wait fuel 0 start k w.
End Mode.
End Drafts.

(** ** The waits end *)

(** What a comparison of whole seconds says of the time. *)
Lemma elapsed_below d n : (0 ≤ n)%Z → (duration_cast_seconds d < n)%Z → (d < seconds n)%Z.
Proof.
  unfold duration_cast_seconds, seconds, nanoseconds_per_second. intros Hn Hlt. apply Z.nle_gt. intros Hge.
  pose proof (Z.quot_le_lower_bound d 1000000000 n ltac:(lia) ltac:(lia)). lia.
Qed.
Lemma elapsed_reached d n : (0 < n)%Z → (n ≤ duration_cast_seconds d)%Z → (seconds n ≤ d)%Z.
Proof.
  unfold duration_cast_seconds, seconds, nanoseconds_per_second. intros Hn Hle.
  destruct (Z.le_gt_cases 0 d) as [Hd|Hd]; [pose proof (Z.mul_quot_le d 1000000000 Hd ltac:(lia)); lia|].
  pose proof (Z.quot_le_mono d 0 1000000000 ltac:(lia) ltac:(lia)) as Hq. rewrite Z.quot_0_l in Hq; lia.
Qed.

Section Ends.
Context {W H : Type} `{MonotoneClock W H} `{!Alerts W H} `{!Database W} `{!ProgramWorld W} `{!TimePasses W H}.
Context (x : Z) (between : nat → crawler H * W → crawler H * W) (Hbetween : ∀ i s, later s.2 (between i s).2).
Implicit Types (k : crawler H) (w : W).

Lemma wait_loop_from limit pause done fuel i j start k w :
  (0 ≤ limit)%Z → (0 < pause)%Z → (1000 * limit ≤ pause * Z.of_nat (j + fuel))%Z →
  (start + milliseconds (pause * Z.of_nat j) ≤ reading w)%Z → is_Some (wait_loop x between limit pause done (S fuel) i start k w).
Proof.
  intros Hlim Hpause. revert i j k w. induction fuel as [|fuel IH]; intros i j k w Hfuel Hw; cbn [wait_loop];
    pose proof (Hbetween i (k, w)) as Hb; destruct (between i (k, w)) as [k1 w1]; simpl in Hb;
    (destruct (negb (keeps_crawling k1)); [by eexists|]);
    pose proof (later_alerts x k1 w1) as Ha; destruct (processAlerts x k1 w1) as [k2 w2]; simpl in Ha;
    destruct (steady_now_mono w2) as [Hnow Hread]; destruct (steady_now w2) as [now w3]; simpl in Hnow, Hread;
    (destruct (_ || _) eqn:Hd; [by eexists|]);
    apply orb_false_iff in Hd as [Hd%Z.leb_gt _]; apply (elapsed_below _ _ Hlim) in Hd;
    unfold later, seconds, milliseconds, nanoseconds_per_second, nanoseconds_per_ms in *; [lia|].
  apply (IH (S i) (S j)); [lia|]. pose proof (sleep_law pause w3 ltac:(lia)) as Hs.
  unfold milliseconds, nanoseconds_per_ms in *. lia.
Qed.

(** The draft's two waits end after 61 and 3001 tests of their conditions. *)
Theorem draft_waits_end k w i : is_Some (phase1 x between 61 k w) ∧ is_Some (phase3 x between 3001 i k w).
Proof.
  unfold phase1, phase3. destruct (steady_now_mono w) as [_ Hread]. destruct (steady_now w) as [start w1].
  simpl in Hread. unfold discovery_timeout, draft_metadata_timeout.
  split; (apply (wait_loop_from _ _ _ _ _ 0); [lia..|unfold milliseconds; simpl; lia]).
Qed.

(** A request to shut down ends the waits of [metadata_fix.cpp] at the next
    test; the wait of [quick_dht_fix.cpp] lasts its thirty seconds whatever
    happens meanwhile. *)
Theorem quick_wait_lasts fuel i start k w k' w' :
  quick_wait x between fuel i start k w = Some (k', w') → (start + seconds 30 ≤ reading w')%Z.
Proof.
  revert i k w. induction fuel as [|fuel IH]; intros i k w; [done|]. cbn [quick_wait].
  destruct (steady_now_mono w) as [_ Hread]. destruct (steady_now w) as [now w1]. simpl in Hread.
  destruct (_ <? _)%Z eqn:Hlt.
  - destruct (between i _) as [k2 w2]. apply IH.
  - intros [= _ <-]. apply Z.ltb_ge, elapsed_reached in Hlt; lia.
Qed.

Lemma wait_stops limit pause done fuel i start k w :
  m_shutdown_requested (between i (k, w)).1 = true →
  wait_loop x between limit pause done (S fuel) i start k w = Some (between i (k, w)).
Proof. cbn [wait_loop]. destruct (between i (k, w)) as [k1 w1]. simpl. intros Hs. unfold keeps_crawling. by rewrite Hs, andb_false_r. Qed.
End Ends.
